(* ===== verification/_CoqProject ===== *)
-Q . S2P
Prelude.v
CString.v
HashRing.v
HexDump.v
Address.v
Posix.v
RingSimulation.v
Simulator.v
Nvme.v
LogInfo.v
FaultStore.v
Server.v
ServerSpec.v
ServerProps.v
DataMover.v
ServerInv.v
ServerThreads.v
Client.v
Wrappers.v
ClientSpec.v
ClientInv.v
ClientProps.v
Transparency.v
Renumbering.v
System.v
ServerWire.v
ClientWire.v
Cluster.v
ClusterRun.v
ClusterInv.v
ClusterProps.v
Session.v
SessionServer.v
SessionInv.v
SessionCalls.v
SessionProps.v
ClientThreads.v
ClientFrames.v
ClientWaits.v
ClientShared.v
ClientThreadsProps.v
Crowd.v
CrowdPieces.v
CrowdInv.v
CrowdMembers.v
CrowdSteps.v
CrowdProps.v
Logging.v
Startup.v
Interpose.v
