(* ===== verification/Prelude.v ===== *)
(** * FT_Cache: a verification library

    FT_Cache is a node-local cache for deep-learning jobs that read their data
    from a parallel file system.  A preloaded library ([ftc_client]) intercepts
    the file calls of an application; a hash of the file's name selects one of
    the cache servers, and the library turns reads into Mercury RPCs to it.  A
    server ([ftc_server]) opens and reads the file on behalf of its clients; when
    a client closes a file, a second thread of the server, the data mover, copies
    the file to the node's NVMe, and later opens are served from the copy.  A
    client counts time-outs per server and, after three of them, goes back to the
    local file system.

    ** The parts and the files that model them

    [Prelude] (this file): machine integers, computations that return, die or
    block, [int] counters that overflow, shared lemmas and tactics.  [CString]: C strings, [char] arrays with
    indeterminate elements, and the functions of the C library on them.
    [Posix]: files, descriptors, environment and text output of one node.

    - [HashRing]: the class [HashRing] and the redistribution in
      src/tests/load_distribution_simul.cpp; [RingSimulation]: one round of its
      [main] and the report it writes; [Simulator]: the walk over the data
      directory and the whole of [main].
    - [HexDump]: [buffer_to_hex] of src/src/ftc_comm.cpp.
    - [Address]: [extract_ip_portion] of ftc_comm.cpp and the registry file
      [.ports.cfg.<job>] that servers write ([ftc_comm_list_addr], ftc_comm.cpp)
      and clients read ([ftc_client_comm_lookup_addr], ftc_comm_client.cpp).
    - [LogInfo]: [log_info_t] (ftc_comm.h), [initialize_log], [logging_info].
    - [Server]: the four RPC handlers of ftc_comm.cpp, over the record [server]
      (the descriptors and files of the node, [fd_to_path], [path_cache_map],
      [data_queue], registered bulk handles, emitted events), and the start-up.
    - [DataMover]: [ftc_data_mover_fn] of ftc_data_mover.cpp, over the same
      record; [Nvme]: the fresh directories it draws.
    - [FaultStore]: ftc_fault_client.cpp, the copies a client keeps in memory.
    - [ServerThreads]: both threads with their mutexes and condition variable, a
      step relation whose steps are the pieces of code between lock operations.
    - [Client]: ftc_client.cpp and ftc_comm_client.cpp, over the record [client]
      (the descriptors of the process, [fd_map], [fd_redir_map],
      [address_cache], [timeout_counters], pending requests, live frames).
    - [Wrappers]: the intercepted calls of wrappers.c; [Interpose]: the macros of
      ftc_internal.h that find the C library's own functions, and the twelve
      wrappers once more, calling them through the pointers.
    - [Transparency]: the calls of a whole application, and the relation
      [plain_run], the same calls without the library on a node where
      descriptors may be taken in between; [Renumbering]: the same calls with
      the descriptors of the library numbered as they are without it.
    - [ClientThreads]: the calls of many application threads of one client, cut
      at the critical sections of [timeout_mutex], with the callbacks, as a step
      relation ([tstep]); [ClientFrames]: the locals of concurrent calls, the
      history of each, and the steps that come too late ([tlate]); [ClientWaits]: what a waiting thread can count on;
      [ClientShared]: the maps and globals the calls share.
    - [Startup]: [main] and [ftc_start_comm_server] of ftc_server.cpp,
      [ftc_init_comm], [ftc_progress_fn], [ftc_shutdown_comm], the
      registration of the RPCs, the constructor and the destructor of the
      client's library with the start of its log, and the servers of a job that
      start one after the other ([job_starts]); [Logging]: ftc_logging.c and the
      macros of ftc_logging.h.
    - [Cluster]: many clients and servers and the messages between them, a step
      relation ([cstep]) whose client steps are the calls of [Client] and whose
      server steps are those of [ServerThreads]; [nstep] adds the steps that come
      too late.  [ServerWire] and [ClientWire]
      say what each side promises to the other, [ClusterInv] is the invariant,
      [ClusterRun] an executable scheduler, sound for the relation.
    - [Crowd]: a cluster whose clients have many threads that open, read and
      close files, a step relation ([wstep]; with late steps, [wnstep]) whose client steps are the pieces of
      [ClientThreads], with the system calls of the wrappers, and whose other
      steps are those of [Cluster].  [CrowdPieces] says what each piece changes,
      [CrowdInv] has the invariant of the threads and relates it to that of the
      cluster, [CrowdMembers] says what a step of a thread has to show and
      [CrowdSteps] shows it for every rule, [CrowdProps] has the theorem.
    - [Session]: applications that also read sequentially and seek, and the
      servers they share, a step relation ([sstep]) whose steps are whole calls,
      from the client through a server and back ([exchange]), and rounds of the
      data movers.  [SessionServer] says what the server keeps about a
      descriptor between requests, [SessionInv] relates it to the offset the
      application would have on its own node, [SessionCalls] goes through the
      calls and [SessionProps] has the theorem.

    A definition has the name of the function it models.  A handler that holds a
    lock for part of its body is cut into pieces at the lock operations
    ([close_begin], [close_check], [close_push], [close_finish]); the whole
    handler is their composition, and the thread model interleaves the pieces.

    ** What the theorems show

    - Cluster ([ClusterProps]): as long as nothing comes too late, whatever the
      interleaving, the reads and closes that get lost and the servers that fail,
      every call returns what it returns without the library
      ([cluster_transparent]), and no request in flight can bring a live server
      down ([cluster_requests_typed]).
    - Sessions ([SessionProps]): where every request is served and answered in
      time and every number fits its field, any sequence of opens, sequential and
      positioned reads, seeks and closes of any number of applications returns
      what it returns without the library, although the offset of a file is then
      on a server ([session_transparent]).
    - Crowds ([CrowdProps]): when many threads of many applications open, read
      at offsets and close at the same time, in any interleaving in which nothing
      comes too late, the results of the calls of an application are those of the
      same calls made one after the other without the library, in the order in
      which they took effect (an open with its system call, a read when it
      returns, a close at once), and no thread is stuck ([crowd_transparent]).
    - The numbers of the descriptors are all that a reading application sees of
      the library ([library_renumbers]).
    - Threads of a client ([ClientThreadsProps]): how far a counter can pass the
      limit ([threads_timeouts_bounded]), the isolation of reads as long as
      nothing comes too late ([reads_isolated]), the end of every wait with a deadline ([waits_end]), the
      calls of [Client] as schedules ([calls_are_schedules]), and when the
      unlocked maps are not written ([warm_threads_share_nothing]).
    - End to end ([System]): an application that opens a tracked file and reads
      from it gets the bytes of the file, with the client's requests handled by
      the server's handlers and the server's answers delivered to the client.
    - Server ([ServerSpec], [ServerProps]): the handlers refine pure
      specifications ([open_spec], [read_spec], [seek_spec], [close_spec]);
      positioned and sequential reads deliver the right slice of the file; what a
      read allocates, it frees; an open and a close queue the file for the mover.
    - Cache ([DataMover], [ServerInv], [ServerThreads]): under every
      interleaving, a cache entry leads to a copy with the bytes of its file, so
      a read from the cache is a read of the file; no deadlock, no lost wake-up,
      mutual exclusion; the mover empties its queue in a bounded number of steps.
    - Client ([ClientSpec], [ClientInv], [ClientProps], [Transparency]): a whole
      application of opens, positioned reads and closes gets the same results
      with the library and without, whether the servers answer in time or not at
      all ([run_transparent]); no server costs a process more than three time-outs; a server
      that was given up gets no reads, opens or closes.  [ClientInv] has the
      class [Stable] of invariants that survive the RPC layer.
    - Start-up, logging, interposition: the order in which a server comes up and
      the agreement of the RPC ids ([server_started]), the end of the progress
      thread ([progress_thread_stops]), what log4c is told
      ([logging_configured]), the log's own calls, which pass the library by as
      long as log4c reads its own files only ([log_not_redirected]), and that
      the wrappers with their pointers do what those of [Wrappers] do and call
      their own originals, unless a server has answered ([calls_reach_libc]).
    - Fault store: what was stored for a node is what is written for it, when
      the update of the servers is called, whatever that function does.
    - Addresses, log and hex dump: functional correctness inside the bounds of
      the character arrays, the registry's round trip, and which of several
      starts a client finds ([first_start_is_found]).
    - Hash ring: the successor rule; for a server that shares no position with
      another one, minimal disruption and the exactness of the redistribution
      after its failure; and the simulator's report ([simulator_report]).
    - The errors of the code are theorems as well: [read_failure_kills_server],
      [late_answer_is_undefined], [stale_descriptor],
      [lost_open_wrong_bytes], [concurrent_seeks_hang], [long_path_open_is_undefined],
      [client_init_without_count], [replica_collision],
      [fault_store_never_freed], and the parts of [logging_configured],
      [seek_answer], [read_remote_or_local], [failed_host_skipped] and
      [read_resources] that say what goes wrong.

    ** Assumptions and bounds

    - Mercury is not part of the repository.  What it returns to a handler (the
      decoded input, the peer's address, the results of bulk operations) is the
      record [Server.hg_call], what it returns to a client and what happens while
      the client waits is [Client.cl_env].  [call_ok], [env_ok], [honest],
      [answered] and [silent] name the documented behaviour a theorem uses; each
      such theorem has a witness with concrete values.
    - [std::hash] is a function argument; no property of it is assumed, except
      the absence of collisions where the statement says so.
    - Integers are [Z]; each conversion to a width is written out ([i32], [u32],
      [i64], [u64]).  A read transfers at most [MAX_RW_COUNT] bytes.
    - Loops recurse on the list, string or range they consume; the waits of the
      client on the list of wakes, which ends with the deadline ([ends]) where a
      theorem needs the call to return.  Two definitions take fuel:
      [CString.dec_digits], one unit per binary digit ([dec_fuel_enough]), and
      [Address.scan_ports], one unit per character of the file, where every
      round consumes one ([scan_ports_file]).
    - The request log and log4c's files are written with the redirection of
      [Client] and [Wrappers] in the state it has; the directory of the request
      log is taken to lie outside the data directory, so that these opens are
      not tracked.
    - Too late is, first, an open of a server that lives whose deadline passes
      before its answer: the library then reads and closes descriptor 0 of the
      server ([lost_open_wrong_bytes]).  Too late are, second, bytes or an answer
      that come when the wait of their call is over: they go to a buffer that is
      the application's again, or to a stack frame that is gone
      ([late_answer_is_undefined]).  Both are steps of [nstep] and [wnstep], the
      second of [tlate]: the first with the effect it has, the second with any
      process state after it, because it is undefined.  They raise a flag, and
      the theorems on clusters, crowds and [reads_isolated] are about the states
      reached before the flag is up.
    - Every call has a frame of its own, with a number that is never used again.
      In the code the locals of later calls have the addresses of earlier ones.
      Until something comes too late the model and the code agree, for nobody
      follows a pointer to a frame of a call that has returned; the step that
      does so is the late one, whose outcome is left open.
    - The look-up of a host opens the registry and never closes the stream, so
      it takes a descriptor of the process ([leave_stream], [taken_fds]).  Later
      opens therefore get other numbers than without the library, and the plain
      runs to which the theorems compare are runs on a node where descriptors are
      taken between the calls ([plain_run], [app_run]); [library_renumbers] shows
      that the numbers are all that changes.  The descriptors that Mercury and
      log4c take for themselves are not counted; for a plain run they would be
      more of the same.
    - In a cluster, servers fail by stopping and never come back; a call takes
      effect when it returns; clients and servers have the same files under the
      same paths, as on a shared file system.
    - In a crowd a program reads only from descriptors whose open has returned
      and closes a descriptor only when none of its threads is busy with it.  An
      open is a system call, the entry in [fd_map] with the start of Mercury, the
      test of the counter, the sending and the wait, each a step of its own; a
      close is one step.
    - In a session a call is one step: a sequential read depends on the offset,
      and after a time-out the library itself gives wrong bytes
      ([read_remote_or_local]), so every request of the session, not only that of
      the call in question, is served and answered in time.  Counts, offsets and
      the positions of a seek fit the 32 bits of the requests ([fits]).
    - In a client with many threads an access to a [std::map] is one step,
      although the code has no lock for it, and so is each critical section.
      [Startup.ftc_progress_fn] consumes a list of what [HG_Trigger] returns.
    - The name [mkdtemp] draws is a name that does not exist, or the call fails.
    - A failed system call is a result; behaviour that C++ leaves undefined, a
      failed [assert] and an [exit] end the process ([Dies]); a wait that nobody
      ends is [Blocked].

    ** What is not modelled

    [ftc_comm_get_class] and [ftc_comm_get_context], which return a pointer, log4c
    itself, Mercury itself, the wrappers that are not compiled, the driver
    basic_test.c, and generated files.  Messages of the library to log4c are left
    out of the calls that make them; [Logging] has what one message does.

    A server that starts again has a new line at the end of the registry, and
    clients go on using the first one ([first_start_is_found]); among running
    clients it is a server that has failed for good, which a cluster has.

    ** Extensions in view

    - Sequential reads and seeks in a cluster and in a crowd, up to the first
      time-out: after it the library itself gives wrong bytes
      ([read_remote_or_local]), and two threads that seek at the same time can
      hang ([concurrent_seeks_hang]). *)

From stdpp Require Export base tactics numbers list strings fin_maps gmap.
From Stdlib Require Export ZArith Lia.
From Stdlib Require Ascii.

#[global] Open Scope Z_scope.

(** ** Machine integers

    The program mixes [int32_t], [uint32_t], [ssize_t], [size_t] and [off_t].
    An integer of the model is a [Z]; a conversion to a width is written out. *)

Definition u32 (z : Z) : Z := z mod 2 ^ 32.
Definition u64 (z : Z) : Z := z mod 2 ^ 64.
Definition i32 (z : Z) : Z := (z + 2 ^ 31) mod 2 ^ 32 - 2 ^ 31.
Definition i64 (z : Z) : Z := (z + 2 ^ 63) mod 2 ^ 64 - 2 ^ 63.

Arguments u32 z : simpl never.
Arguments u64 z : simpl never.
Arguments i32 z : simpl never.
Arguments i64 z : simpl never.

(** The largest [int]. *)
Abbreviation INT_MAX := (2 ^ 31 - 1).

Definition in_i32 (z : Z) : Prop := - 2 ^ 31 <= z < 2 ^ 31.
Definition in_i64 (z : Z) : Prop := - 2 ^ 63 <= z < 2 ^ 63.

(** ** Effects

    A C++ function of the program is a computation over the state [S] of its
    process.  It returns normally, or the process dies (a failed [assert], an
    uncaught exception, an [exit], or behaviour the language leaves undefined), or the calling thread
    blocks for ever on a condition variable. *)

Inductive fault : Type :=
  | AssertFailed
  | UndefinedBehaviour
  | Uncaught                           (* an exception *)
  | Exited (code : Z).

Inductive outcome (S A : Type) : Type :=
  | Ret (a : A) (s : S)
  | Dies (why : fault) (s : S)
  | Blocked (s : S).
Arguments Ret {S A} a s.
Arguments Dies {S A} why s.
Arguments Blocked {S A} s.

Definition M (S A : Type) : Type := S -> outcome S A.

#[export] Instance M_ret (S : Type) : MRet (M S) := fun A a s => Ret a s.
#[export] Instance M_bind (S : Type) : MBind (M S) := fun A B k m s =>
  match m s with
  | Ret a s' => k a s'
  | Dies w s' => Dies w s'
  | Blocked s' => Blocked s'
  end.

Definition get {S} : M S S := fun s => Ret s s.
Definition gets {S A} (f : S -> A) : M S A := fun s => Ret (f s) s.
Definition modify {S} (f : S -> S) : M S unit := fun s => Ret tt (f s).
Definition die {S A} (w : fault) : M S A := fun s => Dies w s.
Definition block {S A} : M S A := fun s => Blocked s.

(** A function that changes no state of the process: a value, or the way the
    process ends. *)
Definition result (A : Type) : Type := (fault + A)%type.
#[export] Instance result_ret : MRet result := fun A => inr.
#[export] Instance result_bind : MBind result := fun A B k m =>
  match m with inl w => inl w | inr a => k a end.

Definition or_else {A} (w : fault) (o : option A) : result A :=
  match o with Some a => inr a | None => inl w end.
Definition of_result {S A} (r : result A) : M S A := fun s =>
  match r with inr a => Ret a s | inl w => Dies w s end.

(** [n++] on an [int]. *)
Definition incr (n : Z) : result Z := if n =? INT_MAX then inl UndefinedBehaviour else inr (n + 1).

(** [assert(b)] of a debug build, and the use of a value that may be
    indeterminate. *)
Definition assertM {S} (b : bool) : M S unit :=
  if b then mret tt else die AssertFailed.
Definition defined {S A} (o : option A) : M S A :=
  match o with Some a => mret a | None => die UndefinedBehaviour end.

Declare Scope ftc_scope.
Delimit Scope ftc_scope with ftc.
Notation "'let*' x ':=' m 'in' k" := (mbind (fun x => k) m)
  (at level 10, x pattern, m at level 100, k at level 200,
   format "'[v' 'let*'  x  ':='  m  'in' '/' k ']'") : ftc_scope.
#[global] Open Scope ftc_scope.

(** Partial correctness: every normal return from a [P]-state satisfies [Q]. *)
Definition triple {S A} (P : S -> Prop) (m : M S A) (Q : A -> S -> Prop) : Prop :=
  forall s a s', P s -> m s = Ret a s' -> Q a s'.

(** [m] leaves [I] true whenever it returns. *)
Definition preserves {S A} (I : S -> Prop) (m : M S A) : Prop :=
  triple I m (fun _ => I).

(** ** Lemmas about computations *)

Lemma bind_Ret {S A B} (m : M S A) (k : A -> M S B) s a s' :
  m s = Ret a s' -> (m ≫= k) s = k a s'.
Proof. intros H. unfold mbind, M_bind. by rewrite H. Qed.

Lemma bind_Dies {S A B} (m : M S A) (k : A -> M S B) s w s' :
  m s = Dies w s' -> (m ≫= k) s = Dies w s'.
Proof. intros H. unfold mbind, M_bind. by rewrite H. Qed.

Lemma bind_Blocked {S A B} (m : M S A) (k : A -> M S B) s s' :
  m s = Blocked s' -> (m ≫= k) s = Blocked s'.
Proof. intros H. unfold mbind, M_bind. by rewrite H. Qed.

Lemma bind_inv {S A B} (m : M S A) (k : A -> M S B) s b s'' :
  (m ≫= k) s = Ret b s'' -> exists a s', m s = Ret a s' /\ k a s' = Ret b s''.
Proof. unfold mbind, M_bind. destruct (m s); naive_solver. Qed.

Lemma bind_inr {A B} (m : result A) (k : A -> result B) b :
  m ≫= k = inr b <-> exists a, m = inr a /\ k a = inr b.
Proof. destruct m as [w|a]; cbn; [split; [done|by intros (? & ? & _)]|naive_solver]. Qed.

Lemma or_else_inr {A} w (o : option A) a : or_else w o = inr a <-> o = Some a.
Proof. destruct o; naive_solver. Qed.

Lemma incr_inr n m : incr n = inr m <-> n <> INT_MAX /\ m = n + 1.
Proof. unfold incr. destruct (Z.eqb_spec n INT_MAX); naive_solver. Qed.

(** Computations are the same when they do the same in every state. *)
Variant same {S A} (m m' : M S A) : Prop := Same (Hsame : forall s, m s = m' s).
#[export] Instance M_equiv S A : Equiv (M S A) := same.

Lemma equiv_run {S A} (m m' : M S A) s : m ≡ m' -> m s = m' s.
Proof. by intros []. Qed.

#[export] Instance M_equivalence S A : Equivalence (≡@{M S A}).
Proof. split; [by intros m|by intros m m' [H]|intros m1 m2 m3 [H1] [H2]; split; intros s; by rewrite H1]. Qed.

#[export] Instance bind_proper S A B :
  Proper (pointwise_relation A (≡) ==> (≡) ==> (≡)) (mbind (M := M S) (A := A) (B := B)).
Proof.
  intros k k' Hk m m' [Hm]. split. intros s. unfold mbind, M_bind. rewrite Hm.
  destruct (m' s); [apply equiv_run, Hk|done..].
Qed.

Lemma bind_assoc {S A B C} (m : M S A) (k : A -> M S B) (l : B -> M S C) :
  (m ≫= k) ≫= l ≡ m ≫= (fun a => k a ≫= l).
Proof. split. intros s. unfold mbind, M_bind. by destruct (m s). Qed.

Lemma ret_bind {S A B} (a : A) (k : A -> M S B) : mret a ≫= k ≡ k a.
Proof. by split. Qed.

Lemma triple_bind {S A B} (P : S -> Prop) (m : M S A) (R : A -> S -> Prop)
    (k : A -> M S B) (Q : B -> S -> Prop) :
  triple P m R -> (forall a, triple (R a) (k a) Q) -> triple P (m ≫= k) Q.
Proof.
  intros Hm Hk s b s'' HP H. apply bind_inv in H as (a & s' & H1 & H2).
  eapply Hk; eauto.
Qed.

Lemma triple_conseq {S A} (P P' : S -> Prop) (m : M S A) (Q Q' : A -> S -> Prop) :
  triple P m Q -> (forall s, P' s -> P s) -> (forall a s, Q a s -> Q' a s) ->
  triple P' m Q'.
Proof. unfold triple. eauto. Qed.

Section Preserves.
Context {S : Type} (I : S -> Prop).

Lemma preserves_bind {A B} (m : M S A) (k : A -> M S B) :
  preserves I m -> (forall a, preserves I (k a)) -> preserves I (m ≫= k).
Proof. intros. eapply triple_bind; eauto. Qed.

Lemma preserves_ret {A} (a : A) : preserves I (mret a).
Proof. intros s a' s' HI [= -> ->]; done. Qed.

Lemma preserves_gets {A} (f : S -> A) : preserves I (gets f).
Proof. intros s a' s' HI [= <- <-]; done. Qed.

Lemma preserves_die {A} w : preserves I (die (A := A) w).
Proof. intros s a' s' HI [=]. Qed.

Lemma preserves_block {A} : preserves I (block (A := A)).
Proof. intros s a' s' HI [=]. Qed.

Lemma preserves_modify (f : S -> S) : (forall s, I s -> I (f s)) -> preserves I (modify f).
Proof. intros Hf s a' s' HI [= <- <-]; auto. Qed.

Lemma preserves_assertM b : preserves I (assertM b).
Proof. destruct b; [apply preserves_ret | apply preserves_die]. Qed.

Lemma preserves_defined {A} (o : option A) : preserves I (defined o).
Proof. destruct o; [apply preserves_ret | apply preserves_die]. Qed.

Lemma preserves_if {A} (b : bool) (m1 m2 : M S A) :
  preserves I m1 -> preserves I m2 -> preserves I (if b then m1 else m2).
Proof. by destruct b. Qed.

End Preserves.

(** The hints that carry [preserves] through the structure of a computation;
    a component adds the lemmas of its own operations. *)
Create HintDb ftc discriminated.
#[export] Hint Resolve preserves_bind preserves_ret preserves_gets preserves_die
  preserves_block preserves_assertM preserves_defined preserves_if : ftc.

(** Rewriting facts used by [autorewrite with ftc]. *)
Create Rewrite HintDb ftcr.

(** ** Automation *)

(** Peel the leading effect of [(m ≫= k) s] in the goal with the equation of [m]. *)
Ltac step_with E := erewrite bind_Ret; [ | by eapply E ]; cbv beta.

(** Evaluate the administrative part of a computation. *)
Ltac mred :=
  cbv beta iota delta [mbind mret M_bind M_ret get gets modify die block assertM defined].
Ltac mred_in H :=
  cbv beta iota delta [mbind mret M_bind M_ret get gets modify die block assertM defined] in H.

(** Split the outcome of the innermost conditional of the goal or a hypothesis. *)
Ltac case_if :=
  match goal with
  | |- context [if ?b then _ else _] => let E := fresh "E" in destruct b eqn:E
  | H : context [if ?b then _ else _] |- _ => let E := fresh "E" in destruct b eqn:E
  end.

(** Turn boolean comparisons on [Z] into propositions. *)
Ltac zbool :=
  repeat match goal with
  | H : (_ =? _) = true |- _ => apply Z.eqb_eq in H
  | H : (_ =? _) = false |- _ => apply Z.eqb_neq in H
  | H : (_ <? _) = true |- _ => apply Z.ltb_lt in H
  | H : (_ <? _) = false |- _ => apply Z.ltb_ge in H
  | H : (_ <=? _) = true |- _ => apply Z.leb_le in H
  | H : (_ <=? _) = false |- _ => apply Z.leb_gt in H
  | H : negb _ = true |- _ => apply negb_true_iff in H
  | H : negb _ = false |- _ => apply negb_false_iff in H
  | H : (_ && _) = true |- _ => apply andb_true_iff in H as [? ?]
  | H : (_ || _) = false |- _ => apply orb_false_iff in H as [? ?]
  end.

(** ** Machine integers: lemmas *)

Lemma i32_range z : in_i32 (i32 z).
Proof.
  unfold in_i32, i32. pose proof (Z.mod_pos_bound (z + 2 ^ 31) (2 ^ 32) eq_refl).
  change (2 ^ 32) with (2 * 2 ^ 31) in *. lia.
Qed.

Lemma i32_id z : in_i32 z -> i32 z = z.
Proof.
  unfold in_i32, i32. intros H. rewrite Z.mod_small; [lia|].
  change (2 ^ 32) with (2 * 2 ^ 31). lia.
Qed.

Lemma u64_range z : 0 <= u64 z < 2 ^ 64.
Proof. by apply Z.mod_pos_bound. Qed.

Lemma u64_id z : 0 <= z < 2 ^ 64 -> u64 z = z.
Proof. apply Z.mod_small. Qed.

Lemma u64_neg z : - 2 ^ 63 <= z < 0 -> u64 z = z + 2 ^ 64.
Proof.
  intros H. unfold u64. rewrite <- (Z.mod_small (z + 2 ^ 64) (2 ^ 64)) by lia.
  by rewrite Z.add_mod, Z.mod_same, Z.add_0_r, Z.mod_mod by lia.
Qed.

Lemma u32_range z : 0 <= u32 z < 2 ^ 32.
Proof. by apply Z.mod_pos_bound. Qed.

Lemma u32_id z : 0 <= z < 2 ^ 32 -> u32 z = z.
Proof. apply Z.mod_small. Qed.

#[export] Hint Rewrite i32_id u64_id u32_id using (unfold in_i32 in *; lia) : ftcr.

(** ** Lists *)

Lemma take_app_exact {A} (l k : list A) n : n = length l -> take n (l ++ k) = l.
Proof. intros ->. apply take_app_length. Qed.

Lemma drop_app_exact {A} (l k : list A) n : n = length l -> drop n (l ++ k) = k.
Proof. intros ->. apply drop_app_length. Qed.

(** Two lists cut at the first occurrence of a separator. *)
Lemma app_sep_inj {A} (c : A) a b x y :
  c ∉ a -> c ∉ b -> a ++ c :: x = b ++ c :: y -> a = b /\ x = y.
Proof.
  revert b. induction a as [|d a IH]; intros [|e b] Ha Hb H; cbn [app] in H; injection H.
  - by intros ->.
  - intros _ ->. by destruct Hb; left.
  - intros _ <-. by destruct Ha; left.
  - apply not_elem_of_cons in Ha as [_ Ha]. apply not_elem_of_cons in Hb as [_ Hb].
    intros H' ->. by destruct (IH b Ha Hb H') as [-> ->].
Qed.
