(* ===== verification/CString.v ===== *)
(** * C strings and character buffers

    The part of <string.h>, <stdio.h> and <stdlib.h> the program uses on
    text: NUL-terminated strings, [char] arrays with indeterminate elements,
    [strncpy], [snprintf], [strchr], [strstr]/[std::string::find], the [%d]
    conversion and its inverse in [atoi]/[fscanf].

    A C string is the list of its characters before the NUL.  A [char] array
    is a list of elements that may still be indeterminate ([None]). *)

From S2P Require Import Prelude.
From Stdlib Require Export Ascii.

Abbreviation cstring := (list ascii).
Abbreviation cbuf := (list (option ascii)).

Definition nul : ascii := zero.
Definition eqc (c d : ascii) : bool := Ascii.eqb c d.
Arguments eqc c d : simpl never.
Definition no_nul (s : cstring) : Prop := nul ∉ s.

Definition of_string (s : string) : cstring := String.list_ascii_of_string s.
Definition to_string (s : cstring) : string := String.string_of_list_ascii s.

(** A local array, and one with static storage. *)
Definition uninit (n : nat) : cbuf := replicate n None.
Definition zeroed (n : nat) : cbuf := replicate n (Some nul).

(** Read an array as a string ([%s], [strcmp], ...): undefined when an
    indeterminate element or the end of the array comes before the NUL. *)
Fixpoint cstr (b : cbuf) : option cstring :=
  match b with
  | [] => None
  | None :: _ => None
  | Some c :: b' => if eqc c nul then Some [] else cons c <$> cstr b'
  end.

(** [strncpy(dst, src, n)]: copies, then pads with NULs up to [n]. *)
Definition strncpy (dst : cbuf) (src : cstring) (n : nat) : cbuf :=
  (Some <$> take n src) ++ replicate (n - length src) (Some nul) ++ drop n dst.

(** [dst[i] = c]. *)
Definition poke (dst : cbuf) (i : nat) (c : ascii) : cbuf := <[i := Some c]> dst.

(** [snprintf(dst, size, ...)] for the expanded text [s]. *)
Definition snprintf (dst : cbuf) (size : nat) (s : cstring) : cbuf :=
  match size with
  | O => dst
  | S k => (Some <$> take k s) ++ Some nul :: drop (S (length (take k s))) dst
  end.

(** [strchr]: the index of the first occurrence. *)
Fixpoint strchr (s : cstring) (c : ascii) : option nat :=
  match s with
  | [] => None
  | d :: s' => if eqc d c then Some O else S <$> strchr s' c
  end.

Fixpoint is_prefix (p s : cstring) : bool :=
  match p, s with
  | [], _ => true
  | c :: p', d :: s' => eqc c d && is_prefix p' s'
  | _ :: _, [] => false
  end.

(** [strstr(hay, needle)] and [hay.find(needle)]. *)
Fixpoint find_sub (needle hay : cstring) : option nat :=
  if is_prefix needle hay then Some O
  else match hay with
       | [] => None
       | _ :: hay' => S <$> find_sub needle hay'
       end.

(** ** Decimal conversions *)

Definition digit (d : Z) : ascii := ascii_of_N (Z.to_N (48 + d)).
Definition digit_val (c : ascii) : option Z :=
  let z := Z.of_N (N_of_ascii c) in
  if (48 <=? z) && (z <=? 57) then Some (z - 48) else None.

Fixpoint dec_digits (fuel : nat) (z : Z) (acc : cstring) : cstring :=
  match fuel with
  | O => acc
  | S k => if z <? 10 then digit z :: acc
           else dec_digits k (z / 10) (digit (z mod 10) :: acc)
  end.

(** Enough fuel for [dec_digits]: one unit per binary digit. *)
Definition dec_fuel (z : Z) : nat := S (Z.to_nat (Z.log2 z)).

Definition print_nat (z : Z) : cstring := dec_digits (dec_fuel z) z [].

(** [%d]. *)
Definition print_int (z : Z) : cstring :=
  if z <? 0 then "-"%char :: print_nat (- z) else print_nat z.

(** [isspace] in the "C" locale. *)
Definition is_space (c : ascii) : bool :=
  let z := Z.of_N (N_of_ascii c) in (z =? 32) || ((9 <=? z) && (z <=? 13)).

Fixpoint skip_space (s : cstring) : cstring :=
  match s with
  | c :: s' => if is_space c then skip_space s' else s
  | [] => []
  end.

(** The longest run of digits, accumulated from [v]; [n] counts them. *)
Fixpoint scan_digits (v : Z) (n : nat) (s : cstring) : Z * nat * cstring :=
  match s with
  | c :: s' =>
      match digit_val c with
      | Some d => scan_digits (10 * v + d) (S n) s'
      | None => (v, n, s)
      end
  | [] => (v, n, [])
  end.

Definition scan_sign (s : cstring) : bool * cstring :=
  match s with
  | c :: s' => if eqc c "-"%char then (true, s')
               else if eqc c "+"%char then (false, s') else (false, s)
  | [] => (false, [])
  end.

(** Both [atoi] and [%d] convert with [strtol], which saturates, and then
    narrow the [long] to an [int]. *)
Definition to_long (v : Z) : Z := Z.max (- 2 ^ 63) (Z.min (2 ^ 63 - 1) v).

(** The [%d] directive of [fscanf]: the number and the input that is left, or
    a matching failure. *)
Definition scan_int (s : cstring) : option (Z * cstring) :=
  let '(neg, s1) := scan_sign (skip_space s) in
  let '(v, n, s2) := scan_digits 0 0 s1 in
  match n with
  | O => None
  | S _ => Some (i32 (to_long (if neg then - v else v)), s2)
  end.

(** [atoi]: 0 when there is no number. *)
Definition atoi (s : cstring) : Z :=
  match scan_int s with Some (v, _) => v | None => 0 end.

(** The [%s] directive of [fscanf]: the longest run of non-space characters
    after white space; [None] when it is empty. *)
Fixpoint scan_run (s : cstring) : cstring * cstring :=
  match s with
  | c :: s' => if is_space c then ([], s)
               else let '(r, rest) := scan_run s' in (c :: r, rest)
  | [] => ([], [])
  end.

Definition scan_str (s : cstring) : option (cstring * cstring) :=
  match scan_run (skip_space s) with
  | ([], _) => None
  | (r, rest) => Some (r, rest)
  end.

(** glibc prints a null pointer given to [%s] as "(null)". *)
Definition printf_s (o : option cstring) : cstring :=
  default (of_string "(null)") o.

(** ** Lemmas: strings and buffers *)

Lemma eqc_true c d : eqc c d = true <-> c = d.
Proof. apply Ascii.eqb_eq. Qed.

Lemma eqc_refl c : eqc c c = true.
Proof. by apply eqc_true. Qed.

Lemma eqc_ne c d : c <> d -> eqc c d = false.
Proof. apply Ascii.eqb_neq. Qed.

#[export] Hint Rewrite eqc_refl : ftcr.
#[export] Hint Rewrite eqc_ne using (first [done | congruence]) : ftcr.

Lemma to_of_string (s : string) : to_string (of_string s) = s.
Proof. apply String.string_of_list_ascii_of_string. Qed.

Lemma of_to_string (s : cstring) : of_string (to_string s) = s.
Proof. apply String.list_ascii_of_string_of_list_ascii. Qed.

Lemma of_string_append a b : of_string (String.append a b) = of_string a ++ of_string b.
Proof. induction a as [|c a IH]; [done|].
  change (c :: of_string (String.append a b) = c :: (of_string a ++ of_string b)). by rewrite IH.
Qed.

Lemma of_string_inj a b : of_string a = of_string b -> a = b.
Proof. intros H. rewrite <- (to_of_string a), <- (to_of_string b). by rewrite H. Qed.

Lemma no_nul_cons c s : no_nul (c :: s) <-> c <> nul /\ no_nul s.
Proof. unfold no_nul. rewrite not_elem_of_cons. by split; intros [? ?]. Qed.

Lemma no_nul_app s t : no_nul (s ++ t) <-> no_nul s /\ no_nul t.
Proof. unfold no_nul. rewrite not_elem_of_app. done. Qed.

Lemma no_nul_take n s : no_nul s -> no_nul (take n s).
Proof.
  unfold no_nul. intros H (i & Hi & _)%elem_of_take. by apply H, (list_elem_of_lookup_2 _ i).
Qed.

Lemma cstr_terminated (s : cstring) (rest : cbuf) :
  no_nul s -> cstr ((Some <$> s) ++ Some nul :: rest) = Some s.
Proof.
  induction s as [|c s IH]; intros H; [done|].
  rewrite fmap_cons. cbn [app cstr].
  apply no_nul_cons in H as [Hc Hs]. rewrite eqc_ne by done. by rewrite IH.
Qed.

Lemma cstr_no_nul (b : cbuf) s : cstr b = Some s -> no_nul s.
Proof.
  revert s. induction b as [|[c|] b IH]; intros s H; simplify_eq/=.
  destruct (eqc c nul) eqn:E; simplify_eq/=.
  - apply not_elem_of_nil.
  - apply fmap_Some in H as (t & Ht & ->). apply no_nul_cons. split; [|eauto].
    intros ->. by rewrite eqc_refl in E.
Qed.

Lemma cstr_unterminated (s : cstring) : no_nul s -> cstr (Some <$> s) = None.
Proof.
  induction s as [|c s IH]; intros H; [done|]. rewrite fmap_cons. cbn [cstr].
  apply no_nul_cons in H as [Hc Hs]. rewrite eqc_ne by done. by rewrite IH.
Qed.

Lemma length_strncpy dst src n : (n <= length dst)%nat -> length (strncpy dst src n) = length dst.
Proof.
  intros H. unfold strncpy.
  rewrite !length_app, length_fmap, length_take, length_replicate, length_drop. lia.
Qed.

Lemma length_poke dst i c : length (poke dst i c) = length dst.
Proof. apply length_insert. Qed.

Lemma length_snprintf dst size s :
  (size <= length dst)%nat -> length (snprintf dst size s) = length dst.
Proof.
  destruct size as [|k]; simpl; intros H; [done|].
  rewrite length_app, length_fmap, length_cons, length_drop.
  pose proof (length_take_le s k) as Hl. rewrite length_take in *. lia.
Qed.

Lemma cstr_strncpy dst src n :
  no_nul src -> (length src < n)%nat -> cstr (strncpy dst src n) = Some src.
Proof.
  intros H Hn. unfold strncpy. rewrite take_ge by lia.
  replace (n - length src)%nat with (S (n - length src - 1)) by lia. simpl.
  by apply cstr_terminated.
Qed.

(** The idiom [strncpy(b, s, sizeof(b) - 1); b[sizeof(b) - 1] = 0]. *)
Lemma strncpy_poke_shape dst src k : (k < length dst)%nat ->
  exists rest, poke (strncpy dst src k) k nul = (Some <$> take k src) ++ Some nul :: rest.
Proof.
  intros Hk. unfold poke, strncpy.
  assert (Hd : exists x d, drop k dst = x :: d).
  { destruct (drop k dst) as [|x d] eqn:E; [|by eauto].
    apply (f_equal length) in E. rewrite length_drop in E. simpl in E. lia. }
  destruct Hd as (x & d & ->).
  rewrite app_assoc, insert_app_r_alt; cycle 1.
  { rewrite length_app, length_fmap, length_take, length_replicate. lia. }
  rewrite length_app, length_fmap, length_take, length_replicate.
  replace (k - (_ + _))%nat with O by lia. simpl. rewrite <- app_assoc.
  destruct (k - length src)%nat; simpl; eauto.
Qed.

Lemma cstr_strncpy_poke dst src k :
  no_nul src -> (k < length dst)%nat ->
  cstr (poke (strncpy dst src k) k nul) = Some (take k src).
Proof.
  intros H Hk. destruct (strncpy_poke_shape dst src k Hk) as [rest ->].
  by apply cstr_terminated, no_nul_take.
Qed.

Lemma cstr_strncpy_poke_is_Some dst src k :
  (k < length dst)%nat -> is_Some (cstr (poke (strncpy dst src k) k nul)).
Proof.
  intros Hk. destruct (strncpy_poke_shape dst src k Hk) as [rest ->].
  generalize (take k src). intros s. induction s as [|c s IH]; [by eauto|].
  rewrite fmap_cons. cbn [app cstr]. destruct (eqc c nul); [by eauto|]. by apply fmap_is_Some.
Qed.

Lemma cstr_snprintf dst k s : no_nul s -> cstr (snprintf dst (S k) s) = Some (take k s).
Proof. intros H. simpl. apply cstr_terminated. by apply no_nul_take. Qed.

(** ** Lemmas: decimal conversions *)

Definition is_digit (c : ascii) : Prop := is_Some (digit_val c).

Lemma digit_cases d : 0 <= d < 10 ->
  d = 0 \/ d = 1 \/ d = 2 \/ d = 3 \/ d = 4 \/ d = 5 \/ d = 6 \/ d = 7 \/ d = 8 \/ d = 9.
Proof. lia. Qed.

Lemma digit_val_digit d : 0 <= d < 10 -> digit_val (digit d) = Some d.
Proof. intros H. destruct (digit_cases d H) as [->|[->|[->|[->|[->|[->|[->|[->|[->| ->]]]]]]]]]; done. Qed.

Lemma is_digit_digit d : 0 <= d < 10 -> is_digit (digit d).
Proof. intros H. unfold is_digit. rewrite digit_val_digit by done. eauto. Qed.

Lemma is_digit_inv c : is_digit c ->
  is_space c = false /\ c <> nul /\ c <> "-"%char /\ c <> "+"%char.
Proof.
  unfold is_digit, digit_val, is_space. cbv zeta. intros [d Hd].
  destruct ((48 <=? _) && _) eqn:E; [|done]. split_and!; [|by intros ->..].
  zbool. apply orb_false_iff. split; [apply Z.eqb_neq; lia|].
  apply andb_false_iff. right. apply Z.leb_gt. lia.
Qed.

Lemma scan_digits_stop v n s :
  match s with [] => True | c :: _ => ~ is_digit c end -> scan_digits v n s = (v, n, s).
Proof.
  destruct s as [|c s]; simpl; [done|]. unfold is_digit.
  destruct (digit_val c); [|done]. intros H. by exfalso; eauto.
Qed.

Lemma dec_digits_scan fuel z acc :
  0 <= z < 10 ^ Z.of_nat fuel -> (0 < fuel)%nat ->
  exists ds, dec_digits fuel z acc = ds ++ acc /\ (0 < length ds)%nat /\ Forall is_digit ds /\
    forall v n rest, scan_digits v n (ds ++ rest) =
      scan_digits (v * 10 ^ Z.of_nat (length ds) + z) (n + length ds) rest.
Proof.
  revert z acc. induction fuel as [|k IH]; intros z acc Hz Hf; [lia|]. cbn [dec_digits].
  destruct (z <? 10) eqn:E; zbool.
  - exists [digit z]. simpl. split_and!; [done|lia| |].
    + apply Forall_singleton. apply is_digit_digit; lia.
    + intros v n rest. rewrite digit_val_digit by lia.
      change (10 ^ Z.of_nat 1) with 10. f_equal; lia.
  - assert (0 < k)%nat.
    { destruct k; [|lia]. change (10 ^ Z.of_nat 1) with 10 in Hz. lia. }
    rewrite Nat2Z.inj_succ, Z.pow_succ_r in Hz by lia.
    destruct (IH (z / 10) (digit (z mod 10) :: acc)) as (ds & -> & Hl & Hd & Hs); [|done|].
    { split; [apply Z.div_pos; lia|]. apply Z.div_lt_upper_bound; lia. }
    pose proof (Z.mod_pos_bound z 10 eq_refl).
    exists (ds ++ [digit (z mod 10)]). rewrite <- app_assoc, length_app. split_and!.
    + done.
    + simpl. lia.
    + apply Forall_app. split; [done|]. apply Forall_singleton. apply is_digit_digit; lia.
    + intros v n rest. rewrite <- app_assoc, Hs. simpl.
      rewrite digit_val_digit by lia. f_equal; [|lia].
      rewrite Nat2Z.inj_add. change (Z.of_nat 1) with 1.
      rewrite Z.pow_add_r by lia. change (10 ^ 1) with 10.
      pose proof (Z.div_mod z 10 ltac:(lia)). lia.
Qed.

Lemma dec_fuel_enough z : 0 <= z -> 0 <= z < 10 ^ Z.of_nat (dec_fuel z).
Proof.
  intros Hz. split; [done|]. unfold dec_fuel. rewrite Nat2Z.inj_succ, Z2Nat.id by apply Z.log2_nonneg.
  pose proof (Z.log2_nonneg z).
  apply Z.lt_le_trans with (2 ^ Z.succ (Z.log2 z)); [|apply Z.pow_le_mono_l; lia].
  destruct (decide (z = 0)) as [->|]; [done|]. apply Z.log2_spec. lia.
Qed.

(** The digits of a non-negative number, and what scanning them yields. *)
Lemma print_nat_scan z : 0 <= z ->
  (0 < length (print_nat z))%nat /\ Forall is_digit (print_nat z) /\
  forall rest, match rest with [] => True | c :: _ => ~ is_digit c end ->
    exists n, scan_digits 0 0 (print_nat z ++ rest) = (z, S n, rest).
Proof.
  intros Hz. unfold print_nat.
  destruct (dec_digits_scan (dec_fuel z) z []) as (ds & -> & Hl & Hd & Hs).
  { by apply dec_fuel_enough. }
  { unfold dec_fuel. lia. }
  rewrite app_nil_r. split_and!; [done..|]. intros rest Hrest.
  exists (length ds - 1)%nat. rewrite Hs, scan_digits_stop by done. do 2 f_equal; lia.
Qed.

Lemma skip_space_nonspace c s : is_space c = false -> skip_space (c :: s) = c :: s.
Proof. simpl. by intros ->. Qed.

Lemma print_nat_head z : 0 <= z -> exists c t, print_nat z = c :: t /\ is_digit c.
Proof.
  intros Hz. destruct (print_nat_scan z Hz) as (Hl & Hd & _).
  destruct (print_nat z) as [|c t]; simpl in *; [lia|]. inversion Hd; subst. eauto.
Qed.

Lemma print_int_head z : exists c t, print_int z = c :: t /\ is_space c = false.
Proof.
  unfold print_int. destruct (z <? 0) eqn:E; zbool; [by eexists _, _|].
  destruct (print_nat_head z) as (c & t & -> & Hc); [lia|]. apply is_digit_inv in Hc. naive_solver.
Qed.

(** [fscanf("%d")] reads back what [fprintf("%d")] wrote. *)
Lemma scan_int_print_int z rest :
  in_i32 z -> match rest with [] => True | c :: _ => ~ is_digit c end ->
  scan_int (print_int z ++ rest) = Some (z, rest).
Proof.
  intros Hz Hrest. unfold scan_int, print_int.
  assert (Hlong : i32 (to_long z) = z).
  { unfold to_long. unfold in_i32 in *. rewrite Z.min_r, Z.max_r by lia. by apply i32_id. }
  destruct (z <? 0) eqn:E; zbool.
  - destruct (print_nat_scan (- z)) as (_ & _ & Hs); [lia|].
    destruct (Hs rest Hrest) as [n Hn]. cbn [app]. rewrite skip_space_nonspace by done.
    cbn [scan_sign]. change (eqc "-" "-") with true. cbv iota.
    rewrite Hn. cbv iota. by rewrite Z.opp_involutive, Hlong.
  - destruct (print_nat_scan z) as (_ & _ & Hs); [lia|].
    destruct (Hs rest Hrest) as [n Hn].
    destruct (print_nat_head z) as (c & t & Ht & Hc); [lia|].
    apply is_digit_inv in Hc as (Hsp & _ & Hm & Hp).
    rewrite Ht in *. cbn [app] in *. rewrite skip_space_nonspace by done.
    cbn [scan_sign]. rewrite !eqc_ne by done. cbv iota. by rewrite Hn, Hlong.
Qed.

Lemma atoi_print_int z : in_i32 z -> atoi (print_int z) = z.
Proof.
  intros Hz. unfold atoi. rewrite <- (app_nil_r (print_int z)).
  by rewrite scan_int_print_int.
Qed.

Lemma dec_digits_length fuel z acc k : 0 <= z < 10 ^ Z.of_nat fuel -> (0 < fuel)%nat -> (0 < k)%nat ->
  (length (dec_digits fuel z acc) <= k + length acc)%nat <-> z < 10 ^ Z.of_nat k.
Proof.
  revert z acc k. induction fuel as [|f IH]; intros z acc k Hz Hf Hk; [lia|]. cbn [dec_digits].
  assert (Hp : 10 ^ Z.of_nat k = 10 * 10 ^ Z.of_nat (k - 1)).
  { rewrite <- Z.pow_succ_r by lia. f_equal. lia. }
  pose proof (Z.pow_pos_nonneg 10 (Z.of_nat (k - 1)) eq_refl (Nat2Z.is_nonneg _)).
  destruct (z <? 10) eqn:E; zbool; [cbn; lia|].
  assert (0 < f)%nat by (destruct f; [change (10 ^ Z.of_nat 1) with 10 in Hz|]; lia).
  rewrite Nat2Z.inj_succ, Z.pow_succ_r in Hz by lia.
  assert (Hd : 0 <= z / 10 < 10 ^ Z.of_nat f)
    by (split; [apply Z.div_pos; lia|apply Z.div_lt_upper_bound; lia]).
  destruct (decide (k = 1%nat)) as [->|Hk1].
  - destruct (dec_digits_scan f (z / 10) (digit (z mod 10) :: acc) Hd) as (ds & -> & Hl & _); [done|].
    rewrite length_app. cbn. lia.
  - replace (k + length acc)%nat with ((k - 1) + length (digit (z mod 10) :: acc))%nat by (cbn; lia).
    rewrite IH, Hp by (done || lia). pose proof (Z.div_mod z 10 ltac:(lia)).
    pose proof (Z.mod_pos_bound z 10 eq_refl). nia.
Qed.

(** How many characters [%d] prints. *)
Lemma print_int_length z k : 0 <= z -> (0 < k)%nat ->
  (length (print_int z) <= k)%nat <-> z < 10 ^ Z.of_nat k.
Proof.
  intros Hz Hk. unfold print_int. rewrite (proj2 (Z.ltb_ge z 0)) by done. unfold print_nat.
  pose proof (dec_digits_length (dec_fuel z) z [] k (dec_fuel_enough z Hz) ltac:(unfold dec_fuel; lia) Hk) as H.
  rewrite Nat.add_0_r in H. exact H.
Qed.

(** *** Appending a digit *)

Lemma dec_digits_acc fuel z acc : dec_digits fuel z acc = dec_digits fuel z [] ++ acc.
Proof.
  revert z acc. induction fuel as [|f IH]; intros z acc; [done|]. cbn [dec_digits].
  destruct (z <? 10); [done|]. by rewrite IH, (IH _ [_]), <- app_assoc.
Qed.

Lemma dec_digits_fuel f g z acc : 0 <= z < 10 ^ Z.of_nat f -> z < 10 ^ Z.of_nat g ->
  (0 < f)%nat -> (0 < g)%nat -> dec_digits f z acc = dec_digits g z acc.
Proof.
  revert g z acc. induction f as [|f IH]; intros [|g] z acc Hf Hg Pf Pg; [lia..|]. cbn [dec_digits].
  destruct (z <? 10) eqn:E; zbool; [done|].
  assert (Hdec : forall k, z < 10 ^ Z.of_nat (S k) -> z / 10 < 10 ^ Z.of_nat k /\ (0 < k)%nat).
  { intros k Hk. split; [apply Z.div_lt_upper_bound; [lia|]; by rewrite <- Z.pow_succ_r, <- Nat2Z.inj_succ by lia|].
    destruct k; [change (10 ^ Z.of_nat 1) with 10 in Hk|]; lia. }
  destruct (Hdec f), (Hdec g); [lia..|]. apply IH; try done. split; [|done]. apply Z.div_pos; lia.
Qed.

Lemma print_nat_snoc z d : 0 < z -> 0 <= d < 10 -> print_nat (10 * z + d) = print_nat z ++ [digit d].
Proof.
  intros Hz Hd. unfold print_nat. pose proof (dec_fuel_enough z ltac:(lia)) as [_ H1].
  rewrite (dec_digits_fuel _ (S (dec_fuel z)) (10 * z + d)).
  - cbn [dec_digits]. rewrite (proj2 (Z.ltb_ge _ _)) by lia.
    replace ((10 * z + d) / 10) with z by (apply (Z.div_unique _ 10 z d); lia).
    replace ((10 * z + d) mod 10) with d by (apply (Z.mod_unique _ 10 z d); lia).
    apply dec_digits_acc.
  - apply dec_fuel_enough. lia.
  - rewrite Nat2Z.inj_succ, Z.pow_succ_r by lia. lia.
  - unfold dec_fuel. lia.
  - lia.
Qed.

Lemma no_nul_print_int z : no_nul (print_int z).
Proof.
  assert (Hn : forall z, 0 <= z -> no_nul (print_nat z)).
  { intros y Hy. destruct (print_nat_scan y Hy) as (_ & Hd & _).
    intros Hin. rewrite Forall_forall in Hd. apply Hd, is_digit_inv in Hin. naive_solver. }
  unfold print_int. destruct (z <? 0) eqn:E; zbool; [|by apply Hn; lia].
  apply no_nul_cons. split; [done|]. apply Hn. lia.
Qed.

Definition no_space (s : cstring) : Prop := Forall (fun c => is_space c = false) s.

Lemma scan_str_token (s rest : cstring) :
  no_space s -> s <> [] -> match rest with [] => True | c :: _ => is_space c = true end ->
  scan_str (s ++ rest) = Some (s, rest).
Proof.
  intros Hs Hne Hrest. unfold scan_str.
  assert (Hrun : forall t, no_space t -> scan_run (t ++ rest) = (t, rest)).
  { induction t as [|c t IH]; intros Ht; simpl.
    - destruct rest as [|d rest]; simpl; [done|]. by rewrite Hrest.
    - inversion Ht; subst. rewrite H1, IH by done. done. }
  destruct s as [|c s]; [done|]. inversion Hs; subst. cbn [app].
  rewrite skip_space_nonspace by done. change (c :: s ++ rest) with ((c :: s) ++ rest).
  by rewrite Hrun.
Qed.

(** ** Lemmas: searching *)

Lemma is_prefix_spec p s : is_prefix p s = true <-> exists t, s = p ++ t.
Proof.
  revert s. induction p as [|c p IH]; intros s; simpl; [naive_solver|].
  destruct s as [|d s]; simpl; [naive_solver|].
  rewrite andb_true_iff, eqc_true, IH. naive_solver.
Qed.

(** [find] succeeds exactly on the strings that contain the needle. *)
Lemma find_sub_spec needle hay :
  is_Some (find_sub needle hay) <-> exists pre post, hay = pre ++ needle ++ post.
Proof.
  induction hay as [|c hay IH]; simpl.
  - destruct (is_prefix needle []) eqn:E.
    + apply is_prefix_spec in E as [t Ht]. split; [|by eauto]. intros _. by exists [], t.
    + split; [intros [? [=]]|]. intros (pre & post & Hh).
      assert (is_prefix needle [] = true) as Hp; [|by rewrite Hp in E].
      apply is_prefix_spec. destruct pre; naive_solver.
  - destruct (is_prefix needle (c :: hay)) eqn:E.
    + apply is_prefix_spec in E as [t Ht]. split; [|by eauto]. intros _. by exists [], t.
    + rewrite fmap_is_Some, IH. split.
      * intros (pre & post & ->). by exists (c :: pre), post.
      * intros ([|d pre] & post & Hh); [|simplify_eq/=; by eauto].
        assert (is_prefix needle (c :: hay) = true) as Hp; [|by rewrite Hp in E].
        apply is_prefix_spec. by exists post.
Qed.

Lemma strchr_Some s c i :
  strchr s c = Some i -> s !! i = Some c /\ c ∉ take i s.
Proof.
  revert i. induction s as [|d s IH]; intros i H; simplify_eq/=.
  destruct (eqc d c) eqn:E; simplify_eq/=.
  - apply eqc_true in E as ->. split; [done|]. apply not_elem_of_nil.
  - apply fmap_Some in H as (j & Hj & ->). apply IH in Hj as [? ?]. split; [done|].
    simpl. apply not_elem_of_cons. split; [|done]. intros ->. by rewrite eqc_refl in E.
Qed.

Lemma strchr_None s c : strchr s c = None <-> c ∉ s.
Proof.
  induction s as [|d s IH]; simpl; [split; [intros _; apply not_elem_of_nil|done]|].
  rewrite not_elem_of_cons. destruct (eqc d c) eqn:E.
  - apply eqc_true in E as ->. naive_solver.
  - assert (c <> d) by (intros ->; by rewrite eqc_refl in E).
    rewrite fmap_None, IH. naive_solver.
Qed.
