(* ===== verification/HashRing.v ===== *)
(** * Consistent hashing

    The class template [HashRing] of src/tests/load_distribution_simul.cpp and
    the redistribution its [main] computes after a server failed.  The ring is
    the [std::map] from positions to servers; the hash functor (a [size_t]) and
    the two stringify functions are parameters, instantiated with strings as
    [main] does at the end. *)

From S2P Require Import Prelude CString.

Module HashRing.

(** ** std::map on [size_t] keys *)

Section Ordered.
Context {A : Type}.

(** The entry with the least key. *)
Fixpoint min_entry (l : list (Z * A)) : option (Z * A) :=
  match l with
  | [] => None
  | e :: l' => match min_entry l' with
               | Some e' => if e.1 <=? e'.1 then Some e else Some e'
               | None => Some e
               end
  end.

(** [m.begin()] and [m.lower_bound(h)]; [None] is [m.end()]. *)
Definition map_begin (m : gmap Z A) : option (Z * A) := min_entry (map_to_list m).
Definition lower_bound (h : Z) (m : gmap Z A) : option (Z * A) :=
  min_entry (filter (fun e => h <= e.1) (map_to_list m)).

Lemma min_entry_Some l e : min_entry l = Some e ->
  e ∈ l /\ forall e', e' ∈ l -> e.1 <= e'.1.
Proof.
  revert e. induction l as [|d l IH]; intros e H; simpl in H; [done|].
  destruct (min_entry l) as [m|] eqn:E.
  - destruct (IH m eq_refl) as [Hin Hmin]. destruct (d.1 <=? m.1) eqn:Ed; simplify_eq; zbool.
    + split; [by left|]. intros e' [->|He']%elem_of_cons; [lia|]. specialize (Hmin e' He'). lia.
    + split; [by right|]. intros e' [->|He']%elem_of_cons; [lia|auto].
  - destruct l as [|x l]; [|simpl in E; by repeat case_match]. simplify_eq.
    split; [by left|]. intros e' ->%list_elem_of_singleton. lia.
Qed.

Lemma min_entry_None l : min_entry l = None -> l = [].
Proof. destruct l as [|d l]; [done|]. simpl. by repeat case_match. Qed.

Lemma lower_bound_Some h m k v : lower_bound h m = Some (k, v) ->
  m !! k = Some v /\ h <= k /\ forall k' v', m !! k' = Some v' -> h <= k' -> k <= k'.
Proof.
  intros [Hin Hmin]%min_entry_Some. apply list_elem_of_filter in Hin as [Hk Hin].
  apply elem_of_map_to_list in Hin. split_and!; [done..|]. intros k' v' H1 H2.
  apply (Hmin (k', v')). apply list_elem_of_filter. split; [done|]. by apply elem_of_map_to_list.
Qed.

Lemma lower_bound_None h m k v : lower_bound h m = None -> m !! k = Some v -> k < h.
Proof.
  intros Hn%min_entry_None Hk. apply elem_of_map_to_list in Hk.
  destruct (decide (h <= k)); [|lia]. exfalso.
  assert (H : (k, v) ∈ filter (fun e => h <= e.1) (map_to_list m)) by (by apply list_elem_of_filter).
  rewrite Hn in H. by apply not_elem_of_nil in H.
Qed.

Lemma map_begin_Some m k v : map_begin m = Some (k, v) ->
  m !! k = Some v /\ forall k' v', m !! k' = Some v' -> k <= k'.
Proof.
  intros [Hin Hmin]%min_entry_Some. apply elem_of_map_to_list in Hin. split; [done|].
  intros k' v' H. by apply (Hmin (k', v')), elem_of_map_to_list.
Qed.

Lemma map_begin_None m : map_begin m = None -> m = ∅.
Proof. intros H%min_entry_None. by apply map_to_list_empty_iff. Qed.

End Ordered.

(** [std::string(s.c_str())]: the characters before the first NUL. *)
Fixpoint before_nul (s : cstring) : cstring :=
  match s with
  | [] => []
  | c :: s' => if eqc c nul then [] else c :: before_nul s'
  end.
Definition c_str (s : string) : string := to_string (before_nul (of_string s)).

(** [StringifyServer] and [StringifyData], a template each with the same two
    cases: a string stays as it is, an integer goes through [to_string]. *)
Class Stringify (A : Type) : Type := stringify : A -> string.
#[export] Instance Stringify_string : Stringify string := fun s => s.
#[export] Instance Stringify_int : Stringify Z := fun n => to_string (print_int n).

Section Ring.
Context {Server Data : Type} `{Countable Server}.
Context (StringifyServer : Server -> string) (StringifyData : Data -> string).
Context (hash_ : string -> Z) (replicas_ : nat).

(** ** The class *)

Definition StringifyReplica (num : nat) : string := to_string (print_int (Z.of_nat num)).

(** The position of one replica. *)
Definition replica_hash (server : Server) (r : nat) : Z :=
  hash_ (c_str (String.append (StringifyServer server) (StringifyReplica r))).

(** [for (r = from; r < from + todo; r++)] of [AddServer]. *)
Fixpoint add_loop (server : Server) (r todo : nat) (ring : gmap Z Server) : gmap Z Server :=
  match todo with
  | O => ring
  | S todo' => add_loop server (S r) todo' (<[replica_hash server r := server]> ring)
  end.
Definition AddServer (server : Server) (ring : gmap Z Server) : gmap Z Server :=
  add_loop server 0 replicas_ ring.

(** Its result: the last hash, indeterminate without replicas. *)
Definition AddServer_result (server : Server) : option Z :=
  match replicas_ with O => None | S r => Some (replica_hash server r) end.

Fixpoint remove_loop (server : Server) (r todo : nat) (ring : gmap Z Server) : gmap Z Server :=
  match todo with
  | O => ring
  | S todo' => remove_loop server (S r) todo' (delete (replica_hash server r) ring)
  end.
Definition RemoveServer (server : Server) (ring : gmap Z Server) : gmap Z Server :=
  remove_loop server 0 replicas_ ring.

(** [GetServer]: [None] is the exception on an empty ring. *)
Definition GetServer (data : Data) (ring : gmap Z Server) : option Server :=
  if decide (ring = ∅) then None
  else
    let hash := hash_ (c_str (StringifyData data)) in
    match lower_bound hash ring with
    | Some (_, s) => Some s
    | None => snd <$> map_begin ring
    end.

(** [distribution[server].push_back(item)] for every item. *)
Fixpoint distribute (data : list Data) (ring : gmap Z Server) (distribution : gmap Server (list Data))
    : option (gmap Server (list Data)) :=
  match data with
  | [] => Some distribution
  | item :: data' =>
      server ← GetServer item ring;
      distribute data' ring
        (<[server := default [] (distribution !! server) ++ [item]]> distribution)
  end.
Definition GetDistribution (data : list Data) (ring : gmap Z Server)
    : option (gmap Server (list Data)) := distribute data ring ∅.

(** ** The redistribution after a failure *)

(** The first loop of [main]: how many files each server has, and which.  The
    counts are [int]s; an exception of [GetServer] is not caught. *)
Fixpoint tally (files : list Data) (ring : gmap Z Server) (original_distribution : gmap Server Z)
    (server_to_data : gmap Server (list Data)) : result (gmap Server Z * gmap Server (list Data)) :=
  match files with
  | [] => inr (original_distribution, server_to_data)
  | file :: files' =>
      server ← or_else Uncaught (GetServer file ring);
      n ← incr (default 0 (original_distribution !! server));
      tally files' ring
        (<[server := n]> original_distribution)
        (<[server := default [] (server_to_data !! server) ++ [file]]> server_to_data)
  end.

(** The files of the failed server go to their new servers. *)
Fixpoint reassign (files : list Data) (ring : gmap Z Server) (new_distribution : gmap Server Z)
    : result (gmap Server Z) :=
  match files with
  | [] => inr new_distribution
  | file :: files' =>
      new_server ← or_else Uncaught (GetServer file ring);
      n ← incr (default 0 (new_distribution !! new_server));
      reassign files' ring (<[new_server := n]> new_distribution)
  end.

Definition redistribute (failed_server : Server) (ring : gmap Z Server)
    (original_distribution : gmap Server Z) (server_to_data : gmap Server (list Data))
    : result (gmap Server Z) :=
  reassign (default [] (server_to_data !! failed_server)) (RemoveServer failed_server ring)
    (<[failed_server := 0]> original_distribution).

(** ** Specification *)

(** The positions of a server. *)
Definition positions (server : Server) : list Z := replica_hash server <$> seq 0 replicas_.

(** The clockwise distance on the ring of [size_t] values. *)
Definition cw (h k : Z) : Z := u64 (k - h).

(** Keys are [size_t] values at which their server has a replica. *)
Definition ring_wf (ring : gmap Z Server) : Prop :=
  forall k v, ring !! k = Some v -> 0 <= k < 2 ^ 64 /\ k ∈ positions v.

(** No other server of the ring has a replica where [server] has one. *)
Definition no_collision (server : Server) (ring : gmap Z Server) : Prop :=
  forall k v, ring !! k = Some v -> k ∈ positions server -> v = server.

(** [v] owns the position that follows [h] clockwise. *)
Definition successor (h : Z) (ring : gmap Z Server) (v : Server) : Prop :=
  exists k, ring !! k = Some v /\ forall k' v', ring !! k' = Some v' -> cw h k <= cw h k'.

(** ** Lemmas *)

Lemma add_loop_lookup server todo : forall r ring k,
  add_loop server r todo ring !! k =
    if decide (k ∈ replica_hash server <$> seq r todo) then Some server else ring !! k.
Proof.
  induction todo as [|todo IH]; intros r ring k; simpl; [done|]. rewrite IH.
  destruct (decide (k ∈ replica_hash server <$> seq (S r) todo)).
  - by rewrite decide_True by (by right).
  - rewrite lookup_insert. case_decide as E.
    + subst k. by rewrite decide_True by (by left).
    + rewrite decide_False; [done|]. intros [->|?]%elem_of_cons; done.
Qed.

Lemma remove_loop_lookup server todo : forall r ring k,
  remove_loop server r todo ring !! k =
    if decide (k ∈ replica_hash server <$> seq r todo) then None else ring !! k.
Proof.
  induction todo as [|todo IH]; intros r ring k; simpl; [done|]. rewrite IH.
  destruct (decide (k ∈ replica_hash server <$> seq (S r) todo)).
  - by rewrite decide_True by (by right).
  - rewrite lookup_delete. case_decide as E.
    + subst k. by rewrite decide_True by (by left).
    + rewrite decide_False; [done|]. intros [->|?]%elem_of_cons; done.
Qed.

Lemma AddServer_lookup server ring k :
  AddServer server ring !! k = if decide (k ∈ positions server) then Some server else ring !! k.
Proof. apply add_loop_lookup. Qed.

Lemma RemoveServer_lookup server ring k :
  RemoveServer server ring !! k = if decide (k ∈ positions server) then None else ring !! k.
Proof. apply remove_loop_lookup. Qed.

Lemma cw_cases h k : 0 <= h < 2 ^ 64 -> 0 <= k < 2 ^ 64 ->
  (h <= k /\ cw h k = k - h) \/ (k < h /\ cw h k = k - h + 2 ^ 64).
Proof.
  intros Hh Hk. unfold cw. destruct (decide (h <= k)).
  - left. split; [done|]. apply u64_id. lia.
  - right. split; [lia|]. unfold u64. rewrite <- (Z.mod_small (k - h + 2 ^ 64) (2 ^ 64)) by lia.
    rewrite <- (Z_mod_plus_full (k - h) 1 (2 ^ 64)). f_equal.
Qed.

Section Lookup.
Context (Hhash : forall s, 0 <= hash_ s < 2 ^ 64).

Lemma positions_range server k : k ∈ positions server -> 0 <= k < 2 ^ 64.
Proof. intros (r & -> & _)%list_elem_of_fmap. apply Hhash. Qed.

Lemma successor_unique h ring v w : ring_wf ring -> 0 <= h < 2 ^ 64 ->
  successor h ring v -> successor h ring w -> v = w.
Proof.
  intros Hwf Hh (k & Hk & Hmin) (k' & Hk' & Hmin').
  specialize (Hmin _ _ Hk'). specialize (Hmin' _ _ Hk).
  destruct (Hwf _ _ Hk) as [R _], (Hwf _ _ Hk') as [R' _].
  destruct (cw_cases h k), (cw_cases h k'); try done; assert (k = k') by lia; congruence.
Qed.

(** [GetServer] finds the successor of the data's hash. *)
Lemma GetServer_successor data ring v : ring_wf ring ->
  GetServer data ring = Some v <-> successor (hash_ (c_str (StringifyData data))) ring v.
Proof.
  intros Hwf. set (h := hash_ _). assert (Hh : 0 <= h < 2 ^ 64) by apply Hhash.
  assert (Hex : forall w, GetServer data ring = Some w -> successor h ring w).
  { intros w. unfold GetServer. fold h. case_decide as Hne; [done|].
    destruct (lower_bound h ring) as [[k x]|] eqn:E.
    - intros [= ->]. destruct (lower_bound_Some _ _ _ _ E) as (Hk & Hle & Hmin).
      exists k. split; [done|]. intros k' v' Hk'. destruct (Hwf _ _ Hk), (Hwf _ _ Hk').
      specialize (Hmin k' v' Hk'). destruct (cw_cases h k), (cw_cases h k'); try done; lia.
    - destruct (map_begin ring) as [[k x]|] eqn:E2; [|done]. intros [= ->].
      destruct (map_begin_Some _ _ _ E2) as (Hk & Hmin). exists k. split; [done|].
      intros k' v' Hk'. destruct (Hwf _ _ Hk), (Hwf _ _ Hk').
      pose proof (lower_bound_None _ _ _ _ E Hk). pose proof (lower_bound_None _ _ _ _ E Hk').
      specialize (Hmin k' v' Hk'). destruct (cw_cases h k), (cw_cases h k'); try done; lia. }
  split; [apply Hex|]. intros Hs. destruct (GetServer data ring) as [w|] eqn:E.
  - f_equal. eapply successor_unique; eauto.
  - exfalso. destruct Hs as (k & Hk & _). unfold GetServer in E. fold h in E.
    case_decide as Hne; [by rewrite Hne in Hk|]. destruct (lower_bound h ring) as [[? ?]|] eqn:E1; [done|].
    destruct (map_begin ring) as [[? ?]|] eqn:E2; [done|]. by apply Hne, map_begin_None.
Qed.

Lemma ring_wf_empty : ring_wf ∅.
Proof. intros k v Hk. done. Qed.

Lemma ring_wf_Add server ring : ring_wf ring -> ring_wf (AddServer server ring).
Proof.
  intros Hwf k v. rewrite AddServer_lookup. case_decide; [|apply Hwf].
  intros [= <-]. split; [by eapply positions_range|done].
Qed.

Lemma ring_wf_Remove server ring : ring_wf ring -> ring_wf (RemoveServer server ring).
Proof. intros Hwf k v. rewrite RemoveServer_lookup. case_decide; [done|apply Hwf]. Qed.

(** A ring is changed by its two operations only. *)
Inductive ring_op : Type := Add (server : Server) | Remove (server : Server).
Definition apply_op (ring : gmap Z Server) (op : ring_op) : gmap Z Server :=
  match op with Add s => AddServer s ring | Remove s => RemoveServer s ring end.
Definition ring_of (ops : list ring_op) : gmap Z Server := foldl apply_op ∅ ops.

Lemma ring_of_wf ops : ring_wf (ring_of ops).
Proof.
  unfold ring_of. assert (H0 : ring_wf ∅) by apply ring_wf_empty. revert H0. generalize (∅ : gmap Z Server).
  induction ops as [|op ops IH]; intros ring Hwf; [done|]. apply IH.
  destruct op; [by apply ring_wf_Add|by apply ring_wf_Remove].
Qed.

(** Removing a server that shares no position moves its own data only. *)
Lemma successor_remove server h ring v : no_collision server ring -> v <> server ->
  successor h ring v -> successor h (RemoveServer server ring) v.
Proof.
  intros Hnc Hv (k & Hk & Hmin). exists k. rewrite RemoveServer_lookup. split.
  - rewrite decide_False; [done|]. intros Hp. by apply Hv, (Hnc k v).
  - intros k' v'. rewrite RemoveServer_lookup. case_decide; [done|]. apply Hmin.
Qed.

Lemma remove_not_server server h ring v : ring_wf ring ->
  successor h (RemoveServer server ring) v -> v <> server.
Proof.
  intros Hwf (k & Hk & _) ->. rewrite RemoveServer_lookup in Hk. case_decide as Hp; [done|].
  by destruct (Hwf _ _ Hk).
Qed.

Lemma GetServer_remove server data ring v : ring_wf ring -> no_collision server ring ->
  v <> server -> GetServer data ring = Some v -> GetServer data (RemoveServer server ring) = Some v.
Proof.
  intros Hwf Hnc Hv. rewrite !GetServer_successor by auto using ring_wf_Remove.
  by apply successor_remove.
Qed.

Lemma GetServer_removed server data ring v : ring_wf ring ->
  GetServer data (RemoveServer server ring) = Some v -> v <> server.
Proof.
  intros Hwf. rewrite GetServer_successor by auto using ring_wf_Remove. by apply remove_not_server.
Qed.

Lemma successor_add server h ring v :
  successor h (AddServer server ring) v -> v = server \/ successor h ring v.
Proof.
  intros (k & Hk & Hmin). rewrite AddServer_lookup in Hk. case_decide; [left; congruence|].
  right. exists k. split; [done|]. intros k' v' Hk'.
  apply (Hmin k' (if decide (k' ∈ positions server) then server else v')).
  rewrite AddServer_lookup. by case_decide.
Qed.

(** ** Counting *)

(** How many of the files the ring gives to a server. *)
Definition share (ring : gmap Z Server) (s : Server) (files : list Data) : Z :=
  Z.of_nat (length (filter (fun f => GetServer f ring = Some s) files)).

Lemma share_cons ring s f files : share ring s (f :: files) =
  (if decide (GetServer f ring = Some s) then 1 else 0) + share ring s files.
Proof. unfold share. rewrite filter_cons. case_decide; simpl; lia. Qed.

Lemma tally_spec ring files : forall od std od' std', tally files ring od std = inr (od', std') ->
  (forall s, default 0 (od' !! s) = default 0 (od !! s) + share ring s files) /\
  (forall s, default [] (std' !! s) = default [] (std !! s) ++
     filter (fun f => GetServer f ring = Some s) files).
Proof.
  induction files as [|f files IH]; intros od std od' std' Ht; cbn [tally] in Ht.
  - simplify_eq. split; intros s; [unfold share; simpl; lia|by rewrite app_nil_r].
  - apply bind_inr in Ht as (w & Hw%or_else_inr & Ht). apply bind_inr in Ht as (n & [_ ->]%incr_inr & Ht).
    destruct (IH _ _ _ _ Ht) as [H1 H2]. split; intros s.
    + rewrite H1, share_cons, Hw, lookup_insert.
      destruct (decide (w = s)); subst; [rewrite decide_True by done; simpl; lia|].
      rewrite decide_False by congruence. lia.
    + rewrite H2, filter_cons, Hw, lookup_insert.
      destruct (decide (w = s)); subst; [rewrite decide_True by done; simpl; by rewrite <- app_assoc|].
      by rewrite decide_False by congruence.
Qed.

(** One more file of a server leaves room for the others. *)
Lemma room_insert ring f w files (od : gmap Server Z) : GetServer f ring = Some w ->
  (forall s, default 0 (od !! s) + share ring s (f :: files) <= INT_MAX) ->
  incr (default 0 (od !! w)) = inr (default 0 (od !! w) + 1) /\
  forall s, default 0 (<[w := default 0 (od !! w) + 1]> od !! s) + share ring s files <= INT_MAX.
Proof.
  intros Hw Hr. setoid_rewrite share_cons in Hr. rewrite Hw in Hr.
  assert (H0 : forall s, 0 <= share ring s files) by (intros s; unfold share; lia). split.
  - apply incr_inr. split; [|done]. specialize (Hr w). specialize (H0 w). rewrite decide_True in Hr by done. lia.
  - intros s. specialize (Hr s). rewrite lookup_insert. destruct (decide (w = s)) as [->|E].
    + rewrite decide_True in Hr by done. cbn [default from_option]. unfold id in *. lia.
    + rewrite decide_False in Hr by congruence. lia.
Qed.

Lemma tally_total ring files : forall od std, (forall f, is_Some (GetServer f ring)) ->
  (forall s, default 0 (od !! s) + share ring s files <= INT_MAX) ->
  exists x, tally files ring od std = inr x.
Proof.
  induction files as [|f files IH]; intros od std Hg Hr; [by eexists|]. cbn [tally].
  destruct (Hg f) as [w Hw]. destruct (room_insert ring f w files od Hw Hr) as [Hi Hr'].
  rewrite Hw. cbn [or_else mbind result_bind]. rewrite Hi. by apply IH.
Qed.

Lemma reassign_spec ring files : forall nd nd', reassign files ring nd = inr nd' ->
  forall s, default 0 (nd' !! s) = default 0 (nd !! s) + share ring s files.
Proof.
  induction files as [|f files IH]; intros nd nd' Ht s; cbn [reassign] in Ht.
  - simplify_eq. unfold share. simpl. lia.
  - apply bind_inr in Ht as (w & Hw%or_else_inr & Ht). apply bind_inr in Ht as (n & [_ ->]%incr_inr & Ht).
    rewrite (IH _ _ Ht), share_cons, Hw, lookup_insert.
    destruct (decide (w = s)); subst; [rewrite decide_True by done; simpl; lia|].
    rewrite decide_False by congruence. lia.
Qed.

Lemma reassign_total ring files : forall nd, (forall f, is_Some (GetServer f ring)) ->
  (forall s, default 0 (nd !! s) + share ring s files <= INT_MAX) ->
  exists nd', reassign files ring nd = inr nd'.
Proof.
  induction files as [|f files IH]; intros nd Hg Hr; [by eexists|]. cbn [reassign].
  destruct (Hg f) as [w Hw]. destruct (room_insert ring f w files nd Hw Hr) as [Hi Hr'].
  rewrite Hw. cbn [or_else mbind result_bind]. rewrite Hi. by apply IH.
Qed.

Lemma share_le ring s files : share ring s files <= Z.of_nat (length files).
Proof. unfold share. pose proof (length_filter (fun f => GetServer f ring = Some s) files). lia. Qed.

Lemma GetServer_total ring f : ring <> ∅ -> is_Some (GetServer f ring).
Proof.
  intros Hne. unfold GetServer. rewrite decide_False by done.
  destruct (lower_bound _ ring) as [[k v]|]; [by eexists|].
  destruct (map_begin ring) as [[k v]|] eqn:E; [by eexists|]. by apply map_begin_None in E.
Qed.

(** The share of a server once another one has failed: its own, and what it
    takes over. *)
Lemma share_remove server ring s files : ring_wf ring -> no_collision server ring ->
  RemoveServer server ring <> ∅ ->
  share (RemoveServer server ring) s files =
    (if decide (s = server) then 0 else share ring s files) +
    share (RemoveServer server ring) s (filter (fun f => GetServer f ring = Some server) files).
Proof.
  intros Hwf Hnc Hne. induction files as [|f files IH]; [unfold share; simpl; by case_decide|].
  assert (Hne0 : ring <> ∅).
  { intros ->. apply Hne. apply map_eq. intros k. rewrite RemoveServer_lookup. rewrite !lookup_empty.
    destruct (decide (k ∈ positions server)); reflexivity. }
  destruct (GetServer_total ring f Hne0) as [v Hv].
  rewrite !share_cons, filter_cons, Hv. destruct (decide (v = server)) as [->|Hvs].
  - rewrite (decide_True (P := Some server = Some server)) by done. rewrite share_cons, IH.
    destruct (decide (s = server)) as [->|Hs]; [lia|].
    rewrite (decide_False (P := Some server = Some s)) by congruence. lia.
  - rewrite (decide_False (P := Some v = Some server)) by congruence.
    rewrite (GetServer_remove server f ring v) by done. rewrite IH.
    destruct (decide (s = server)) as [->|Hs];
      [rewrite (decide_False (P := Some v = Some server)) by congruence; lia|].
    destruct (decide (Some v = Some s)); lia.
Qed.

(** The redistribution gives every server its share of the smaller ring. *)
Lemma redistribute_spec server ring files od std : ring_wf ring -> no_collision server ring ->
  RemoveServer server ring <> ∅ -> Z.of_nat (length files) <= INT_MAX ->
  tally files ring ∅ ∅ = inr (od, std) ->
  exists nd, redistribute server ring od std = inr nd /\
    forall s, default 0 (nd !! s) = share (RemoveServer server ring) s files.
Proof.
  intros Hwf Hnc Hne Hlen Ht. destruct (tally_spec ring files _ _ _ _ Ht) as [Hod Hstd].
  assert (Htot : forall f, is_Some (GetServer f (RemoveServer server ring))) by (intros; by apply GetServer_total).
  assert (Hnew : forall s, default 0 (<[server := 0]> od !! s) +
      share (RemoveServer server ring) s (default [] (std !! server)) = share (RemoveServer server ring) s files).
  { intros s. rewrite Hstd, (share_remove server ring s files), !lookup_empty by done. cbn [default]. rewrite app_nil_l.
    rewrite lookup_insert. destruct (decide (server = s)) as [->|Hs].
    - rewrite (decide_True (P := s = s)) by done. cbn [default]. unfold id. lia.
    - rewrite (decide_False (P := s = server)) by congruence. rewrite Hod, lookup_empty. cbn [default]. unfold id. lia. }
  destruct (reassign_total _ (default [] (std !! server)) (<[server := 0]> od) Htot) as [nd Hnd].
  { intros s. rewrite Hnew. pose proof (share_le (RemoveServer server ring) s files). lia. }
  exists nd. split; [done|]. intros s. by rewrite (reassign_spec _ _ _ _ Hnd s).
Qed.

Lemma distribute_spec ring data : forall dist dist', distribute data ring dist = Some dist' ->
  forall s, dist' !! s = match filter (fun f => GetServer f ring = Some s) data with
                         | [] => dist !! s
                         | l => Some (default [] (dist !! s) ++ l)
                         end.
Proof.
  induction data as [|f data IH]; intros dist dist' Hd s; cbn [distribute] in Hd; [by simplify_eq|].
  apply bind_Some in Hd as (w & Hw & Hd). rewrite (IH _ _ Hd s), filter_cons, Hw.
  destruct (decide (w = s)) as [->|Hne].
  - rewrite (decide_True (P := Some s = Some s)), lookup_insert_eq by done. cbn [default from_option]. unfold id.
    destruct (filter _ data); [done|]. by rewrite <- app_assoc.
  - by rewrite (decide_False (P := Some w = Some s)), lookup_insert_ne by congruence.
Qed.

Lemma distribute_total ring data : forall dist, (forall f, is_Some (GetServer f ring)) ->
  is_Some (distribute data ring dist).
Proof.
  induction data as [|f data IH]; intros dist Hg; [by eexists|]. cbn [distribute].
  destruct (Hg f) as [w ->]. cbn [mbind option_bind]. by apply IH.
Qed.

End Lookup.
End Ring.

End HashRing.
Import HashRing.

(** ** Properties *)

Section Properties.
Context {Server Data : Type} `{Countable Server}.
Context (str : Server -> string) (strd : Data -> string) (hash_ : string -> Z) (replicas : nat).
Context (Hhash : forall s, 0 <= hash_ s < 2 ^ 64).

(** C24: on every ring built by adding and removing servers, [GetServer] answers
    the server whose position follows the hash of the data clockwise, nearest
    first with wrap-around, and throws only on the empty ring. *)
Theorem GetServer_is_successor ops data v :
  let ring := ring_of str hash_ replicas ops in
  (GetServer strd hash_ data ring = Some v <-> successor (hash_ (c_str (strd data))) ring v) /\
  (GetServer strd hash_ data ring = None <-> ring = ∅).
Proof.
  intros ring. split; [by apply (GetServer_successor str strd hash_ replicas), ring_of_wf|].
  split; [|by intros ->; unfold GetServer; rewrite decide_True].
  intros E. destruct (decide (ring = ∅)) as [|Hne]; [done|].
  destruct (GetServer_total strd hash_ ring data Hne) as [w Hw]. congruence.
Qed.

(** C23: minimal disruption, for a server without collisions.  Removing a server that shares no position with
    another one ([no_collision]; [replica_collision] is what happens otherwise)
    leaves every other server's data where it is, and moves the removed server's
    data to servers that remain. *)
Theorem remove_minimal_disruption ops server data v w :
  let ring := ring_of str hash_ replicas ops in
  let ring' := RemoveServer str hash_ replicas server ring in
  no_collision str hash_ replicas server ring ->
  GetServer strd hash_ data ring = Some v -> GetServer strd hash_ data ring' = Some w ->
  w <> server /\ (v <> server -> w = v).
Proof.
  intros ring ring' Hnc Hv Hw. assert (Hwf : ring_wf str hash_ replicas ring) by by apply ring_of_wf.
  split; [by eapply GetServer_removed|]. intros Hne.
  apply (GetServer_remove str strd hash_ replicas Hhash server) in Hv; try done.
  unfold ring' in Hw. congruence.
Qed.

(** Adding a server moves data only to it, and removing it again restores
    the ring when its positions were free. *)
Lemma add_moves_only_to_new ops server data v :
  let ring := ring_of str hash_ replicas ops in
  let ring' := AddServer str hash_ replicas server ring in
  (GetServer strd hash_ data ring' = Some v -> v = server \/ GetServer strd hash_ data ring = Some v) /\
  ((forall k, k ∈ positions str hash_ replicas server -> ring !! k = None) ->
   RemoveServer str hash_ replicas server ring' = ring).
Proof.
  intros ring ring'. assert (Hwf : ring_wf str hash_ replicas ring) by by apply ring_of_wf. split.
  - rewrite !(GetServer_successor str strd hash_ replicas Hhash) by (done || by apply ring_wf_Add).
    apply successor_add.
  - intros Hfree. apply map_eq. intros k. unfold ring'. rewrite RemoveServer_lookup, AddServer_lookup.
    case_decide as Hk; [|done]. symmetry. by apply Hfree.
Qed.

(** C21: reassigning only the files of a failed server is exact, as long as
    that server shares no position with another one ([no_collision], which the
    larger rings of [main] violate: [replica_collision]), another server is left
    and the number of files fits an [int].  Then no count overflows, and every
    server gets the number of files it would have if all files were distributed
    again over the remaining servers. *)
Theorem redistribution_exact ops failed files :
  let ring := ring_of str hash_ replicas ops in
  let ring' := RemoveServer str hash_ replicas failed ring in
  no_collision str hash_ replicas failed ring -> ring' <> ∅ -> Z.of_nat (length files) <= INT_MAX ->
  exists od std nd nd' std',
    tally strd hash_ files ring ∅ ∅ = inr (od, std) /\
    redistribute str strd hash_ replicas failed ring od std = inr nd /\
    tally strd hash_ files ring' ∅ ∅ = inr (nd', std') /\
    forall s, default 0 (nd !! s) = default 0 (nd' !! s).
Proof.
  intros ring ring' Hnc Hne Hlen. assert (Hwf : ring_wf str hash_ replicas ring) by by apply ring_of_wf.
  assert (Htot : forall (r : gmap Z Server) f, r <> ∅ -> is_Some (GetServer strd hash_ f r)) by (intros; by apply GetServer_total).
  assert (Hne0 : ring <> ∅).
  { intros E. apply Hne. apply map_eq. intros k. unfold ring'. rewrite RemoveServer_lookup, E. by case_decide. }
  assert (Hroom : forall (r : gmap Z Server) s, default 0 ((∅ : gmap Server Z) !! s) + share strd hash_ r s files <= INT_MAX).
  { intros r s. rewrite lookup_empty. pose proof (share_le strd hash_ r s files). cbn. lia. }
  destruct (tally_total strd hash_ ring files ∅ ∅) as [[od std] Ht]; [by intros; apply Htot|apply Hroom|].
  destruct (tally_total strd hash_ ring' files ∅ ∅) as [[nd' std'] Hnd']; [by intros; apply Htot|apply Hroom|].
  destruct (redistribute_spec str strd hash_ replicas Hhash failed ring files od std) as (nd & Hnd & Hs); try done.
  exists od, std, nd, nd', std'. split_and!; [done..|]. intros s. rewrite Hs.
  destruct (tally_spec strd hash_ ring' files _ _ _ _ Hnd') as [Hod' _]. rewrite Hod', lookup_empty.
  cbn [default]. unfold id. by rewrite Z.add_0_l.
Qed.

(** [GetDistribution] sorts the data by server.  On a ring with a server it
    returns, and the map has for each server exactly the items [GetServer] gives
    it, in their order, and no entry for a server without items; on the empty
    ring it throws unless there is nothing to distribute. *)
Lemma GetDistribution_exact ops data :
  let ring := ring_of str hash_ replicas ops in
  (ring = ∅ -> GetDistribution strd hash_ data ring = match data with [] => Some ∅ | _ => None end) /\
  (ring <> ∅ -> exists dist, GetDistribution strd hash_ data ring = Some dist /\
    forall s l, dist !! s = Some l <->
      l = filter (fun f => GetServer strd hash_ f ring = Some s) data /\ l <> []).
Proof.
  intros ring. split.
  - intros ->. by destruct data.
  - intros Hne. destruct (distribute_total strd hash_ ring data ∅) as [dist Hd];
      [intros; by apply GetServer_total|].
    exists dist. split; [done|]. intros s l. rewrite (distribute_spec strd hash_ ring data ∅ dist Hd s), lookup_empty.
    destruct (filter _ data) as [|f fs]; cbn [default from_option]; unfold id; naive_solver.
Qed.

End Properties.

Lemma String_append_assoc a b c : String.append a (String.append b c) = String.append (String.append a b) c.
Proof. apply of_string_inj. by rewrite !of_string_append, app_assoc. Qed.

Lemma StringifyReplica_snoc i j : (0 < i)%nat -> (j < 10)%nat ->
  String.append (StringifyReplica i) (StringifyReplica j) = StringifyReplica (10 * i + j).
Proof.
  intros Hi Hj. apply of_string_inj. rewrite of_string_append. unfold StringifyReplica. rewrite !of_to_string.
  unfold print_int. rewrite !(proj2 (Z.ltb_ge _ _)) by lia.
  replace (Z.of_nat (10 * i + j)) with (10 * Z.of_nat i + Z.of_nat j) by lia.
  rewrite print_nat_snoc by lia. f_equal. do 10 (destruct j as [|j]; [reflexivity|]). lia.
Qed.

(** C40: the positions of different servers collide, for every hash function.
    The number of a replica is printed behind the server without a separator: if
    the text of [s2] is the text of [s1] followed by the digits of [i], then
    replica [10 i + j] of [s1] and replica [j] of [s2] are the same text, so with
    enough replicas [s2] takes that position from [s1], and removing [s1] deletes
    it although [s2] stays.  So it is with strings, as Server1 and Server11 of
    [main], and with integers, as 1 and 11. *)
Theorem replica_collision {Server} `{Countable Server} `{!Stringify Server} hash_ replicas (s1 s2 : Server) i j :
  stringify s2 = String.append (stringify s1) (StringifyReplica i) -> (0 < i)%nat -> (j < 10)%nat ->
  (10 * i + j < replicas)%nat ->
  let ring := ring_of stringify hash_ replicas [Add s1; Add s2] in
  let k := replica_hash stringify hash_ s1 (10 * i + j) in
  k = replica_hash stringify hash_ s2 j /\ ring !! k = Some s2 /\
  k ∈ positions stringify hash_ replicas s1 /\ k ∈ positions stringify hash_ replicas s2 /\
  RemoveServer stringify hash_ replicas s1 ring !! k = None.
Proof.
  intros Hs Hi Hj Hr ring k. assert (Hk : k = replica_hash stringify hash_ s2 j).
  { unfold k, replica_hash. rewrite Hs. by rewrite <- (StringifyReplica_snoc i j Hi Hj), String_append_assoc. }
  assert (H1 : k ∈ positions stringify hash_ replicas s1).
  { apply list_elem_of_fmap. exists (10 * i + j)%nat. split; [done|]. apply elem_of_seq. lia. }
  assert (H2 : k ∈ positions stringify hash_ replicas s2).
  { apply list_elem_of_fmap. exists j. split; [done|]. apply elem_of_seq. lia. }
  split_and!; [done| |done..|].
  - unfold ring, ring_of. cbn [foldl apply_op]. by rewrite AddServer_lookup, decide_True.
  - by rewrite RemoveServer_lookup, decide_True.
Qed.

(** ** Witnesses *)

Definition poly_hash (s : string) : Z :=
  u64 (foldl (fun h c => h * 31 + Z.of_N (Ascii.N_of_ascii c)) 7 (of_string s)).

Lemma poly_hash_range s : 0 <= poly_hash s < 2 ^ 64.
Proof. apply u64_range. Qed.

Definition ring_ab : list (@ring_op string) := [Add "A"; Add "B"; Remove "C"]%string.

Lemma ring_ab_no_collision : no_collision (fun s => s) poly_hash 2 "A"%string
  (ring_of (fun s => s) poly_hash 2 ring_ab).
Proof.
  intros k v Hk Hp. apply (bool_decide_unpack _). 
  assert (Hall : Forall (fun e => e.1 ∈ positions (fun s => s) poly_hash 2 "A"%string -> e.2 = "A"%string)
    (map_to_list (ring_of (fun s => s) poly_hash 2 ring_ab))).
  { apply (bool_decide_unpack _). vm_compute. exact I. }
  rewrite Forall_forall in Hall. apply bool_decide_pack, (Hall (k, v)); [|done].
  by apply elem_of_map_to_list.
Qed.

Lemma GetServer_is_successor_witness :
  let ring := ring_of (fun s => s) poly_hash 2 ring_ab in
  (GetServer (fun s => s) poly_hash "x"%string ring = Some "A"%string <->
    successor (poly_hash (c_str "x")) ring "A"%string) /\
  (GetServer (fun s => s) poly_hash "x"%string ring = None <-> ring = ∅).
Proof.
  exact (GetServer_is_successor (fun s => s) (fun s => s) poly_hash 2 poly_hash_range ring_ab
    "x"%string "A"%string).
Defined.

Lemma GetDistribution_exact_witness :
  exists dist, GetDistribution (fun s => s) poly_hash ["x"; "A0"; "B0"]%string
      (ring_of (fun s => s) poly_hash 2 ring_ab) = Some dist /\
    dist !! "B"%string = Some ["B0"%string].
Proof.
  destruct (proj2 (GetDistribution_exact (fun s => s) (fun s => s) poly_hash 2 poly_hash_range ring_ab
    ["x"; "A0"; "B0"]%string)) as (dist & Hd & Hs).
  - intros Hne. apply (f_equal (fun m => size m)) in Hne. vm_compute in Hne. discriminate.
  - exists dist. split; [exact Hd|]. apply Hs. vm_compute. by split.
Defined.

Lemma remove_minimal_disruption_witness :
  "B"%string <> "A"%string /\ ("B"%string <> "A"%string -> "B"%string = "B"%string).
Proof.
  apply (remove_minimal_disruption (fun s => s) (fun s => s) poly_hash 2 poly_hash_range ring_ab
    "A"%string "B0"%string "B"%string "B"%string ring_ab_no_collision); vm_compute; reflexivity.
Defined.

Lemma add_moves_only_to_new_witness :
  let ring := ring_of (fun s => s) poly_hash 2 ring_ab in
  let ring' := AddServer (fun s => s) poly_hash 2 "C"%string ring in
  (GetServer (fun s => s) poly_hash "x"%string ring' = Some "A"%string ->
    "A"%string = "C"%string \/ GetServer (fun s => s) poly_hash "x"%string ring = Some "A"%string) /\
  ((forall k, k ∈ positions (fun s => s) poly_hash 2 "C"%string -> ring !! k = None) ->
   RemoveServer (fun s => s) poly_hash 2 "C"%string ring' = ring).
Proof.
  exact (add_moves_only_to_new (fun s => s) (fun s => s) poly_hash 2 poly_hash_range ring_ab
    "C"%string "x"%string "A"%string).
Defined.

Lemma redistribution_exact_witness :
  let ring := ring_of (fun s => s) poly_hash 2 ring_ab in
  let ring' := RemoveServer (fun s => s) poly_hash 2 "A"%string ring in
  exists od std nd nd' std', tally (fun s => s) poly_hash ["x"; "A0"; "B0"]%string ring ∅ ∅ = inr (od, std) /\
    redistribute (fun s => s) (fun s => s) poly_hash 2 "A"%string ring od std = inr nd /\
    tally (fun s => s) poly_hash ["x"; "A0"; "B0"]%string ring' ∅ ∅ = inr (nd', std') /\
    forall s, default 0 (nd !! s) = default 0 (nd' !! s).
Proof.
  apply (redistribution_exact (fun s => s) (fun s => s) poly_hash 2 poly_hash_range ring_ab
    "A"%string ["x"; "A0"; "B0"]%string ring_ab_no_collision).
  - intros Hne. apply (f_equal (fun m => size m)) in Hne. vm_compute in Hne. discriminate.
  - vm_compute. discriminate.
Defined.

Lemma replica_collision_witness :
  (exists k, k ∈ positions stringify poly_hash 12 "Server1"%string /\
     k ∈ positions stringify poly_hash 12 "Server11"%string) /\
  exists k, k ∈ positions stringify poly_hash 12 1 /\ k ∈ positions stringify poly_hash 12 11.
Proof.
  split.
  - destruct (replica_collision poly_hash 12 "Server1"%string "Server11"%string 1 0) as (_ & _ & H1 & H2 & _);
      [vm_compute; reflexivity|lia..|]. eexists. split; [exact H1|exact H2].
  - destruct (replica_collision poly_hash 12 1 11 1 0) as (_ & _ & H1 & H2 & _);
      [vm_compute; reflexivity|lia..|]. eexists. split; [exact H1|exact H2].
Defined.
