(* ===== verification/HexDump.v ===== *)
(** * The hex dump helper

    [buffer_to_hex] of src/src/wrappers.c (and its copy in
    src/src/ftc_comm.cpp): the loop over the output array as it is written,
    with every access checked against the array, and its equivalence with the
    reference encoding. *)

From S2P Require Import Prelude CString.

(** A byte of a buffer, as [unsigned char]. *)
Abbreviation byte := Byte.byte.
Definition byte_val (b : byte) : Z := Z.of_N (Byte.to_N b).

Module HexDump.

Definition hex_digits : cstring := of_string "0123456789ABCDEF".

(** [hex_digits[(buffer[i] >> 4) & 0xF]] and [hex_digits[buffer[i] & 0xF]]. *)
Definition hi_digit (b : byte) : option ascii :=
  hex_digits !! Z.to_nat (Z.land (Z.shiftr (byte_val b) 4) 15).
Definition lo_digit (b : byte) : option ascii :=
  hex_digits !! Z.to_nat (Z.land (byte_val b) 15).

(** [a[i] = c] for an array on the heap: undefined outside of it. *)
Definition store (a : cbuf) (i : nat) (c : ascii) : option cbuf :=
  if decide (i < length a)%nat then Some (<[i := Some c]> a) else None.

(** [for (size_t i = 0; i < size; ++i) ...] with [todo = size - i]. *)
Fixpoint hex_loop (buffer : list byte) (i todo : nat) (hex_str : cbuf) : option cbuf :=
  match todo with
  | O => Some hex_str
  | S k =>
      b ← buffer !! i;
      hi ← hi_digit b;
      lo ← lo_digit b;
      h1 ← store hex_str (i * 2) hi;
      h2 ← store h1 (i * 2 + 1) lo;
      hex_loop buffer (S i) k h2
  end.

(** [malloc_ok n] tells whether [malloc(n)] succeeds.  The outer [option] is
    undefined behaviour, the inner one the null pointer of a failed
    allocation. *)
Definition buffer_to_hex (malloc_ok : Z -> bool) (buffer : list byte) (size : nat)
    : option (option cbuf) :=
  let alloc := u64 (u64 (Z.of_nat size * 2) + 1) in
  if malloc_ok alloc then
    hex_str ← hex_loop buffer 0 size (uninit (Z.to_nat alloc));
    Some <$> store hex_str (size * 2) nul
  else Some None.

(** The reference encoding, two upper-case digits per byte, and its inverse. *)
Definition hex_of_byte (b : byte) : cstring :=
  match hi_digit b, lo_digit b with Some h, Some l => [h; l] | _, _ => [] end.
Definition hex_encode (bs : list byte) : cstring := bs ≫= hex_of_byte.

Definition hex_val (c : ascii) : option Z :=
  match strchr hex_digits c with Some i => Some (Z.of_nat i) | None => None end.
Fixpoint hex_decode (s : cstring) : option (list byte) :=
  match s with
  | [] => Some []
  | h :: l :: s' =>
      vh ← hex_val h; vl ← hex_val l;
      b ← Byte.of_N (Z.to_N (16 * vh + vl));
      cons b <$> hex_decode s'
  | _ => None
  end.

(** ** Lemmas *)

Lemma digits_ok b : exists h l, hi_digit b = Some h /\ lo_digit b = Some l /\
  h <> nul /\ l <> nul /\ hex_of_byte b = [h; l].
Proof. destruct b; eexists _, _; repeat split; done. Qed.

Lemma hex_encode_cons b bs : hex_encode (b :: bs) = hex_of_byte b ++ hex_encode bs.
Proof. done. Qed.

Lemma hex_encode_snoc bs b : hex_encode (bs ++ [b]) = hex_encode bs ++ hex_of_byte b.
Proof. unfold hex_encode. rewrite bind_app. simpl. by rewrite app_nil_r. Qed.

Lemma length_hex_encode bs : length (hex_encode bs) = (2 * length bs)%nat.
Proof.
  induction bs as [|b bs IH]; [done|]. rewrite hex_encode_cons, length_app, IH.
  destruct (digits_ok b) as (h & l & _ & _ & _ & _ & ->). simpl. lia.
Qed.

Lemma no_nul_hex_encode bs : no_nul (hex_encode bs).
Proof.
  induction bs as [|b bs IH]; [apply not_elem_of_nil|].
  rewrite hex_encode_cons. apply no_nul_app. split; [|done].
  destruct (digits_ok b) as (h & l & _ & _ & ? & ? & ->).
  rewrite !no_nul_cons. split_and!; [done..|]. apply not_elem_of_nil.
Qed.

Lemma hex_decode_byte b s : hex_decode (hex_of_byte b ++ s) = cons b <$> hex_decode s.
Proof. destruct b; done. Qed.

Lemma hex_decode_encode bs : hex_decode (hex_encode bs) = Some bs.
Proof.
  induction bs as [|b bs IH]; [done|]. rewrite hex_encode_cons, hex_decode_byte, IH. done.
Qed.

Lemma store_after (pre rest : cbuf) x c :
  store (pre ++ x :: rest) (length pre) c = Some (pre ++ Some c :: rest).
Proof.
  unfold store. rewrite decide_True by (rewrite length_app; simpl; lia).
  rewrite insert_app_r_alt, Nat.sub_diag by done. done.
Qed.

(** The loop invariant: after [length done] iterations the array starts with
    the encoding of the bytes read so far. *)
Lemma hex_loop_inv todo_bytes : forall done_bytes rest,
  length rest = (2 * length todo_bytes + 1)%nat ->
  hex_loop (done_bytes ++ todo_bytes) (length done_bytes) (length todo_bytes)
      ((Some <$> hex_encode done_bytes) ++ rest)
    = Some ((Some <$> hex_encode (done_bytes ++ todo_bytes)) ++ drop (2 * length todo_bytes) rest).
Proof.
  induction todo_bytes as [|b bs IH]; intros dn rest Hlen.
  - by rewrite app_nil_r.
  - destruct rest as [|x [|y rest]]; simpl in Hlen; [lia..|].
    destruct (digits_ok b) as (h & l & Hh & Hl & _ & _ & Hb).
    cbn [length hex_loop]. rewrite list_lookup_middle by done.
    cbn [mbind option_bind]. rewrite Hh, Hl. cbn [mbind option_bind].
    assert (length dn * 2 = length (Some <$> hex_encode dn))%nat as Hd.
    { rewrite length_fmap, length_hex_encode. lia. }
    rewrite Hd, store_after. cbn [mbind option_bind].
    replace (length (Some <$> hex_encode dn) + 1)%nat
      with (length ((Some <$> hex_encode dn) ++ [Some h])) by (rewrite length_app; simpl; lia).
    replace ((Some <$> hex_encode dn) ++ Some h :: y :: rest)
      with (((Some <$> hex_encode dn) ++ [Some h]) ++ y :: rest) by (by rewrite <- app_assoc).
    rewrite store_after. cbn [mbind option_bind].
    specialize (IH (dn ++ [b]) rest). rewrite length_app in IH. simpl in IH.
    replace (length dn + 1)%nat with (S (length dn)) in IH by lia.
    rewrite <- !app_assoc in IH. simpl in IH.
    rewrite hex_encode_snoc, fmap_app, Hb, <- !app_assoc in IH. simpl in IH.
    rewrite <- !app_assoc. simpl. rewrite IH by lia.
    by rewrite Nat.add_succ_r.
Qed.

End HexDump.
Import HexDump.

(** On every input whose size fits [size_t], [buffer_to_hex] stays inside
    the array it allocates, fills it with exactly two hexadecimal digits per
    byte and a terminating NUL, and the dump decodes back to the buffer. *)
Lemma buffer_to_hex_correct malloc_ok (buffer : list byte) :
  2 * Z.of_nat (length buffer) + 1 < 2 ^ 64 ->
  malloc_ok (2 * Z.of_nat (length buffer) + 1) = true ->
  exists hex_str, buffer_to_hex malloc_ok buffer (length buffer) = Some (Some hex_str) /\
    length hex_str = (2 * length buffer + 1)%nat /\
    cstr hex_str = Some (hex_encode buffer) /\
    hex_decode (hex_encode buffer) = Some buffer.
Proof.
  intros Hsz Hm. unfold buffer_to_hex.
  rewrite (u64_id (_ * 2)), u64_id by lia.
  replace (Z.of_nat (length buffer) * 2 + 1) with (2 * Z.of_nat (length buffer) + 1) by lia.
  rewrite Hm. replace (Z.to_nat _) with (2 * length buffer + 1)%nat by lia.
  pose proof (hex_loop_inv buffer [] (uninit (2 * length buffer + 1))) as Hloop.
  cbn [app length fmap list_fmap hex_encode] in Hloop. unfold uninit in *.
  rewrite length_replicate in Hloop. specialize (Hloop eq_refl).
  change (Some <$> hex_encode []) with (@nil (option ascii)) in Hloop. cbn [app] in Hloop.
  rewrite Hloop. cbn [mbind option_bind].
  rewrite drop_replicate. replace (2 * length buffer + 1 - 2 * length buffer)%nat with 1%nat by lia.
  replace (length buffer * 2)%nat with (length (Some <$> hex_encode buffer))
    by (rewrite length_fmap, length_hex_encode; lia).
  cbn [replicate]. rewrite store_after. eexists. split; [done|]. split_and!.
  - rewrite length_app, length_fmap, length_hex_encode. simpl. lia.
  - apply cstr_terminated, no_nul_hex_encode.
  - apply hex_decode_encode.
Qed.

Lemma buffer_to_hex_correct_witness :
  exists hex_str, buffer_to_hex (fun _ => true) [Byte.x00; Byte.x7f; Byte.xff] 3
      = Some (Some hex_str) /\
    length hex_str = 7%nat /\
    cstr hex_str = Some (of_string "007FFF") /\
    hex_decode (of_string "007FFF") = Some [Byte.x00; Byte.x7f; Byte.xff].
Proof.
  apply (buffer_to_hex_correct (fun _ => true) [Byte.x00; Byte.x7f; Byte.xff]); done.
Defined.
