(* ===== verification/Address.v ===== *)
(** * Addresses

    The textual addresses of the Mercury end points: [extract_ip_portion] of
    src/src/ftc_comm.cpp, which cuts the port off an address so that two end
    points on one node compare equal, and the [.ports.cfg.<job>] registry in
    which every server posts its address ([ftc_comm_list_addr]) and every
    client looks it up by rank ([ftc_client_comm_lookup_addr] of
    src/src/ftc_comm_client.cpp). *)

From S2P Require Import Prelude CString.

Module Address.

Definition colon : ascii := ":"%char.
Definition newline : ascii := "010"%char.
Definition space : ascii := " "%char.

(** ** The host part of an address *)

(** The two [strchr] calls: the position of the second colon. *)
Definition second_colon (full_address : cstring) : option nat :=
  match strchr full_address colon with
  | Some p => (fun q => S p + q)%nat <$> strchr (drop (S p) full_address) colon
  | None => None
  end.

(** [extract_ip_portion(full_address, ip_portion, max_len)], for
    [0 < max_len] (every caller passes the size of a 128-byte array). *)
Definition extract_ip_portion (full_address : cstring) (ip_portion : cbuf) (max_len : nat) : cbuf :=
  match second_colon full_address with
  | Some pos =>
      let len := S pos in
      if (len <? max_len)%nat
      then poke (strncpy ip_portion full_address len) len nul
      else poke (strncpy ip_portion full_address (max_len - 1)) (max_len - 1) nul
  | None => poke (strncpy ip_portion full_address (max_len - 1)) (max_len - 1) nul
  end.

(** The reference: everything up to and including the [n]-th colon. *)
Fixpoint upto_colons (n : nat) (s : cstring) : cstring :=
  match n, s with
  | O, _ => []
  | _, [] => []
  | S k, c :: s' => c :: upto_colons (if eqc c colon then k else S k) s'
  end.

(** ** The registry file *)

Definition PATH_MAX : nat := Z.to_nat 4096.

(** [fprintf(na_config, "%d %s\n", rank, addr)]. *)
Definition ports_line (rank : Z) (addr : cstring) : cstring :=
  print_int rank ++ space :: addr ++ [newline].

(** One [fscanf(na_config, "%d %s\n", ...)] that assigns both items. *)
Definition scan_entry (s : cstring) : option (Z * cstring * cstring) :=
  match scan_int s with
  | Some (rank, s1) =>
      match scan_str (skip_space s1) with
      | Some (addr, s2) => Some (rank, addr, skip_space s2)
      | None => None
      end
  | None => None
  end.

(** The address of a rank: known, the null address, a variable that was never
    assigned, or a [svr_str] array that overflowed. *)
Inductive svr_lookup : Type :=
  | LAddr (addr : string)
  | LNull
  | LUninit
  | LOverflow.

#[export] Instance svr_lookup_eq_dec : EqDecision svr_lookup.
Proof. solve_decision. Defined.

(** [while (fscanf(...) == 2) if (svr_rank == rank) break;].  Every successful
    scan consumes a character, so the length of the file is enough fuel. *)
Fixpoint scan_ports (fuel : nat) (rank : Z) (file : cstring) : svr_lookup :=
  match fuel with
  | O => LUninit
  | S k =>
      match scan_entry file with
      | Some (svr_rank, svr_str, rest) =>
          if (PATH_MAX <=? length svr_str)%nat then LOverflow
          else if svr_rank =? rank then LAddr (to_string svr_str)
          else scan_ports k rank rest
      | None => LUninit
      end
  end.

(** [ftc_client_comm_lookup_addr(rank)]: the cache first, then the file
    ([None]: it cannot be opened).  The last component says whether the stream of
    the file was opened: nothing closes it. *)
Definition ftc_client_comm_lookup_addr (na_config : option cstring) (rank : Z)
    (address_cache : gmap Z string) : svr_lookup * gmap Z string * bool :=
  match address_cache !! rank with
  | Some addr => (LAddr addr, address_cache, false)
  | None =>
      match na_config with
      | None => (LNull, address_cache, false)
      | Some file =>
          match scan_ports (length file) rank file with
          | LAddr svr_str => (LAddr svr_str, <[rank := svr_str]> address_cache, true)
          | r => (r, address_cache, true)
          end
      end
  end.

(** The entries a sequence of servers has posted, and the well-formed ones:
    a rank is an [int], an address a non-empty word that fits [svr_str]. *)
Definition ports_file (entries : list (Z * cstring)) : cstring :=
  entries ≫= (fun e => ports_line e.1 e.2).

Definition ok_entry (e : Z * cstring) : Prop :=
  in_i32 e.1 /\ no_space e.2 /\ e.2 <> [] /\ (length e.2 < PATH_MAX)%nat.

(** What a reader should find: the first entry of the rank. *)
Definition first_entry (rank : Z) (entries : list (Z * cstring)) : option cstring :=
  snd ∘ snd <$> list_find (fun e => e.1 = rank) entries.

(** ** Lemmas *)

Lemma upto_colons_1 s :
  upto_colons 1 s = match strchr s colon with Some p => take (S p) s | None => s end.
Proof.
  induction s as [|c s IH]; [done|]. cbn [upto_colons strchr].
  destruct (eqc c colon); [by destruct s|]. rewrite IH. by destruct (strchr s colon).
Qed.

Lemma upto_colons_2 s :
  upto_colons 2 s = match second_colon s with Some p => take (S p) s | None => s end.
Proof.
  unfold second_colon. induction s as [|c s IH]; [done|]. cbn [upto_colons strchr].
  destruct (eqc c colon) eqn:E.
  - cbn [drop]. rewrite upto_colons_1, drop_0. by destruct (strchr s colon).
  - rewrite IH. destruct (strchr s colon) as [p|]; [|done].
    cbn [fmap option_fmap option_map drop]. by destruct (strchr (drop (S p) s) colon).
Qed.

Lemma second_colon_length s p : second_colon s = Some p -> (p < length s)%nat.
Proof.
  unfold second_colon. destruct (strchr s colon) as [q|] eqn:E; [|done].
  intros (r & Hr & ->)%fmap_Some. apply strchr_Some in Hr as [Hr _].
  apply lookup_lt_Some in Hr. rewrite length_drop in Hr. lia.
Qed.

Lemma length_extract_ip_portion full ip max_len :
  length ip = max_len -> (0 < max_len)%nat ->
  length (extract_ip_portion full ip max_len) = max_len.
Proof.
  intros Hl Hm. unfold extract_ip_portion.
  destruct (second_colon full); [destruct (Nat.ltb_spec (S n) max_len)|];
    rewrite length_poke, length_strncpy; lia.
Qed.

Lemma extract_ip_portion_cstr full ip max_len :
  no_nul full -> length ip = max_len -> (0 < max_len)%nat ->
  cstr (extract_ip_portion full ip max_len) = Some (take (max_len - 1) (upto_colons 2 full)).
Proof.
  intros Hn Hl Hm. unfold extract_ip_portion. rewrite upto_colons_2.
  destruct (second_colon full) as [p|] eqn:E.
  - destruct (Nat.ltb_spec (S p) max_len).
    + rewrite cstr_strncpy_poke by (done || lia).
      by rewrite (take_ge (take _ _)) by (rewrite length_take; lia).
    + rewrite cstr_strncpy_poke by (done || lia).
      by rewrite take_take, Nat.min_l by lia.
  - rewrite cstr_strncpy_poke by (done || lia). done.
Qed.

Lemma upto_colons_app a b n : colon ∉ a -> upto_colons (S n) (a ++ b) = a ++ upto_colons (S n) b.
Proof.
  induction a as [|c a IH]; intros H; [done|]. apply not_elem_of_cons in H as [Hc Ha].
  cbn [app upto_colons]. rewrite eqc_ne by done. by rewrite IH.
Qed.

Lemma scan_entry_line rank addr rest :
  ok_entry (rank, addr) -> scan_entry (ports_line rank addr ++ rest) = Some (rank, addr, skip_space rest).
Proof.
  intros (Hr & Hs & Hne & _). simpl in *. unfold scan_entry, ports_line.
  rewrite <- app_assoc, scan_int_print_int by (first [done | by intros [? [=]]]).
  assert (exists c t, addr = c :: t /\ is_space c = false) as (c & t & -> & Hc).
  { destruct addr; [done|]. inversion Hs; eauto. }
  cbn [app skip_space]. change (is_space space) with true. cbv iota. rewrite Hc.
  rewrite <- app_assoc. change (c :: t ++ [newline] ++ rest) with ((c :: t) ++ newline :: rest).
  rewrite scan_str_token by done. done.
Qed.

Lemma ports_file_cons e es : ports_file (e :: es) = ports_line e.1 e.2 ++ ports_file es.
Proof. done. Qed.

Lemma ports_file_head entries : Forall ok_entry entries -> skip_space (ports_file entries) = ports_file entries.
Proof.
  destruct entries as [|[r a] es]; [done|]. intros _. rewrite ports_file_cons.
  unfold ports_line. cbn [fst snd]. destruct (print_int_head r) as (c & t & -> & Hc). cbn [app].
  by apply skip_space_nonspace.
Qed.

Lemma scan_ports_file entries rank fuel :
  Forall ok_entry entries -> (length entries <= fuel)%nat ->
  scan_ports fuel rank (ports_file entries) =
    match first_entry rank entries with Some a => LAddr (to_string a) | None => LUninit end.
Proof.
  revert fuel. induction entries as [|[r a] es IH]; intros fuel Hok Hf.
  - by destruct fuel.
  - destruct fuel as [|k]; [simpl in Hf; lia|]. inversion_clear Hok as [|? ? He Hes].
    rewrite ports_file_cons. cbn [fst snd scan_ports]. rewrite scan_entry_line by done.
    destruct (Nat.leb_spec PATH_MAX (length a)); [destruct He as (_ & _ & _ & ?); simpl in *; lia|].
    unfold first_entry. cbn [list_find]. simpl. destruct (Z.eqb_spec r rank).
    + by rewrite decide_True.
    + rewrite decide_False by done. rewrite ports_file_head, IH by (done || (simpl in Hf; lia)).
      unfold first_entry. by destruct (list_find _ es) as [[]|].
Qed.

Lemma length_ports_file entries : (length entries <= length (ports_file entries))%nat.
Proof.
  induction entries as [|[r a] es IH]; [done|].
  rewrite ports_file_cons. unfold ports_line. rewrite !length_app. simpl. lia.
Qed.

End Address.
Import Address.

(** [extract_ip_portion] writes, inside the array and for every address, a
    terminated string: the address up to and including its second colon (all
    of it when there are fewer), cut to the [max_len - 1] characters that fit. *)
Lemma extract_ip_portion_spec full ip max_len :
  no_nul full -> length ip = max_len -> (0 < max_len)%nat ->
  length (extract_ip_portion full ip max_len) = max_len /\
  cstr (extract_ip_portion full ip max_len) = Some (take (max_len - 1) (upto_colons 2 full)).
Proof.
  intros. split; [by apply length_extract_ip_portion | by apply extract_ip_portion_cstr].
Qed.

Lemma extract_ip_portion_spec_witness :
  length (extract_ip_portion (of_string "ofi+tcp://10.0.0.1:4242") (uninit 128) 128) = 128%nat /\
  cstr (extract_ip_portion (of_string "ofi+tcp://10.0.0.1:4242") (uninit 128) 128)
    = Some (of_string "ofi+tcp://10.0.0.1:").
Proof.
  apply (extract_ip_portion_spec (of_string "ofi+tcp://10.0.0.1:4242") (uninit 128) 128);
    [by apply (cstr_no_nul ((Some <$> of_string "ofi+tcp://10.0.0.1:4242") ++ [Some nul]))
    | done | lia].
Defined.

(** C28: the test [strcmp(server_addr_str, client_ip) == 0] of the handlers
    tells nodes apart: for addresses [scheme:host:port] whose host part fits
    the 128-byte arrays, the extracted portions are equal exactly when scheme
    and host are, whatever the ports. *)
Theorem same_node_iff scheme1 host1 port1 scheme2 host2 port2 ip1 ip2 :
  colon ∉ scheme1 -> colon ∉ host1 -> colon ∉ scheme2 -> colon ∉ host2 ->
  no_nul (scheme1 ++ colon :: host1 ++ colon :: port1) ->
  no_nul (scheme2 ++ colon :: host2 ++ colon :: port2) ->
  (length scheme1 + length host1 < 126)%nat -> (length scheme2 + length host2 < 126)%nat ->
  length ip1 = 128%nat -> length ip2 = 128%nat ->
  cstr (extract_ip_portion (scheme1 ++ colon :: host1 ++ colon :: port1) ip1 128)
    = cstr (extract_ip_portion (scheme2 ++ colon :: host2 ++ colon :: port2) ip2 128)
  <-> scheme1 = scheme2 /\ host1 = host2.
Proof.
  intros Hs1 Hh1 Hs2 Hh2 Hn1 Hn2 Hl1 Hl2 Hb1 Hb2.
  rewrite !extract_ip_portion_cstr by (done || lia).
  assert (Hp : forall s h p, colon ∉ s -> colon ∉ h -> (length s + length h < 126)%nat ->
    take (128 - 1) (upto_colons 2 (s ++ colon :: h ++ colon :: p)) = s ++ colon :: h ++ [colon]).
  { intros s h p Hs Hh Hl. rewrite upto_colons_app by done. cbn [upto_colons].
    rewrite eqc_refl, upto_colons_app by done. cbn [upto_colons]. rewrite eqc_refl.
    rewrite take_ge; [by destruct p|]. rewrite length_app. simpl. rewrite length_app. destruct p; simpl; lia. }
  rewrite !Hp by done. split; [|by intros [-> ->]]. intros [= H].
  apply app_sep_inj in H as [-> H]; [|done..]. by apply app_sep_inj in H as [-> _].
Qed.

(** The registry round trip.  A client that reads the [.ports.cfg] file the
    servers wrote, one [fprintf] per server in any order, gets the address the
    first server of that rank posted, and caches it; a rank nobody posted
    leaves the address variable unassigned.  The stream stays open. *)
Lemma ports_roundtrip entries rank cache :
  Forall ok_entry entries -> cache !! rank = None ->
  ftc_client_comm_lookup_addr (Some (ports_file entries)) rank cache =
    match first_entry rank entries with
    | Some addr => (LAddr (to_string addr), <[rank := to_string addr]> cache, true)
    | None => (LUninit, cache, true)
    end.
Proof.
  intros Hok Hc. unfold ftc_client_comm_lookup_addr. rewrite Hc.
  rewrite scan_ports_file by (done || apply length_ports_file).
  by destruct (first_entry rank entries).
Qed.

Lemma same_node_iff_witness :
  cstr (extract_ip_portion (of_string "tcp://n1:1") (uninit 128) 128)
    = cstr (extract_ip_portion (of_string "tcp://n1:2") (uninit 128) 128)
  <-> of_string "tcp" = of_string "tcp" /\ of_string "//n1" = of_string "//n1".
Proof.
  apply (same_node_iff (of_string "tcp") (of_string "//n1") (of_string "1")
    (of_string "tcp") (of_string "//n1") (of_string "2")); try done; try (simpl; lia);
    by apply (bool_decide_unpack _).
Defined.

Lemma ports_roundtrip_witness :
  ftc_client_comm_lookup_addr
    (Some (ports_file [(1, of_string "tcp://b:2"); (0, of_string "tcp://a:1"); (1, of_string "tcp://c:3")]))
    1 ∅ = (LAddr "tcp://b:2", {[1 := "tcp://b:2"%string]}, true).
Proof.
  apply (ports_roundtrip
    [(1, of_string "tcp://b:2"); (0, of_string "tcp://a:1"); (1, of_string "tcp://c:3")] 1 ∅);
    [|done].
  by repeat (apply Forall_cons; split; [split; [done|split; [by repeat constructor|split;
    [done|by apply (bool_decide_unpack _)]]]|]).
Defined.
