(* ===== verification/Posix.v ===== *)
(** * The operating system of one node

    The part of POSIX and of std::filesystem that the program calls, as
    executable functions on the state of a node: the regular files (of the
    parallel file system and of the node-local NVMe), the descriptor table of
    the process, the environment, and the text files the program prints to.

    File contents are bytes addressed through i-nodes, so two names, or a
    name and an open descriptor, can share a file.  An i-node in [os_bad]
    models failed storage: reading it is an I/O error. *)

From S2P Require Import Prelude CString HexDump.

Module Posix.

(** ** State *)

(** An open file description. *)
Record ofile : Type := OFile {
  of_node : nat;
  of_off : Z;
  of_read : bool;
  of_write : bool;
  of_append : bool
}.

Record os : Type := mk_os {
  os_files : gmap string nat;       (* regular files by canonical path *)
  os_dirs : gset string;            (* directories *)
  os_links : gmap string string;    (* relative names and symbolic links *)
  os_nodes : gmap nat (list byte);  (* contents by i-node *)
  os_bad : gset nat;                (* i-nodes on failed storage *)
  os_fds : gmap Z ofile;            (* descriptors of the process *)
  os_cwd : string;
  os_env : gmap string string;
  os_text : gmap string cstring;    (* log files and the address registry *)
  os_tmp : list string;             (* the suffixes mkdtemp will choose *)
  os_now : Z * Z                    (* the clock: seconds and microseconds *)
}.

Definition set_files files nodes o :=
  mk_os files (os_dirs o) (os_links o) nodes (os_bad o) (os_fds o) (os_cwd o)
    (os_env o) (os_text o) (os_tmp o) (os_now o).
Definition set_fds fds o :=
  mk_os (os_files o) (os_dirs o) (os_links o) (os_nodes o) (os_bad o) fds (os_cwd o)
    (os_env o) (os_text o) (os_tmp o) (os_now o).
Definition set_dirs dirs tmp o :=
  mk_os (os_files o) dirs (os_links o) (os_nodes o) (os_bad o) (os_fds o) (os_cwd o)
    (os_env o) (os_text o) tmp (os_now o).
Definition set_text text o :=
  mk_os (os_files o) (os_dirs o) (os_links o) (os_nodes o) (os_bad o) (os_fds o) (os_cwd o)
    (os_env o) text (os_tmp o) (os_now o).

(** ** Paths *)

Definition slash : ascii := "/"%char.

(** The characters after the last slash: [fs::path(p).filename()]. *)
Fixpoint after_last (c : ascii) (s : cstring) : cstring :=
  match s with
  | [] => []
  | d :: s' => match strchr s' c with
               | Some _ => after_last c s'
               | None => if eqc d c then s' else s
               end
  end.
Definition fs_filename (p : string) : string := to_string (after_last slash (of_string p)).

(** [parent_path()]: what precedes the last slash; the root keeps its slash. *)
Fixpoint before_last (c : ascii) (s : cstring) : cstring :=
  match s with
  | [] => []
  | d :: s' => match strchr s' c with
               | Some _ => d :: before_last c s'
               | None => []
               end
  end.
Definition fs_parent_path (p : string) : string :=
  match of_string p with
  | [] => ""
  | c :: _ =>
      match before_last slash (of_string p) with
      | [] => if eqc c slash then "/" else ""
      | d => to_string d
      end
  end.

(** Path resolution of the kernel, and [std::filesystem::canonical], which
    throws ([None]) on a path that does not exist. *)
Definition resolve (o : os) (path : string) : string := default path (os_links o !! path).
Definition fs_canonical (o : os) (path : string) : option string :=
  let p := resolve o path in
  if decide (is_Some (os_files o !! p) \/ p ∈ os_dirs o) then Some p else None.

(** ** Descriptors *)

(** The lowest descriptor that is not open. *)
Definition lowest_fd (fds : gmap Z ofile) : Z :=
  match list_find (fun i => fds !! Z.of_nat i = None) (seq 0 (S (size fds))) with
  | Some (i, _) => Z.of_nat i
  | None => 0
  end.

(** What a C stream that is never closed leaves in the table: a descriptor that
    nobody but the stream uses.  The program leaves streams of text files only,
    which are not among [os_nodes]; a [read] or [write] of such a descriptor by
    somebody else fails in the model. *)
Definition stream : ofile := OFile 0 0 false false false.
Definition take_fd (fds : gmap Z ofile) : gmap Z ofile := <[lowest_fd fds := stream]> fds.
Definition taken_fds (n : nat) (fds : gmap Z ofile) : gmap Z ofile := Nat.iter n take_fd fds.

(** A fresh i-node number. *)
Definition fresh_node (nodes : gmap nat (list byte)) : nat := fresh (dom nodes : gset nat).

Definition O_RDONLY : Z := 0.
Definition O_WRONLY : Z := 1.
Definition O_RDWR : Z := 2.
Definition O_ACCMODE : Z := 3.
Definition O_CREAT : Z := 64.
Definition O_TRUNC : Z := 512.
Definition O_APPEND : Z := 1024.

Definition has_flag (flags bit : Z) : bool := negb (Z.land flags bit =? 0).

Definition new_ofile (node : nat) (flags : Z) : ofile :=
  let acc := Z.land flags O_ACCMODE in
  OFile node 0 (negb (acc =? O_WRONLY)) (negb (acc =? O_RDONLY)) (has_flag flags O_APPEND).

(** [open(path, flags, mode)]; permissions are not modelled. *)
Definition posix_open (path : string) (flags : Z) (o : os) : Z * os :=
  let p := resolve o path in
  let fd := lowest_fd (os_fds o) in
  match os_files o !! p with
  | Some n =>
      let f := new_ofile n flags in
      let nodes := if of_write f && has_flag flags O_TRUNC then <[n := []]> (os_nodes o)
                   else os_nodes o in
      (fd, set_fds (<[fd := f]> (os_fds o)) (set_files (os_files o) nodes o))
  | None =>
      if has_flag flags O_CREAT && bool_decide (fs_parent_path p ∈ os_dirs o)
           && bool_decide (p ∉ os_dirs o) && bool_decide (fs_filename p <> ""%string) then
        let n := fresh_node (os_nodes o) in
        (fd, set_fds (<[fd := new_ofile n flags]> (os_fds o))
               (set_files (<[p := n]> (os_files o)) (<[n := []]> (os_nodes o)) o))
      else (-1, o)
  end.

(** At most [MAX_RW_COUNT] bytes are transferred by one call (Linux). *)
Definition MAX_RW_COUNT : Z := 2147479552.

Definition zslice (l : list byte) (off n : Z) : list byte :=
  let len := Z.of_nat (length l) in
  take (Z.to_nat (Z.min n len)) (drop (Z.to_nat (Z.min off len)) l).

(** The bytes a descriptor can read; [None] is [EBADF] or [EIO]. *)
Definition readable (o : os) (fd : Z) : option (list byte) :=
  f ← os_fds o !! fd;
  if of_read f && bool_decide (of_node f ∉ os_bad o) then os_nodes o !! of_node f else None.

(** [pread(fd, buf, count, offset)] and [read(fd, buf, count)]; [None] is -1. *)
Definition posix_pread (fd count off : Z) (o : os) : option (list byte) :=
  d ← readable o fd;
  if off <? 0 then None else Some (zslice d off (Z.min count MAX_RW_COUNT)).

Definition set_off (off : Z) (f : ofile) : ofile :=
  OFile (of_node f) off (of_read f) (of_write f) (of_append f).

Definition posix_read (fd count : Z) (o : os) : option (list byte) * os :=
  match os_fds o !! fd, readable o fd with
  | Some f, Some d =>
      let r := zslice d (of_off f) (Z.min count MAX_RW_COUNT) in
      (Some r, set_fds (<[fd := set_off (of_off f + Z.of_nat (length r)) f]> (os_fds o)) o)
  | _, _ => (None, o)
  end.

Definition SEEK_SET : Z := 0.
Definition SEEK_CUR : Z := 1.
Definition SEEK_END : Z := 2.

Definition seek_base (f : ofile) (whence : Z) (o : os) : option Z :=
  if whence =? SEEK_SET then Some 0
  else if whence =? SEEK_CUR then Some (of_off f)
  else if whence =? SEEK_END
  then (fun d : list byte => Z.of_nat (length d)) <$> os_nodes o !! of_node f
  else None.

(** [lseek64(fd, offset, whence)]. *)
Definition posix_lseek (fd offset whence : Z) (o : os) : Z * os :=
  match os_fds o !! fd with
  | Some f =>
      match seek_base f whence o with
      | Some b => if b + offset <? 0 then (-1, o)
                  else (b + offset, set_fds (<[fd := set_off (b + offset) f]> (os_fds o)) o)
      | None => (-1, o)
      end
  | None => (-1, o)
  end.

Definition posix_close (fd : Z) (o : os) : Z * os :=
  match os_fds o !! fd with
  | Some _ => (0, set_fds (delete fd (os_fds o)) o)
  | None => (-1, o)
  end.

(** [write(fd, buf, count)]: overwrite at the offset, zero-filling a hole. *)
Definition overwrite (d : list byte) (off : nat) (data : list byte) : list byte :=
  take off (d ++ replicate (off - length d) Byte.x00) ++ data ++ drop (off + length data) d.

Definition posix_write (fd : Z) (data : list byte) (o : os) : Z * os :=
  match os_fds o !! fd with
  | Some f =>
      match (if of_write f then os_nodes o !! of_node f else None) with
      | Some d =>
          let off := if of_append f then Z.of_nat (length d) else of_off f in
          let o' := set_files (os_files o)
                      (<[of_node f := overwrite d (Z.to_nat off) data]> (os_nodes o)) o in
          let len := Z.of_nat (length data) in
          (len, set_fds (<[fd := set_off (off + len) f]> (os_fds o)) o')
      | None => (-1, o)
      end
  | None => (-1, o)
  end.

(** ** Directories and copies *)

Definition getenv (o : os) (name : string) : option string := os_env o !! name.

(** [mkdtemp(dir ++ "/XXXXXX")]: the suffix it settles on is the next of
    [os_tmp].  The template is overwritten with the name that was tried, also
    when no directory could be made; the callers do not look at the result. *)
Definition mkdtemp (dir : string) (o : os) : string * os :=
  match os_tmp o with
  | sfx :: tmp =>
      let d := String.append dir (String.append "/" sfx) in
      if bool_decide (dir ∈ os_dirs o) && bool_decide (d ∉ os_dirs o)
           && bool_decide (os_files o !! d = None)
      then (d, set_dirs ({[d]} ∪ os_dirs o) tmp o)
      else (d, set_dirs (os_dirs o) tmp o)
  | [] => (String.append dir "/XXXXXX", o)
  end.

(** [fs::copy(from, to)] on regular files, with default options: an error
    ([None], an exception) when the source is missing or unreadable, the
    target exists, or its directory does not. *)
Definition fs_copy (from to : string) (o : os) : option os :=
  n ← os_files o !! resolve o from;
  d ← os_nodes o !! n;
  if bool_decide (n ∉ os_bad o) && bool_decide (os_files o !! to = None)
       && bool_decide (os_links o !! to = None) && bool_decide (to ∉ os_dirs o) && bool_decide (fs_parent_path to ∈ os_dirs o)
  then let m := fresh_node (os_nodes o) in
       Some (set_files (<[to := m]> (os_files o)) (<[m := d]> (os_nodes o)) o)
  else None.

(** What a copy that fails leaves: its target has been made when the source
    turns out to be unreadable, and stays behind empty. *)
Definition fs_copy_left (from to : string) (o : os) : os :=
  match os_files o !! resolve o from with
  | Some n =>
      if bool_decide (n ∈ os_bad o) && bool_decide (os_files o !! to = None)
           && bool_decide (os_links o !! to = None) && bool_decide (to ∉ os_dirs o) && bool_decide (fs_parent_path to ∈ os_dirs o)
      then let m := fresh_node (os_nodes o) in
           set_files (<[to := m]> (os_files o)) (<[m := []]> (os_nodes o)) o
      else o
  | None => o
  end.

(** ** Text files *)

(** [fopen(file, "w")] / [fopen(file, "a")] succeed when the directory exists;
    the current directory does. *)
Definition can_create (o : os) (file : string) : bool :=
  let dir := fs_parent_path file in
  bool_decide (dir = ""%string \/ dir ∈ os_dirs o).
Definition text_write (file : string) (s : cstring) (o : os) : os :=
  set_text (<[file := s]> (os_text o)) o.
Definition text_append (file : string) (s : cstring) (o : os) : os :=
  set_text (<[file := default [] (os_text o !! file) ++ s]> (os_text o)) o.

(** ** Contents, well-formedness and growth *)

(** The contents of a name, and of a name on healthy storage. *)
Definition content (o : os) (p : string) : option (list byte) :=
  n ← os_files o !! p; os_nodes o !! n.

(** The contents a path leads to. *)
Definition file_at (o : os) (p : string) : option (list byte) := content o (resolve o p).

Record os_wf (o : os) : Prop := {
  wf_files : forall p n, os_files o !! p = Some n -> is_Some (os_nodes o !! n);
  wf_fds : forall fd f, os_fds o !! fd = Some f -> of_read f = true -> is_Some (os_nodes o !! of_node f);
  wf_fd_pos : forall fd f, os_fds o !! fd = Some f -> 0 <= fd
}.

(** [o'] has everything [o] has: files are added, never changed. *)
Record os_ext (o o' : os) : Prop := {
  ext_files : os_files o ⊆ os_files o';
  ext_nodes : os_nodes o ⊆ os_nodes o';
  ext_links : os_links o' = os_links o;
  ext_bad : os_bad o' = os_bad o
}.

(** ** Lemmas *)

#[export] Instance os_ext_preorder : PreOrder os_ext.
Proof.
  split.
  - intros o. by split.
  - intros o1 o2 o3 [] []. split; (by etrans) || congruence.
Qed.

Lemma ext_content o o' p d : os_ext o o' -> content o p = Some d -> content o' p = Some d.
Proof.
  intros [Hf Hn _ _]. unfold content. intros (n & Hp & Hd)%bind_Some.
  rewrite (lookup_weaken _ _ _ _ Hp Hf). simpl. by eapply lookup_weaken.
Qed.

Lemma ext_resolve o o' p : os_ext o o' -> resolve o' p = resolve o p.
Proof. intros [_ _ Hl _]. unfold resolve. by rewrite Hl. Qed.

Lemma ext_file_at o o' p d : os_ext o o' -> file_at o p = Some d -> file_at o' p = Some d.
Proof. intros H. unfold file_at. rewrite (ext_resolve o o') by done. by apply ext_content. Qed.

Lemma lowest_fd_free fds : fds !! lowest_fd fds = None /\ 0 <= lowest_fd fds.
Proof.
  unfold lowest_fd. destruct (list_find _ _) as [[i j]|] eqn:E.
  - apply list_find_Some in E as (Hi & Hj & _). apply lookup_seq in Hi as [-> _].
    split; [done|lia].
  - exfalso. apply list_find_None in E.
    assert (Hsub : list_to_set (Z.of_nat <$> seq 0 (S (size fds))) ⊆ dom fds).
    { intros z Hz. apply elem_of_list_to_set, list_elem_of_fmap in Hz as (i & -> & Hi).
      rewrite Forall_forall in E. specialize (E i Hi). apply elem_of_dom.
      destruct (fds !! Z.of_nat i); [eauto|done]. }
    apply subseteq_size in Hsub. rewrite size_list_to_set, length_fmap, length_seq in Hsub.
    + rewrite size_dom in Hsub. lia.
    + apply NoDup_fmap_2; [intros ???; lia|]. apply NoDup_seq.
Qed.

(** Which descriptor is the lowest depends on those that are open only. *)
Lemma lowest_fd_same fds fds' : (forall fd, fds !! fd = None <-> fds' !! fd = None) ->
  lowest_fd fds = lowest_fd fds'.
Proof.
  intros H. unfold lowest_fd. assert (dom fds = dom fds') as Hd.
  { apply set_eq. intros fd. specialize (H fd). rewrite <- !not_elem_of_dom in H.
    split; intros ?; destruct (decide (fd ∈ dom fds)), (decide (fd ∈ dom fds')); naive_solver. }
  rewrite <- (size_dom fds), <- (size_dom fds'), Hd.
  by rewrite (list_find_ext _ (fun i => fds' !! Z.of_nat i = None)).
Qed.

Lemma fresh_node_None nodes : nodes !! fresh_node nodes = None.
Proof. apply not_elem_of_dom. exact (is_fresh (dom nodes : gset nat)). Qed.

(** Every system call the cache server makes only adds files. *)
Lemma ext_set_fds fds o : os_ext o (set_fds fds o).
Proof. by split. Qed.

Lemma ext_set_text text o : os_ext o (set_text text o).
Proof. by split. Qed.

Lemma ext_add_file o p d n :
  os_files o !! p = None -> os_nodes o !! n = None ->
  os_ext o (set_files (<[p := n]> (os_files o)) (<[n := d]> (os_nodes o)) o).
Proof. intros Hp Hn. split; simpl; by try apply insert_subseteq. Qed.

Lemma posix_open_rdonly path o :
  posix_open path O_RDONLY o =
    match os_files o !! resolve o path with
    | Some n => (lowest_fd (os_fds o),
                 set_fds (<[lowest_fd (os_fds o) := OFile n 0 true false false]> (os_fds o)) o)
    | None => (-1, o)
    end.
Proof.
  unfold posix_open. destruct (os_files o !! resolve o path) as [n|] eqn:E; [|done].
  simpl. by destruct o.
Qed.

Lemma ext_open_rdonly path o : os_ext o (posix_open path O_RDONLY o).2.
Proof.
  rewrite posix_open_rdonly. destruct (os_files o !! _); simpl; [apply ext_set_fds|done].
Qed.

Lemma ext_read fd n o : os_ext o (posix_read fd n o).2.
Proof.
  unfold posix_read. destruct (os_fds o !! fd), (readable o fd); simpl; done || apply ext_set_fds.
Qed.

Lemma ext_lseek fd off wh o : os_ext o (posix_lseek fd off wh o).2.
Proof.
  unfold posix_lseek. destruct (os_fds o !! fd) as [f|]; [|reflexivity].
  destruct (seek_base f wh o); [|reflexivity]. case_match; [reflexivity|]. apply ext_set_fds.
Qed.

Lemma ext_close fd o : os_ext o (posix_close fd o).2.
Proof. unfold posix_close. destruct (os_fds o !! fd); [apply ext_set_fds|reflexivity]. Qed.

Lemma ext_mkdtemp dir o : os_ext o (mkdtemp dir o).2.
Proof. unfold mkdtemp. destruct (os_tmp o); [reflexivity|]. by case_match; split. Qed.

(** A successful copy: the old state is kept, the target is a new file with
    the contents of the source. *)
Lemma fs_copy_Some from to o o' : fs_copy from to o = Some o' ->
  os_ext o o' /\ exists d, file_at o from = Some d /\ file_at o' to = Some d /\
  os_fds o' = os_fds o /\ os_dirs o' = os_dirs o.
Proof.
  unfold fs_copy, file_at, content. intros (n & Hn & H)%bind_Some.
  apply bind_Some in H as (d & Hd & H). 
  destruct (_ && bool_decide (fs_parent_path to ∈ os_dirs o)) eqn:E; simplify_eq.
  rewrite !andb_true_iff, !bool_decide_eq_true in E. destruct E as [[[[_ Hto] Hl] _] _].
  split; [by apply ext_add_file; [|apply fresh_node_None]|].
  exists d. rewrite Hn. unfold resolve. simpl. rewrite Hl. simpl.
  rewrite !lookup_insert_eq. simpl. by rewrite lookup_insert_eq.
Qed.

(** A failed copy changes no file that was there. *)
Lemma fs_copy_left_run from to o :
  os_ext o (fs_copy_left from to o) /\ os_fds (fs_copy_left from to o) = os_fds o /\
  (os_wf o -> os_wf (fs_copy_left from to o)).
Proof.
  unfold fs_copy_left. destruct (os_files o !! _) as [n|]; [|by split_and!].
  destruct (_ && bool_decide (fs_parent_path to ∈ os_dirs o)) eqn:E; [|by split_and!].
  rewrite !andb_true_iff, !bool_decide_eq_true in E. destruct E as [[[[_ Hto] _] _] _].
  split; [by apply ext_add_file; [|apply fresh_node_None]|]. split; [done|].
  intros [H1 H2 H3]. split; cbn [os_files os_nodes os_fds set_files]; [| |done].
  - intros p k. rewrite lookup_insert. case_decide; [intros [= <-]; rewrite lookup_insert_eq; by eexists|].
    intros [d Hd]%H1. destruct (decide (k = fresh_node (os_nodes o))) as [->|Hk].
    + rewrite lookup_insert_eq. by eexists.
    + rewrite lookup_insert_ne by done. by eexists.
  - intros fd f Hf [d Hd]%(H2 _ _ Hf). destruct (decide (of_node f = fresh_node (os_nodes o))) as [->|Hk].
    + rewrite lookup_insert_eq. by eexists.
    + rewrite lookup_insert_ne by done. by eexists.
Qed.

Lemma wf_set_text text o : os_wf o -> os_wf (set_text text o).
Proof. intros []. by split. Qed.

Lemma wf_open_rdonly path o : os_wf o -> os_wf (posix_open path O_RDONLY o).2.
Proof.
  intros [H1 H2 H3]. rewrite posix_open_rdonly.
  destruct (os_files o !! resolve o path) as [n|] eqn:E; simpl; [|by split].
  split; simpl; [done|..]; intros fd f; rewrite lookup_insert; case_decide; subst;
    intros Hf; simplify_eq/=; eauto. by apply lowest_fd_free.
Qed.


Lemma wf_set_off fd f off o :
  os_wf o -> os_fds o !! fd = Some f -> os_wf (set_fds (<[fd := set_off off f]> (os_fds o)) o).
Proof.
  intros [H1 H2 H3] Hf. split; simpl; [done|..]; intros fd' f'; rewrite lookup_insert;
    case_decide; subst; intros ?; simplify_eq/=; eauto.
Qed.

Lemma wf_read fd n o : os_wf o -> os_wf (posix_read fd n o).2.
Proof.
  intros H. unfold posix_read. destruct (os_fds o !! fd) eqn:E, (readable o fd); simpl; try done.
  by apply wf_set_off.
Qed.

Lemma wf_lseek fd off wh o : os_wf o -> os_wf (posix_lseek fd off wh o).2.
Proof.
  intros H. unfold posix_lseek. destruct (os_fds o !! fd) as [f|] eqn:E; [|done].
  destruct (seek_base f wh o); [|done]. case_match; [done|]. by apply wf_set_off.
Qed.

Lemma wf_close fd o : os_wf o -> os_wf (posix_close fd o).2.
Proof.
  intros [H1 H2 H3]. unfold posix_close. destruct (os_fds o !! fd) eqn:E; [|by split].
  split; simpl; [done|..]; intros fd' f' [_ ?]%lookup_delete_Some; eauto.
Qed.

Lemma wf_mkdtemp dir o : os_wf o -> os_wf (mkdtemp dir o).2.
Proof. intros [H1 H2 H3]. unfold mkdtemp. destruct (os_tmp o); [by split|]. by case_match; split. Qed.

Lemma wf_fs_copy from to o o' : os_wf o -> fs_copy from to o = Some o' -> os_wf o'.
Proof.
  intros [H1 H2 H3] H. unfold fs_copy in H.
  apply bind_Some in H as (n & Hn & H). apply bind_Some in H as (d & Hd & H).
  destruct (_ && bool_decide (fs_parent_path to ∈ os_dirs o)); simplify_eq.
  split; simpl; [| |done].
  - intros p m [[-> <-]|[_ Hp]]%lookup_insert_Some.
    + rewrite lookup_insert_eq. eauto.
    + rewrite lookup_insert. apply H1 in Hp. case_decide; eauto.
  - intros fd f Hf ?%(H2 _ _ Hf). rewrite lookup_insert. case_decide; eauto.
Qed.

(** ** Descriptors that are taken *)

(** What the library changes on the node of its process: text files (the log),
    and descriptors it takes for streams it does not close. *)
Definition patch : Type := gmap string cstring * nat.
Definition patched (p : patch) (o : os) : os := set_text p.1 (set_fds (taken_fds p.2 (os_fds o)) o).

Lemma taken_fds_S n fds : taken_fds (S n) fds = take_fd (taken_fds n fds).
Proof. done. Qed.

Lemma taken_fds_add n m fds : taken_fds n (taken_fds m fds) = taken_fds (n + m) fds.
Proof. induction n as [|n IH]; [done|]. cbn [Nat.add]. by rewrite !taken_fds_S, IH. Qed.

(** What is open stays open, and what is new is a stream. *)
Lemma taken_fds_lookup n fds fd f : fds !! fd = Some f -> taken_fds n fds !! fd = Some f.
Proof.
  intros Hf. induction n as [|n IH]; [done|]. rewrite taken_fds_S. unfold take_fd.
  rewrite lookup_insert_ne; [done|]. intros E. destruct (lowest_fd_free (taken_fds n fds)) as [H _]. congruence.
Qed.

Lemma taken_fds_new n fds fd f : taken_fds n fds !! fd = Some f ->
  fds !! fd = Some f \/ (fds !! fd = None /\ f = stream /\ 0 <= fd).
Proof.
  induction n as [|n IH]; [by left|]. rewrite taken_fds_S. unfold take_fd. rewrite lookup_insert_Some.
  intros [[<- <-]|[_ H]]; [|by apply IH]. right. destruct (lowest_fd_free (taken_fds n fds)) as [H Hp].
  split; [|done]. destruct (fds !! lowest_fd _) as [g|] eqn:E; [|done].
  rewrite (taken_fds_lookup n _ _ _ E) in H. discriminate.
Qed.

Lemma patched_readable p o fd : readable (patched p o) fd = readable o fd.
Proof.
  unfold readable, patched. cbn [set_text set_fds os_fds os_bad os_nodes].
  destruct (os_fds o !! fd) as [f|] eqn:E; [by rewrite (taken_fds_lookup _ _ _ _ E)|].
  destruct (taken_fds p.2 (os_fds o) !! fd) as [f|] eqn:E'; [|done].
  apply taken_fds_new in E' as [E'|(_ & -> & _)]; [congruence|done].
Qed.

Lemma patched_pread p o fd count off : posix_pread fd count off (patched p o) = posix_pread fd count off o.
Proof. unfold posix_pread. by rewrite patched_readable. Qed.

Lemma patched_wf p o : os_wf o -> os_wf (patched p o).
Proof.
  intros [H1 H2 H3]. split; cbn [patched set_text set_fds os_files os_nodes os_fds]; [done|..];
    intros fd f [Hf|(_ & -> & ?)]%taken_fds_new; eauto; done.
Qed.

Lemma patched_same o : o = patched (os_text o, 0%nat) o.
Proof. by destruct o. Qed.

Lemma patched_trans p q o : patched p (patched q o) = patched (p.1, (p.2 + q.2)%nat) o.
Proof. unfold patched. cbn [set_text set_fds os_fds fst snd]. by rewrite taken_fds_add. Qed.

Lemma patched_text t p o : set_text t (patched p o) = patched (t, p.2) o.
Proof. done. Qed.

(** ** Reading *)

Lemma zslice_length l off n :
  0 <= off -> 0 <= n ->
  Z.of_nat (length (zslice l off n)) = Z.min n (Z.max 0 (Z.of_nat (length l) - off)).
Proof. intros. unfold zslice. rewrite length_take, length_drop. lia. Qed.

(** Consecutive slices make up one longer slice. *)
Lemma zslice_app l off n m :
  0 <= off -> 0 <= n -> 0 <= m -> off + n <= Z.of_nat (length l) ->
  zslice l off n ++ zslice l (off + n) m = zslice l off (n + m).
Proof.
  intros Ho Hn Hm Hl. unfold zslice.
  replace (Z.to_nat (Z.min (off + n) (Z.of_nat (length l))))
    with (Z.to_nat off + Z.to_nat n)%nat by lia.
  replace (Z.to_nat (Z.min off (Z.of_nat (length l)))) with (Z.to_nat off) by lia.
  replace (Z.to_nat (Z.min n (Z.of_nat (length l)))) with (Z.to_nat n) by lia.
  rewrite <- drop_drop. set (k := drop (Z.to_nat off) l).
  assert (length k <= length l)%nat by (unfold k; rewrite length_drop; lia).
  apply list_eq. intros i.
  destruct (decide (i < length (take (Z.to_nat n) k))%nat) as [Hi|Hi].
  - rewrite lookup_app_l by done. rewrite length_take in Hi.
    rewrite !lookup_take. repeat case_decide; try done; lia.
  - rewrite lookup_app_r by lia. unfold k in *. rewrite length_take, length_drop in *.
    rewrite !lookup_take, !lookup_drop.
    replace (Z.to_nat n `min` (length l - Z.to_nat off))%nat with (Z.to_nat n) in * by lia.
    destruct (decide (i < Z.to_nat (Z.min (n + m) (Z.of_nat (length l))))%nat).
    + destruct (decide (i - Z.to_nat n < Z.to_nat (Z.min m (Z.of_nat (length l))))%nat).
      * f_equal. lia.
      * symmetry. apply lookup_ge_None_2. lia.
    + case_decide; [apply lookup_ge_None_2; lia | done].
Qed.

Lemma readable_open o path n d :
  os_files o !! resolve o path = Some n -> os_nodes o !! n = Some d -> n ∉ os_bad o ->
  readable (posix_open path O_RDONLY o).2 (lowest_fd (os_fds o)) = Some d.
Proof.
  intros Hn Hd Hb. rewrite posix_open_rdonly, Hn. unfold readable. simpl.
  rewrite lookup_insert_eq. simpl. by rewrite bool_decide_true.
Qed.

Lemma readable_ext_fds o o' fd :
  os_ext o o' -> os_fds o' !! fd = os_fds o !! fd -> is_Some (readable o fd) ->
  readable o' fd = readable o fd.
Proof.
  intros [_ Hn _ Hb] Hf [d Hd]. unfold readable in *. rewrite Hf, Hb.
  destruct (os_fds o !! fd) as [f|]; [|done]. simpl in *.
  destruct (of_read f && _); [|done]. rewrite Hd. by eapply lookup_weaken.
Qed.

End Posix.
