(* ===== verification/RingSimulation.v ===== *)
(** * The load-distribution simulator

    [main] of src/tests/load_distribution_simul.cpp for one number of replicas:
    it builds the ring of the servers [Server1] to [ServerR], counts the files
    of each, lets one server fail, redistributes its files and reports both
    counts ([writeDetailedData]).  The index of the failed server, which [main]
    draws at random, and the list of files are arguments. *)

From S2P Require Import Prelude CString Posix HashRing.
From stdpp Require Import sorting.
Import Posix HashRing.
#[local] Open Scope Z_scope.

Module RingSimulation.

(** ** The program *)

(** The stringify functions of a ring of strings. *)
Definition same : string -> string := stringify.

(** ["Server" + to_string(i)]. *)
Definition server_name (i : nat) : string := String.append "Server" (StringifyReplica i).
Definition servers (R_NODE : nat) : list string := server_name <$> seq 1 R_NODE.

Section Main.
Context (hash_ : string -> Z) (V_NODE : nat).

Definition hashRing (l : list string) : gmap Z string := ring_of same hash_ V_NODE (Add <$> l).

(** The distributions before and after the failure. *)
Definition main_round (R_NODE failed_server_index : nat) (file_paths : list string)
    : result (gmap string Z * gmap string Z) :=
  let ring := hashRing (servers R_NODE) in
  ds ← tally same hash_ file_paths ring ∅ ∅;
  failed_server ← or_else UndefinedBehaviour (servers R_NODE !! failed_server_index);
  new_distribution ← redistribute same same hash_ V_NODE failed_server ring ds.1 ds.2;
  mret (ds.1, new_distribution).

End Main.

(** A row of the report: server, both counts, and whether it gained data. *)
Definition row : Type := string * Z * Z * bool.

(** The loop of [writeDetailedData], in the order of the [std::map]. *)
Definition detailed_rows (before after : gmap string Z) : list row :=
  (fun e : string * Z =>
     let count_after := default 0 (after !! e.1) in
     (e.1, e.2, count_after, e.2 <? count_after))
  <$> merge_sort (fun a b => String.le a.1 b.1) (map_to_list before).

Definition comma : cstring := [","%char].
Definition newline : cstring := ["010"%char].

Definition row_text (V_NODE X : Z) (r : row) : cstring :=
  let '(server, count_before, count_after, gained_data) := r in
  print_int V_NODE ++ comma ++ print_int X ++ comma ++ of_string server ++ comma ++
  print_int count_before ++ comma ++ print_int count_after ++ comma ++
  of_string (if gained_data : bool then "Yes" else "No") ++ newline.

Definition header : cstring :=
  of_string "V_NODE,X,Server,BeforeCount,AfterCount,GainedData" ++ newline.
Definition rows_text (V_NODE X : Z) (before after : gmap string Z) : cstring :=
  concat (row_text V_NODE X <$> detailed_rows before after).

(** [writeDetailedData]: the header goes to an empty file only; a file that
    cannot be opened swallows the output. *)
Definition writeDetailedData (filename : string) (V_NODE X : Z) (before after : gmap string Z) (o : os) : os :=
  if can_create o filename then
    let old := default [] (os_text o !! filename) in
    text_append filename ((match old with [] => header | _ => [] end) ++ rows_text V_NODE X before after) o
  else o.

(** ** Rings without shared positions *)

Section Separated.
Context (hash_ : string -> Z) (V_NODE : nat).
#[local] Abbreviation positions := (positions same hash_ V_NODE).

(** No position belongs to two servers of the list. *)
Definition separated (l : list string) : Prop :=
  forall a b k, a ∈ l -> b ∈ l -> k ∈ positions a -> k ∈ positions b -> a = b.

Lemma separated_sub l l' : l ⊆ l' -> separated l' -> separated l.
Proof. intros Hsub Hs a b k Ha Hb. by apply Hs; apply Hsub. Qed.

Lemma hashRing_lookup l : separated l -> forall k v,
  hashRing hash_ V_NODE l !! k = Some v <-> v ∈ l /\ k ∈ positions v.
Proof.
  unfold hashRing, ring_of. induction l as [|a l IH] using rev_ind; intros Hs k v.
  - cbn. rewrite lookup_empty, elem_of_nil. naive_solver.
  - rewrite fmap_app, foldl_app. cbn [fmap list_fmap foldl apply_op]. rewrite AddServer_lookup.
    assert (Hs' : separated l) by (eapply separated_sub; [|exact Hs]; set_solver).
    case_decide as Hk; [|rewrite IH by done; set_solver]. split.
    + intros [= <-]. split; [set_solver|done].
    + intros [Hv Hp]. f_equal. apply (Hs a v k); [set_solver|done..].
Qed.

(** Removing a server gives the ring of the others. *)
Lemma hashRing_remove l s : separated l -> s ∈ l ->
  RemoveServer same hash_ V_NODE s (hashRing hash_ V_NODE l) =
  hashRing hash_ V_NODE (filter (fun x => x <> s) l).
Proof.
  intros Hs Hin. apply map_eq. intros k. apply option_eq. intros v.
  assert (Hs' : separated (filter (fun x => x <> s) l)).
  { eapply separated_sub; [|exact Hs]. intros x [_ Hx]%list_elem_of_filter. done. }
  rewrite RemoveServer_lookup, (hashRing_lookup _ Hs').
  rewrite list_elem_of_filter. case_decide as Hk.
  - split; [done|]. intros [[Hne Hv] Hp]. destruct Hne. by apply (Hs v s k).
  - rewrite hashRing_lookup by done. split; [|naive_solver]. intros [Hv Hp].
    split; [|done]. split; [|done]. by intros ->.
Qed.

Lemma hashRing_is_Some l v k : v ∈ l -> k ∈ positions v -> is_Some (hashRing hash_ V_NODE l !! k).
Proof.
  unfold hashRing, ring_of. induction l as [|a l IH] using rev_ind; intros Hv Hk; [by apply not_elem_of_nil in Hv|].
  rewrite fmap_app, foldl_app. cbn [fmap list_fmap foldl apply_op]. rewrite AddServer_lookup.
  case_decide as Hp; [by eexists|]. apply elem_of_app in Hv as [Hv|Hv]; [by apply IH|].
  apply list_elem_of_singleton in Hv as ->. done.
Qed.

Lemma hashRing_no_collision l s : separated l -> s ∈ l ->
  no_collision same hash_ V_NODE s (hashRing hash_ V_NODE l).
Proof.
  intros Hs Hin k v Hk Hp. apply hashRing_lookup in Hk as [Hv Hpv]; [|done]. by apply (Hs v s k).
Qed.

Lemma hashRing_nonempty l s : (0 < V_NODE)%nat -> separated l -> s ∈ l -> hashRing hash_ V_NODE l <> ∅.
Proof.
  intros HV Hs Hin E. assert (H : hashRing hash_ V_NODE l !! replica_hash same hash_ s 0 = Some s).
  { apply hashRing_lookup; [done|]. split; [done|]. apply list_elem_of_fmap. exists 0%nat.
    split; [done|]. apply elem_of_seq. lia. }
  by rewrite E, lookup_empty in H.
Qed.

End Separated.

(** ** The names of [main] *)

(** The string whose hash is the position of a replica. *)
Definition replica_string (i r : nat) : string := String.append (server_name i) (StringifyReplica r).

(** The hash keeps the strings of the ring apart. *)
Definition hash_separates (hash_ : string -> Z) (V_NODE R_NODE : nat) : Prop :=
  forall i j r q, (i <= R_NODE)%nat -> (j <= R_NODE)%nat -> (r < V_NODE)%nat -> (q < V_NODE)%nat ->
    hash_ (c_str (replica_string i r)) = hash_ (c_str (replica_string j q)) ->
    replica_string i r = replica_string j q.

Lemma one_digit r : (r < 10)%nat -> exists c, of_string (StringifyReplica r) = [c].
Proof.
  intros Hr. unfold StringifyReplica. rewrite of_to_string.
  do 10 (destruct r as [|r]; [by eexists|]). lia.
Qed.

(** With one digit per replica number, the name can be read off the string. *)
Lemma replica_string_name i j r q : (r < 10)%nat -> (q < 10)%nat ->
  replica_string i r = replica_string j q -> server_name i = server_name j.
Proof.
  intros Hr Hq E. apply (f_equal of_string) in E. unfold replica_string in E.
  rewrite !of_string_append in E. destruct (one_digit r Hr) as [c Hc], (one_digit q Hq) as [d Hd].
  rewrite Hc, Hd in E. apply app_inj_tail in E as [E _]. by apply of_string_inj.
Qed.

Lemma servers_separated hash_ V_NODE R_NODE : (V_NODE <= 10)%nat ->
  hash_separates hash_ V_NODE R_NODE -> separated hash_ V_NODE (servers R_NODE).
Proof.
  intros HV Hh a b k (i & -> & Hi)%list_elem_of_fmap (j & -> & Hj)%list_elem_of_fmap
    (r & Hr & Hrv)%list_elem_of_fmap (q & Hq & Hqv)%list_elem_of_fmap.
  apply elem_of_seq in Hi, Hj, Hrv, Hqv. apply (replica_string_name i j r q); [lia..|].
  apply Hh; [lia..|]. unfold replica_hash, same, stringify, Stringify_string in Hr, Hq. unfold replica_string. congruence.
Qed.

Lemma server_name_inj i j : Z.of_nat i < 2 ^ 31 -> Z.of_nat j < 2 ^ 31 ->
  server_name i = server_name j -> i = j.
Proof.
  intros Hi Hj E. apply (f_equal of_string) in E. unfold server_name in E. rewrite !of_string_append in E.
  apply app_inv_head in E. unfold StringifyReplica in E. rewrite !of_to_string in E.
  apply (f_equal atoi) in E. rewrite !atoi_print_int in E by (unfold in_i32; lia). lia.
Qed.

Lemma servers_lookup R_NODE index : (index < R_NODE)%nat -> servers R_NODE !! index = Some (server_name (S index)).
Proof. intros Hi. unfold servers. by rewrite list_lookup_fmap, lookup_seq_lt by lia. Qed.

(** After the six letters of "Server" comes the first digit of its number. *)
Lemma replica_string_digit i r q : of_string (replica_string i r) !! 6%nat = of_string (replica_string i q) !! 6%nat.
Proof.
  unfold replica_string, server_name. rewrite !of_string_append, <- !app_assoc.
  rewrite !(lookup_app_r (of_string "Server")) by (cbn; lia).
  unfold StringifyReplica. rewrite !of_to_string.
  destruct (print_int_head (Z.of_nat i)) as (c & t & -> & _). done.
Qed.

(** ** The counts *)

Section Counts.
Context (hash_ : string -> Z).

Lemma share_nonneg (ring : gmap Z string) s files : 0 <= share same hash_ ring s files.
Proof. unfold share. lia. Qed.

(** The first loop of [main] makes entries for the servers that have files. *)
Lemma tally_lookup (ring : gmap Z string) files : forall od std od' std',
  tally same hash_ files ring od std = inr (od', std') ->
  forall s : string, od' !! s = if decide (share same hash_ ring s files = 0) then od !! s
                    else Some (default 0 (od !! s) + share same hash_ ring s files).
Proof.
  induction files as [|f files IH]; intros od std od' std' Ht s; cbn [tally] in Ht.
  - simplify_eq. by rewrite decide_True.
  - apply bind_inr in Ht as (w & Hw%or_else_inr & Ht). apply bind_inr in Ht as (n & [_ ->]%incr_inr & Ht).
    rewrite (IH _ _ _ _ Ht s), share_cons, Hw.
    pose proof (share_nonneg ring s files). destruct (decide (w = s)) as [->|Hne].
    + rewrite lookup_insert_eq, (decide_True (P := Some s = Some s)) by done. cbn [default from_option].
      rewrite (decide_False (P := 1 + _ = 0)) by lia. case_decide; f_equal; unfold id; lia.
    + rewrite lookup_insert_ne, (decide_False (P := Some w = Some s)) by congruence. done.
Qed.

End Counts.

(** The number of files a distribution counts. *)
Definition total (m : gmap string Z) : Z := map_fold (fun _ n a => n + a) 0 m.

Lemma total_empty : total ∅ = 0.
Proof. apply map_fold_empty. Qed.

Lemma total_insert_new m s n : m !! s = None -> total (<[s := n]> m) = n + total m.
Proof. intros Hs. unfold total. by rewrite map_fold_insert_L by (done || (intros; lia)). Qed.

Lemma total_insert m s n : total (<[s := n]> m) = total m - default 0 (m !! s) + n.
Proof.
  destruct (m !! s) as [k|] eqn:E; cbn [default from_option].
  - rewrite <- insert_delete_eq, total_insert_new by apply lookup_delete_eq.
    rewrite <- (insert_delete_id m s k E) at 2. rewrite total_insert_new by apply lookup_delete_eq. unfold id. lia.
  - rewrite total_insert_new by done. lia.
Qed.

(** Files of different servers are different files. *)
Lemma share_disjoint hash_ (ring : gmap Z string) a b files : a <> b ->
  share same hash_ ring a files + share same hash_ ring b files <= Z.of_nat (length files).
Proof.
  intros Hab. induction files as [|f files IH]; [done|]. rewrite !share_cons. cbn [length].
  destruct (decide (_ = Some a)), (decide (_ = Some b)); (lia || congruence).
Qed.

Lemma room_empty hash_ (ring : gmap Z string) s files : Z.of_nat (length files) <= INT_MAX ->
  default 0 ((∅ : gmap string Z) !! s) + share same hash_ ring s files <= INT_MAX.
Proof. intros H. rewrite lookup_empty. pose proof (share_le same hash_ ring s files). cbn. lia. Qed.

Lemma tally_sum hash_ (ring : gmap Z string) files : forall od std od' std',
  tally same hash_ files ring od std = inr (od', std') -> total od' = total od + Z.of_nat (length files).
Proof.
  induction files as [|f files IH]; intros od std od' std' Ht; cbn [tally] in Ht; [simplify_eq; cbn; lia|].
  apply bind_inr in Ht as (w & Hw%or_else_inr & Ht). apply bind_inr in Ht as (n & [_ ->]%incr_inr & Ht).
    rewrite (IH _ _ _ _ Ht), total_insert. cbn [length]. lia.
Qed.

Lemma reassign_sum hash_ (ring : gmap Z string) files : forall nd nd',
  reassign same hash_ files ring nd = inr nd' -> total nd' = total nd + Z.of_nat (length files).
Proof.
  induction files as [|f files IH]; intros nd nd' Ht; cbn [reassign] in Ht; [simplify_eq; cbn; lia|].
  apply bind_inr in Ht as (w & Hw%or_else_inr & Ht). apply bind_inr in Ht as (n & [_ ->]%incr_inr & Ht).
    rewrite (IH _ _ Ht), total_insert. cbn [length]. lia.
Qed.

(** Nothing goes to the server that failed. *)
Lemma share_removed hash_ V_NODE (ring : gmap Z string) failed files : (forall s, 0 <= hash_ s < 2 ^ 64) ->
  ring_wf same hash_ V_NODE ring -> share same hash_ (RemoveServer same hash_ V_NODE failed ring) failed files = 0.
Proof.
  intros Hh Hwf. induction files as [|f files IH]; [done|]. rewrite share_cons, IH.
  case_decide as E; [|done]. by apply GetServer_removed in E.
Qed.

Lemma elem_of_detailed_rows before after s b a g :
  (s, b, a, g) ∈ detailed_rows before after <->
  before !! s = Some b /\ a = default 0 (after !! s) /\ g = (b <? a).
Proof.
  unfold detailed_rows. rewrite list_elem_of_fmap. setoid_rewrite merge_sort_Permutation.
  setoid_rewrite elem_of_map_to_list'. split.
  - intros ([s' b'] & E & Hb). cbn in *. by simplify_eq.
  - intros (Hb & -> & ->). exists (s, b). by split.
Qed.

End RingSimulation.
Import RingSimulation.

Section Round.
Context (hash_ : string -> Z) (Hhash : forall s, 0 <= hash_ s < 2 ^ 64).

(** A server that did not fail keeps a position of its own. *)
Lemma survivors V_NODE R_NODE index : (0 < V_NODE)%nat -> (2 <= R_NODE)%nat ->
  hash_separates hash_ V_NODE R_NODE -> (index < R_NODE)%nat ->
  RemoveServer same hash_ V_NODE (server_name (S index)) (hashRing hash_ V_NODE (servers R_NODE)) <> ∅.
Proof.
  intros HV HR Hsep Hidx.
  assert (Hj : exists j, (1 <= j <= 2)%nat /\ forall r, replica_string j 0 <> replica_string (S index) r).
  { destruct (decide (of_string (replica_string (S index) 0) !! 6%nat = Some "1"%char)) as [E|E];
      [exists 2%nat|exists 1%nat]; (split; [lia|]); intros r Hr;
      apply (f_equal (fun s => of_string s !! 6%nat)) in Hr;
      rewrite (replica_string_digit (S index) r 0) in Hr; [rewrite E in Hr|symmetry in Hr]; done. }
  destruct Hj as (j & Hj & Hne). intros Hempty.
  set (k := replica_hash same hash_ (server_name j) 0).
  assert (Hin : k ∈ positions same hash_ V_NODE (server_name j)).
  { apply list_elem_of_fmap. exists 0%nat. split; [done|]. apply elem_of_seq. lia. }
  destruct (hashRing_is_Some hash_ V_NODE (servers R_NODE) (server_name j) k) as [v Hv]; [|done|].
  { apply list_elem_of_fmap. exists j. split; [done|]. apply elem_of_seq. lia. }
  assert (Hnot : k ∉ positions same hash_ V_NODE (server_name (S index))).
  { intros (r & Hr & Hrv)%list_elem_of_fmap. apply elem_of_seq in Hrv.
    apply (Hne r). apply Hsep; [lia..|exact Hr]. }
  pose proof (RemoveServer_lookup same hash_ V_NODE (server_name (S index))
    (hashRing hash_ V_NODE (servers R_NODE)) k) as Hl.
  by rewrite Hempty, lookup_empty, decide_False, Hv in Hl by done.
Qed.

(** A round returns, and loses no file. *)
Lemma main_round_total V_NODE R_NODE index files :
  (0 < V_NODE)%nat -> (2 <= R_NODE)%nat -> hash_separates hash_ V_NODE R_NODE -> (index < R_NODE)%nat ->
  Z.of_nat (length files) <= INT_MAX ->
  let failed := server_name (S index) in
  let ring := hashRing hash_ V_NODE (servers R_NODE) in
  exists before after, main_round hash_ V_NODE R_NODE index files = inr (before, after) /\
    (forall s, default 0 (before !! s) = share same hash_ ring s files) /\
    default 0 (after !! failed) = 0 /\
    total before = Z.of_nat (length files) /\ total after = Z.of_nat (length files).
Proof.
  intros HV HR Hsep Hidx Hlen failed ring. pose proof (survivors _ _ _ HV HR Hsep Hidx) as Hne. fold failed ring in Hne.
  assert (Hne0 : ring <> ∅).
  { intros E. destruct Hne. rewrite E. apply map_eq. intros k. rewrite RemoveServer_lookup. by case_decide. }
  destruct (tally_total same hash_ ring files ∅ ∅) as [[od std] Ht];
    [intros; by apply GetServer_total|intros; by apply room_empty|].
  destruct (tally_spec same hash_ ring files _ _ _ _ Ht) as [Hod Hstd].
  destruct (reassign_total same hash_ (RemoveServer same hash_ V_NODE failed ring) (default [] (std !! failed))
    (<[failed := 0]> od)) as [nd Hnd]; [intros; by apply GetServer_total| |].
  { intros s. rewrite lookup_insert, Hstd, lookup_empty. cbn [default from_option]. rewrite app_nil_l. unfold id.
    pose proof (share_le same hash_ (RemoveServer same hash_ V_NODE failed ring) s
      (filter (fun f => GetServer same hash_ f ring = Some failed) files)) as Hle.
    change (Z.of_nat (length (filter _ files))) with (share same hash_ ring failed files) in Hle.
    destruct (decide (failed = s)) as [_|Hs].
    - pose proof (share_le same hash_ ring failed files). cbn [default from_option]. unfold id. lia.
    - rewrite Hod, lookup_empty. cbn [default from_option]. unfold id.
      pose proof (share_disjoint hash_ ring s failed files ltac:(congruence)). lia. }
  pose proof (tally_sum hash_ ring files _ _ _ _ Ht) as Hsum. rewrite total_empty in Hsum.
  exists od, nd. split_and!.
  - unfold main_round. fold ring. rewrite Ht. cbn [mbind result_bind fst snd].
    rewrite (servers_lookup R_NODE index) by done. cbn [or_else mbind result_bind]. fold failed. unfold redistribute.
    by rewrite Hnd.
  - intros s. by rewrite Hod, lookup_empty.
  - rewrite (reassign_spec _ _ _ _ _ _ Hnd), lookup_insert_eq. cbn [default from_option]. unfold id.
    apply Z.eq_trans with (0 + 0); [|done]. f_equal. eapply share_removed; [done|]. by apply (ring_of_wf same hash_ V_NODE Hhash).
  - done.
  - rewrite (reassign_sum hash_ _ _ _ _ Hnd), total_insert, Hod, lookup_empty, Hstd, lookup_empty.
    cbn [default from_option]. rewrite app_nil_l. unfold id, share. lia.
Qed.

(** With few virtual nodes the counts are exact. *)
Lemma main_round_exact V_NODE R_NODE index files :
  (0 < V_NODE <= 10)%nat -> (2 <= R_NODE)%nat -> Z.of_nat R_NODE < 2 ^ 31 ->
  hash_separates hash_ V_NODE R_NODE -> (index < R_NODE)%nat -> Z.of_nat (length files) <= INT_MAX ->
  let ring := hashRing hash_ V_NODE (servers R_NODE) in
  let ring' := hashRing hash_ V_NODE (filter (fun s => s <> server_name (S index)) (servers R_NODE)) in
  exists before after, main_round hash_ V_NODE R_NODE index files = inr (before, after) /\
    (forall s, before !! s = let n := share same hash_ ring s files in if decide (n = 0) then None else Some n) /\
    forall s, default 0 (after !! s) = share same hash_ ring' s files.
Proof.
  intros HV HR HR31 Hsep Hidx Hlen ring ring'. set (failed := server_name (S index)).
  assert (Hs : separated hash_ V_NODE (servers R_NODE)) by (apply servers_separated; [lia|done]).
  pose proof (servers_lookup R_NODE index Hidx) as Hlook. pose proof (list_elem_of_lookup_2 _ _ _ Hlook) as Hf.
  assert (Hne : ring <> ∅) by (apply (hashRing_nonempty hash_ V_NODE _ failed); [lia|done..]).
  pose proof (hashRing_remove hash_ V_NODE _ _ Hs Hf) as Hrm. fold ring failed ring' in Hrm.
  pose proof (survivors V_NODE R_NODE index ltac:(lia) HR Hsep Hidx) as Hne'. fold failed ring in Hne'.
  destruct (tally_total same hash_ ring files ∅ ∅) as [[od std] Ht];
    [intros; by apply GetServer_total|intros; by apply room_empty|].
  destruct (redistribute_spec same same hash_ V_NODE Hhash failed ring files od std) as (nd & Hnd & Hafter); try done.
  { by apply (ring_of_wf same hash_ V_NODE Hhash). } { by apply hashRing_no_collision. }
  exists od, nd. split_and!.
  - unfold main_round. fold ring. rewrite Ht. cbn [mbind result_bind fst snd]. rewrite Hlook. cbn.
    fold failed. by rewrite Hnd.
  - intros s. rewrite (tally_lookup hash_ ring files _ _ _ _ Ht s), lookup_empty. cbn [default from_option]. by rewrite Z.add_0_l.
  - intros s. by rewrite Hafter, Hrm.
Qed.

End Round.

(** The report of the simulator.  With at most ten virtual nodes per server
    and a hash that keeps their strings apart, the counts after the failure are
    those of a ring built from the surviving servers alone, and the gain flag
    says whether a count grew.  The report has a row exactly for the servers
    that had a file before: one that had none is left out even if it gains
    some. *)
Lemma main_report_exact hash_ V_NODE R_NODE index files :
  (forall s, 0 <= hash_ s < 2 ^ 64) -> (0 < V_NODE <= 10)%nat -> (2 <= R_NODE)%nat ->
  Z.of_nat R_NODE < 2 ^ 31 -> hash_separates hash_ V_NODE R_NODE -> (index < R_NODE)%nat ->
  Z.of_nat (length files) <= INT_MAX ->
  let failed := server_name (S index) in
  let ring := hashRing hash_ V_NODE (servers R_NODE) in
  let ring' := hashRing hash_ V_NODE (filter (fun s => s <> failed) (servers R_NODE)) in
  exists before after, main_round hash_ V_NODE R_NODE index files = inr (before, after) /\
    forall s b a g, (s, b, a, g) ∈ detailed_rows before after <->
      0 < b /\ b = share same hash_ ring s files /\ a = share same hash_ ring' s files /\ g = (b <? a).
Proof.
  intros Hh HV HR HR31 Hsep Hidx Hlen failed ring ring'.
  destruct (main_round_exact hash_ Hh V_NODE R_NODE index files HV HR HR31 Hsep Hidx Hlen) as (od & nd & Hm & Hb & Ha).
  exists od, nd. split; [exact Hm|]. intros s b a g. rewrite elem_of_detailed_rows, Hb, Ha. fold ring failed ring'.
  pose proof (share_nonneg hash_ ring s files). cbn zeta.
  case_decide as E; [rewrite E|]; split.
  - by intros [? _].
  - intros (? & -> & _). lia.
  - intros ([= <-] & Hx & Hg). split; [lia|done].
  - by intros (_ & -> & Hx & Hg).
Qed.

(** The reports of several rounds, one call after the other. *)
Definition report : Type := Z * Z * gmap string Z * gmap string Z.
Definition report_text (r : report) : cstring := let '(V, X, b, a) := r in rows_text V X b a.
Definition write_report (filename : string) (o : os) (r : report) : os :=
  let '(V, X, b, a) := r in writeDetailedData filename V X b a o.

Lemma write_report_more filename l : forall o c old,
  can_create o filename = true -> os_text o !! filename = Some (c :: old) ->
  os_text (foldl (write_report filename) o l) !! filename = Some (c :: old ++ concat (report_text <$> l)).
Proof.
  induction l as [|[[[V X] b] a] l IH]; intros o c old Hc Ho; cbn [foldl fmap list_fmap concat].
  - by rewrite app_nil_r.
  - rewrite (IH _ c (old ++ rows_text V X b a)).
    + cbn [report_text]. by rewrite <- app_assoc.
    + cbn. unfold writeDetailedData. by rewrite Hc.
    + cbn. unfold writeDetailedData. rewrite Hc, Ho. cbn. rewrite lookup_insert_eq. by rewrite Ho.
Qed.

(** The report file.  Into a new file of a directory that exists, any number
    of rounds writes the header once and then the rows of every round in
    order. *)
Lemma reports_have_one_header filename r l o :
  can_create o filename = true -> os_text o !! filename = None ->
  os_text (foldl (write_report filename) o (r :: l)) !! filename =
    Some (header ++ concat (report_text <$> r :: l)).
Proof.
  intros Hc Ho. destruct r as [[[V X] b] a]. cbn [foldl]. set (o1 := write_report filename o _).
  assert (H1 : os_text o1 !! filename = Some (header ++ rows_text V X b a)).
  { unfold o1. cbn. unfold writeDetailedData. rewrite Hc, Ho. cbn. rewrite lookup_insert_eq. by rewrite Ho. }
  assert (Hh : exists c h, header = c :: h) by (by eexists _, _). destruct Hh as (c & h & Hh).
  rewrite Hh in H1 |- *. rewrite (write_report_more filename l o1 c (h ++ rows_text V X b a)); [|..|exact H1].
  - cbn. by rewrite <- app_assoc.
  - unfold o1. cbn. unfold writeDetailedData. by rewrite Hc.
Qed.

(** Three servers with two virtual nodes each. *)
Lemma Forall_below (P : nat -> Prop) n i : Forall P (seq 0 n) -> (i < n)%nat -> P i.
Proof. intros H Hi. rewrite Forall_forall in H. apply H, elem_of_seq. lia. Qed.

Lemma poly_hash_separates : hash_separates poly_hash 2 3.
Proof.
  assert (H : Forall (fun i => Forall (fun j => Forall (fun r => Forall (fun q =>
      poly_hash (c_str (replica_string i r)) = poly_hash (c_str (replica_string j q)) ->
      replica_string i r = replica_string j q) (seq 0 2)) (seq 0 2)) (seq 0 4)) (seq 0 4)).
  { apply (bool_decide_unpack _). vm_compute. exact I. }
  intros i j r q Hi Hj Hr Hq.
  apply (Forall_below _ 4 i) in H; [|lia]. apply (Forall_below _ 4 j) in H; [|lia].
  apply (Forall_below _ 2 r) in H; [|lia]. by apply (Forall_below _ 2 q) in H.
Qed.

Lemma main_report_exact_witness :
  exists before after,
    main_round poly_hash 2 3 0 ["Server10"; "Server20"]%string = inr (before, after) /\
    ("Server2"%string, 1, 2, true) ∈ detailed_rows before after.
Proof.
  destruct (main_report_exact poly_hash 2 3 0 ["Server10"; "Server20"]%string) as (before & after & Hm & Hrows).
  - exact poly_hash_range.
  - lia.
  - lia.
  - vm_compute. reflexivity.
  - exact poly_hash_separates.
  - lia.
  - vm_compute. discriminate.
  - exists before, after. split; [exact Hm|]. apply Hrows. vm_compute. by split_and!.
Defined.

Lemma reports_have_one_header_witness :
  let o := mk_os ∅ {["."%string]} ∅ ∅ ∅ ∅ "." ∅ ∅ [] (0, 0) in
  let r := (2, 1, {["Server2"%string := 1]}, {["Server2"%string := 2]}) in
  let file := "./detailed_data.csv"%string in
  os_text (foldl (write_report file) o [r; r]) !! file = Some (header ++ concat (report_text <$> [r; r])).
Proof.
  intros o r file. apply (reports_have_one_header file r [r] o).
  - vm_compute. reflexivity.
  - vm_compute. reflexivity.
Defined.
