(* ===== verification/Simulator.v ===== *)
(** * The simulator's program

    [getFilePaths] and the whole of [main] of
    src/tests/load_distribution_simul.cpp: the walk over the data directory, one
    round of [RingSimulation] for each number of virtual nodes, and the report
    file.  The contents of the directory are a tree in the order in which the
    file system lists them; the servers that fail, which [main] draws at random,
    are arguments. *)

From S2P Require Import Prelude CString Posix HashRing RingSimulation.
Import Posix HashRing RingSimulation.
#[local] Open Scope Z_scope.

Module Simulator.

(** ** The data directory *)

(** An entry is a directory, or something else that [is_regular_file] may say
    yes to. *)
Inductive dentry : Type :=
  | Leaf (name : string) (regular : bool)
  | Dir (name : string) (entries : list dentry).

(** [fs::path]'s [operator/] with a relative right-hand side. *)
Definition join (dir name : string) : string :=
  match last (of_string dir) with
  | None => name
  | Some c => if eqc c slash then String.append dir name
              else String.append dir (String.append "/" name)
  end.

(** The order of [fs::recursive_directory_iterator]: an entry, then what is in
    it.  Symbolic links to directories are not followed. *)
Fixpoint walk (dir : string) (e : dentry) : list (string * bool) :=
  match e with
  | Leaf n regular => [(join dir n, regular)]
  | Dir n l => (join dir n, false) :: mjoin (walk (join dir n) <$> l)
  end.

Definition getFilePaths (directory_path exclude_path : string) (entries : list dentry) : list string :=
  fst <$> filter (fun x : string * bool => x.2 = true /\ find_sub (of_string exclude_path) (of_string x.1) = None)
    (mjoin (walk directory_path <$> entries)).

(** ** The program *)

Definition R_NODE : nat := 1024.
Definition V_NODE_values : list nat := [10; 50; 100; 500; 1000]%nat.
(** [X_values] has one element. *)
Definition X : Z := 1.
Definition detailed_data : string := "detailed_data.csv".

(** An exception that nobody catches ends the process. *)
Definition thrown {A} (o : option A) : M os A :=
  match o with Some a => mret a | None => die Uncaught end.

Section Main.
Context (hash_ : string -> Z).

(** The body of the loop over [V_NODE_values]; [failed] is the index drawn. *)
Definition round (file_paths : list string) (V_NODE failed : nat) : M os unit :=
  let* r := of_result (main_round hash_ V_NODE R_NODE failed file_paths) in
  modify (writeDetailedData detailed_data (Z.of_nat V_NODE) X r.1 r.2).

Fixpoint rounds (file_paths : list string) (l : list (nat * nat)) : M os unit :=
  match l with
  | [] => mret tt
  | (V_NODE, failed) :: l' => round file_paths V_NODE failed;; rounds file_paths l'
  end.

(** [ls] is what a directory contains, if it can be read. *)
Definition main (argv : list string) (ls : string -> option (list dentry)) (draws : list nat) : M os Z :=
  match argv with
  | _ :: _ :: directory_path :: _ =>
      let exclude_path := String.append directory_path "/test" in
      let* entries := thrown (ls directory_path) in
      let file_paths := getFilePaths directory_path exclude_path entries in
      rounds file_paths (zip V_NODE_values draws);;
      mret 0
  | _ => mret 1
  end.

End Main.

(** ** The files that are found *)

Lemma dentry_ind' (P : dentry -> Prop) :
  (forall n b, P (Leaf n b)) -> (forall n l, Forall P l -> P (Dir n l)) -> forall e, P e.
Proof.
  intros HL HD. fix IH 1. intros [n b|n l]; [apply HL|]. apply HD. induction l as [|e l IHl]; [constructor|].
  by constructor.
Qed.

(** A file below a directory, by the names on the way to it. *)
Inductive file_in : list dentry -> list string -> Prop :=
  | file_here l n : Leaf n true ∈ l -> file_in l [n]
  | file_below l n l' p : Dir n l' ∈ l -> file_in l' p -> file_in l (n :: p).

Lemma file_in_cons e l p : file_in (e :: l) p <-> file_in [e] p \/ file_in l p.
Proof.
  split.
  - intros H. inversion H as [? n Hin|? n l' q Hin Hq]; subst; apply elem_of_cons in Hin as [<-|Hin].
    + left. apply file_here. by left.
    + right. by apply file_here.
    + left. eapply file_below; [by left|done].
    + right. by eapply file_below.
  - intros [H|H]; inversion H as [? n Hin|? n l' q Hin Hq]; subst.
    + apply list_elem_of_singleton in Hin as <-. apply file_here. by left.
    + apply list_elem_of_singleton in Hin as <-. eapply file_below; [by left|done].
    + apply file_here. by right.
    + eapply file_below; [by right|done].
Qed.

Lemma file_in_nil p : ~ file_in [] p.
Proof. intros H. inversion H as [? n Hin|? n l' q Hin]; subst; by apply not_elem_of_nil in Hin. Qed.

Definition found (dir x : string) (l : list dentry) : Prop := exists p, file_in l p /\ x = foldl join dir p.

Lemma walks_found dir x l : Forall (fun e => (x, true) ∈ walk dir e <-> found dir x [e]) l ->
  (x, true) ∈ mjoin (walk dir <$> l) <-> found dir x l.
Proof.
  induction 1 as [|e l He _ IH]; cbn [fmap list_fmap mjoin list_join].
  - rewrite elem_of_nil. split; [done|]. by intros (p & Hp%file_in_nil & _).
  - rewrite elem_of_app, He, IH. unfold found. setoid_rewrite (file_in_cons e l). naive_solver.
Qed.

Lemma walk_found e : forall dir x, (x, true) ∈ walk dir e <-> found dir x [e].
Proof.
  induction e as [n b|n l IH] using dentry_ind'; intros dir x; cbn [walk].
  - rewrite list_elem_of_singleton. split.
    + intros [= -> <-]. exists [n]. split; [|done]. apply file_here. by left.
    + intros (p & Hp & ->). inversion Hp as [? m Hin|? m l' q Hin]; subst;
        apply list_elem_of_singleton in Hin; by simplify_eq.
  - rewrite elem_of_cons, walks_found by (apply (Forall_impl _ _ _ IH); naive_solver). split.
    + intros [[=]|(p & Hp & ->)]. exists (n :: p). split; [|done]. eapply file_below; [by left|done].
    + intros (p & Hp & ->). right. inversion Hp as [? m Hin|? m l' q Hin Hq]; subst;
        apply list_elem_of_singleton in Hin; simplify_eq. by exists q.
Qed.

(** The regular files below the directory, but for those with the excluded text
    anywhere in their path. *)
Lemma getFilePaths_spec dir excl l x : x ∈ getFilePaths dir excl l <->
  found dir x l /\ find_sub (of_string excl) (of_string x) = None.
Proof.
  unfold getFilePaths. rewrite list_elem_of_fmap.
  rewrite <- (walks_found dir x l) by (apply Forall_forall; intros; apply walk_found). split.
  - intros ([y b] & -> & [[Hb Hf] Hin]%list_elem_of_filter). cbn in *. by subst b.
  - intros [Hin Hf]. exists (x, true). split; [done|]. by apply list_elem_of_filter.
Qed.

(** ** The report *)

(** What is reported for a number of virtual nodes and a failed server. *)
Record reported (hash_ : string -> Z) (files : list string) (V_NODE index : nat) (r : report) : Prop := {
  rp_V : r.1.1.1 = Z.of_nat V_NODE;
  rp_X : r.1.1.2 = X;
  rp_before s : default 0 (r.1.2 !! s) = share same hash_ (hashRing hash_ V_NODE (servers R_NODE)) s files;
  rp_failed : default 0 (r.2 !! server_name (S index)) = 0;
  rp_kept : total r.1.2 = Z.of_nat (length files) /\ total r.2 = Z.of_nat (length files);
  rp_after s : (V_NODE <= 10)%nat -> default 0 (r.2 !! s) =
    share same hash_ (hashRing hash_ V_NODE (filter (fun s => s <> server_name (S index)) (servers R_NODE))) s files
}.

Section Run.
Context (hash_ : string -> Z) (Hhash : forall s, 0 <= hash_ s < 2 ^ 64) (files : list string).
Context (Hlen : Z.of_nat (length files) <= INT_MAX).

Lemma hash_separates_less V V' : (V <= V')%nat -> hash_separates hash_ V' R_NODE -> hash_separates hash_ V R_NODE.
Proof. intros HV Hs i j r q Hi Hj Hr Hq. apply Hs; lia. Qed.

Lemma round_reports V index o : (0 < V)%nat -> hash_separates hash_ V R_NODE -> (index < R_NODE)%nat ->
  exists r, round hash_ files V index o = Ret tt (write_report detailed_data o r) /\ reported hash_ files V index r.
Proof.
  intros HV Hs Hi. assert (HR : (2 <= R_NODE)%nat) by (unfold R_NODE; lia).
  destruct (main_round_total hash_ Hhash V R_NODE index files HV HR Hs Hi Hlen) as (b & a & Hm & Hb & Hf & Hk).
  exists (Z.of_nat V, X, b, a). split; [unfold round; by rewrite Hm|]. split; try done.
  intros s HV10. destruct (main_round_exact hash_ Hhash V R_NODE index files) as (b' & a' & Hm' & _ & Ha');
    [lia|done|unfold R_NODE; lia|done..|]. rewrite Hm in Hm'. injection Hm' as <- <-. apply Ha'.
Qed.

Lemma rounds_report V l : forall o, hash_separates hash_ V R_NODE ->
  Forall (fun x => (0 < x.1 <= V)%nat /\ (x.2 < R_NODE)%nat) l ->
  exists rs, rounds hash_ files l o = Ret tt (foldl (write_report detailed_data) o rs) /\
    Forall2 (fun x r => reported hash_ files x.1 x.2 r) l rs.
Proof.
  induction l as [|[v i] l IH]; intros o Hs Hl; cbn [rounds]; [by exists []|].
  apply Forall_cons in Hl as [[Hv Hi] Hl]. cbn [fst snd] in *.
  destruct (round_reports v i o) as (r & Hr & Hrep); [lia|by apply (hash_separates_less v V); [lia|]|done|].
  rewrite (bind_Ret _ _ _ _ _ Hr). destruct (IH (write_report detailed_data o r) Hs Hl) as (rs & Hrs & Hreps).
  exists (r :: rs). split; [exact Hrs|]. by constructor.
Qed.

End Run.

End Simulator.
Import Simulator.

(** C22: the simulator reports what it simulates.  Let the program run on a
    directory that it can read and that has at most 2^31-1 files, with a
    hash that keeps the strings of the largest ring apart, in a working directory
    in which there is no report yet and one can be made.  Then it ends normally,
    no count overflows, and it leaves a report file with one header and then, in
    the order of the numbers of virtual nodes, the rows of every round.  In each
    round every file of the directory (but for those with the excluded text in
    their path) is counted once before and once after the failure, before at the
    server that the ring gives it, after never at the failed one; with ten
    virtual nodes the counts after are those of a ring of the other servers. *)
Theorem simulator_report hash_ ls draws o prog n dir rest entries :
  (forall s, 0 <= hash_ s < 2 ^ 64) -> hash_separates hash_ 1000 R_NODE ->
  ls dir = Some entries -> length draws = 5%nat -> Forall (fun i => (i < R_NODE)%nat) draws ->
  can_create o detailed_data = true -> os_text o !! detailed_data = None ->
  Z.of_nat (length (getFilePaths dir (String.append dir "/test") entries)) <= INT_MAX ->
  let excl := String.append dir "/test" in
  let files := getFilePaths dir excl entries in
  exists reports o', main hash_ (prog :: n :: dir :: rest) ls draws o = Ret 0 o' /\
    os_text o' !! detailed_data = Some (header ++ concat (report_text <$> reports)) /\
    Forall2 (fun x r => reported hash_ files x.1 x.2 r) (zip V_NODE_values draws) reports /\
    forall x, x ∈ files <-> found dir x entries /\ find_sub (of_string excl) (of_string x) = None.
Proof.
  intros Hh Hsep Hls Hlen Hdraws Hc Ho Hfiles excl files.
  do 5 (destruct draws as [|? draws]; [done|]). destruct draws; [|done].
  destruct (rounds_report hash_ Hh files Hfiles 1000 (zip V_NODE_values [n0; n1; n2; n3; n4]) o Hsep) as (rs & Hrs & Hrep).
  { rewrite !Forall_cons in Hdraws. repeat (constructor; [cbn; intuition lia|]). constructor. }
  exists rs, (foldl (write_report detailed_data) o rs). split_and!; [| |exact Hrep|intros x; apply getFilePaths_spec].
  - unfold main. rewrite Hls. cbn [thrown]. unfold mret, M_ret. fold excl files.
    erewrite bind_Ret by reflexivity. by rewrite (bind_Ret _ _ _ _ _ Hrs).
  - destruct rs as [|r rs]; [inversion Hrep|]. by apply reports_have_one_header.
Qed.

(** ** Witness *)

Module SimulatorExample.

(** A hash that keeps strings apart which differ in the seven characters after
    the sixth: these characters as digits to the base 257. *)
Fixpoint digits257 (l : cstring) : Z :=
  match l with [] => 0 | c :: l' => 1 + Z.of_N (N_of_ascii c) + 257 * digits257 l' end.
Definition name_hash (s : string) : Z := digits257 (take 7 (drop 6 (of_string s))).

Lemma ascii_range c : 0 <= Z.of_N (N_of_ascii c) < 256.
Proof. pose proof (Ascii.N_ascii_bounded c). lia. Qed.

Lemma digits257_range l : 0 <= digits257 l < 257 ^ Z.of_nat (length l).
Proof.
  induction l as [|c l IH]; [cbn; lia|]. cbn [digits257 length]. rewrite Nat2Z.inj_succ, Z.pow_succ_r by lia.
  pose proof (ascii_range c). lia.
Qed.

Lemma digits257_inj l : forall l', digits257 l = digits257 l' -> l = l'.
Proof.
  induction l as [|c l IH]; intros [|d l'] E; cbn [digits257] in E; try done.
  - pose proof (ascii_range d). pose proof (digits257_range l'). lia.
  - pose proof (ascii_range c). pose proof (digits257_range l). lia.
  - pose proof (ascii_range c). pose proof (ascii_range d).
    rewrite (IH l') by lia. f_equal. rewrite <- (ascii_N_embedding c), <- (ascii_N_embedding d). f_equal. lia.
Qed.

Lemma name_hash_range s : 0 <= name_hash s < 2 ^ 64.
Proof.
  unfold name_hash. set (l := take 7 _). pose proof (digits257_range l) as [H0 H1]. split; [done|].
  eapply Z.lt_le_trans; [exact H1|]. etrans; [|by apply (Z.leb_le (257 ^ 7) (2 ^ 64))].
  apply Z.pow_le_mono_r; [lia|]. unfold l. rewrite length_take. lia.
Qed.

Lemma before_nul_id s : no_nul s -> before_nul s = s.
Proof.
  induction s as [|c s IH]; [done|]. intros [Hc Hs]%no_nul_cons. cbn [before_nul].
  rewrite eqc_ne by done. by rewrite IH.
Qed.

Lemma replica_string_text i r :
  of_string (replica_string i r) = of_string "Server" ++ print_int (Z.of_nat i) ++ print_int (Z.of_nat r).
Proof.
  unfold replica_string, server_name, StringifyReplica.
  by rewrite !of_string_append, !of_to_string, <- app_assoc.
Qed.

Lemma c_str_replica i r : c_str (replica_string i r) = replica_string i r.
Proof.
  unfold c_str. rewrite before_nul_id; [apply to_of_string|]. rewrite replica_string_text, !no_nul_app.
  split; [|split; apply no_nul_print_int].
  repeat (apply no_nul_cons; split; [discriminate|]). by apply not_elem_of_nil.
Qed.

Lemma name_hash_replica i r : (i <= R_NODE)%nat -> (r < 1000)%nat ->
  name_hash (replica_string i r) = digits257 (print_int (Z.of_nat i) ++ print_int (Z.of_nat r)).
Proof.
  intros Hi Hr. unfold name_hash. rewrite replica_string_text.
  change (drop 6 (of_string "Server" ++ ?l)) with l. rewrite take_ge; [done|]. rewrite length_app.
  pose proof (proj2 (print_int_length (Z.of_nat i) 4 ltac:(lia) ltac:(lia))) as H1.
  pose proof (proj2 (print_int_length (Z.of_nat r) 3 ltac:(lia) ltac:(lia))) as H2.
  change (10 ^ Z.of_nat 4) with 10000 in H1. change (10 ^ Z.of_nat 3) with 1000 in H2.
  unfold R_NODE in Hi. lia.
Qed.

Lemma name_hash_separates : hash_separates name_hash 1000 R_NODE.
Proof.
  intros i j r q Hi Hj Hr Hq. rewrite !c_str_replica, !name_hash_replica by done.
  intros E%digits257_inj. apply of_string_inj. rewrite !replica_string_text. by rewrite E.
Qed.

(** A directory with a file, a file with the excluded text and a directory. *)
Definition pfs : list dentry :=
  [Leaf "a" true; Leaf "test2" true; Dir "d" [Leaf "b" true; Leaf "link" false]].
Definition ls0 (d : string) : option (list dentry) := if String.eqb d "/pfs" then Some pfs else None.
Definition os0 : os := mk_os ∅ {["."%string]} ∅ ∅ ∅ ∅ "." ∅ ∅ [] (0, 0).

End SimulatorExample.
Import SimulatorExample.

Lemma simulator_report_witness :
  exists o', main name_hash ["simul"; "4"; "/pfs"]%string ls0 [0; 1; 2; 3; 1023]%nat os0 = Ret 0 o' /\
    ("/pfs/d/b"%string ∈ getFilePaths "/pfs" "/pfs/test" pfs) /\
    ~ ("/pfs/test2"%string ∈ getFilePaths "/pfs" "/pfs/test" pfs).
Proof.
  destruct (simulator_report name_hash ls0 [0; 1; 2; 3; 1023]%nat os0 "simul" "4" "/pfs" [] pfs)
    as (rs & o' & Hm & _ & _ & Hx).
  - exact name_hash_range.
  - exact name_hash_separates.
  - reflexivity.
  - reflexivity.
  - repeat (constructor; [unfold R_NODE; lia|]). constructor.
  - vm_compute. reflexivity.
  - vm_compute. reflexivity.
  - vm_compute. discriminate.
  - exists o'. split; [exact Hm|]. split.
    + apply Hx. split; [|vm_compute; reflexivity]. exists ["d"; "b"]%string. split; [|reflexivity].
      eapply file_below; [by do 2 right; left|]. apply file_here. by left.
    + intros [_ H]%Hx. vm_compute in H. discriminate H.
Defined.
