(* ===== verification/Nvme.v ===== *)
(** * Fresh names on the node-local NVMe

    Both the data mover and the fault store draw a directory with [mkdtemp] for
    every file they write and give the file its own name in it.  This file holds
    what they share: when a node has room for such files, and that the names are
    new. *)

From S2P Require Import Prelude CString HexDump Posix.
Import Posix.

Module Nvme.

(** ** Names *)

Lemma strchr_notin s c : c ∉ s -> strchr s c = None.
Proof. apply strchr_None. Qed.

Lemma after_last_no_sep c s : c ∉ after_last c s.
Proof.
  induction s as [|d s IH]; [apply not_elem_of_nil|]. simpl.
  destruct (strchr s c) eqn:E; [done|]. apply strchr_None in E.
  destruct (eqc d c) eqn:Ed; [done|]. unfold eqc in Ed.
  rewrite not_elem_of_cons. split; [|done]. intros ->. by rewrite Ascii.eqb_refl in Ed.
Qed.

Lemma fs_filename_no_slash p : slash ∉ of_string (fs_filename p).
Proof. unfold fs_filename. rewrite of_to_string. apply after_last_no_sep. Qed.

Lemma before_last_app c d n : c ∉ n -> before_last c (d ++ c :: n) = d.
Proof.
  intros Hn. induction d as [|e d IH]; simpl; [by rewrite strchr_notin|].
  destruct (strchr (d ++ c :: n) c) eqn:E; [by rewrite IH|].
  apply strchr_None in E. set_solver.
Qed.

Lemma parent_of_nonempty p x s : of_string p = x ++ slash :: s ->
  fs_parent_path p = match before_last slash (x ++ slash :: s) with
    | [] => if eqc (hd slash x) slash then "/" else ""
    | d => to_string d
    end.
Proof. intros E. unfold fs_parent_path. rewrite E. by destruct x. Qed.

Lemma fs_parent_path_app d n : d <> ""%string -> slash ∉ of_string n ->
  fs_parent_path (String.append d (String.append "/" n)) = d.
Proof.
  intros Hd Hn. destruct d as [|c d]; [done|].
  assert (E : of_string (String.append (String c d) (String.append "/" n)) =
    of_string (String c d) ++ slash :: of_string n) by by rewrite !of_string_append.
  rewrite (parent_of_nonempty _ _ _ E), before_last_app by done. apply (to_of_string (String c d)).
Qed.

(** [q] is the directory [nvme/sfx] or a name below it. *)
Definition under (nvme sfx q : string) : Prop :=
  exists t, q = String.append nvme (String.append "/" (String.append sfx t)) /\
    (t = ""%string \/ exists u, t = String.append "/" u).

Lemma under_inj nvme a b q :
  slash ∉ of_string a -> slash ∉ of_string b -> under nvme a q -> under nvme b q -> a = b.
Proof.
  intros Ha Hb (t & -> & Ht) (u & E & Hu). apply (f_equal of_string) in E.
  rewrite !of_string_append in E. simplify_list_eq. apply of_string_inj.
  destruct Ht as [->|[t' ->]], Hu as [->|[u' ->]]; rewrite ?of_string_append in E;
    cbn [of_string app] in E.
  - by rewrite !app_nil_r in E.
  - rewrite app_nil_r in E. rewrite E in Ha. set_solver.
  - rewrite app_nil_r in E. rewrite <- E in Hb. set_solver.
  - by eapply app_sep_inj in E as [-> _].
Qed.

(** ** A node that has room *)

(** [BBPATH] is a directory, and the names [mkdtemp] will choose, at least [k]
    of them, are different and unused. *)
Record nvme_ready (nvme : string) (k : nat) (o : os) : Prop := {
  nr_nonempty : nvme <> ""%string;
  nr_dir : nvme ∈ os_dirs o;
  nr_room : (k <= length (os_tmp o))%nat;
  nr_nodup : NoDup (os_tmp o);
  nr_slash : forall sfx, sfx ∈ os_tmp o -> slash ∉ of_string sfx;
  nr_free : forall sfx q, sfx ∈ os_tmp o -> under nvme sfx q ->
    (q ∉ os_dirs o) /\ os_files o !! q = None /\ os_links o !! q = None
}.

(** The path leads to a file that can be read. *)
Definition source_ok (o : os) (p : string) : Prop :=
  exists n d, os_files o !! resolve o p = Some n /\ os_nodes o !! n = Some d /\ (n ∉ os_bad o).

Lemma source_ok_ext o o' p : os_ext o o' -> source_ok o p -> source_ok o' p.
Proof.
  intros He (n & d & H1 & H2 & H3). exists n, d. rewrite (ext_resolve _ _ p He).
  destruct He as [Hf Hn _ Hb]. rewrite Hb. split_and!; [by eapply lookup_weaken..|done].
Qed.

Lemma under_dir nvme sfx : under nvme sfx (String.append nvme (String.append "/" sfx)).
Proof.
  exists ""%string. split; [|by left]. apply of_string_inj. rewrite !of_string_append.
  by rewrite app_nil_r.
Qed.

Lemma under_file nvme sfx n :
  under nvme sfx (String.append (String.append nvme (String.append "/" sfx)) (String.append "/" n)).
Proof.
  exists (String.append "/" n). split; [|by right; exists n].
  apply of_string_inj. rewrite !of_string_append. by rewrite <- !app_assoc.
Qed.

(** With room, [mkdtemp] makes a new directory; a name in it is new too, and
    once a file has that name there is room for one less. *)
Lemma mkdtemp_ready nvme k name o : nvme_ready nvme (S k) o -> slash ∉ of_string name ->
  exists dir tmp, mkdtemp nvme o = (dir, set_dirs ({[dir]} ∪ os_dirs o) tmp o) /\
    let f := String.append dir (String.append "/" name) in
    fs_parent_path f = dir /\ f <> dir /\ os_files o !! f = None /\ os_links o !! f = None /\
    (f ∉ os_dirs o) /\
    forall o', os_dirs o' = {[dir]} ∪ os_dirs o -> os_tmp o' = tmp -> os_links o' = os_links o ->
      (exists m, os_files o' = <[f := m]> (os_files o)) -> nvme_ready nvme k o'.
Proof.
  intros [Hne Hdir Hroom Hnd Hsl Hfree] Hname.
  destruct (os_tmp o) as [|sfx tmp] eqn:Etmp; [simpl in Hroom; lia|].
  set (dir := String.append nvme (String.append "/" sfx)).
  exists dir, tmp. set (f := String.append dir (String.append "/" name)).
  destruct (Hfree sfx dir) as (D1 & D2 & D3); [by left|apply under_dir|].
  destruct (Hfree sfx f) as (F1 & F2 & F3); [by left|apply under_file|].
  split; [unfold mkdtemp; rewrite Etmp; fold dir; by rewrite !bool_decide_true|].
  split; [apply fs_parent_path_app; [unfold dir; by destruct nvme|done]|].
  split; [|split_and!; try done].
  { intros E. apply (f_equal (fun x => length (of_string x))) in E. unfold f in E.
    rewrite !of_string_append, !length_app in E. simpl in E. lia. }
  intros o' Hd Ht Hl [m Hf]. apply NoDup_cons in Hnd as [Hnin Hnd].
  split; rewrite ?Hd, ?Ht, ?Hl; try done; [set_solver|simpl in Hroom; lia|by intros; apply Hsl; right|].
  intros sfx' q H' Hu. destruct (Hfree sfx' q) as (G1 & G2 & G3); [by right|done|].
  assert (Hother : forall x, under nvme sfx x -> q <> x).
  { intros x Hx ->. assert (sfx' = sfx) as -> by (eapply under_inj; [apply Hsl; by right|apply Hsl; by left|done..]).
    done. }
  pose proof (Hother _ (under_dir nvme sfx)). pose proof (Hother _ (under_file nvme sfx name)).
  rewrite Hf, lookup_insert_ne by done. split_and!; [set_solver|done..].
Qed.

End Nvme.
