(* ===== verification/LogInfo.v ===== *)
(** * The request log

    [log_info_t] of src/src/ftc_comm.h and the two functions that write it
    out, [initialize_log] and [logging_info] of src/src/ftc_comm.cpp.  Fields
    that a caller has not assigned are indeterminate, and printing one is
    undefined behaviour, so the callers have to be shown to assign them. *)

From S2P Require Import Prelude CString HexDump Posix.
Import Posix.

Module LogInfo.

Record log_info_t : Type := mk_log {
  filepath : cbuf;
  request : cbuf;
  flag : option Z;
  client_rank : option Z;
  server_rank : option Z;
  expn : cbuf;
  n_epoch : option Z;
  n_batch : option Z;
  clocktime : option (Z * Z)
}.

(** A local [log_info_t] before any assignment. *)
Definition log_uninit : log_info_t :=
  mk_log (uninit 256) (uninit 256) None None None (uninit 256) None None None.

Definition set_filepath b l := mk_log b (request l) (flag l) (client_rank l) (server_rank l)
  (expn l) (n_epoch l) (n_batch l) (clocktime l).
Definition set_request b l := mk_log (filepath l) b (flag l) (client_rank l) (server_rank l)
  (expn l) (n_epoch l) (n_batch l) (clocktime l).
Definition set_flag z l := mk_log (filepath l) (request l) (Some z) (client_rank l) (server_rank l)
  (expn l) (n_epoch l) (n_batch l) (clocktime l).
Definition set_ranks c s l := mk_log (filepath l) (request l) (flag l) (Some c) (Some s)
  (expn l) (n_epoch l) (n_batch l) (clocktime l).
Definition set_expn b l := mk_log (filepath l) (request l) (flag l) (client_rank l) (server_rank l)
  b (n_epoch l) (n_batch l) (clocktime l).
Definition set_epoch e b l := mk_log (filepath l) (request l) (flag l) (client_rank l)
  (server_rank l) (expn l) (Some e) (Some b) (clocktime l).
Definition set_clock t l := mk_log (filepath l) (request l) (flag l) (client_rank l)
  (server_rank l) (expn l) (n_epoch l) (n_batch l) (Some t).

(** [strncpy(dst, s, sizeof(dst) - 1); dst[sizeof(dst) - 1] = 0] on the
    256-byte fields (the server), and [strncpy(dst, s, sizeof(dst))], which
    does not terminate a long string (the client). *)
Definition fill (dst : cbuf) (s : cstring) : cbuf := poke (strncpy dst s 255) 255 nul.
Definition fill_unterminated (dst : cbuf) (s : cstring) : cbuf := strncpy dst s 256.

(** [snprintf(log_info.filepath, sizeof(log_info.filepath), "fd_%d", fd)]. *)
Definition fill_fd (dst : cbuf) (fd : Z) : cbuf :=
  snprintf dst 256 (of_string "fd_" ++ print_int fd).

(** [%06ld]. *)
Definition print_06 (z : Z) : cstring :=
  let s := print_int z in replicate (6 - length s) "0"%char ++ s.

(** [snprintf(log_filename, 64, "%s/%s_node_%d.log", logdir, type, rank)]. *)
Definition log_filename (logdir : option string) (type : string) (rank : Z) : string :=
  to_string (take 63 (printf_s (of_string <$> logdir) ++ of_string "/" ++ of_string type
    ++ of_string "_node_" ++ print_int rank ++ of_string ".log")).

Definition LOG_DIR : string := "FT_Cache_LOG_DIR".

(** [initialize_log(rank, type)] truncates the file, or exits. *)
Definition initialize_log (rank : Z) (type : string) : M os unit := fun o =>
  let f := log_filename (getenv o LOG_DIR) type rank in
  if can_create o f
  then Ret tt (text_write f (of_string "Log file for " ++ of_string type ++ of_string " rank "
                 ++ print_int rank ++ ["010"%char]) o)
  else Dies (Exited 1) o.

(** The text of one [fprintf], when every argument has a value. *)
Definition bracket (s : cstring) : cstring := "["%char :: s ++ ["]"%char].
Definition log_line (i : log_info_t) : option cstring :=
  fp ← cstr (filepath i); rq ← cstr (request i); fl ← flag i;
  cr ← client_rank i; sr ← server_rank i; ex ← cstr (expn i);
  ne ← n_epoch i; nb ← n_batch i; ct ← clocktime i;
  Some (bracket fp ++ bracket rq ++ bracket (print_int fl) ++ bracket (print_int cr)
    ++ bracket (print_int sr) ++ bracket ex ++ bracket (print_int ne) ++ bracket (print_int nb)
    ++ bracket (print_int ct.1 ++ "."%char :: print_06 ct.2) ++ ["010"%char]).

(** [logging_info(info, type)] appends to the file named after the
    [server_rank] of the record, or gives up when the file cannot be opened. *)
Definition logging_info (i : log_info_t) (type : string) : M os unit := fun o =>
  match server_rank i with
  | None => Dies UndefinedBehaviour o
  | Some sr =>
      let f := log_filename (getenv o LOG_DIR) type sr in
      if can_create o f then
        match log_line i with
        | Some line => Ret tt (text_append f line o)
        | None => Dies UndefinedBehaviour o
        end
      else Ret tt o
  end.

(** A record every field of which can be printed. *)
Definition log_complete (i : log_info_t) : Prop :=
  is_Some (cstr (filepath i)) /\ is_Some (cstr (request i)) /\ is_Some (flag i) /\
  is_Some (client_rank i) /\ is_Some (server_rank i) /\ is_Some (cstr (expn i)) /\
  is_Some (n_epoch i) /\ is_Some (n_batch i) /\ is_Some (clocktime i).

(** ** Lemmas *)

Lemma log_complete_line i : log_complete i -> is_Some (log_line i).
Proof.
  intros ([? H1] & [? H2] & [? H3] & [? H4] & [? H5] & [? H6] & [? H7] & [? H8] & [? H9]).
  unfold log_line. rewrite H1, H2, H3, H4, H5, H6, H7, H8, H9. simpl. eauto.
Qed.

(** Logging a complete record returns, and touches the log files only. *)
Lemma logging_info_complete i type o : log_complete i ->
  exists text, logging_info i type o = Ret tt (set_text text o).
Proof.
  intros Hc. unfold logging_info.
  destruct Hc as (? & ? & ? & ? & [sr Hsr] & ?) eqn:E. clear E. rewrite Hsr.
  case_if; [|by exists (os_text o); destruct o].
  destruct (log_complete_line i Hc) as [line ->]. by eexists.
Qed.

Lemma logging_info_Ret i type o u o' :
  logging_info i type o = Ret u o' -> exists text, o' = set_text text o.
Proof.
  unfold logging_info. destruct (server_rank i) as [sr|]; [|done].
  case_if; [|intros [= _ <-]; by exists (os_text o); destruct o].
  destruct (log_line i); [|done]. intros [= _ <-]. by eexists.
Qed.

Lemma logging_info_no_block i type o o' : logging_info i type o <> Blocked o'.
Proof.
  unfold logging_info. destruct (server_rank i) as [sr|]; [|done]. case_if; [|done].
  by destruct (log_line i).
Qed.

Lemma cstr_fill dst s : length dst = 256%nat -> is_Some (cstr (fill dst s)).
Proof. intros Hl. apply cstr_strncpy_poke_is_Some. lia. Qed.

Lemma cstr_fill_fd dst fd : is_Some (cstr (fill_fd dst fd)).
Proof.
  unfold fill_fd. rewrite cstr_snprintf; [eauto|].
  apply no_nul_app. split; [by apply (bool_decide_unpack _)|]. apply no_nul_print_int.
Qed.

(** [snprintf] already terminates the text; a NUL in the last element of the
    array keeps it terminated. *)
Lemma cstr_fill_fd_poke fd : is_Some (cstr (poke (fill_fd (uninit 256) fd) 255 nul)).
Proof.
  unfold fill_fd. set (s := of_string "fd_" ++ print_int fd).
  assert (Hs : no_nul s).
  { apply no_nul_app. split; [by apply (bool_decide_unpack _)|]. apply no_nul_print_int. }
  unfold snprintf, poke. set (k := take 255 s).
  assert (Hk : (length k <= 255)%nat) by (unfold k; rewrite length_take; lia).
  assert (Hn : no_nul k) by (by apply no_nul_take).
  destruct (decide (length k = 255%nat)) as [E|E].
  - rewrite insert_app_r_alt, length_fmap, E by (rewrite length_fmap; lia).
    rewrite Nat.sub_diag. cbn [insert list_insert].
    rewrite cstr_terminated by done. eauto.
  - rewrite insert_app_r_alt, length_fmap by (rewrite length_fmap; lia).
    destruct (255 - length k)%nat as [|j] eqn:Ej; [lia|]. cbn [insert list_insert].
    rewrite cstr_terminated by done. eauto.
Qed.

Lemma length_fill dst s : length dst = 256%nat -> length (fill dst s) = 256%nat.
Proof. intros Hl. unfold fill. rewrite length_poke, length_strncpy by lia. done. Qed.

Lemma length_fill_fd dst fd : length dst = 256%nat -> length (fill_fd dst fd) = 256%nat.
Proof. intros Hl. unfold fill_fd. rewrite length_snprintf by lia. done. Qed.

(** The client's idiom loses the terminator exactly on long strings. *)
Lemma cstr_fill_unterminated dst s : length dst = 256%nat -> no_nul s ->
  cstr (fill_unterminated dst s) = if (length s <? 256)%nat then Some s else None.
Proof.
  intros Hl Hs. unfold fill_unterminated. destruct (Nat.ltb_spec (length s) 256).
  - by rewrite cstr_strncpy.
  - unfold strncpy. replace (256 - length s)%nat with O by lia.
    rewrite drop_ge by lia. simpl. rewrite app_nil_r.
    by apply cstr_unterminated, no_nul_take.
Qed.

End LogInfo.
