(* ===== verification/FaultStore.v ===== *)
(** * The fault store

    src/src/ftc_fault_client.cpp and ftc_fault.h: a client keeps copies of the
    data of a node in memory ([storeData]) and, after the node failed, writes
    them to its own NVMe and enters them in [path_cache_map] ([writeToFile]).
    The blocks of [malloc] are the map [fs_heap]; the function that announces
    the new map to the servers is not in the repository and is a parameter. *)

From S2P Require Import Prelude CString HexDump Posix Nvme LogInfo.
Import Posix Nvme LogInfo.

Module FaultStore.

(** [struct Data]; [value] points to a block of the heap. *)
Record Data : Type := mk_Data { file_path : cbuf; value : nat; size : Z }.

Record store : Type := mk_store {
  fs_os : os;
  fs_heap : gmap nat (list byte);
  data_storage : gmap Z (list Data);      (* by hg_addr_t *)
  fs_cache : gmap string string           (* path_cache_map *)
}.

Definition set_fs_os o s := mk_store o (fs_heap s) (data_storage s) (fs_cache s).
Definition set_fs_heap h s := mk_store (fs_os s) h (data_storage s) (fs_cache s).
Definition set_storage d s := mk_store (fs_os s) (fs_heap s) d (fs_cache s).
Definition set_fs_cache m s := mk_store (fs_os s) (fs_heap s) (data_storage s) m.

Definition sys {A} (f : os -> A * os) : M store A :=
  fun s => Ret (f (fs_os s)).1 (set_fs_os (f (fs_os s)).2 s).

(** [malloc(size)] with the argument converted to [size_t]: a negative size
    exceeds every address space.  [mem] tells whether there is memory. *)
Definition malloc (mem : bool) (size : Z) : M store (option nat) :=
  if negb mem || (size <? 0) then mret None
  else
    let* h := gets fs_heap in
    let p := fresh (dom h : gset nat) in
    modify (set_fs_heap (<[p := replicate (Z.to_nat size) Byte.x00]> h));;
    mret (Some p).

(** [memcpy(p, buffer, size)]: reading past the buffer is undefined. *)
Definition memcpy (p : nat) (buffer : list byte) (size : Z) : M store unit :=
  let* d := defined (if size <=? Z.of_nat (length buffer) then Some (take (Z.to_nat size) buffer) else None) in
  modify (fun s => set_fs_heap (<[p := d]> (fs_heap s)) s).

Definition storeData (mem : bool) (node : Z) (path : string) (buffer : list byte) (size : Z) : M store unit :=
  let* data_copy := malloc mem size in
  match data_copy with
  | None => mret tt
  | Some p =>
      memcpy p buffer size;;
      let data := mk_Data (fill (uninit 256) (of_string path)) p size in
      modify (fun s => set_storage (<[node := default [] (data_storage s !! node) ++ [data]]> (data_storage s)) s)
  end.

(** [fopen(filename, "wb")] and the descriptor behind it; -1 for null. *)
Definition fopen_wb (filename : string) : M store Z :=
  sys (posix_open filename (Z.lor O_WRONLY (Z.lor O_CREAT O_TRUNC))).

(** [fwrite(p, 1, size, file)], whose result nobody looks at; the block holds
    at least [size] bytes. *)
Definition fwrite (p : nat) (size : Z) (file : Z) : M store unit :=
  let* h := gets fs_heap in
  let* d := defined (h !! p) in
  let* bytes := defined (if size <=? Z.of_nat (length d) then Some (take (Z.to_nat size) d) else None) in
  let* r := sys (posix_write file bytes) in
  mret tt.

(** The body of the loop of [writeToFile]. *)
Definition write_entry (nvmepath : string) (data : Data) : M store unit :=
  let* dirpath := sys (mkdtemp nvmepath) in
  let* path := defined (cstr (file_path data)) in
  let filename := String.append dirpath (String.append "/" (fs_filename (to_string path))) in
  let* file := fopen_wb filename in
  if file =? -1 then mret tt
  else
    fwrite (value data) (size data) file;;
    let* r := sys (posix_close file) in
    modify (fun s => set_fs_cache (<[to_string path := filename]> (fs_cache s)) s).

Fixpoint write_entries (nvmepath : string) (l : list Data) : M store unit :=
  match l with
  | [] => mret tt
  | data :: l' => write_entry nvmepath data;; write_entries nvmepath l'
  end.

Section Update.
(** [ftc_client_comm_gen_update_rpc(n, path_cache_map)]. *)
Context (ftc_client_comm_gen_update_rpc : Z -> gmap string string -> M store unit).

Definition writeToFile (node : Z) : M store unit :=
  let* ds := gets data_storage in
  match ds !! node with
  | None => mret tt
  | Some l =>
      let* bb := gets (fun s => getenv (fs_os s) "BBPATH") in
      let* nvmepath := defined bb in
      write_entries nvmepath l;;
      let* m := gets fs_cache in
      ftc_client_comm_gen_update_rpc 1 m
  end.
End Update.

Definition emptyStore : M store unit := modify (set_storage ∅).

(** ** Storing *)

(** The key of an entry: the path cut to what [file_path] holds. *)
Definition key_of (path : string) : string := to_string (take 255 (of_string path)).

(** The store holds, for a node, the entries [es] in order. *)
Definition entry_is (h : gmap nat (list byte)) (d : Data) (e : string * list byte) : Prop :=
  cstr (file_path d) = Some (of_string (key_of e.1)) /\ size d = Z.of_nat (length e.2) /\
  h !! value d = Some e.2.
Definition stored (node : Z) (es : list (string * list byte)) (s : store) : Prop :=
  Forall2 (entry_is (fs_heap s)) (default [] (data_storage s !! node)) es.

(** Store a list of entries, one call after the other. *)
Fixpoint store_all (node : Z) (es : list (string * list byte)) : M store unit :=
  match es with
  | [] => mret tt
  | (path, bytes) :: es' =>
      storeData true node path bytes (Z.of_nat (length bytes));; store_all node es'
  end.

Lemma storeData_run node path bytes s : no_nul (of_string path) ->
  exists p d, fs_heap s !! p = None /\ entry_is (<[p := bytes]> (fs_heap s)) d (path, bytes) /\
    storeData true node path bytes (Z.of_nat (length bytes)) s =
      Ret tt (set_storage (<[node := default [] (data_storage s !! node) ++ [d]]> (data_storage s))
                (set_fs_heap (<[p := bytes]> (fs_heap s)) s)).
Proof.
  intros Hn. set (p := fresh (dom (fs_heap s) : gset nat)).
  exists p, (mk_Data (fill (uninit 256) (of_string path)) p (Z.of_nat (length bytes))).
  assert (Hp : fs_heap s !! p = None).
  { apply not_elem_of_dom. exact (is_fresh (dom (fs_heap s) : gset nat)). }
  split; [done|]. split.
  - split; [|split; [done|apply lookup_insert_eq]]. cbn [file_path fst]. unfold fill, key_of.
    rewrite of_to_string. apply cstr_strncpy_poke; [done|]. unfold uninit. rewrite length_replicate. lia.
  - unfold storeData, malloc, memcpy. mred. rewrite (proj2 (Z.ltb_ge _ 0)) by lia. cbn [negb orb].
    rewrite Z.leb_refl. fold p. rewrite Nat2Z.id, take_ge by done.
    cbn [set_fs_heap fs_heap data_storage]. by rewrite insert_insert_eq.
Qed.

Lemma entry_is_weaken h h' d e : h ⊆ h' -> entry_is h d e -> entry_is h' d e.
Proof. intros Hh (H1 & H2 & H3). split_and!; try done. by eapply lookup_weaken. Qed.

Lemma stored_weaken h' node es s : fs_heap s ⊆ h' -> stored node es s ->
  Forall2 (entry_is h') (default [] (data_storage s !! node)) es.
Proof. intros Hh Hs. eapply Forall2_impl; [exact Hs|]. intros d e. by apply entry_is_weaken. Qed.

Lemma store_all_run node es : Forall (fun e => no_nul (of_string e.1)) es -> forall es0 s,
  stored node es0 s ->
  exists s', store_all node es s = Ret tt s' /\ stored node (es0 ++ es) s' /\
    fs_os s' = fs_os s /\ fs_cache s' = fs_cache s /\ (es <> [] -> is_Some (data_storage s' !! node)) /\
    fs_heap s ⊆ fs_heap s' /\ base.size (fs_heap s') = (base.size (fs_heap s) + length es)%nat.
Proof.
  induction 1 as [|[path bytes] es Hn _ IH]; intros es0 s Hs.
  { exists s. rewrite app_nil_r. split_and!; try done; simpl; lia. }
  destruct (storeData_run node path bytes s Hn) as (p & d & Hp & Hd & Hrun).
  set (s1 := set_storage _ _) in Hrun. cbn [store_all]. rewrite (bind_Ret _ _ _ _ _ Hrun).
  destruct (IH (es0 ++ [(path, bytes)]) s1) as (s' & H1 & H2 & H3 & H4 & H5 & H6 & H7).
  { unfold stored, s1. cbn. rewrite lookup_insert_eq. cbn. apply Forall2_app; [|by constructor].
    apply stored_weaken; [|done]. by apply insert_subseteq. }
  cbn in H6, H7. rewrite map_size_insert_None in H7 by done.
  exists s'. rewrite <- app_assoc in H2. split_and!; try done.
  - intros _. destruct es as [|e es]; [|by apply H5].
    injection H1 as <-. unfold s1. cbn. rewrite lookup_insert_eq. by eexists.
  - etrans; [|exact H6]. by apply insert_subseteq.
  - simpl. lia.
Qed.

(** ** Writing *)

Lemma overwrite_new bytes : overwrite [] 0 bytes = bytes.
Proof. unfold overwrite. cbn. by rewrite drop_nil, app_nil_r. Qed.

(** A new file is opened, written and closed. *)
Lemma create_file f bytes o :
  os_links o !! f = None -> os_files o !! f = None -> fs_parent_path f ∈ os_dirs o ->
  f ∉ os_dirs o -> fs_filename f <> ""%string ->
  let n := fresh_node (os_nodes o) in
  exists fd o1 o2 o3, posix_open f (Z.lor O_WRONLY (Z.lor O_CREAT O_TRUNC)) o = (fd, o1) /\ 0 <= fd /\
    (posix_write fd bytes o1).2 = o2 /\ (posix_close fd o2).2 = o3 /\
    exists fds, o3 = set_fds fds (set_files (<[f := n]> (os_files o)) (<[n := bytes]> (os_nodes o)) o).
Proof.
  intros Hl Hf Hp Hd Hn n. set (fd := lowest_fd (os_fds o)).
  assert (Hr : resolve o f = f) by (unfold resolve; by rewrite Hl).
  destruct (lowest_fd_free (os_fds o)) as [_ Hpos]. fold fd in Hpos.
  unfold posix_open. rewrite Hr, Hf, !bool_decide_true by done. cbn [andb has_flag]. fold fd. fold n.
  change (has_flag (Z.lor O_WRONLY (Z.lor O_CREAT O_TRUNC)) O_CREAT) with true. cbv iota beta.
  do 4 eexists. split; [reflexivity|]. split; [done|]. split; [reflexivity|]. split; [reflexivity|].
  unfold posix_write. cbn [os_fds set_fds set_files os_nodes os_files]. rewrite !lookup_insert_eq.
  change (new_ofile n (Z.lor O_WRONLY (Z.lor O_CREAT O_TRUNC))) with (OFile n 0 false true false).
  cbn [of_write of_node of_append of_off snd].
  unfold posix_close. cbn [os_fds set_fds set_files os_nodes os_files]. rewrite !lookup_insert_eq. cbn [snd].
  rewrite overwrite_new, !insert_insert_eq. eexists. reflexivity.
Qed.

Lemma fs_filename_app d n : slash ∉ of_string n ->
  fs_filename (String.append d (String.append "/" n)) = n.
Proof.
  intros Hn. unfold fs_filename. rewrite !of_string_append. change (of_string "/") with [slash].
  rewrite <- (to_of_string n) at 2. f_equal. induction (of_string d) as [|c l IH]; simpl.
  - by rewrite strchr_notin.
  - destruct (strchr (l ++ slash :: of_string n) slash) eqn:E; [exact IH|].
    apply strchr_None in E. set_solver.
Qed.

(** One entry, on a node with room: a new file has its bytes, and the map leads
    there. *)
Lemma write_entry_run nvme k d path bytes s :
  entry_is (fs_heap s) d (path, bytes) -> nvme_ready nvme (S k) (fs_os s) ->
  fs_filename (key_of path) <> ""%string ->
  exists f o, write_entry nvme d s = Ret tt (set_fs_cache (<[key_of path := f]> (fs_cache s)) (set_fs_os o s)) /\
    nvme_ready nvme k o /\ os_ext (fs_os s) o /\ file_at o f = Some bytes.
Proof.
  intros (Hpath & Hsize & Hval) Hr Hname. cbn [fst snd] in *.
  destruct (mkdtemp_ready nvme k (fs_filename (key_of path)) (fs_os s) Hr)
    as (dir & tmp & Hmk & Hpar & Hfd & F1 & F2 & F3 & Hnext); [apply fs_filename_no_slash|].
  set (f := String.append dir (String.append "/" (fs_filename (key_of path)))) in *.
  set (o1 := set_dirs ({[dir]} ∪ os_dirs (fs_os s)) tmp (fs_os s)) in *.
  destruct (create_file f bytes o1) as (fd & oa & ob & oc & Hopen & Hpos & Hwrite & Hclose & fds & Ho); try done.
  { rewrite Hpar. cbn. set_solver. }
  { cbn. set_solver. }
  { unfold f. by rewrite fs_filename_app by apply fs_filename_no_slash. }
  assert (Hfresh : os_nodes o1 !! fresh_node (os_nodes o1) = None) by apply fresh_node_None.
  exists f, oc. split; [|split; [|split]].
  - unfold write_entry, sys. mred. rewrite Hmk. cbn [fst snd set_fs_os fs_os]. rewrite Hpath. mred.
    rewrite to_of_string. fold f. unfold fopen_wb, sys. cbn [set_fs_os fs_os]. rewrite Hopen. cbn [fst snd].
    rewrite (proj2 (Z.eqb_neq fd (-1))) by lia. unfold fwrite, sys. mred. cbn [set_fs_os fs_heap]. rewrite Hval.
    rewrite Hsize, Z.leb_refl, Nat2Z.id, take_ge by done. cbn [fs_os set_fs_os fs_cache]. by rewrite Hwrite, Hclose.
  - apply Hnext; rewrite Ho; try done. by eexists.
  - rewrite Ho. split; cbn; [by apply insert_subseteq|by apply insert_subseteq|done|done].
  - unfold file_at, resolve, content. rewrite Ho. cbn. rewrite F2. cbn. rewrite lookup_insert_eq. cbn.
    by rewrite lookup_insert_eq.
Qed.

(** What the map must hold after the entries [es] were written: the last entry
    of a key wins, other keys keep what they had. *)
Fixpoint last_entry (es : list (string * list byte)) (key : string) : option (list byte) :=
  match es with
  | [] => None
  | (path, bytes) :: es' =>
      match last_entry es' key with
      | Some d => Some d
      | None => if decide (key_of path = key) then Some bytes else None
      end
  end.

Lemma write_entries_run nvme es : forall l s,
  Forall2 (entry_is (fs_heap s)) l es -> nvme_ready nvme (length es) (fs_os s) ->
  Forall (fun e => fs_filename (key_of e.1) <> ""%string) es ->
  exists o m, write_entries nvme l s = Ret tt (set_fs_cache m (set_fs_os o s)) /\
    os_ext (fs_os s) o /\
    forall key, match last_entry es key with
      | Some bytes => exists f, m !! key = Some f /\ file_at o f = Some bytes
      | None => m !! key = fs_cache s !! key
      end.
Proof.
  induction es as [|[path bytes] es IH]; intros l s Hl Hr Hn.
  - apply Forall2_nil_inv_r in Hl as ->. exists (fs_os s), (fs_cache s).
    split; [by destruct s|]. by split.
  - apply Forall2_cons_inv_r in Hl as (d & l' & Hd & Hl & ->). apply Forall_cons in Hn as [Hn Hns].
    destruct (write_entry_run nvme (length es) d path bytes s Hd Hr Hn) as (f & o1 & Hrun & Hr1 & He1 & Hf).
    set (s1 := set_fs_cache _ _) in Hrun.
    destruct (IH l' s1 Hl Hr1 Hns) as (o2 & m & Hrun2 & He2 & Hm).
    exists o2, m. split; [cbn [write_entries]; by rewrite (bind_Ret _ _ _ _ _ Hrun), Hrun2|].
    split; [by etrans|]. intros key. specialize (Hm key). simpl.
    destruct (last_entry es key) as [d'|]; [exact Hm|]. cbn in Hm. case_decide as Hk.
    + subst key. rewrite Hm. exists f. split; [apply lookup_insert_eq|]. by eapply ext_file_at.
    + rewrite Hm. by apply lookup_insert_ne.
Qed.

End FaultStore.
Import FaultStore.

(** C16: what is stored for a node is what is written for it.  After its entries
    were stored, on a node with room for them, [writeToFile] reaches the call
    that announces the map to the servers, whatever that function does, with the
    map as its argument and in a state [s'] in which every file of the node is as
    it was and, for every key, the path cut to 255 characters, the map leads to a
    new file with the bytes of the last entry of that key; other keys keep their
    value. *)
Theorem fault_store_roundtrip upd nvme node es s :
  stored node [] s -> es <> [] ->
  Forall (fun e => no_nul (of_string e.1)) es ->
  Forall (fun e => fs_filename (key_of e.1) <> ""%string) es ->
  getenv (fs_os s) "BBPATH" = Some nvme -> nvme_ready nvme (length es) (fs_os s) ->
  exists s', (store_all node es;; writeToFile upd node) s = upd 1 (fs_cache s') s' /\
    os_ext (fs_os s) (fs_os s') /\
    forall key, match last_entry es key with
      | Some bytes => exists f, fs_cache s' !! key = Some f /\ file_at (fs_os s') f = Some bytes
      | None => fs_cache s' !! key = fs_cache s !! key
      end.
Proof.
  intros H0 Hne Hn Hf Hbb Hr.
  destruct (store_all_run node es Hn [] s H0) as (s1 & H1 & Hst & Ho & Hc & Hsome & _).
  destruct (Hsome Hne) as [l Hl]. unfold stored in Hst. rewrite Hl in Hst. cbn in Hst.
  destruct (write_entries_run nvme es l s1 Hst) as (o & m & H2 & He & Hm); [by rewrite Ho|done|].
  exists (set_fs_cache m (set_fs_os o s1)). rewrite (bind_Ret _ _ _ _ _ H1). split.
  - unfold writeToFile. mred. by rewrite Hl, Ho, Hbb, H2.
  - cbn. rewrite <- Ho, <- Hc. by split.
Qed.

(** The memory of the store is never released.  [emptyStore] forgets every
    entry, but the blocks that [storeData] allocated stay allocated. *)
Lemma fault_store_never_freed node es s :
  stored node [] s -> Forall (fun e => no_nul (of_string e.1)) es ->
  exists s', (store_all node es;; emptyStore) s = Ret tt s' /\ data_storage s' = ∅ /\
    fs_heap s ⊆ fs_heap s' /\ base.size (fs_heap s') = (base.size (fs_heap s) + length es)%nat.
Proof.
  intros H0 Hn. destruct (store_all_run node es Hn [] s H0) as (s1 & H1 & _ & _ & _ & _ & H2 & H3).
  exists (set_storage ∅ s1). rewrite (bind_Ret _ _ _ _ _ H1). by split_and!.
Qed.

Module FaultExample.

Definition os_f : os :=
  mk_os {["/pfs/a"%string := 0%nat]} {["/nvme"%string; "/pfs"%string]} ∅ {[0%nat := [Byte.x41]]} ∅ ∅ "/"
    {["BBPATH"%string := "/nvme"%string]} ∅ ["aa"%string; "bb"%string] (0, 0).
Definition st_f : store := mk_store os_f ∅ ∅ ∅.
Definition entries : list (string * list byte) :=
  [("/pfs/a"%string, [Byte.x41]); ("/pfs/b"%string, [Byte.x42; Byte.x43])].
(** An announcement that fails. *)
Definition upd0 (n : Z) (m : gmap string string) : M store unit := die AssertFailed.

Lemma os_f_ready : nvme_ready "/nvme" 2 os_f.
Proof.
  split; simpl.
  - discriminate.
  - set_solver.
  - lia.
  - repeat constructor; set_solver.
  - intros sfx Hs. apply strchr_None.
    repeat (apply elem_of_cons in Hs as [->|Hs]; [vm_compute; reflexivity|]). by apply not_elem_of_nil in Hs.
  - intros sfx q Hs (t & -> & _). split; [|split; [|done]].
    + intros H. apply elem_of_union in H as [H|H]; apply elem_of_singleton in H; discriminate.
    + apply lookup_singleton_ne. discriminate.
Qed.

Lemma entries_no_nul : Forall (fun e => no_nul (of_string e.1)) entries.
Proof. by repeat (apply Forall_cons; split; [by apply (bool_decide_unpack _)|]). Qed.

End FaultExample.
Import FaultExample.

Lemma fault_store_roundtrip_witness :
  exists s', (store_all 1 entries;; writeToFile upd0 1) st_f = Dies AssertFailed s' /\
    exists f, fs_cache s' !! "/pfs/b"%string = Some f /\ file_at (fs_os s') f = Some [Byte.x42; Byte.x43].
Proof.
  destruct (fault_store_roundtrip upd0 "/nvme" 1 entries st_f) as (s' & H1 & _ & H2).
  - by apply Forall2_nil.
  - discriminate.
  - exact entries_no_nul.
  - by repeat (apply Forall_cons; split; [vm_compute; discriminate|]).
  - vm_compute. reflexivity.
  - exact os_f_ready.
  - exists s'. split; [exact H1|]. exact (H2 "/pfs/b"%string).
Defined.

Lemma fault_store_never_freed_witness :
  exists s', (store_all 1 entries;; emptyStore) st_f = Ret tt s' /\ data_storage s' = ∅ /\
    fs_heap st_f ⊆ fs_heap s' /\ base.size (fs_heap s') = 2%nat.
Proof.
  destruct (fault_store_never_freed 1 entries st_f) as (s' & H1 & H2 & H3 & H4).
  - by apply Forall2_nil.
  - exact entries_no_nul.
  - exists s'. split; [exact H1|]. split; [exact H2|]. split; [exact H3|exact H4].
Defined.
