(* ===== verification/Server.v ===== *)
(** * The cache server

    The process state of a server and the Mercury RPC handlers of
    src/src/ftc_comm.cpp: [ftc_open_rpc_handler], [ftc_rpc_handler] with its
    completion callback [ftc_rpc_handler_bulk_cb], [ftc_seek_rpc_handler] and
    [ftc_close_rpc_handler], and the start-up code ([ftc_init_comm(true)],
    [ftc_comm_list_addr]).

    A handler is a computation over [server].  What Mercury returns to it (the
    decoding of the input, the peer's address, the outcome of bulk operations)
    is the record [hg_call], one per invocation.  The handlers that contain a
    critical section are cut at its borders, so that the thread model can
    interleave the pieces; the whole handler is their composition. *)

From S2P Require Import Prelude CString HexDump Address Posix LogInfo.
Import Address Posix LogInfo.

Module Server.

(** ** Data *)

(** The inputs of the four RPCs (src/src/ftc_comm.h). *)
Record ftc_open_in_t : Type := mk_open_in {
  oi_path : string; oi_client_rank : Z; oi_localfd : Z
}.
Record ftc_rpc_in_t : Type := mk_rpc_in {
  ri_input_val : Z; ri_accessfd : Z; ri_localfd : Z; ri_offset : Z; ri_client_rank : Z
}.
Record ftc_seek_in_t : Type := mk_seek_in { si_fd : Z; si_offset : Z; si_whence : Z }.
Record ftc_close_in_t : Type := mk_close_in { ci_fd : Z; ci_client_rank : Z }.

(** What Mercury answers while one RPC is handled. *)
Record hg_call : Type := mk_call {
  hc_get_input : Z;                 (* HG_Get_input *)
  hc_peer : option (Z * cbuf);      (* HG_Get_info, then HG_Addr_to_string: code and text *)
  hc_alloc : bool;                  (* calloc finds memory *)
  hc_bulk_create : Z;               (* HG_Bulk_create *)
  hc_bulk_transfer : Z -> Z         (* HG_Bulk_transfer, by size *)
}.

Definition HG_SUCCESS : Z := 0.

(** [struct ftc_rpc_state], kept alive until the bulk transfer completes.
    [rs_data] is the initialised prefix of [buffer]; the rest of the [calloc]ed
    block is zero. *)
Record ftc_rpc_state : Type := mk_rpc_state {
  rs_size : Z; rs_data : list byte; rs_in : ftc_rpc_in_t
}.

(** What a handler does towards Mercury, the allocator and the data mover. *)
Inductive resource : Type := RState | RBuffer | RBulk | RHandle.
Inductive event : Type :=
  | EvAlloc (h : nat) (r : resource)
  | EvFree (h : nat) (r : resource)
  | EvPush (h : nat) (data : list byte)
  | EvRespond (h : nat) (out : Z)
  | EvSignal.

#[export] Instance resource_eq_dec : EqDecision resource.
Proof. solve_decision. Defined.
#[export] Instance byte_eq_dec : EqDecision byte.
Proof. exact Byte.byte_eq_dec. Defined.
#[export] Instance event_eq_dec : EqDecision event.
Proof. solve_decision. Defined.

Record server : Type := mk_server {
  srv_os : os;
  path_cache_map : gmap string string;
  fd_to_path : gmap Z string;
  data_queue : list string;
  ftc_server_rank : Z;
  server_rank : Z;
  server_addr_str : cbuf;
  srv_bulk : gmap nat ftc_rpc_state;   (* transfers in flight, by RPC handle *)
  srv_trace : list event
}.

Definition set_os o s := mk_server o (path_cache_map s) (fd_to_path s) (data_queue s)
  (ftc_server_rank s) (server_rank s) (server_addr_str s) (srv_bulk s) (srv_trace s).
Definition set_cache m s := mk_server (srv_os s) m (fd_to_path s) (data_queue s)
  (ftc_server_rank s) (server_rank s) (server_addr_str s) (srv_bulk s) (srv_trace s).
Definition set_fd_to_path m s := mk_server (srv_os s) (path_cache_map s) m (data_queue s)
  (ftc_server_rank s) (server_rank s) (server_addr_str s) (srv_bulk s) (srv_trace s).
Definition set_queue q s := mk_server (srv_os s) (path_cache_map s) (fd_to_path s) q
  (ftc_server_rank s) (server_rank s) (server_addr_str s) (srv_bulk s) (srv_trace s).
Definition set_server_ranks a b s := mk_server (srv_os s) (path_cache_map s) (fd_to_path s)
  (data_queue s) a b (server_addr_str s) (srv_bulk s) (srv_trace s).
Definition set_addr_str b s := mk_server (srv_os s) (path_cache_map s) (fd_to_path s)
  (data_queue s) (ftc_server_rank s) (server_rank s) b (srv_bulk s) (srv_trace s).
Definition set_bulk m s := mk_server (srv_os s) (path_cache_map s) (fd_to_path s) (data_queue s)
  (ftc_server_rank s) (server_rank s) (server_addr_str s) m (srv_trace s).
Definition emit_event e s := mk_server (srv_os s) (path_cache_map s) (fd_to_path s) (data_queue s)
  (ftc_server_rank s) (server_rank s) (server_addr_str s) (srv_bulk s) (srv_trace s ++ [e]).

(** ** Primitive computations *)

Definition emit (e : event) : M server unit := modify (emit_event e).

(** Run a computation of the operating system, or a system call. *)
Definition lift_os {A} (m : M os A) : M server A := fun s =>
  match m (srv_os s) with
  | Ret a o => Ret a (set_os o s)
  | Dies w o => Dies w (set_os o s)
  | Blocked o => Blocked (set_os o s)
  end.
Definition sys {A} (f : os -> A * os) : M server A :=
  lift_os (fun o => Ret (f o).1 (f o).2).

Definition gettimeofday : M server (Z * Z) := gets (fun s => os_now (srv_os s)).
Definition log (i : log_info_t) : M server unit := lift_os (logging_info i "server").

(** [std::map::operator[]] on [fd_to_path]: a missing key is inserted with an
    empty string. *)
Definition fd_to_path_at (fd : Z) : M server string :=
  let* m := gets fd_to_path in
  match m !! fd with
  | Some p => mret p
  | None => modify (set_fd_to_path (<[fd := ""%string]> m));; mret ""%string
  end.

(** [log_info.flag]: does the peer run on this node? *)
Definition peer_flag (client_addr_str : cbuf) : M server Z :=
  let* addr := defined (cstr client_addr_str) in
  let client_ip := extract_ip_portion addr (uninit 128) 128 in
  let* srv := gets server_addr_str in
  let* s1 := defined (cstr srv) in
  let* s2 := defined (cstr client_ip) in
  mret (if decide (s1 = s2) then 1 else 0).

(** The fields the handlers of open, read and close assign before their first
    [logging_info]. *)
Definition received_log (now : Z * Z) (path : cbuf) (req : string) (flag crank srank epoch : Z)
    : log_info_t :=
  set_epoch epoch (-1) (set_expn (fill (uninit 256) (of_string "SReceive"))
    (set_ranks crank srank (set_flag flag (set_request (fill (uninit 256) (of_string req))
      (set_filepath path (set_clock now log_uninit)))))).

Definition with_expn (s : string) (i : log_info_t) : log_info_t :=
  set_expn (fill (expn i) (of_string s)) i.

(** ** Open *)

(** The locals of [ftc_open_rpc_handler] that live across its lock. *)
Record open_frame : Type := mk_open_frame {
  of_handle : nat; of_in : ftc_open_in_t; of_ret : Z; of_log : log_info_t
}.

Definition open_begin (h : nat) (c : hg_call) (i : ftc_open_in_t) : M server (Z + open_frame) :=
  assertM (hc_get_input c =? 0);;
  let* now := gettimeofday in
  match hc_peer c with
  | None => mret (inl (hc_get_input c))
  | Some (ret, client_addr_str) =>
      let* flag := peer_flag client_addr_str in
      let* rank := gets server_rank in
      let li := received_log now (fill (uninit 256) (of_string (oi_path i))) "open" flag
                  (oi_client_rank i) rank (oi_localfd i) in
      log li;;
      mret (inr (mk_open_frame h i ret (with_expn "SPFSRequest" li)))
  end.

(** Between the lock and the unlock of [path_map_mutex]: the path to open, the
    NVMe flag and the updated record. *)
Definition open_lookup (f : open_frame) : M server (string * bool * log_info_t) :=
  let* m := gets path_cache_map in
  match m !! oi_path (of_in f) with
  | Some redir_path => mret (redir_path, true, with_expn "SNVMeRequest" (of_log f))
  | None => mret (oi_path (of_in f), false, of_log f)
  end.

Definition open_finish (f : open_frame) (x : string * bool * log_info_t) : M server Z :=
  let '(redir_path, nvme_flag, li) := x in
  let* now := gettimeofday in
  let li := set_clock now li in
  log li;;
  let* ret_status := sys (posix_open redir_path O_RDONLY) in
  let* now := gettimeofday in
  let li := with_expn (if nvme_flag : bool then "SNVMeReceive" else "SPFSReceive") (set_clock now li) in
  log li;;
  let* m := gets fd_to_path in
  modify (set_fd_to_path (<[ret_status := oi_path (of_in f)]> m));;
  emit (EvRespond (of_handle f) ret_status);;
  mret (of_ret f).

Definition ftc_open_rpc_handler (h : nat) (c : hg_call) (i : ftc_open_in_t) : M server Z :=
  let* r := open_begin h c i in
  match r with
  | inl ret => mret ret
  | inr f => let* x := open_lookup f in open_finish f x
  end.

(** ** Read *)

(** [calloc(1, n)] for an [int32_t] count: the conversion to [size_t] makes a
    negative count larger than any object. *)
Definition calloc_ok (c : hg_call) (input_val : Z) : bool :=
  (u64 input_val <? 2 ^ 63) && hc_alloc c.

(** [ssize_t] result and buffer of a [read] or [pread]. *)
Definition ssize (r : option (list byte)) : Z :=
  match r with Some d => Z.of_nat (length d) | None => -1 end.

(** Up to the first log record. *)
Definition rpc_begin (h : nat) (c : hg_call) (i : ftc_rpc_in_t) : M server (Z + log_info_t) :=
  emit (EvAlloc h RState);;
  if negb (hc_get_input c =? HG_SUCCESS) then
    emit (EvFree h RState);; mret (inl (hc_get_input c))
  else
  let* now := gettimeofday in
  assertM (calloc_ok c (ri_input_val i));;
  emit (EvAlloc h RBuffer);;
  match hc_peer c with
  | None => mret (inl (hc_get_input c))
  | Some (_, client_addr_str) =>
      assertM (hc_bulk_create c =? 0);;
      emit (EvAlloc h RBulk);;
      let* flag := peer_flag client_addr_str in
      let* rank := gets server_rank in
      let li := received_log now (poke (fill_fd (uninit 256) (ri_localfd i)) 255 nul) "read" flag
                  (ri_client_rank i) rank (-1) in
      log li;;
      mret (inr li)
  end.

(** The end of the handler: the size is reduced to what was read, and the
    transfer to the client starts. *)
Definition start_transfer (h : nat) (c : hg_call) (i : ftc_rpc_in_t) (data : option (list byte))
    : M server Z :=
  let size := u64 (ssize data) in
  let ret := hc_bulk_transfer c size in
  assertM (ret =? 0);;
  emit (EvPush h (default [] data));;
  let* m := gets srv_bulk in
  modify (set_bulk (<[h := mk_rpc_state size (default [] data) i]> m));;
  mret ret.

(** [offset == -1]: the next bytes of [accessfd], or of [localfd]. *)
Definition rpc_stream_read (h : nat) (c : hg_call) (i : ftc_rpc_in_t) : M server Z :=
  let size := u64 (ri_input_val i) in
  let* r1 := sys (posix_read (ri_accessfd i) size) in
  match r1 with
  | Some _ => start_transfer h c i r1
  | None => let* r2 := sys (posix_read (ri_localfd i) size) in start_transfer h c i r2
  end.

(** Any other offset: [pread], and an error response when it fails. *)
Definition rpc_positioned_read (h : nat) (c : hg_call) (i : ftc_rpc_in_t) (li : log_info_t)
    : M server Z :=
  let size := u64 (ri_input_val i) in
  let* now := gettimeofday in
  let li := with_expn "SSNVMeRequest" (set_clock now li) in
  let* r := gets (fun s => posix_pread (ri_accessfd i) size (ri_offset i) (srv_os s)) in
  let* tmp_time := gettimeofday in
  match r with
  | None =>
      log (with_expn "Fail" li);;
      emit (EvFree h RBulk);;
      emit (EvFree h RBuffer);;
      emit (EvRespond h (-1));;
      emit (EvFree h RState);;
      mret HG_SUCCESS
  | Some _ =>
      log li;;
      log (with_expn "SSNVMeReceive" (set_clock tmp_time li));;
      start_transfer h c i r
  end.

Definition ftc_rpc_handler (h : nat) (c : hg_call) (i : ftc_rpc_in_t) : M server Z :=
  let* r := rpc_begin h c i in
  match r with
  | inl ret => mret ret
  | inr li => if ri_offset i =? -1 then rpc_stream_read h c i else rpc_positioned_read h c i li
  end.

(** [ftc_rpc_handler_bulk_cb]: [info_ret] is the outcome of the transfer,
    [respond_ret] that of [HG_Respond]. *)
Definition free_rpc_state (h : nat) : M server unit :=
  emit (EvFree h RBulk);;
  emit (EvFree h RHandle);;
  emit (EvFree h RBuffer);;
  let* m := gets srv_bulk in
  modify (set_bulk (delete h m));;
  emit (EvFree h RState).

Definition ftc_rpc_handler_bulk_cb (h : nat) (info_ret respond_ret : Z) : M server Z :=
  let* m := gets srv_bulk in
  let* st := defined (m !! h) in
  let out := i32 (rs_size st) in
  if negb (info_ret =? 0) then
    free_rpc_state h;; mret info_ret
  else
    emit (EvRespond h out);;
    if negb (respond_ret =? HG_SUCCESS) then
      free_rpc_state h;; mret respond_ret
    else
      free_rpc_state h;; mret 0.

(** ** Seek *)

Definition ftc_seek_rpc_handler (h : nat) (c : hg_call) (i : ftc_seek_in_t) : M server Z :=
  assertM (hc_get_input c =? 0);;
  let* pos := sys (posix_lseek (si_fd i) (si_offset i) (si_whence i)) in
  emit (EvRespond h (i32 pos));;
  mret (hc_get_input c).

(** ** Close *)

Record close_frame : Type := mk_close_frame {
  cf_in : ftc_close_in_t; cf_ret : Z; cf_tmp_time : Z * Z; cf_log : log_info_t
}.

Definition erase_fd (fd : Z) : M server unit :=
  let* m := gets fd_to_path in modify (set_fd_to_path (delete fd m)).

Definition close_begin (h : nat) (c : hg_call) (i : ftc_close_in_t) : M server (Z + close_frame) :=
  assertM (hc_get_input c =? HG_SUCCESS);;
  let* now := gettimeofday in
  match hc_peer c with
  | None => erase_fd (ci_fd i);; mret (inl (hc_get_input c))
  | Some (_, client_addr_str) =>
      let* flag := peer_flag client_addr_str in
      let* rank := gets server_rank in
      let li := received_log now (fill_fd (uninit 256) (ci_fd i)) "close" flag
                  (ci_client_rank i) rank (-1) in
      log li;;
      let* now := gettimeofday in
      let li := with_expn "SReceive" (set_clock now li) in
      let* ret := sys (posix_close (ci_fd i)) in
      let* tmp_time := gettimeofday in
      assertM (ret =? 0);;
      mret (inr (mk_close_frame i ret tmp_time li))
  end.

(** Under [path_map_mutex]: is the file of the descriptor not cached yet? *)
Definition close_check (f : close_frame) : M server bool :=
  let* p := fd_to_path_at (ci_fd (cf_in f)) in
  let* m := gets path_cache_map in
  mret (bool_decide (m !! p = None)).

(** Under [path_map_mutex] and [data_mutex]: hand the file to the data mover. *)
Definition close_push (f : close_frame) : M server unit :=
  let* p := fd_to_path_at (ci_fd (cf_in f)) in
  let* q := gets data_queue in
  modify (set_queue (q ++ [p]));;
  emit EvSignal.

Definition close_finish (f : close_frame) (nvme_flag : bool) : M server Z :=
  (if nvme_flag then
     let li := with_expn "SNVMeRequest" (cf_log f) in
     log li;;
     log (set_clock (cf_tmp_time f) (with_expn "SNVMeReceive" li))
   else
     let li := with_expn "SPFSRequest" (cf_log f) in
     log li;;
     log (set_clock (cf_tmp_time f) (with_expn "SPFSReceive" li)));;
  erase_fd (ci_fd (cf_in f));;
  mret (cf_ret f).

Definition ftc_close_rpc_handler (h : nat) (c : hg_call) (i : ftc_close_in_t) : M server Z :=
  let* r := close_begin h c i in
  match r with
  | inl ret => mret ret
  | inr f =>
      let* nvme_flag := close_check f in
      (if nvme_flag : bool then close_push f else mret tt);;
      close_finish f nvme_flag
  end.

(** ** Start-up *)

(** The part of [ftc_init_comm] that a listener runs once Mercury is up:
    [atoi] of a null pointer is undefined. *)
Definition ftc_init_comm_listen : M server unit :=
  let* rank_str := gets (fun s => getenv (srv_os s) "PMIX_RANK") in
  let* r := defined rank_str in
  let rank := atoi (of_string r) in
  modify (set_server_ranks rank rank);;
  lift_os (initialize_log rank "server").

(** The registry file of the job ([sprintf("./.ports.cfg.%s", jobid)]). *)
Definition ports_cfg (jobid : option string) : string :=
  to_string (of_string "./.ports.cfg." ++ printf_s (of_string <$> jobid)).

(** [ftc_comm_list_addr], for the address Mercury reports for this process. *)
Definition ftc_comm_list_addr (self_addr_string : cstring) : M server unit :=
  let* o := gets srv_os in
  let filename := ports_cfg (getenv o "MY_JOBID") in
  let* old := gets server_addr_str in
  modify (set_addr_str (extract_ip_portion self_addr_string old 128));;
  if can_create o filename then
    let* rank := gets ftc_server_rank in
    sys (fun o => (tt, text_append filename (ports_line rank self_addr_string) o))
  else die (Exited 0).

Definition server_start (self_addr_string : cstring) : M server unit :=
  ftc_init_comm_listen;;
  ftc_comm_list_addr self_addr_string.

(** ** Well-formed calls and states *)

(** A call in which Mercury reports no error, from a peer with a printable
    address. *)
Record call_ok (c : hg_call) : Prop := {
  ok_input : hc_get_input c = 0;
  ok_peer : exists b, hc_peer c = Some (0, b) /\ is_Some (cstr b);
  ok_alloc : hc_alloc c = true;
  ok_create : hc_bulk_create c = 0;
  ok_transfer : forall n, 0 <= n < 2 ^ 63 -> hc_bulk_transfer c n = 0
}.

(** The server has posted its address: the global array holds a string. *)
Definition addr_ok (s : server) : Prop := is_Some (cstr (server_addr_str s)).

(** [s'] differs from [s] in the log files only. *)
Definition logs_only (s s' : server) : Prop :=
  exists text, s' = set_os (set_text text (srv_os s)) s.

(** ** Lemmas *)

#[export] Instance logs_only_refl : Reflexive logs_only.
Proof. intros s. exists (os_text (srv_os s)). by destruct s as [[]]. Qed.

Lemma peer_flag_ok b s : is_Some (cstr b) -> addr_ok s ->
  exists z, peer_flag b s = Ret z s.
Proof.
  intros [a Ha] [sa Hsa]. unfold peer_flag. rewrite Ha. mred.
  rewrite Hsa. mred.
  rewrite extract_ip_portion_cstr; [|by eapply cstr_no_nul|done|lia]. by eexists.
Qed.

(** A record that can be printed now and after any change of its clock or
    [expn] field. *)
Definition log_ready (i : log_info_t) : Prop :=
  log_complete i /\ length (expn i) = 256%nat.

Lemma received_log_ready now path req flag cr sr ep :
  is_Some (cstr path) -> log_ready (received_log now path req flag cr sr ep).
Proof.
  intros Hp. split; [|by apply length_fill]. unfold log_complete, received_log. simpl.
  split_and!; try done; try (by eexists); by apply cstr_fill.
Qed.

Lemma with_expn_ready str i : log_ready i -> log_ready (with_expn str i).
Proof.
  intros [(?&?&?&?&?&?&?&?&?) Hl]. split; [|by apply length_fill].
  unfold log_complete. simpl. split_and!; try done. by apply cstr_fill.
Qed.

Lemma set_clock_ready t i : log_ready i -> log_ready (set_clock t i).
Proof. intros [(?&?&?&?&?&?&?&?&?) Hl]. split; [|done]. unfold log_complete. simpl. split_and!; done. Qed.

#[export] Hint Resolve received_log_ready with_expn_ready set_clock_ready : ftc.

Lemma log_ok i s : log_ready i -> exists text, log i s = Ret tt (set_os (set_text text (srv_os s)) s).
Proof.
  intros [Hi _]. unfold log, lift_os.
  destruct (logging_info_complete i "server" (srv_os s) Hi) as [text ->]. eauto.
Qed.

Lemma sys_Ret {A} (f : os -> A * os) s : sys f s = Ret (f (srv_os s)).1 (set_os (f (srv_os s)).2 s).
Proof. done. Qed.

End Server.
