(* ===== verification/ServerSpec.v ===== *)
(** * What a server promises

    The RPC handlers of [Server] without their log: [open_spec], [read_spec],
    [seek_spec] and [close_spec] are pure functions on the server state.  On a
    call in which Mercury reports no error, each handler returns and does
    exactly what its specification does, the log files aside.  The properties
    of the handlers' effects are then read off the specifications. *)

From S2P Require Import Prelude CString HexDump Address Posix LogInfo Server.
Import Address Posix LogInfo Server.

Module ServerSpec.

(** ** Specifications *)

(** The file an open request is served from. *)
Definition served_path (s : server) (p : string) : string := default p (path_cache_map s !! p).

Definition open_spec (h : nat) (i : ftc_open_in_t) (s : server) : server :=
  let r := posix_open (served_path s (oi_path i)) O_RDONLY (srv_os s) in
  emit_event (EvRespond h r.1)
    (set_fd_to_path (<[r.1 := oi_path i]> (fd_to_path s)) (set_os r.2 s)).

(** The state after the bulk transfer of [data] completed. *)
Definition delivered (h : nat) (data : list byte) (o : os) (s : server) : server :=
  set_bulk (delete h (srv_bulk s))
    (mk_server o (path_cache_map s) (fd_to_path s) (data_queue s) (ftc_server_rank s)
      (server_rank s) (server_addr_str s) (srv_bulk s)
      (srv_trace s ++ [EvAlloc h RState; EvAlloc h RBuffer; EvAlloc h RBulk; EvPush h data;
         EvRespond h (Z.of_nat (length data)); EvFree h RBulk; EvFree h RHandle;
         EvFree h RBuffer; EvFree h RState])).

(** A read request and its completion: [None] stands for the failed assertion
    that ends the server. *)
Definition read_spec (h : nat) (i : ftc_rpc_in_t) (s : server) : option server :=
  let size := ri_input_val i in
  if ri_offset i =? -1 then
    let r1 := posix_read (ri_accessfd i) size (srv_os s) in
    match r1.1 with
    | Some d => Some (delivered h d r1.2 s)
    | None =>
        let r2 := posix_read (ri_localfd i) size (srv_os s) in
        match r2.1 with
        | Some d => Some (delivered h d r2.2 s)
        | None => None
        end
    end
  else
    match posix_pread (ri_accessfd i) size (ri_offset i) (srv_os s) with
    | Some d => Some (delivered h d (srv_os s) s)
    | None =>
        Some (mk_server (srv_os s) (path_cache_map s) (fd_to_path s) (data_queue s)
          (ftc_server_rank s) (server_rank s) (server_addr_str s) (srv_bulk s)
          (srv_trace s ++ [EvAlloc h RState; EvAlloc h RBuffer; EvAlloc h RBulk;
             EvFree h RBulk; EvFree h RBuffer; EvRespond h (-1); EvFree h RState]))
    end.

Definition seek_spec (h : nat) (i : ftc_seek_in_t) (s : server) : server :=
  let r := posix_lseek (si_fd i) (si_offset i) (si_whence i) (srv_os s) in
  emit_event (EvRespond h (i32 r.1)) (set_os r.2 s).

(** Closing an open descriptor. *)
Definition close_spec (i : ftc_close_in_t) (s : server) : server :=
  let p := default ""%string (fd_to_path s !! ci_fd i) in
  let s1 := set_fd_to_path (delete (ci_fd i) (fd_to_path s))
              (set_os (set_fds (delete (ci_fd i) (os_fds (srv_os s))) (srv_os s)) s) in
  match path_cache_map s !! p with
  | Some _ => s1
  | None => emit_event EvSignal (set_queue (data_queue s ++ [p]) s1)
  end.

(** The read handler followed by the completion of the transfer it started, if
    it started one: [info_ret] and [respond_ret] are what Mercury reports. *)
Definition serve_read (h : nat) (c : hg_call) (i : ftc_rpc_in_t) : M server Z :=
  let* ret := ftc_rpc_handler h c i in
  let* m := gets srv_bulk in
  match m !! h with
  | Some _ => ftc_rpc_handler_bulk_cb h 0 0
  | None => mret ret
  end.

(** ** One interface for the four RPCs *)

Inductive rpc : Type :=
  | ROpen (i : ftc_open_in_t)
  | RRead (i : ftc_rpc_in_t)
  | RSeek (i : ftc_seek_in_t)
  | RClose (i : ftc_close_in_t).

Definition serve (h : nat) (c : hg_call) (r : rpc) : M server Z :=
  match r with
  | ROpen i => ftc_open_rpc_handler h c i
  | RRead i => serve_read h c i
  | RSeek i => ftc_seek_rpc_handler h c i
  | RClose i => ftc_close_rpc_handler h c i
  end.

Definition serve_spec (h : nat) (r : rpc) (s : server) : option server :=
  match r with
  | ROpen i => Some (open_spec h i s)
  | RRead i => read_spec h i s
  | RSeek i => Some (seek_spec h i s)
  | RClose i => if bool_decide (is_Some (os_fds (srv_os s) !! ci_fd i)) then Some (close_spec i s) else None
  end.

(** The requests the server survives: a non-negative [int32_t] count on a
    handle with no transfer in flight, and a descriptor that is open. *)
Definition request_ok (h : nat) (r : rpc) (s : server) : Prop :=
  match r with
  | RRead i => 0 <= ri_input_val i < 2 ^ 31 /\ srv_bulk s !! h = None
  | RClose i => is_Some (os_fds (srv_os s) !! ci_fd i)
  | _ => True
  end.

(** A count that fits and a handle of its own are all the specification asks
    for; Mercury refuses a transfer of 2^64-1 bytes. *)
Definition request_fits (h : nat) (c : hg_call) (r : rpc) (s : server) : Prop :=
  match r with
  | RRead i => 0 <= ri_input_val i < 2 ^ 31 /\ srv_bulk s !! h = None /\ hc_bulk_transfer c (2 ^ 64 - 1) <> 0
  | _ => True
  end.

(** A client's requests in the order the progress thread serves them, and what
    they amount to; [None] when one of them ends the server. *)
Fixpoint serve_all (l : list (nat * hg_call * rpc)) : M server unit :=
  match l with
  | [] => mret tt
  | (h, c, r) :: l' => serve h c r;; serve_all l'
  end.

Fixpoint serve_all_spec (l : list (nat * hg_call * rpc)) (s : server) : option server :=
  match l with
  | [] => Some s
  | (h, c, r) :: l' => s1 ← serve_spec h r s; serve_all_spec l' s1
  end.

Fixpoint requests_ok (l : list (nat * hg_call * rpc)) (s : server) : Prop :=
  match l with
  | [] => True
  | (h, c, r) :: l' =>
      call_ok c /\ request_fits h c r s /\
      forall s1, serve_spec h r s = Some s1 -> requests_ok l' s1
  end.

(** The events a computation adds to the trace. *)
Definition new_events (s s' : server) : list event := drop (length (srv_trace s)) (srv_trace s').

(** What the client receives for handle [h]: the bytes written into its buffer
    and the responses. *)
Definition pushed (h : nat) (es : list event) : list byte :=
  es ≫= fun e => match e with EvPush h' d => if decide (h = h') then d else [] | _ => [] end.
Definition responses (h : nat) (es : list event) : list Z :=
  es ≫= fun e => match e with EvRespond h' v => if decide (h = h') then [v] else [] | _ => [] end.
Definition allocs (h : nat) (r : resource) (es : list event) : nat :=
  length (filter (fun e => e = EvAlloc h r) es).
Definition frees (h : nat) (r : resource) (es : list event) : nat :=
  length (filter (fun e => e = EvFree h r) es).

(** ** Lemmas: system calls do not depend on the log files *)

Lemma open_set_text p fl t o :
  posix_open p fl (set_text t o) = ((posix_open p fl o).1, set_text t (posix_open p fl o).2).
Proof.
  unfold posix_open. change (resolve (set_text t o) p) with (resolve o p). cbn.
  destruct (os_files o !! resolve o p); [done|]. by case_match.
Qed.

Lemma read_set_text fd n t o :
  posix_read fd n (set_text t o) = ((posix_read fd n o).1, set_text t (posix_read fd n o).2).
Proof.
  unfold posix_read. change (readable (set_text t o) fd) with (readable o fd). cbn.
  by destruct (os_fds o !! fd), (readable o fd).
Qed.

Lemma lseek_set_text fd off wh t o :
  posix_lseek fd off wh (set_text t o) =
    ((posix_lseek fd off wh o).1, set_text t (posix_lseek fd off wh o).2).
Proof.
  unfold posix_lseek. cbn. destruct (os_fds o !! fd) as [f|]; [|done].
  change (seek_base f wh (set_text t o)) with (seek_base f wh o).
  destruct (seek_base f wh o); [|done]. by case_match.
Qed.

Lemma pread_set_text fd n off t o : posix_pread fd n off (set_text t o) = posix_pread fd n off o.
Proof. done. Qed.

(** Every record the handlers print is ready. *)
Ltac solve_log :=
  cbn [of_log cf_log];
  lazymatch goal with
  | |- log_ready (with_expn _ _) => apply with_expn_ready; solve_log
  | |- log_ready (set_clock _ _) => apply set_clock_ready; solve_log
  | |- log_ready (received_log _ _ _ _ _ _ _) => apply received_log_ready; solve_log
  | |- is_Some (cstr (fill _ _)) => by apply cstr_fill
  | |- is_Some (cstr (fill_fd _ _)) => apply cstr_fill_fd
  | |- is_Some (cstr (poke (fill_fd _ _) _ _)) => apply cstr_fill_fd_poke
  end.

(** Run the next [log] of the goal. *)
Ltac log_step :=
  match goal with
  | |- context [log ?i ?s] =>
      let t := fresh "t" in
      destruct (log_ok i s) as [t ->]; [solve_log|]; mred
  end.

Lemma open_run h c i s : call_ok c -> addr_ok s ->
  exists s', ftc_open_rpc_handler h c i s = Ret 0 s' /\ logs_only (open_spec h i s) s'.
Proof.
  intros [Hin (b & Hp & Hb) _ _ _] Hs. destruct (peer_flag_ok b s Hb Hs) as [fl Hfl].
  unfold ftc_open_rpc_handler, open_begin, open_lookup, open_finish, gettimeofday, emit.
  rewrite Hin, Hp. mred. change (0 =? 0) with true. mred. rewrite Hfl. mred.
  log_step. cbn [path_cache_map set_os of_in of_log of_handle of_ret].
  unfold open_spec, served_path.
  destruct (path_cache_map s !! oi_path i) as [redir|]; mred; log_step; rewrite sys_Ret; mred;
    log_step; eexists; (split; [reflexivity|]); eexists; cbn;
    rewrite !open_set_text; cbn; reflexivity.
Qed.

Lemma posix_read_short fd n o d o' :
  posix_read fd n o = (Some d, o') -> Z.of_nat (length d) < 2 ^ 31.
Proof.
  unfold posix_read. destruct (os_fds o !! fd), (readable o fd) as [l|]; intros H; simplify_eq.
  unfold zslice. rewrite length_take. unfold MAX_RW_COUNT. lia.
Qed.

Lemma posix_pread_short fd n off o d :
  posix_pread fd n off o = Some d -> Z.of_nat (length d) < 2 ^ 31.
Proof.
  unfold posix_pread. destruct (readable o fd) as [l|]; [|done]. cbn [mbind option_bind].
  case_if; intros H; simplify_eq. unfold zslice. rewrite length_take. unfold MAX_RW_COUNT. lia.
Qed.

(** Once the request is logged: the state of the server, and a printable
    record. *)
Definition after_begin (h : nat) (t : gmap string cstring) (s : server) : server :=
  emit_event (EvAlloc h RBulk) (emit_event (EvAlloc h RBuffer)
    (emit_event (EvAlloc h RState) (set_os (set_text t (srv_os s)) s))).

Lemma rpc_begin_run h c i s :
  call_ok c -> addr_ok s -> 0 <= ri_input_val i < 2 ^ 31 ->
  exists t li, rpc_begin h c i s = Ret (inr li) (after_begin h t s) /\ log_ready li.
Proof.
  intros [Hin (b & Hp & Hb) Ha Hcr _] Hs Hv.
  unfold rpc_begin, calloc_ok, emit, gettimeofday. rewrite Hin, Hp, Hcr, Ha, u64_id by lia.
  replace (ri_input_val i <? 2 ^ 63) with true by (symmetry; apply Z.ltb_lt; lia).
  mred. change (0 =? 0) with true. change (0 =? HG_SUCCESS) with true. cbn [negb andb]. mred.
  match goal with |- context [peer_flag b ?st] => destruct (peer_flag_ok b st Hb Hs) as [fl ->] end.
  mred. log_step. eexists t, _. split; [reflexivity|]. solve_log.
Qed.

Lemma start_transfer_run h c i d s :
  call_ok c -> Z.of_nat (length d) < 2 ^ 31 ->
  start_transfer h c i (Some d) s =
    Ret 0 (set_bulk (<[h := mk_rpc_state (Z.of_nat (length d)) d i]> (srv_bulk s))
             (emit_event (EvPush h d) s)).
Proof.
  intros [_ _ _ _ Htr] Hl. unfold start_transfer, emit. mred. cbn [ssize default].
  rewrite u64_id by lia. rewrite Htr by lia. reflexivity.
Qed.

Lemma bulk_cb_run h st s :
  srv_bulk s !! h = Some st ->
  ftc_rpc_handler_bulk_cb h 0 0 s =
    Ret 0 (set_bulk (delete h (srv_bulk s))
      (mk_server (srv_os s) (path_cache_map s) (fd_to_path s) (data_queue s)
        (ftc_server_rank s) (server_rank s) (server_addr_str s) (srv_bulk s)
        (srv_trace s ++ [EvRespond h (i32 (rs_size st)); EvFree h RBulk; EvFree h RHandle;
         EvFree h RBuffer; EvFree h RState]))).
Proof.
  intros H. unfold ftc_rpc_handler_bulk_cb, free_rpc_state, emit. mred. rewrite H.
  cbn [Z.eqb negb]. change (0 =? HG_SUCCESS) with true. cbn [negb].
  unfold emit_event, set_bulk. cbn. rewrite <- !app_assoc. reflexivity.
Qed.

(** The transfer of [d] and its completion. *)
Lemma transfer_run h c i d s :
  call_ok c -> Z.of_nat (length d) < 2 ^ 31 ->
  exists s1, start_transfer h c i (Some d) s = Ret 0 s1 /\
    is_Some (srv_bulk s1 !! h) /\
    ftc_rpc_handler_bulk_cb h 0 0 s1 =
    Ret 0 (set_bulk (delete h (srv_bulk s))
      (mk_server (srv_os s) (path_cache_map s) (fd_to_path s) (data_queue s)
        (ftc_server_rank s) (server_rank s) (server_addr_str s) (srv_bulk s)
        (srv_trace s ++ [EvPush h d; EvRespond h (Z.of_nat (length d)); EvFree h RBulk;
         EvFree h RHandle; EvFree h RBuffer; EvFree h RState]))).
Proof.
  intros Hc Hl. eexists. split; [by apply start_transfer_run|].
  assert (Hlk : forall m s0, srv_bulk (set_bulk m s0) = m) by done.
  rewrite Hlk, lookup_insert_eq. split; [by eexists|].
  erewrite bulk_cb_run by (by rewrite Hlk, lookup_insert_eq).
  rewrite Hlk, delete_insert_eq. cbn [rs_size]. rewrite i32_id by (unfold in_i32; lia).
  unfold set_bulk, emit_event. cbn. rewrite <- app_assoc. reflexivity.
Qed.

(** A transfer of more than was registered is an error, which the server
    asserts does not happen. *)
Lemma transfer_fails h c i s :
  hc_bulk_transfer c (2 ^ 64 - 1) <> 0 -> start_transfer h c i None s = Dies AssertFailed s.
Proof.
  intros H. unfold start_transfer. mred. change (u64 (ssize None)) with (2 ^ 64 - 1).
  by rewrite (proj2 (Z.eqb_neq _ _) H).
Qed.

(** What follows a transfer in [serve_read]. *)
Definition finish_read (h : nat) (m : M server Z) : M server Z :=
  let* ret := m in
  let* bulk := gets srv_bulk in
  match bulk !! h with
  | Some _ => ftc_rpc_handler_bulk_cb h 0 0
  | None => mret ret
  end.

Lemma finish_transfer h c i d s :
  call_ok c -> Z.of_nat (length d) < 2 ^ 31 ->
  finish_read h (start_transfer h c i (Some d)) s =
    Ret 0 (set_bulk (delete h (srv_bulk s))
      (mk_server (srv_os s) (path_cache_map s) (fd_to_path s) (data_queue s)
        (ftc_server_rank s) (server_rank s) (server_addr_str s) (srv_bulk s)
        (srv_trace s ++ [EvPush h d; EvRespond h (Z.of_nat (length d)); EvFree h RBulk;
         EvFree h RHandle; EvFree h RBuffer; EvFree h RState]))).
Proof.
  intros Hc Hl. destruct (transfer_run h c i d s Hc Hl) as (s1 & H1 & [st H2] & H3).
  unfold finish_read. rewrite (bind_Ret _ _ _ _ _ H1). mred. by rewrite H2.
Qed.

Lemma stream_read_run h c i s :
  call_ok c -> 0 <= ri_input_val i < 2 ^ 31 ->
  finish_read h (rpc_stream_read h c i) s =
    let r1 := posix_read (ri_accessfd i) (ri_input_val i) (srv_os s) in
    match r1.1 with
    | Some d => finish_read h (start_transfer h c i (Some d)) (set_os r1.2 s)
    | None =>
        let r2 := posix_read (ri_localfd i) (ri_input_val i) r1.2 in
        finish_read h (start_transfer h c i r2.1) (set_os r2.2 (set_os r1.2 s))
    end.
Proof.
  intros Hc Hv. unfold finish_read, rpc_stream_read. rewrite u64_id by lia. mred.
  rewrite sys_Ret. cbv beta iota zeta.
  destruct (posix_read (ri_accessfd i) (ri_input_val i) (srv_os s)) as [[d|] o1]; cbn [fst snd];
    [reflexivity|].
  rewrite sys_Ret. reflexivity.
Qed.

Lemma posix_read_None fd n o o' : posix_read fd n o = (None, o') -> o' = o.
Proof. unfold posix_read. by destruct (os_fds o !! fd), (readable o fd); intros [=]. Qed.

(** Reading through the descriptors, on healthy calls. *)
Lemma stream_spec_run h c i s s0 s' t :
  call_ok c -> 0 <= ri_input_val i < 2 ^ 31 -> ri_offset i = -1 ->
  s0 = after_begin h t s -> read_spec h i s = Some s' ->
  exists s'', finish_read h (rpc_stream_read h c i) s0 = Ret 0 s'' /\ logs_only s' s''.
Proof.
  intros Hc Hv Ho -> Hspec. unfold read_spec in Hspec. rewrite Ho in Hspec.
  change (-1 =? -1) with true in Hspec. cbv iota zeta in Hspec.
  rewrite stream_read_run by done. cbv zeta. cbn [srv_os after_begin emit_event set_os].
  rewrite read_set_text.
  destruct (posix_read (ri_accessfd i) _ (srv_os s)) as [[d|] o1] eqn:E1; cbn [fst snd] in *.
  - simplify_eq. rewrite finish_transfer by (done || by eapply posix_read_short).
    eexists. split; [reflexivity|]. exists t. unfold delivered, set_bulk, set_os, after_begin.
    cbn. by rewrite <- !app_assoc.
  - apply posix_read_None in E1 as ->. rewrite read_set_text.
    destruct (posix_read (ri_localfd i) _ (srv_os s)) as [[d|] o2] eqn:E2; cbn [fst snd] in *; [|done].
    simplify_eq. rewrite finish_transfer by (done || by eapply posix_read_short).
    eexists. split; [reflexivity|]. exists t. unfold delivered, set_bulk, set_os, after_begin.
    cbn. by rewrite <- !app_assoc.
Qed.

Lemma positioned_spec_run h c i s s' t li :
  call_ok c -> srv_bulk s !! h = None -> 0 <= ri_input_val i < 2 ^ 31 -> ri_offset i <> -1 ->
  log_ready li -> read_spec h i s = Some s' ->
  exists s'', finish_read h (rpc_positioned_read h c i li) (after_begin h t s) = Ret 0 s'' /\
    logs_only s' s''.
Proof.
  intros Hc Hh Hv Ho Hli Hspec. unfold read_spec in Hspec.
  rewrite (proj2 (Z.eqb_neq _ _) Ho) in Hspec.
  unfold finish_read, rpc_positioned_read, gettimeofday, emit. rewrite u64_id by lia. mred.
  cbn [srv_os after_begin emit_event set_os]. rewrite pread_set_text.
  destruct (posix_pread _ _ _ (srv_os s)) as [d|] eqn:E; simplify_eq.
  - destruct (log_ok (with_expn "SSNVMeRequest" (set_clock (os_now (set_text t (srv_os s))) li))
      (after_begin h t s)) as [t1 ->]; [by eauto with ftc|]. mred.
    match goal with |- context [log ?x ?y] => destruct (log_ok x y) as [t2 ->] end;
      [by eauto with ftc|]. mred.
    match goal with |- exists s'', ?x = _ /\ _ =>
      match x with context [start_transfer h c i (Some d) ?st] =>
        change x with (finish_read h (start_transfer h c i (Some d)) st) end end.
    rewrite finish_transfer by (done || by eapply posix_pread_short).
    eexists. split; [reflexivity|]. exists t2. unfold delivered, set_bulk, set_os, after_begin.
    cbn. by rewrite <- !app_assoc.
  - match goal with |- context [log ?x ?y] => destruct (log_ok x y) as [t1 ->] end;
      [by eauto with ftc|]. mred. cbn. rewrite Hh. eexists. split; [reflexivity|]. exists t1.
    unfold emit_event, set_os, after_begin. cbn. by rewrite <- !app_assoc.
Qed.

Lemma serve_read_begin h c i s s0 li :
  rpc_begin h c i s = Ret (inr li) s0 ->
  serve_read h c i s =
    finish_read h (if ri_offset i =? -1 then rpc_stream_read h c i
                   else rpc_positioned_read h c i li) s0.
Proof.
  intros H. unfold serve_read, ftc_rpc_handler, finish_read. mred. rewrite H.
  by destruct (ri_offset i =? -1).
Qed.

Lemma read_run h c i s s' :
  call_ok c -> addr_ok s -> srv_bulk s !! h = None -> 0 <= ri_input_val i < 2 ^ 31 ->
  read_spec h i s = Some s' ->
  exists s'', serve_read h c i s = Ret 0 s'' /\ logs_only s' s''.
Proof.
  intros Hc Hs Hh Hv Hspec. destruct (rpc_begin_run h c i s Hc Hs Hv) as (t & li & Hb & Hli).
  rewrite (serve_read_begin _ _ _ _ _ _ Hb).
  destruct (ri_offset i =? -1) eqn:E; zbool.
  - by eapply stream_spec_run.
  - by eapply positioned_spec_run.
Qed.

(** When no descriptor of a sequential read can be read, the server dies. *)
Lemma read_run_dies h c i s :
  call_ok c -> addr_ok s -> 0 <= ri_input_val i < 2 ^ 31 ->
  hc_bulk_transfer c (2 ^ 64 - 1) <> 0 -> read_spec h i s = None ->
  exists s', serve_read h c i s = Dies AssertFailed s'.
Proof.
  intros Hc Hs Hv Hbig Hspec. destruct (rpc_begin_run h c i s Hc Hs Hv) as (t & li & Hb & Hli).
  rewrite (serve_read_begin _ _ _ _ _ _ Hb). unfold read_spec in Hspec.
  destruct (ri_offset i =? -1) eqn:E; [|by case_match].
  rewrite stream_read_run by done. cbv zeta in *. cbn [srv_os after_begin emit_event set_os].
  rewrite read_set_text.
  destruct (posix_read (ri_accessfd i) _ (srv_os s)) as [[d|] o1] eqn:E1; cbn [fst snd] in *; [done|].
  apply posix_read_None in E1 as ->. rewrite read_set_text.
  destruct (posix_read (ri_localfd i) _ (srv_os s)) as [[d|] o2] eqn:E2; cbn [fst snd] in *; [done|].
  unfold finish_read. erewrite bind_Dies by (by apply transfer_fails). eauto.
Qed.

Lemma seek_run h c i s : call_ok c -> ftc_seek_rpc_handler h c i s = Ret 0 (seek_spec h i s).
Proof. intros [Hin _ _ _ _]. unfold ftc_seek_rpc_handler. by rewrite Hin. Qed.

(** [operator[]] on [fd_to_path]: the value, and the map with the key present. *)
Lemma fd_to_path_at_run fd s :
  exists m, fd_to_path_at fd s = Ret (default ""%string (fd_to_path s !! fd)) (set_fd_to_path m s) /\
    m !! fd = Some (default ""%string (fd_to_path s !! fd)) /\
    delete fd m = delete fd (fd_to_path s).
Proof.
  unfold fd_to_path_at. mred. destruct (fd_to_path s !! fd) as [p|] eqn:E.
  - exists (fd_to_path s). by destruct s.
  - eexists. split; [reflexivity|]. rewrite lookup_insert_eq. split; [done|].
    apply delete_insert_eq.
Qed.

Lemma close_finish_run f b s :
  log_ready (cf_log f) ->
  exists t, close_finish f b s =
    Ret (cf_ret f) (set_fd_to_path (delete (ci_fd (cf_in f)) (fd_to_path s))
      (set_os (set_text t (srv_os s)) s)).
Proof.
  intros Hl. unfold close_finish, erase_fd.
  destruct b; mred;
    (match goal with |- context [log ?x ?y] => destruct (log_ok x y) as [t1 ->] end;
      [by eauto with ftc|]); mred;
    (match goal with |- context [log ?x ?y] => destruct (log_ok x y) as [t2 ->] end;
      [by eauto with ftc|]); mred; exists t2; reflexivity.
Qed.

Lemma close_begin_run h c i s :
  call_ok c -> addr_ok s -> is_Some (os_fds (srv_os s) !! ci_fd i) ->
  exists t f, close_begin h c i s =
      Ret (inr f) (set_os (set_text t (set_fds (delete (ci_fd i) (os_fds (srv_os s))) (srv_os s))) s) /\
    cf_in f = i /\ cf_ret f = 0 /\ log_ready (cf_log f).
Proof.
  intros [Hin (b & Hp & Hb) _ _ _] Hs [g Hg].
  destruct (peer_flag_ok b s Hb Hs) as [fl Hfl].
  unfold close_begin, gettimeofday. rewrite Hin, Hp. mred. change (0 =? HG_SUCCESS) with true. mred.
  rewrite Hfl. mred. log_step. rewrite sys_Ret. mred.
  unfold posix_close. cbn [srv_os set_os os_fds set_text]. rewrite Hg. cbn [fst snd]. mred.
  change (0 =? 0) with true. mred. eexists t, _. split; [reflexivity|]. cbn [cf_in cf_ret].
  split_and!; [done..|]. solve_log.
Qed.

Lemma close_run h c i s :
  call_ok c -> addr_ok s -> is_Some (os_fds (srv_os s) !! ci_fd i) ->
  exists s', ftc_close_rpc_handler h c i s = Ret 0 s' /\ logs_only (close_spec i s) s'.
Proof.
  intros Hc Hs Hfd. destruct (close_begin_run h c i s Hc Hs Hfd) as (t & f & Hb & Hi & Hr & Hl).
  unfold ftc_close_rpc_handler. rewrite (bind_Ret _ _ _ _ _ Hb). unfold close_check, close_push, emit.
  rewrite Hi. mred.
  match goal with |- context [fd_to_path_at ?fd ?st] =>
    destruct (fd_to_path_at_run fd st) as (m1 & -> & Hm1 & Hd1) end. mred.
  cbn [path_cache_map set_fd_to_path set_os fd_to_path] in *. unfold close_spec.
  set (p := default ""%string (fd_to_path s !! ci_fd i)) in *.
  destruct (path_cache_map s !! p) as [q|] eqn:Ep.
  - rewrite bool_decide_false by done.
    match goal with |- context [close_finish f _ ?st] =>
      destruct (close_finish_run f false st Hl) as [t1 ->] end.
    rewrite Hr, Hi. eexists. split; [reflexivity|]. exists t1.
    cbn [fd_to_path set_fd_to_path]. rewrite Hd1. reflexivity.
  - rewrite bool_decide_true by done.
    match goal with |- context [fd_to_path_at ?fd ?st] =>
      destruct (fd_to_path_at_run fd st) as (m2 & -> & Hm2 & Hd2) end. mred.
    cbn [fd_to_path set_fd_to_path] in *. rewrite Hm1 in *. cbn [default] in *.
    match goal with |- context [close_finish f _ ?st] =>
      destruct (close_finish_run f true st Hl) as [t1 ->] end.
    rewrite Hr, Hi. eexists. split; [reflexivity|]. exists t1.
    cbn [fd_to_path set_fd_to_path emit_event set_queue]. rewrite Hd2, Hd1. reflexivity.
Qed.

Lemma serve_run h c r s s' :
  call_ok c -> addr_ok s -> request_ok h r s -> serve_spec h r s = Some s' ->
  exists s'', serve h c r s = Ret 0 s'' /\ logs_only s' s''.
Proof.
  intros Hc Hs Hr Hspec. destruct r as [i|i|i|i]; simpl in *; simplify_eq.
  - by apply open_run.
  - destruct Hr. by apply read_run.
  - rewrite seek_run by done. eexists. split; [done|]. reflexivity.
  - rewrite bool_decide_true in Hspec by done. injection Hspec as <-. by apply close_run.
Qed.

(** A close of a descriptor that is not open fails the assertion. *)
Lemma close_run_dies h c i s : call_ok c -> addr_ok s -> os_fds (srv_os s) !! ci_fd i = None ->
  exists s', ftc_close_rpc_handler h c i s = Dies AssertFailed s'.
Proof.
  intros [Hin (b & Hp & Hb) _ _ _] Hs Hfd. destruct (peer_flag_ok b s Hb Hs) as [fl Hfl].
  assert (exists s', close_begin h c i s = Dies AssertFailed s') as [s' H].
  { unfold close_begin, gettimeofday. rewrite Hin, Hp. mred. change (0 =? HG_SUCCESS) with true. mred.
    rewrite Hfl. mred. log_step. rewrite sys_Ret. mred. unfold posix_close. cbn [srv_os set_os os_fds set_text].
    rewrite Hfd. by eexists. }
  exists s'. unfold ftc_close_rpc_handler. by apply bind_Dies.
Qed.

(** Where the specification has no result, the handler dies. *)
Lemma serve_dies h c r s : call_ok c -> addr_ok s -> request_fits h c r s -> serve_spec h r s = None ->
  exists s', serve h c r s = Dies AssertFailed s'.
Proof.
  intros Hc Hs Hr Hspec. destruct r as [i|i|i|i]; cbn in *; try done.
  - destruct Hr as (Hv & _ & Hbig). by apply read_run_dies.
  - apply close_run_dies; [done..|]. case_bool_decide as Hi; [done|]. by apply eq_None_not_Some.
Qed.

Lemma request_fits_ok h c r s s' : request_fits h c r s -> serve_spec h r s = Some s' -> request_ok h r s.
Proof.
  destruct r as [i|i|i|i]; cbn; try done; [by intros (? & ? & _)|]. intros _. by case_bool_decide.
Qed.

Lemma logs_only_fields s s' : logs_only s s' ->
  srv_trace s' = srv_trace s /\ fd_to_path s' = fd_to_path s /\
  path_cache_map s' = path_cache_map s /\ data_queue s' = data_queue s /\
  srv_bulk s' = srv_bulk s /\ server_addr_str s' = server_addr_str s /\
  os_fds (srv_os s') = os_fds (srv_os s) /\ os_nodes (srv_os s') = os_nodes (srv_os s) /\
  os_bad (srv_os s') = os_bad (srv_os s) /\ os_files (srv_os s') = os_files (srv_os s) /\
  os_links (srv_os s') = os_links (srv_os s).
Proof. by intros [t ->]. Qed.

Lemma logs_only_readable s s' fd : logs_only s s' ->
  readable (srv_os s') fd = readable (srv_os s) fd.
Proof. by intros [t ->]. Qed.

Lemma new_events_app s s' es : srv_trace s' = srv_trace s ++ es -> new_events s s' = es.
Proof. intros H. unfold new_events. by rewrite H, drop_app_length. Qed.

Lemma delivered_events h d o s :
  srv_trace (delivered h d o s) = srv_trace s ++ [EvAlloc h RState; EvAlloc h RBuffer;
    EvAlloc h RBulk; EvPush h d; EvRespond h (Z.of_nat (length d)); EvFree h RBulk;
    EvFree h RHandle; EvFree h RBuffer; EvFree h RState].
Proof. done. Qed.

Lemma pushed_delivered h d : pushed h [EvAlloc h RState; EvAlloc h RBuffer;
    EvAlloc h RBulk; EvPush h d; EvRespond h (Z.of_nat (length d)); EvFree h RBulk;
    EvFree h RHandle; EvFree h RBuffer; EvFree h RState] = d.
Proof. unfold pushed. simpl. rewrite decide_True by done. by rewrite app_nil_r. Qed.

Lemma responses_delivered h d : responses h [EvAlloc h RState; EvAlloc h RBuffer;
    EvAlloc h RBulk; EvPush h d; EvRespond h (Z.of_nat (length d)); EvFree h RBulk;
    EvFree h RHandle; EvFree h RBuffer; EvFree h RState] = [Z.of_nat (length d)].
Proof. unfold responses. simpl. by rewrite decide_True. Qed.

(** A positioned read of a readable descriptor. *)
Lemma pread_delivers h c i s d :
  call_ok c -> addr_ok s -> srv_bulk s !! h = None -> 0 <= ri_input_val i < 2 ^ 31 ->
  0 <= ri_offset i -> readable (srv_os s) (ri_accessfd i) = Some d ->
  exists s', serve h c (RRead i) s = Ret 0 s' /\
    pushed h (new_events s s') = zslice d (ri_offset i) (Z.min (ri_input_val i) MAX_RW_COUNT) /\
    responses h (new_events s s') =
      [Z.of_nat (length (zslice d (ri_offset i) (Z.min (ri_input_val i) MAX_RW_COUNT)))] /\
    logs_only (delivered h (zslice d (ri_offset i) (Z.min (ri_input_val i) MAX_RW_COUNT)) (srv_os s) s) s'.
Proof.
  intros Hc Hs Hh Hv Ho Hd. set (r := zslice _ _ _).
  destruct (serve_run h c (RRead i) s (delivered h r (srv_os s) s)) as (s' & Hrun & Hl); [done..| |].
  { unfold serve_spec, read_spec. cbv zeta. destruct (ri_offset i =? -1) eqn:E; zbool; [lia|].
    unfold posix_pread. rewrite Hd. cbn [mbind option_bind]. case_if; zbool; [lia|]. done. }
  exists s'. split; [done|]. apply logs_only_fields in Hl as Ht. destruct Ht as [Ht _].
  rewrite delivered_events in Ht.
  rewrite (new_events_app _ _ _ Ht), pushed_delivered, responses_delivered. done.
Qed.

(** A sequential read moves the descriptor past the bytes it delivers. *)
Lemma read_delivers h c i s d f :
  call_ok c -> addr_ok s -> srv_bulk s !! h = None -> 0 <= ri_input_val i < 2 ^ 31 ->
  ri_offset i = -1 -> os_fds (srv_os s) !! ri_accessfd i = Some f ->
  readable (srv_os s) (ri_accessfd i) = Some d ->
  let r := zslice d (of_off f) (Z.min (ri_input_val i) MAX_RW_COUNT) in
  exists s', serve h c (RRead i) s = Ret 0 s' /\
    pushed h (new_events s s') = r /\
    logs_only (delivered h r (set_fds (<[ri_accessfd i := set_off (of_off f + Z.of_nat (length r)) f]>
      (os_fds (srv_os s))) (srv_os s)) s) s'.
Proof.
  intros Hc Hs Hh Hv Ho Hf Hd r. 
  destruct (serve_run h c (RRead i) s (delivered h r (set_fds (<[ri_accessfd i :=
    set_off (of_off f + Z.of_nat (length r)) f]> (os_fds (srv_os s))) (srv_os s)) s))
    as (s' & Hrun & Hl); [done..| |].
  { unfold serve_spec, read_spec, posix_read. cbv zeta. rewrite Ho, Hf, Hd. done. }
  exists s'. split; [done|]. apply logs_only_fields in Hl as Ht. destruct Ht as [Ht _].
  rewrite delivered_events in Ht. by rewrite (new_events_app _ _ _ Ht), pushed_delivered.
Qed.

(** The specifications do not depend on the log files. *)
Definition with_text (t : gmap string cstring) (s : server) : server :=
  set_os (set_text t (srv_os s)) s.

Lemma logs_only_trans s1 s2 s3 : logs_only s1 s2 -> logs_only s2 s3 -> logs_only s1 s3.
Proof. intros [t1 ->] [t2 ->]. by exists t2. Qed.

Lemma serve_spec_with_text h r t s :
  serve_spec h r (with_text t s) = with_text t <$> serve_spec h r s.
Proof.
  destruct r as [i|i|i|i]; unfold serve_spec.
  - unfold open_spec, with_text. cbn. change (served_path (set_os _ s) ?p) with (served_path s p).
    by rewrite open_set_text.
  - unfold read_spec, with_text. cbn [srv_os set_os]. rewrite pread_set_text.
    case_if.
    + cbv zeta. rewrite read_set_text. destruct (posix_read (ri_accessfd i) _ _) as [[d|] o1]; cbn [fst snd].
      * done.
      * rewrite read_set_text. by destruct (posix_read (ri_localfd i) _ _) as [[d|] o2].
    + by destruct (posix_pread _ _ _ _).
  - unfold seek_spec, with_text. cbn [srv_os set_os]. by rewrite lseek_set_text.
  - unfold close_spec, with_text. cbn. case_bool_decide; [|done]. by destruct (path_cache_map s !! _).
Qed.

Lemma request_fits_with_text h c r t s : request_fits h c r s -> request_fits h c r (with_text t s).
Proof. by destruct r. Qed.

Lemma addr_ok_spec h r s s' : addr_ok s -> serve_spec h r s = Some s' -> addr_ok s'.
Proof.
  unfold addr_ok. intros H. destruct r; simpl; intros ?; simplify_eq; try done.
  - unfold read_spec in *. by repeat (case_match; simplify_eq).
  - case_bool_decide; simplify_eq. unfold close_spec. by case_match.
Qed.

Lemma serve_all_run l : forall s t, addr_ok s -> requests_ok l s ->
  match serve_all_spec l s with
  | Some s' => exists s'', serve_all l (with_text t s) = Ret tt s'' /\ logs_only s' s''
  | None => exists s'', serve_all l (with_text t s) = Dies AssertFailed s''
  end.
Proof.
  induction l as [|[[h c] r] l IH]; intros s t Ha Hok; cbn [serve_all_spec serve_all].
  - eexists. split; [reflexivity|]. by exists t.
  - destruct Hok as (Hc & Hr & Hok). destruct (serve_spec h r s) as [s1|] eqn:H1; cbn [mbind option_bind].
    + destruct (serve_run h c r (with_text t s) (with_text t s1)) as (s2 & Hrun & [t2 Ht2]); [done|done|..].
      { apply (request_fits_ok h c r (with_text t s) (with_text t s1)); [by apply request_fits_with_text|].
        by rewrite serve_spec_with_text, H1. }
      { by rewrite serve_spec_with_text, H1. }
      rewrite (bind_Ret _ _ _ _ _ Hrun).
      change (set_os (set_text t2 (srv_os (with_text t s1))) (with_text t s1)) with (with_text t2 s1) in Ht2.
      subst s2. apply IH; [by eapply addr_ok_spec|by apply Hok].
    + destruct (serve_dies h c r (with_text t s)) as (s2 & Hrun); [done|done|by apply request_fits_with_text|..].
      { by rewrite serve_spec_with_text, H1. }
      exists s2. by apply bind_Dies.
Qed.

Lemma allocs_cons h r e es :
  allocs h r (e :: es) = ((if decide (e = EvAlloc h r) then 1 else 0) + allocs h r es)%nat.
Proof. unfold allocs. rewrite filter_cons. by case_decide. Qed.

Lemma frees_cons h r e es :
  frees h r (e :: es) = ((if decide (e = EvFree h r) then 1 else 0) + frees h r es)%nat.
Proof. unfold frees. rewrite filter_cons. by case_decide. Qed.

(** The two ways a read request ends. *)
Lemma read_spec_cases h i s s' : read_spec h i s = Some s' ->
  (exists d o, s' = delivered h d o s) \/
  (srv_trace s' = srv_trace s ++ [EvAlloc h RState; EvAlloc h RBuffer; EvAlloc h RBulk;
     EvFree h RBulk; EvFree h RBuffer; EvRespond h (-1); EvFree h RState] /\
   srv_bulk s' = srv_bulk s).
Proof. unfold read_spec. intros H. repeat (case_match; simplify_eq/=); eauto. Qed.

(** What one open leaves behind. *)
Lemma open_events h c i s : call_ok c -> addr_ok s ->
  exists s', serve h c (ROpen i) s = Ret 0 s' /\ logs_only (open_spec h i s) s' /\
    new_events s s' = [EvRespond h (posix_open (served_path s (oi_path i)) O_RDONLY (srv_os s)).1].
Proof.
  intros Hc Ha. destruct (open_run h c i s Hc Ha) as (s' & Hr & Hl). exists s'.
  split_and!; [done..|]. apply logs_only_fields in Hl as [Ht _]. by apply new_events_app.
Qed.

End ServerSpec.
