(* ===== verification/ServerProps.v ===== *)
(** * The RPC handlers are correct

    The properties of the four RPC handlers of the server, read off their
    specifications in [ServerSpec]: refinement for a whole sequence of
    requests, what a client receives from an open followed by positioned or
    sequential reads, the resources of a read, the hand-over to the data mover,
    and the two errors the handlers have. *)

From S2P Require Import Prelude CString HexDump Address Posix LogInfo Server ServerSpec.
Import Address Posix LogInfo Server ServerSpec.

(** ** A concrete server for the witnesses *)

Module ServerExample.

Definition data : list byte := [Byte.x41; Byte.x42; Byte.x43; Byte.x44; Byte.x45].

Definition os0 : os :=
  mk_os {["/pfs/f"%string := 0%nat]} {["/pfs"%string; "/nvme"%string]} ∅ {[0%nat := data]} ∅ ∅
    "/pfs" ∅ ∅ ["a0"%string; "a1"%string] (0, 0).

Definition srv0 : server :=
  mk_server os0 ∅ ∅ [] 0 0 (strncpy (uninit 128) (of_string "10.0.0.1") 128) ∅ [].

(** Mercury reports no error; a transfer longer than the registered buffer is
    rejected. *)
Definition call0 : hg_call :=
  mk_call 0 (Some (0, strncpy (uninit 128) (of_string "tcp://10.0.0.2:99") 128)) true 0
    (fun n => if n <? 2 ^ 63 then 0 else 1).

Lemma call0_ok : call_ok call0.
Proof.
  split; [done| |done..|].
  - eexists. split; [reflexivity|]. vm_compute. by eexists.
  - intros n Hn. simpl. by rewrite (proj2 (Z.ltb_lt _ _)) by lia.
Qed.

Lemma srv0_addr : addr_ok srv0.
Proof. vm_compute. by eexists. Qed.

(** The server after one open of the file. *)
Definition srv1 : server := open_spec 0 (mk_open_in "/pfs/f" 0 5) srv0.

Lemma srv1_addr : addr_ok srv1.
Proof. vm_compute. by eexists. Qed.

Lemma srv1_readable : readable (srv_os srv1) 0 = Some data.
Proof. vm_compute. reflexivity. Qed.

End ServerExample.
Import ServerExample.

(** Count the events of a literal trace. *)
Ltac count_events :=
  split_and?; rewrite ?allocs_cons, ?frees_cons;
  repeat first [rewrite decide_True by done | rewrite decide_False by done]; reflexivity.

(** C7: the handlers implement their specifications.  Take any sequence of
    requests on which Mercury reports no error, where each read asks for between
    0 and 2^31-1 bytes on a handle that has no transfer under way, and where
    Mercury refuses a transfer of 2^64-1 bytes.  If the specifications have a
    result for all of them, running the handlers one after the other returns and
    ends in that state, the log files aside.  Otherwise, which is when one of the
    requests closes a descriptor that is not open or reads sequentially where
    neither descriptor can be read, a failed assertion ends the server. *)
Theorem server_refines_spec l s t :
  addr_ok s -> requests_ok l s ->
  match serve_all_spec l s with
  | Some s' => exists s'', serve_all l (with_text t s) = Ret tt s'' /\ logs_only s' s''
  | None => exists s'', serve_all l (with_text t s) = Dies AssertFailed s''
  end.
Proof. apply serve_all_run. Qed.

Lemma server_refines_spec_witness :
  (exists s' s'', serve_all_spec [(0%nat, call0, ROpen (mk_open_in "/pfs/f" 0 5));
      (1%nat, call0, RRead (mk_rpc_in 3 0 5 1 0)); (2%nat, call0, RClose (mk_close_in 0 0))] srv0 = Some s' /\
    serve_all [(0%nat, call0, ROpen (mk_open_in "/pfs/f" 0 5));
      (1%nat, call0, RRead (mk_rpc_in 3 0 5 1 0)); (2%nat, call0, RClose (mk_close_in 0 0))]
      (with_text ∅ srv0) = Ret tt s'' /\ logs_only s' s'') /\
  exists s'', serve_all [(0%nat, call0, RClose (mk_close_in 7 0))] (with_text ∅ srv0) = Dies AssertFailed s''.
Proof.
  split.
  - eexists. match goal with |- context [serve_all_spec ?l srv0] =>
      assert (E : serve_all_spec l srv0 = Some (default srv0 (serve_all_spec l srv0))) by (vm_compute; reflexivity);
      pose proof (server_refines_spec l srv0 ∅ srv0_addr) as H; rewrite E in H end.
    destruct H as (s'' & Hr & Hl).
    + clear E. cbn [requests_ok]. split; [exact call0_ok|]. split; [exact I|]. intros s1 H1.
      split; [exact call0_ok|]. split; [|intros s2 H2; split; [exact call0_ok|split; [exact I|intros; exact I]]].
      injection H1 as <-. vm_compute. split_and!; (reflexivity || discriminate).
    + exists s''. split; [exact E|]. split; [exact Hr|exact Hl].
  - apply (server_refines_spec [(0%nat, call0, RClose (mk_close_in 7 0))] srv0 ∅ srv0_addr).
    split; [exact call0_ok|]. split; [exact I|]. intros; exact I.
Defined.

(** An open request for a file that can be read is answered with a
    descriptor, and from then on every positioned read of that descriptor
    delivers exactly the bytes of the file the open was served from (the cached
    copy when there is one, else the file itself) between the offset and the
    count or the end of the file, and answers with their number. *)
Lemma open_then_pread h c i s n d :
  call_ok c -> addr_ok s ->
  os_files (srv_os s) !! resolve (srv_os s) (served_path s (oi_path i)) = Some n ->
  os_nodes (srv_os s) !! n = Some d -> n ∉ os_bad (srv_os s) ->
  exists fd s1, serve h c (ROpen i) s = Ret 0 s1 /\ responses h (new_events s s1) = [fd] /\ 0 <= fd /\
    forall h2 c2 j, call_ok c2 -> srv_bulk s !! h2 = None -> ri_accessfd j = fd ->
      0 <= ri_input_val j < 2 ^ 31 -> 0 <= ri_offset j ->
      exists s2, serve h2 c2 (RRead j) s1 = Ret 0 s2 /\
        pushed h2 (new_events s1 s2) = zslice d (ri_offset j) (Z.min (ri_input_val j) MAX_RW_COUNT) /\
        responses h2 (new_events s1 s2) = [Z.of_nat (length (pushed h2 (new_events s1 s2)))].
Proof.
  intros Hc Ha Hn Hd Hb. destruct (open_events h c i s Hc Ha) as (s1 & Hr & Hl & He).
  pose proof (readable_open _ _ _ _ Hn Hd Hb) as Hrd.
  exists (lowest_fd (os_fds (srv_os s))), s1. split; [done|].
  assert (E : (posix_open (served_path s (oi_path i)) O_RDONLY (srv_os s)).1 =
    lowest_fd (os_fds (srv_os s))) by (rewrite posix_open_rdonly, Hn; done).
  rewrite He, E. split; [unfold responses; simpl; by rewrite decide_True|].
  split; [apply lowest_fd_free|].
  intros h2 c2 j Hc2 Hbk Hj Hv Ho.
  destruct (pread_delivers h2 c2 j s1 d) as (s2 & H1 & H2 & H3 & _); try done.
  - destruct Hl as [t ->]. exact Ha.
  - by destruct Hl as [t ->].
  - rewrite (logs_only_readable _ _ _ Hl), Hj. exact Hrd.
  - exists s2. by rewrite H3, H2.
Qed.

Lemma open_then_pread_witness :
  exists fd s1, serve 0 call0 (ROpen (mk_open_in "/pfs/f" 0 5)) srv0 = Ret 0 s1 /\
    responses 0 (new_events srv0 s1) = [fd] /\ 0 <= fd /\
    forall h2 c2 j, call_ok c2 -> srv_bulk srv0 !! h2 = None -> ri_accessfd j = fd ->
      0 <= ri_input_val j < 2 ^ 31 -> 0 <= ri_offset j ->
      exists s2, serve h2 c2 (RRead j) s1 = Ret 0 s2 /\
        pushed h2 (new_events s1 s2) = zslice data (ri_offset j) (Z.min (ri_input_val j) MAX_RW_COUNT) /\
        responses h2 (new_events s1 s2) = [Z.of_nat (length (pushed h2 (new_events s1 s2)))].
Proof.
  apply (open_then_pread 0 call0 (mk_open_in "/pfs/f" 0 5) srv0 0 data).
  - exact call0_ok.
  - exact srv0_addr.
  - vm_compute. reflexivity.
  - vm_compute. reflexivity.
  - apply not_elem_of_empty.
Defined.

(** Two sequential reads (offset -1) of an open descriptor deliver adjacent
    parts of the file: together they are the single slice that one read of both
    counts would deliver, and no byte is lost or repeated. *)
Lemma consecutive_reads h1 h2 c1 c2 i j s d f :
  call_ok c1 -> call_ok c2 -> addr_ok s ->
  srv_bulk s !! h1 = None -> srv_bulk s !! h2 = None ->
  ri_offset i = -1 -> ri_offset j = -1 -> ri_accessfd j = ri_accessfd i ->
  0 <= ri_input_val i <= MAX_RW_COUNT -> 0 <= ri_input_val j <= MAX_RW_COUNT ->
  os_fds (srv_os s) !! ri_accessfd i = Some f -> 0 <= of_off f ->
  readable (srv_os s) (ri_accessfd i) = Some d ->
  of_off f + ri_input_val i <= Z.of_nat (length d) ->
  exists s1 s2, serve h1 c1 (RRead i) s = Ret 0 s1 /\ serve h2 c2 (RRead j) s1 = Ret 0 s2 /\
    pushed h1 (new_events s s1) ++ pushed h2 (new_events s1 s2) =
      zslice d (of_off f) (ri_input_val i + ri_input_val j).
Proof.
  intros Hc1 Hc2 Ha Hb1 Hb2 Hi Hj Hfd Hvi Hvj Hf Hoff Hd Hlen. unfold MAX_RW_COUNT in *.
  destruct (read_delivers h1 c1 i s d f) as (s1 & H1 & P1 & [t Ht]); try done; [lia|].
  set (r := zslice d (of_off f) (Z.min (ri_input_val i) MAX_RW_COUNT)) in *.
  assert (Hr : Z.of_nat (length r) = ri_input_val i)
    by (unfold r, MAX_RW_COUNT; rewrite zslice_length; lia).
  destruct (read_delivers h2 c2 j s1 d (set_off (of_off f + Z.of_nat (length r)) f))
    as (s2 & H2 & P2 & _); try done; [by subst s1| |lia| | |].
  - subst s1. unfold delivered. cbn [srv_bulk set_os set_bulk].
    rewrite lookup_delete. by case_decide.
  - rewrite Hfd. subst s1. cbn. apply lookup_insert_eq.
  - rewrite Hfd. subst s1. unfold readable in *. cbn. rewrite lookup_insert_eq. by rewrite Hf in Hd.
  - exists s1, s2. split; [done|]. split; [done|]. rewrite P1, P2. cbn [of_off set_off].
    rewrite Hr. unfold r. rewrite !Z.min_l by (unfold MAX_RW_COUNT; lia). apply zslice_app; lia.
Qed.

Lemma consecutive_reads_witness :
  exists s1 s2, serve 1 call0 (RRead (mk_rpc_in 2 0 5 (-1) 0)) srv1 = Ret 0 s1 /\
    serve 2 call0 (RRead (mk_rpc_in 9 0 5 (-1) 0)) s1 = Ret 0 s2 /\
    pushed 1 (new_events srv1 s1) ++ pushed 2 (new_events s1 s2) = zslice data 0 (2 + 9).
Proof.
  apply (consecutive_reads 1 2 call0 call0 (mk_rpc_in 2 0 5 (-1) 0) (mk_rpc_in 9 0 5 (-1) 0)
    srv1 data (OFile 0 0 true false false)); try exact call0_ok; try exact srv1_addr;
    try exact srv1_readable; try (vm_compute; reflexivity);
    vm_compute; (discriminate || (split; discriminate)).
Defined.

(** C27: every served read request allocates its state, its buffer and its bulk
    handle once and frees each once, answers exactly once, and leaves no
    transfer in flight; the RPC handle, however, is released only when data was
    delivered, never on the error answer. *)
Theorem read_resources h c i s s' :
  call_ok c -> addr_ok s -> srv_bulk s !! h = None -> 0 <= ri_input_val i < 2 ^ 31 ->
  read_spec h i s = Some s' ->
  exists s'', serve h c (RRead i) s = Ret 0 s'' /\
    (forall r, r <> RHandle -> allocs h r (new_events s s'') = 1%nat /\
                          frees h r (new_events s s'') = 1%nat) /\
    srv_bulk s'' = srv_bulk s /\
    ((exists d, responses h (new_events s s'') = [Z.of_nat (length d)] /\
       pushed h (new_events s s'') = d /\ frees h RHandle (new_events s s'') = 1%nat) \/
     (responses h (new_events s s'') = [-1] /\ pushed h (new_events s s'') = [] /\
       frees h RHandle (new_events s s'') = 0%nat)).
Proof.
  intros Hc Ha Hb Hv Hs. destruct (serve_run h c (RRead i) s s') as (s'' & Hr & Hl); [done..|].
  exists s''. split; [done|]. apply logs_only_fields in Hl as (Ht & _ & _ & _ & Hbk & _).
  destruct (read_spec_cases _ _ _ _ Hs) as [(d & o & ->)|(Hev & Hk)].
  - rewrite delivered_events in Ht. rewrite (new_events_app _ _ _ Ht).
    rewrite pushed_delivered, responses_delivered. split_and!.
    + intros r Hne. by destruct r; try done; count_events.
    + rewrite Hbk. cbn. by apply delete_id.
    + left. exists d. split_and!; [done..|]. count_events.
  - rewrite Hev in Ht. rewrite (new_events_app _ _ _ Ht). split_and!.
    + intros r Hne. by destruct r; try done; count_events.
    + by rewrite Hbk.
    + right. unfold responses, pushed. simpl. rewrite decide_True by done.
      split_and!; [done..|]. count_events.
Qed.

Lemma read_resources_witness :
  exists s'', serve 7 call0 (RRead (mk_rpc_in 3 44 5 1 0)) srv1 = Ret 0 s'' /\
    (forall r, r <> RHandle -> allocs 7 r (new_events srv1 s'') = 1%nat /\
                          frees 7 r (new_events srv1 s'') = 1%nat) /\
    srv_bulk s'' = srv_bulk srv1 /\
    ((exists d, responses 7 (new_events srv1 s'') = [Z.of_nat (length d)] /\
       pushed 7 (new_events srv1 s'') = d /\ frees 7 RHandle (new_events srv1 s'') = 1%nat) \/
     (responses 7 (new_events srv1 s'') = [-1] /\ pushed 7 (new_events srv1 s'') = [] /\
       frees 7 RHandle (new_events srv1 s'') = 0%nat)).
Proof.
  apply (read_resources 7 call0 (mk_rpc_in 3 44 5 1 0) srv1
    (default srv1 (read_spec 7 (mk_rpc_in 3 44 5 1 0) srv1))).
  - exact call0_ok.
  - exact srv1_addr.
  - vm_compute. reflexivity.
  - vm_compute. split; [discriminate|reflexivity].
  - vm_compute. reflexivity.
Defined.

(** C37: a sequential read whose descriptor cannot be read, on the server or as
    the fallback the handler tries, brings the whole server down: the size sent
    is [(size_t) -1] and the transfer that Mercury refuses is asserted to
    succeed. *)
Theorem read_failure_kills_server h c i s :
  call_ok c -> addr_ok s -> 0 <= ri_input_val i < 2 ^ 31 ->
  hc_bulk_transfer c (2 ^ 64 - 1) <> 0 ->
  ri_offset i = -1 -> readable (srv_os s) (ri_accessfd i) = None ->
  readable (srv_os s) (ri_localfd i) = None ->
  exists s', serve h c (RRead i) s = Dies AssertFailed s'.
Proof.
  intros Hc Ha Hv Hbig Ho H1 H2. apply read_run_dies; try done.
  unfold read_spec, posix_read. rewrite Ho, H1, H2. change (-1 =? -1) with true. cbv zeta.
  by destruct (os_fds (srv_os s) !! ri_accessfd i), (os_fds (srv_os s) !! ri_localfd i).
Qed.

Lemma read_failure_kills_server_witness :
  exists s', serve 7 call0 (RRead (mk_rpc_in 3 (-1) 44 (-1) 0)) srv1 = Dies AssertFailed s'.
Proof.
  apply (read_failure_kills_server 7 call0 (mk_rpc_in 3 (-1) 44 (-1) 0) srv1).
  - exact call0_ok.
  - exact srv1_addr.
  - vm_compute. split; [discriminate|reflexivity].
  - vm_compute. discriminate.
  - reflexivity.
  - vm_compute. reflexivity.
  - vm_compute. reflexivity.
Defined.

(** An open followed by the close of its descriptor restores the descriptor
    table, forgets the descriptor's path, and hands the path to the data mover,
    with a signal, exactly when the file is not cached yet. *)
Lemma open_close_enqueues h1 h2 c1 c2 i rank s n :
  call_ok c1 -> call_ok c2 -> addr_ok s ->
  os_files (srv_os s) !! resolve (srv_os s) (served_path s (oi_path i)) = Some n ->
  exists fd s1 s2,
    serve h1 c1 (ROpen i) s = Ret 0 s1 /\ responses h1 (new_events s s1) = [fd] /\
    serve h2 c2 (RClose (mk_close_in fd rank)) s1 = Ret 0 s2 /\
    os_fds (srv_os s2) = os_fds (srv_os s) /\ fd_to_path s2 = delete fd (fd_to_path s) /\
    match path_cache_map s !! oi_path i with
    | Some _ => data_queue s2 = data_queue s /\ new_events s1 s2 = []
    | None => data_queue s2 = data_queue s ++ [oi_path i] /\ new_events s1 s2 = [EvSignal]
    end.
Proof.
  intros Hc1 Hc2 Ha Hn. destruct (open_events h1 c1 i s Hc1 Ha) as (s1 & Hr1 & [t1 Ht1] & He1).
  set (fd := lowest_fd (os_fds (srv_os s))). destruct (lowest_fd_free (os_fds (srv_os s))) as [Hfree _].
  fold fd in Hfree. unfold open_spec in Ht1. rewrite posix_open_rdonly, Hn in Ht1, He1.
  cbn [fst snd] in Ht1, He1. fold fd in Ht1, He1.
  destruct (serve_run h2 c2 (RClose (mk_close_in fd rank)) s1 (close_spec (mk_close_in fd rank) s1))
    as (s2 & Hr2 & Hl2); try done.
  { by subst s1. }
  { subst s1. cbn. rewrite lookup_insert_eq. by eexists. }
  { cbn. rewrite bool_decide_true; [done|]. subst s1. cbn. rewrite lookup_insert_eq. by eexists. }
  exists fd, s1, s2. split; [done|]. rewrite He1.
  split; [unfold responses; simpl; by rewrite decide_True|]. split; [done|].
  assert (Hp : default ""%string (fd_to_path s1 !! fd) = oi_path i)
    by (subst s1; cbn; by rewrite lookup_insert_eq).
  assert (Hc : path_cache_map s1 = path_cache_map s) by by subst s1.
  assert (Hfds : delete fd (os_fds (srv_os s1)) = os_fds (srv_os s))
    by (subst s1; cbn; rewrite delete_insert_eq; by apply delete_id).
  assert (Hmap : delete fd (fd_to_path s1) = delete fd (fd_to_path s))
    by (subst s1; cbn; by rewrite delete_insert_eq).
  assert (Hq : data_queue s1 = data_queue s) by by subst s1.
  apply logs_only_fields in Hl2 as (Ht & Hfp & _ & Hqq & _ & _ & Hos & _).
  unfold close_spec in *. cbn [ci_fd] in *. rewrite Hp, Hc in *. rewrite Hos, Hfp.
  destruct (path_cache_map s !! oi_path i); cbn in *; rewrite Hfds, Hmap, Hqq, Hq;
    (split_and!; [done..|]); apply new_events_app; by rewrite Ht, ?app_nil_r.
Qed.

Lemma open_close_enqueues_witness :
  exists fd s1 s2,
    serve 1 call0 (ROpen (mk_open_in "/pfs/f" 0 5)) srv0 = Ret 0 s1 /\
    responses 1 (new_events srv0 s1) = [fd] /\
    serve 2 call0 (RClose (mk_close_in fd 3)) s1 = Ret 0 s2 /\
    os_fds (srv_os s2) = os_fds (srv_os srv0) /\ fd_to_path s2 = delete fd (fd_to_path srv0) /\
    match path_cache_map srv0 !! "/pfs/f"%string with
    | Some _ => data_queue s2 = data_queue srv0 /\ new_events s1 s2 = []
    | None => data_queue s2 = data_queue srv0 ++ ["/pfs/f"%string] /\ new_events s1 s2 = [EvSignal]
    end.
Proof.
  apply (open_close_enqueues 1 2 call0 call0 (mk_open_in "/pfs/f" 0 5) 3 srv0 0).
  - exact call0_ok.
  - exact call0_ok.
  - exact srv0_addr.
  - vm_compute. reflexivity.
Defined.

(** C30: a seek request moves the descriptor to the position [lseek64] computes
    and answers once; the answer is the position exactly when it fits
    [int32_t], since the 64-bit result is stored in the [int32_t] of the
    response. *)
Theorem seek_answer h c i s f b :
  call_ok c -> os_fds (srv_os s) !! si_fd i = Some f ->
  seek_base f (si_whence i) (srv_os s) = Some b -> 0 <= b + si_offset i < 2 ^ 63 ->
  exists s', serve h c (RSeek i) s = Ret 0 s' /\
    os_fds (srv_os s') !! si_fd i = Some (set_off (b + si_offset i) f) /\
    responses h (new_events s s') = [i32 (b + si_offset i)] /\
    (i32 (b + si_offset i) = b + si_offset i <-> b + si_offset i < 2 ^ 31).
Proof.
  intros Hc Hf Hb Hp. eexists. split; [by apply seek_run|].
  unfold seek_spec, posix_lseek. rewrite Hf, Hb.
  rewrite (proj2 (Z.ltb_ge (b + si_offset i) 0)) by lia. cbn [fst snd].
  split; [cbn; apply lookup_insert_eq|]. split.
  - rewrite (new_events_app s _ [EvRespond h (i32 (b + si_offset i))]) by reflexivity.
    unfold responses. simpl. by rewrite decide_True.
  - split; intros H; [|apply i32_id; unfold in_i32; lia].
    pose proof (i32_range (b + si_offset i)). unfold in_i32 in *. lia.
Qed.

Lemma seek_answer_witness :
  exists s', serve 4 call0 (RSeek (mk_seek_in 0 3 SEEK_SET)) srv1 = Ret 0 s' /\
    os_fds (srv_os s') !! 0 = Some (set_off 3 (OFile 0 0 true false false)) /\
    responses 4 (new_events srv1 s') = [i32 3] /\ (i32 3 = 3 <-> 3 < 2 ^ 31).
Proof.
  apply (seek_answer 4 call0 (mk_seek_in 0 3 SEEK_SET) srv1 (OFile 0 0 true false false) 0).
  - exact call0_ok.
  - vm_compute. reflexivity.
  - vm_compute. reflexivity.
  - vm_compute. split; [discriminate|reflexivity].
Defined.
