(* ===== verification/DataMover.v ===== *)
(** * The data mover

    src/src/ftc_data_mover.cpp: the thread that copies files to the node-local
    NVMe and records the copies in [path_cache_map].  It shares the state
    [server] with the RPC handlers.  The body of its loop is cut where it takes
    and releases its locks: [mover_drain] runs under [data_mutex],
    [mover_publish] under [path_map_mutex], [mover_copy] under neither. *)

From S2P Require Import Prelude CString HexDump Address Posix LogInfo Server ServerSpec ServerProps.
From S2P Require Import Nvme.
Import Posix Server Nvme.

Module DataMover.

(** [string(getenv("BBPATH"))]: undefined when the variable is not set.  The
    directory stands for the template [BBPATH/XXXXXX]. *)
Definition mover_init : M server string :=
  let* bb := gets (fun s => getenv (srv_os s) "BBPATH") in defined bb.

(** Move [data_queue] to [local_list]. *)
Definition mover_drain (local_list : list string) : M server (list string) :=
  let* q := gets data_queue in
  modify (set_queue []);;
  mret (local_list ++ q).

(** [mkdtemp], the name of the copy, and [fs::copy], whose exceptions are
    caught.  The message of a failure, which passes a [std::string] where [%s]
    wants a pointer, is part of the log and is not modelled. *)
Definition mover_copy (nvme p : string) : M server (option string) :=
  let* dirpath := sys (mkdtemp nvme) in
  let filename := String.append dirpath (String.append "/" (fs_filename p)) in
  let* o := gets srv_os in
  match fs_copy p filename o with
  | Some o' => modify (set_os o');; mret (Some filename)
  | None => modify (set_os (fs_copy_left p filename o));; mret None
  end.

Definition mover_publish (p filename : string) : M server unit :=
  let* m := gets path_cache_map in modify (set_cache (<[p := filename]> m)).

Definition mover_file (nvme p : string) : M server unit :=
  let* r := mover_copy nvme p in
  match r with Some filename => mover_publish p filename | None => mret tt end.

Fixpoint mover_files (nvme : string) (local_list : list string) : M server unit :=
  match local_list with
  | [] => mret tt
  | p :: l => mover_file nvme p;; mover_files nvme l
  end.

(** One iteration of the loop; with nothing queued the thread waits. *)
Definition mover_round (nvme : string) : M server unit :=
  let* q := gets data_queue in
  match q with
  | [] => block
  | _ => let* l := mover_drain [] in mover_files nvme l
  end.

(** ** Lemmas *)

(** What a copy does: on success a new file with the bytes of [p] appears at the
    returned name; on failure the files that
    were there are as before. *)
Lemma mover_copy_run nvme p s :
  exists r o, mover_copy nvme p s = Ret r (set_os o s) /\ os_ext (srv_os s) o /\
    os_fds o = os_fds (srv_os s) /\ (os_wf (srv_os s) -> os_wf o) /\
    match r with
    | Some f => exists d, file_at (srv_os s) p = Some d /\ file_at o p = Some d /\ file_at o f = Some d
    | None => True
    end.
Proof.
  unfold mover_copy. rewrite (bind_Ret _ _ _ _ _ (sys_Ret _ _)). mred.
  set (o1 := (mkdtemp nvme (srv_os s)).2).
  assert (E1 : os_ext (srv_os s) o1) by apply ext_mkdtemp.
  assert (F1 : os_fds o1 = os_fds (srv_os s))
    by (unfold o1, mkdtemp; destruct (os_tmp (srv_os s)); [done|]; by case_match).
  assert (C1 : forall q, file_at o1 q = file_at (srv_os s) q)
    by (intros q; unfold o1, mkdtemp; destruct (os_tmp (srv_os s)); [done|]; by case_match).
  assert (W1 : os_wf (srv_os s) -> os_wf o1) by apply wf_mkdtemp.
  cbn [srv_os set_os]. set (f := String.append _ _).
  destruct (fs_copy p f o1) as [o2|] eqn:E2.
  - destruct (fs_copy_Some _ _ _ _ E2) as (E & d & Hp & Hf & Hfds & _).
    exists (Some f), o2. split; [reflexivity|]. split; [by etrans|].
    split; [congruence|]. split; [by eauto using wf_fs_copy|].
    exists d. split; [by rewrite <- C1|]. split; [|done]. by eapply ext_file_at.
  - destruct (fs_copy_left_run p f o1) as (E & F & W). exists None, (fs_copy_left p f o1).
    split_and!; [done|by etrans|congruence|by eauto|done].
Qed.

(** A file the mover can read, and room for its copy: the copy is made, in a
    directory of its own. *)
Lemma mover_copy_ready nvme k p s : nvme_ready nvme (S k) (srv_os s) -> source_ok (srv_os s) p ->
  exists f o d, mover_copy nvme p s = Ret (Some f) (set_os o s) /\ nvme_ready nvme k o /\
    os_ext (srv_os s) o /\ os_links o = os_links (srv_os s) /\
    file_at (srv_os s) p = Some d /\ file_at o p = Some d /\ file_at o f = Some d.
Proof.
  intros Hr (n & d & Hn & Hnode & Hbad).
  destruct (mkdtemp_ready nvme k (fs_filename p) (srv_os s) Hr) as (dir & tmp & Hmk & Hpar & Hfd & F1 & F2 & F3 & Hnext);
    [apply fs_filename_no_slash|].
  set (f := String.append dir (String.append "/" (fs_filename p))) in *.
  set (o1 := set_dirs ({[dir]} ∪ os_dirs (srv_os s)) tmp (srv_os s)) in *.
  assert (Hcp : fs_copy p f o1 = Some (set_files (<[f := fresh_node (os_nodes o1)]> (os_files o1))
    (<[fresh_node (os_nodes o1) := d]> (os_nodes o1)) o1)).
  { unfold fs_copy. change (resolve o1 p) with (resolve (srv_os s) p). simpl.
    rewrite Hn. simpl. rewrite Hnode. simpl. rewrite Hpar.
    rewrite !bool_decide_true by (done || set_solver). done. }
  destruct (fs_copy_Some _ _ _ _ Hcp) as (He & d' & Hp & Hf & _ & _).
  assert (He1 : os_ext (srv_os s) o1) by (by split).
  assert (d' = d) as ->.
  { unfold file_at, content in Hp. change (resolve o1 p) with (resolve (srv_os s) p) in Hp.
    simpl in Hp. rewrite Hn in Hp. simpl in Hp. congruence. }
  eexists f, _, d. split_and!.
  - unfold mover_copy. rewrite (bind_Ret _ _ _ _ _ (sys_Ret _ _)). rewrite Hmk. cbn [fst snd]. mred.
    cbn [srv_os set_os]. fold f. rewrite Hcp. reflexivity.
  - apply Hnext; try done. by eexists.
  - by etrans.
  - done.
  - unfold file_at, content. by rewrite Hn.
  - by eapply ext_file_at.
  - done.
Qed.

Lemma mover_files_ready nvme l : forall s,
  nvme_ready nvme (length l) (srv_os s) -> (forall p, p ∈ l -> source_ok (srv_os s) p) ->
  exists s', mover_files nvme l s = Ret tt s' /\ data_queue s' = data_queue s /\
    os_ext (srv_os s) (srv_os s') /\
    (forall p, p ∉ l -> path_cache_map s' !! p = path_cache_map s !! p) /\
    (forall p, p ∈ l -> exists f d, path_cache_map s' !! p = Some f /\
       file_at (srv_os s) p = Some d /\ file_at (srv_os s') f = Some d).
Proof.
  induction l as [|p l IH]; intros s Hr Hsrc.
  - exists s. split_and!; try done. intros p []%not_elem_of_nil.
  - destruct (mover_copy_ready nvme (length l) p s) as (f & o & d & Hc & Hr1 & He & _ & Hp & Hp' & Hf);
      [done|apply Hsrc; by left|].
    set (s1 := set_cache (<[p := f]> (path_cache_map s)) (set_os o s)).
    destruct (IH s1) as (s' & H' & Hq & He' & Hout & Hin); [done| |].
    { intros q Hq. eapply source_ok_ext; [exact He|]. apply Hsrc. by right. }
    exists s'. split_and!.
    + simpl. erewrite (bind_Ret (mover_file nvme p)); [exact H'|].
      unfold mover_file. rewrite (bind_Ret _ _ _ _ _ Hc). reflexivity.
    + by rewrite Hq.
    + by etrans.
    + intros q [Hqp Hql]%not_elem_of_cons. rewrite Hout by done. simpl. by apply lookup_insert_ne.
    + intros q Hq'. destruct (decide (q ∈ l)) as [Hql|Hql].
      * destruct (Hin q Hql) as (g & dq & H1 & H2 & H3). destruct (Hsrc q) as (n & d2 & S1 & S2 & S3); [done|].
        exists g, d2. assert (Hqf : file_at (srv_os s) q = Some d2) by (unfold file_at, content; by rewrite S1).
        assert (file_at o q = Some d2) by (by eapply ext_file_at). simpl in H2.
        split_and!; [done|done|congruence].
      * apply elem_of_cons in Hq' as [->|?]; [|done]. exists f, d. rewrite Hout by done.
        split_and!; [simpl; apply lookup_insert_eq|done|by eapply ext_file_at].
Qed.

End DataMover.
Import DataMover ServerProps.ServerExample.

(** C15: queued files get cached.  When the files in the queue can be read and
    there is room for their copies, one round of the mover empties the queue,
    and every queued file then has an entry in [path_cache_map] that leads to a
    copy of its bytes; the entries of other files stay. *)
Theorem mover_round_caches nvme s :
  data_queue s <> [] -> nvme_ready nvme (length (data_queue s)) (srv_os s) ->
  (forall p, p ∈ data_queue s -> source_ok (srv_os s) p) ->
  exists s', mover_round nvme s = Ret tt s' /\ data_queue s' = [] /\
    (forall p, p ∉ data_queue s -> path_cache_map s' !! p = path_cache_map s !! p) /\
    (forall p, p ∈ data_queue s -> exists f d, path_cache_map s' !! p = Some f /\
       file_at (srv_os s) p = Some d /\ file_at (srv_os s') f = Some d).
Proof.
  intros Hq Hr Hs. destruct (mover_files_ready nvme (data_queue s) (set_queue [] s)) as
    (s' & H' & Hq' & _ & Hout & Hin); [done..|]. exists s'. split_and!; try done.
  unfold mover_round, mover_drain. mred. destruct (data_queue s) eqn:E; [done|].
  cbn [app]. rewrite E. exact H'.
Qed.

Lemma mover_round_caches_witness :
  exists s', mover_round "/nvme" (set_queue ["/pfs/f"%string] srv0) = Ret tt s' /\ data_queue s' = [] /\
    (forall p, p ∉ ["/pfs/f"%string] -> path_cache_map s' !! p = path_cache_map srv0 !! p) /\
    (forall p, p ∈ ["/pfs/f"%string] -> exists f d, path_cache_map s' !! p = Some f /\
       file_at (srv_os srv0) p = Some d /\ file_at (srv_os s') f = Some d).
Proof.
  apply (mover_round_caches "/nvme" (set_queue ["/pfs/f"%string] srv0)).
  - discriminate.
  - split; simpl.
    + discriminate.
    + set_solver.
    + lia.
    + repeat constructor; set_solver.
    + intros sfx Hs. apply strchr_None.
      repeat (apply elem_of_cons in Hs as [->|Hs]; [vm_compute; reflexivity|]).
      by apply not_elem_of_nil in Hs.
    + intros sfx q Hs (t & -> & _). split; [|split; [|done]].
      * intros H. apply elem_of_union in H as [H|H]; apply elem_of_singleton in H; discriminate.
      * apply lookup_singleton_ne. discriminate.
  - intros p Hp. apply elem_of_cons in Hp as [->|Hp]; [|by apply not_elem_of_nil in Hp].
    exists 0%nat, data. split; [|split]; [vm_compute; reflexivity..|apply not_elem_of_empty].
Defined.
