(* ===== verification/ServerInv.v ===== *)
(** * The invariant of the cache server

    [server_inv] ties the descriptors, the cache map and the files together:
    the cache map leads from a file to a copy with the same bytes, and every
    descriptor that serves a named file reads the bytes of that file.  Every
    handler keeps it, whatever Mercury answers, every piece of the data mover
    does, and none of them changes or removes a file. *)

From S2P Require Import Prelude CString HexDump Address Posix LogInfo Server ServerSpec DataMover.
Import Address Posix LogInfo Server ServerSpec DataMover.

Module ServerInv.

(** A cached file and its copy have the same bytes. *)
Definition cache_coherent (m : gmap string string) (o : os) : Prop :=
  forall p f, m !! p = Some f -> exists d, file_at o p = Some d /\ file_at o f = Some d.

(** A descriptor recorded for a file reads that file. *)
Definition fd_coherent (m : gmap Z string) (o : os) : Prop :=
  forall fd p f, m !! fd = Some p -> os_fds o !! fd = Some f ->
    os_nodes o !! of_node f = file_at o p /\ of_read f = true.

Record server_inv (s : server) : Prop := {
  inv_wf : os_wf (srv_os s);
  inv_cache : cache_coherent (path_cache_map s) (srv_os s);
  inv_fds : fd_coherent (fd_to_path s) (srv_os s)
}.

(** The files [o0] had are still there with their bytes, and the descriptors
    [K] are closed. *)
Record inv_from (o0 : os) (K : list Z) (s : server) : Prop := {
  from_inv : server_inv s;
  from_ext : os_ext o0 (srv_os s);
  from_closed : Forall (fun fd => os_fds (srv_os s) !! fd = None) K
}.

(** Opening [redir] serves [path]. *)
Definition same_file (o : os) (redir path : string) : Prop :=
  redir = path \/ exists d, file_at o redir = Some d /\ file_at o path = Some d.

(** ** The operating system calls of a handler *)

Lemma cache_coherent_ext m o o' : os_ext o o' -> cache_coherent m o -> cache_coherent m o'.
Proof. intros He H p f Hp. destruct (H p f Hp) as (d & H1 & H2). exists d. eauto using ext_file_at. Qed.

(** A step of the operating system that opens no descriptor. *)
Record os_step (o o' : os) : Prop := {
  step_ext : os_ext o o';
  step_wf : os_wf o -> os_wf o';
  step_fds : forall fd f', os_fds o' !! fd = Some f' ->
    exists f, os_fds o !! fd = Some f /\ of_node f' = of_node f /\ of_read f' = of_read f
}.

Lemma step_same_fds o o' :
  os_ext o o' -> (os_wf o -> os_wf o') -> os_fds o' = os_fds o -> os_step o o'.
Proof. intros He Hw Hf. split; [done..|]. rewrite Hf. eauto. Qed.

Lemma step_set_off o fd f off : os_fds o !! fd = Some f ->
  os_step o (set_fds (<[fd := set_off off f]> (os_fds o)) o).
Proof.
  intros Hf. split; [apply ext_set_fds|by intros; apply wf_set_off|].
  intros fd' f'. simpl. rewrite lookup_insert. case_decide; subst; intros ?; simplify_eq; eauto.
Qed.

Lemma step_refl o : os_step o o.
Proof. apply step_same_fds; done. Qed.

Lemma step_text t o : os_step o (set_text t o).
Proof. apply step_same_fds; [apply ext_set_text|apply wf_set_text|done]. Qed.

Lemma step_read fd n o : os_step o (posix_read fd n o).2.
Proof.
  unfold posix_read. destruct (os_fds o !! fd) eqn:E, (readable o fd); simpl;
    try apply step_refl. by apply step_set_off.
Qed.

Lemma step_lseek fd off wh o : os_step o (posix_lseek fd off wh o).2.
Proof.
  unfold posix_lseek. destruct (os_fds o !! fd) as [f|] eqn:E; [|apply step_refl].
  destruct (seek_base f wh o); [|apply step_refl]. case_match; [apply step_refl|].
  by apply step_set_off.
Qed.

Lemma step_close fd o : os_step o (posix_close fd o).2.
Proof.
  split; [apply ext_close|apply wf_close|].
  unfold posix_close. destruct (os_fds o !! fd) eqn:E; simpl; [|eauto].
  intros fd' f' [_ ?]%lookup_delete_Some. eauto.
Qed.

Lemma fd_coherent_step m o o' : os_wf o -> os_step o o' -> fd_coherent m o -> fd_coherent m o'.
Proof.
  intros Hwf [He _ Hs] H fd p f' Hm Hf'. destruct (Hs fd f' Hf') as (f & Hf & Hn & Hr).
  destruct (H fd p f Hm Hf) as [H1 H2]. rewrite Hn, Hr. split; [|done].
  destruct (wf_fds _ Hwf fd f Hf H2) as [d Hd]. rewrite Hd in H1. symmetry in H1.
  rewrite (ext_file_at _ _ _ _ He H1). eapply lookup_weaken; [done|apply He].
Qed.

(** ** What keeps the invariant *)

Section Invariant.
Context (o0 : os) (K : list Z).
#[local] Abbreviation I := (inv_from o0 K).

Lemma inv_os_step o s : os_step (srv_os s) o -> I s -> I (set_os o s).
Proof.
  intros Hst [[Hwf Hc Hf] He Hk]. destruct Hst as [He' Hw Hs] eqn:E. split; [|by etrans|].
  - split; simpl; [by apply Hw|by eapply cache_coherent_ext|by eapply fd_coherent_step].
  - eapply Forall_impl; [exact Hk|]. intros fd Hfd. simpl.
    destruct (os_fds o !! fd) as [f'|] eqn:E'; [|done].
    destruct (Hs fd f' E') as (f & Hf' & _). congruence.
Qed.

Lemma inv_sys {A} (f : os -> A * os) :
  (forall o, os_step o (f o).2) -> preserves I (sys f).
Proof. intros Hf s a s' HI [= <- <-]. by apply inv_os_step. Qed.

Lemma log_Ret i s u s' : log i s = Ret u s' -> exists t, s' = set_os (set_text t (srv_os s)) s.
Proof.
  unfold log, lift_os. intros H.
  destruct (logging_info i "server" (srv_os s)) eqn:E; simplify_eq.
  destruct (logging_info_Ret _ _ _ _ _ E) as [t ->]. by exists t.
Qed.

Lemma inv_log i : preserves I (log i).
Proof. intros s a s' HI [t ->]%log_Ret. by apply inv_os_step; [apply step_text|]. Qed.

(** A change of the fields the invariant does not mention. *)
Lemma inv_modify_frame f :
  (forall s, srv_os (f s) = srv_os s /\ path_cache_map (f s) = path_cache_map s /\
     fd_to_path (f s) = fd_to_path s) -> preserves I (modify f).
Proof.
  intros Hf. apply preserves_modify. intros s [[H1 H2 H3] H4 H5].
  destruct (Hf s) as (E1 & E2 & E3). split; [split|..]; by rewrite ?E1, ?E2, ?E3.
Qed.

Lemma inv_emit e : preserves I (emit e).
Proof. by apply inv_modify_frame. Qed.

Lemma inv_set_bulk m : preserves I (modify (set_bulk m)).
Proof. by apply inv_modify_frame. Qed.

Lemma inv_set_queue m : preserves I (modify (set_queue m)).
Proof. by apply inv_modify_frame. Qed.

Lemma inv_erase_fd fd : preserves I (erase_fd fd).
Proof.
  intros s a s' [[H1 H2 H3] H4 H5] H. unfold erase_fd in H. mred_in H. simplify_eq.
  split; [split|..]; try done. simpl. intros fd' p f [_ Hp]%lookup_delete_Some. by apply H3.
Qed.

Lemma inv_gettimeofday : preserves I gettimeofday.
Proof. apply preserves_gets. Qed.

Lemma inv_peer_flag b : preserves I (peer_flag b).
Proof.
  unfold peer_flag. repeat (apply preserves_bind; intros);
    first [apply preserves_defined | apply preserves_gets | apply preserves_ret].
Qed.

(** [operator[]] may add an entry, for a descriptor that is closed. *)
Lemma inv_fd_to_path_at fd : fd ∈ K -> preserves I (fd_to_path_at fd).
Proof.
  intros Hfd s a s' [[H1 H2 H3] H4 H5] H. unfold fd_to_path_at in H. mred_in H.
  destruct (fd_to_path s !! fd); simplify_eq; [done|].
  split; [split|..]; try done. simpl. intros fd' p f Hp Hf.
  rewrite lookup_insert in Hp. case_decide; [|by eapply H3]. subst fd'.
  rewrite Forall_forall in H5. specialize (H5 fd Hfd). congruence.
Qed.

Lemma inv_read fd n : preserves I (sys (posix_read fd n)).
Proof. apply inv_sys, step_read. Qed.

Lemma inv_lseek fd off wh : preserves I (sys (posix_lseek fd off wh)).
Proof. apply inv_sys, step_lseek. Qed.

End Invariant.

#[export] Hint Resolve inv_log inv_emit inv_set_bulk inv_set_queue inv_erase_fd
  inv_gettimeofday inv_peer_flag inv_read inv_lseek : ftc.

(** Carry an invariant through the structure of a computation. *)
Ltac walk :=
  repeat first
    [ progress intros
    | solve [eauto 1 with ftc]
    | apply preserves_bind
    | apply preserves_if
    | match goal with |- preserves _ (match ?x with _ => _ end) => destruct x end ].

(** ** The handlers *)

Section Handlers.
Context (o0 : os).
#[local] Abbreviation I := (inv_from o0 []).

Lemma inv_start_transfer h c i d : preserves I (start_transfer h c i d).
Proof. unfold start_transfer. walk. Qed.

Lemma inv_rpc_handler h c i : preserves I (ftc_rpc_handler h c i).
Proof.
  unfold ftc_rpc_handler, rpc_begin, rpc_stream_read, rpc_positioned_read.
  walk; apply inv_start_transfer.
Qed.

Lemma inv_bulk_cb h r1 r2 : preserves I (ftc_rpc_handler_bulk_cb h r1 r2).
Proof. unfold ftc_rpc_handler_bulk_cb, free_rpc_state. walk. Qed.

Lemma inv_seek_handler h c i : preserves I (ftc_seek_rpc_handler h c i).
Proof. unfold ftc_seek_rpc_handler. walk. Qed.

Lemma inv_open_begin h c i : preserves I (open_begin h c i).
Proof. unfold open_begin. walk. Qed.

(** The lookup leaves the state alone and finds a file with the same bytes. *)
Lemma open_lookup_run f s x s' : I s -> open_lookup f s = Ret x s' ->
  s' = s /\ same_file (srv_os s) x.1.1 (oi_path (of_in f)).
Proof.
  intros [[_ Hc _] _ _] H. unfold open_lookup in H. mred_in H.
  destruct (path_cache_map s !! oi_path (of_in f)) as [r|] eqn:E; simplify_eq/=; split; try done.
  - right. destruct (Hc _ _ E) as (d & H1 & H2). eauto.
  - by left.
Qed.

Lemma same_file_ext o o' r p : os_ext o o' -> same_file o r p -> same_file o' r p.
Proof. intros He [->|(d & H1 & H2)]; [by left|]. right. exists d. eauto using ext_file_at. Qed.

(** Opening a file with the right bytes and recording the path. *)
Lemma inv_opened redir path s : I s -> same_file (srv_os s) redir path ->
  let r := posix_open redir O_RDONLY (srv_os s) in
  I (set_fd_to_path (<[r.1 := path]> (fd_to_path s)) (set_os r.2 s)).
Proof.
  intros [[Hwf Hc Hf] He Hk] Hsame r. unfold r.
  assert (He' := ext_open_rdonly redir (srv_os s)).
  assert (Hwf' := wf_open_rdonly redir _ Hwf).
  split; [split; simpl|..]; [done|by eapply cache_coherent_ext| |by etrans|constructor].
  rewrite posix_open_rdonly in *. destruct (os_files (srv_os s) !! resolve (srv_os s) redir) as [n|] eqn:En.
  - destruct (wf_files _ Hwf _ _ En) as [d Hd]. simpl. intros fd p f Hp Hfd. simpl in Hfd.
    rewrite lookup_insert in Hp. rewrite lookup_insert in Hfd.
    assert (Hfile : file_at (srv_os s) redir = Some d) by (unfold file_at, content; by rewrite En).
    case_decide; subst; simplify_eq; [|by eapply Hf]. simpl. split; [|done].
    change (file_at (set_fds _ _) p) with (file_at (srv_os s) p). rewrite Hd.
    destruct Hsame as [->|(d' & H1 & H2)]; [done|]. congruence.
  - intros fd p f Hp Hfd. simpl in Hp, Hfd. rewrite lookup_insert in Hp. case_decide; subst; [|by eapply Hf].
    apply (wf_fd_pos _ Hwf) in Hfd. simpl in Hfd. lia.
Qed.

(** The invariant once an entry is added to [fd_to_path]. *)
Definition inv_recording (fd : Z) (path : string) (s : server) : Prop :=
  I (set_fd_to_path (<[fd := path]> (fd_to_path s)) s).

Lemma inv_open_finish f x s v s' : I s -> same_file (srv_os s) x.1.1 (oi_path (of_in f)) ->
  open_finish f x s = Ret v s' -> I s'.
Proof.
  intros HI Hsame H. destruct x as [[redir nv] li]. simpl in Hsame. unfold open_finish in H.
  apply bind_inv in H as (now & s1 & H1 & H). unfold gettimeofday in H1. mred_in H1. simplify_eq.
  apply bind_inv in H as ([] & s2 & H2 & H).
  assert (HI2 := inv_log o0 [] _ _ _ _ HI H2). apply log_Ret in H2 as [t1 ->].
  rewrite (bind_Ret _ _ _ _ _ (sys_Ret _ _)) in H.
  apply bind_inv in H as (now2 & s3 & H3 & H). unfold gettimeofday in H3. mred_in H3. simplify_eq.
  apply bind_inv in H as ([] & s4 & H4 & H). apply log_Ret in H4 as [t2 ->].
  unfold emit in H. mred_in H. simplify_eq. set (s2 := set_os (set_text t1 (srv_os s1)) s1) in *.
  assert (Hop : I (set_fd_to_path (<[(posix_open redir O_RDONLY (srv_os s2)).1 := oi_path (of_in f)]>
    (fd_to_path s2)) (set_os (posix_open redir O_RDONLY (srv_os s2)).2 s2))).
  { apply inv_opened; [done|]. by eapply same_file_ext; [apply ext_set_text|]. }
  eapply (inv_os_step o0 [] (set_text t2 (posix_open redir O_RDONLY (srv_os s2)).2)) in Hop;
    [|apply step_text].
  exact (inv_emit o0 [] (EvRespond (of_handle f) (posix_open redir O_RDONLY (srv_os s2)).1)
    _ _ _ Hop eq_refl).
Qed.

Lemma inv_open_handler h c i : preserves I (ftc_open_rpc_handler h c i).
Proof.
  intros s v s' HI H. unfold ftc_open_rpc_handler in H.
  apply bind_inv in H as ([r|f] & s1 & H1 & H);
    apply (inv_open_begin h c i) in H1 as HI1; try done.
  - mred_in H. by simplify_eq.
  - apply bind_inv in H as (x & s2 & H2 & H). destruct (open_lookup_run _ _ _ _ HI1 H2) as [-> Hx].
    by eapply inv_open_finish.
Qed.

(** After a successful [close] the descriptor is closed. *)
Lemma inv_close_begin h c i s r s' : I s -> close_begin h c i s = Ret r s' ->
  match r with inl _ => I s' | inr f => inv_from o0 [ci_fd (cf_in f)] s' end.
Proof.
  intros HI H. unfold close_begin in H.
  apply bind_inv in H as ([] & s1 & H1 & H). apply (preserves_assertM I) in H1 as HI1; [|done].
  apply bind_inv in H as (now & s2 & H2 & H). apply (inv_gettimeofday o0 []) in H2 as HI2; [|done].
  destruct (hc_peer c) as [[z b]|]; cycle 1.
  { apply bind_inv in H as ([] & s3 & H3 & H). apply (inv_erase_fd o0 []) in H3; [|done].
    mred_in H. by simplify_eq. }
  apply bind_inv in H as (fl & s3 & H3 & H). apply (inv_peer_flag o0 []) in H3 as HI3; [|done].
  apply bind_inv in H as (rk & s4 & H4 & H). apply (preserves_gets I) in H4 as HI4; [|done].
  apply bind_inv in H as ([] & s5 & H5 & H). apply (inv_log o0 []) in H5 as HI5; [|done].
  apply bind_inv in H as (now2 & s6 & H6 & H). apply (inv_gettimeofday o0 []) in H6 as HI6; [|done].
  rewrite (bind_Ret _ _ _ _ _ (sys_Ret _ _)) in H.
  apply bind_inv in H as (now3 & s7 & H7 & H). unfold gettimeofday in H7. mred_in H7. simplify_eq.
  set (s7 := set_os (posix_close (ci_fd i) (srv_os s6)).2 s6) in *.
  assert (HI7 : I s7) by (apply inv_os_step; [apply step_close|done]).
  apply bind_inv in H as ([] & s8 & H8 & H). unfold assertM in H8.
  destruct ((posix_close (ci_fd i) (srv_os s6)).1 =? 0) eqn:E; [|done]. mred_in H8. mred_in H. simplify_eq.
  destruct HI7 as [A B C]. split; [done|done|]. constructor; [|constructor]. simpl.
  unfold posix_close in *. destruct (os_fds (srv_os s6) !! ci_fd i); simpl; [apply lookup_delete_eq|done].
Qed.

Lemma inv_weaken K s : inv_from o0 K s -> I s.
Proof. by intros [A B C]; split. Qed.

Lemma inv_close_check f : preserves (inv_from o0 [ci_fd (cf_in f)]) (close_check f).
Proof.
  unfold close_check. apply preserves_bind; [apply inv_fd_to_path_at; by left|]. walk.
Qed.

Lemma inv_close_push f : preserves (inv_from o0 [ci_fd (cf_in f)]) (close_push f).
Proof.
  unfold close_push. apply preserves_bind; [apply inv_fd_to_path_at; by left|]. walk.
Qed.

Lemma inv_close_finish f b : preserves (inv_from o0 [ci_fd (cf_in f)]) (close_finish f b).
Proof. unfold close_finish. walk. Qed.

Lemma inv_close_handler h c i : preserves I (ftc_close_rpc_handler h c i).
Proof.
  intros s v s' HI H. unfold ftc_close_rpc_handler in H.
  apply bind_inv in H as ([r|f] & s1 & H1 & H); apply inv_close_begin in H1; try done.
  - mred_in H. by simplify_eq.
  - apply (inv_weaken [ci_fd (cf_in f)]). eapply (preserves_bind _ (close_check f)
      (fun b => (if b : bool then close_push f else mret tt);; close_finish f b)); [..|exact H1|exact H].
    + apply inv_close_check.
    + intros b. apply preserves_bind; [|intros; apply inv_close_finish].
      destruct b; [apply inv_close_push|apply preserves_ret].
Qed.

Lemma inv_serve_read h c i : preserves I (serve_read h c i).
Proof.
  unfold serve_read. apply preserves_bind; [apply inv_rpc_handler|]. walk.
Qed.

Lemma inv_serve h c r : preserves I (serve h c r).
Proof.
  destruct r; simpl;
    [apply inv_open_handler|apply inv_serve_read|apply inv_seek_handler|apply inv_close_handler].
Qed.

End Handlers.

(** ** The data mover *)

Section MoverInvariant.
Context (o0 : os) (K : list Z).
#[local] Abbreviation I := (inv_from o0 K).

(** A copy that has been made and can be published. *)
Definition copied (p f : string) (o : os) : Prop :=
  exists d, file_at o p = Some d /\ file_at o f = Some d.

Lemma copied_ext p f o o' : os_ext o o' -> copied p f o -> copied p f o'.
Proof. intros He (d & H1 & H2). exists d. eauto using ext_file_at. Qed.

Lemma inv_mover_copy nvme p s r s' : I s -> mover_copy nvme p s = Ret r s' ->
  I s' /\ os_ext (srv_os s) (srv_os s') /\
  match r with Some f => copied p f (srv_os s') | None => True end.
Proof.
  intros HI H. destruct (mover_copy_run nvme p s) as (r1 & o & H1 & He & Hf & Hw & Hr).
  rewrite H1 in H. simplify_eq. split; [|split; [done|]].
  - by apply inv_os_step; [apply step_same_fds|].
  - destruct r; [|done]. destruct Hr as (d & _ & ? & ?). by exists d.
Qed.

Lemma inv_mover_publish p f s : I s -> copied p f (srv_os s) ->
  mover_publish p f s = Ret tt (set_cache (<[p := f]> (path_cache_map s)) s) /\
  I (set_cache (<[p := f]> (path_cache_map s)) s).
Proof.
  intros [[Hw Hc Hf] He Hk] Hp. split; [done|]. split; [split|..]; try done.
  intros p' f' H. simpl in H. apply lookup_insert_Some in H as [[<- <-]|[_ H]]; [exact Hp|by apply Hc].
Qed.

Lemma inv_mover_file nvme p : preserves I (mover_file nvme p).
Proof.
  intros s u s' HI H. unfold mover_file in H. apply bind_inv in H as (r & s1 & H1 & H).
  destruct (inv_mover_copy _ _ _ _ _ HI H1) as (HI1 & _ & Hr). destruct r as [f|].
  - destruct (inv_mover_publish p f s1 HI1 Hr) as [E HI2]. rewrite E in H. by simplify_eq.
  - mred_in H. by simplify_eq.
Qed.

Lemma inv_mover_files nvme l : preserves I (mover_files nvme l).
Proof.
  induction l as [|p l IH]; simpl; [apply preserves_ret|].
  apply preserves_bind; [apply inv_mover_file|done].
Qed.

Lemma inv_mover_drain l : preserves I (mover_drain l).
Proof. unfold mover_drain. walk. Qed.

Lemma inv_mover_round nvme : preserves I (mover_round nvme).
Proof.
  unfold mover_round. apply preserves_bind; [apply preserves_gets|]. intros q.
  destruct q; [by intros s u s'|]. apply preserves_bind; [apply inv_mover_drain|].
  intros. apply inv_mover_files.
Qed.

End MoverInvariant.

End ServerInv.
