(* ===== verification/ServerThreads.v ===== *)
(** * The two threads of the server

    The Mercury progress thread runs the RPC handlers one after the other; the
    data mover runs [ftc_data_mover_fn].  They share [path_cache_map] under
    [path_map_mutex] and [data_queue] under [data_mutex] with the condition
    [data_cond].  A step of the relation is one piece of a handler or of the
    mover between two operations on a lock, so every interleaving of the two
    threads is a path.  A handler that dies ends the process; a waiting thread
    may wake spuriously. *)

From S2P Require Import Prelude CString HexDump Address Posix LogInfo Server ServerSpec ServerProps.
From S2P Require Import DataMover ServerInv.
Import Address Posix LogInfo Server ServerSpec DataMover ServerInv.

Module ServerThreads.

Inductive tid : Type := Progress | Mover.

#[export] Instance tid_eq_dec : EqDecision tid.
Proof. solve_decision. Defined.

(** Where the progress thread is. *)
Inductive prog_pc : Type :=
  | PIdle
  | POpenLock (f : open_frame)                              (* before locking path_map_mutex *)
  | POpenLookup (f : open_frame)                            (* holds path_map_mutex *)
  | POpenUnlock (f : open_frame) (x : string * bool * log_info_t)
  | POpenFinish (f : open_frame) (x : string * bool * log_info_t)
  | PCloseLock (f : close_frame)
  | PCloseCheck (f : close_frame)                           (* holds path_map_mutex *)
  | PCloseLockData (f : close_frame)                        (* holds path_map_mutex *)
  | PClosePush (f : close_frame)                            (* holds both *)
  | PCloseUnlockData (f : close_frame)                      (* holds both *)
  | PCloseUnlock (f : close_frame) (nvme_flag : bool)       (* holds path_map_mutex *)
  | PCloseFinish (f : close_frame) (nvme_flag : bool).

(** Where the data mover is; the lists are [local_list]. *)
Inductive mover_pc : Type :=
  | MLock                                                   (* before locking data_mutex *)
  | MTest                                                   (* holds data_mutex *)
  | MWait                                                   (* in pthread_cond_wait *)
  | MWake                                                   (* woken, before re-locking *)
  | MDrain                                                  (* holds data_mutex *)
  | MUnlock (l : list string)                               (* holds data_mutex *)
  | MCopy (l : list string)
  | MLockPath (p filename : string) (l : list string)
  | MPublish (p filename : string) (l : list string)        (* holds path_map_mutex *)
  | MUnlockPath (l : list string).                          (* holds path_map_mutex *)

Record cstate : Type := mk_cstate {
  c_srv : server;
  c_path : option tid;      (* owner of path_map_mutex *)
  c_data : option tid;      (* owner of data_mutex *)
  c_prog : prog_pc;
  c_mover : mover_pc;
  c_dead : option fault
}.

(** [pthread_cond_signal(&data_cond)]. *)
Definition signalled (m : mover_pc) : mover_pc :=
  match m with MWait => MWake | _ => m end.

(** What a thread that acquires no lock continues with. *)
Definition next_open (r : Z + open_frame) : prog_pc :=
  match r with inl _ => PIdle | inr f => POpenLock f end.
Definition next_close (r : Z + close_frame) : prog_pc :=
  match r with inl _ => PIdle | inr f => PCloseLock f end.
Definition next_copy (p : string) (l : list string) (r : option string) : mover_pc :=
  match r with Some filename => MLockPath p filename l | None => MCopy l end.

(** One step of the progress thread: [pd], [dd] are the locks' owners. *)
Inductive prog_step : cstate -> cstate -> Prop :=
  | step_open s s' pd dd m h c i r :
      open_begin h c i s = Ret r s' ->
      prog_step (mk_cstate s pd dd PIdle m None) (mk_cstate s' pd dd (next_open r) m None)
  | step_read s s' pd dd m h c i r :
      ftc_rpc_handler h c i s = Ret r s' ->
      prog_step (mk_cstate s pd dd PIdle m None) (mk_cstate s' pd dd PIdle m None)
  | step_bulk_cb s s' pd dd m h r1 r2 r :
      ftc_rpc_handler_bulk_cb h r1 r2 s = Ret r s' ->
      prog_step (mk_cstate s pd dd PIdle m None) (mk_cstate s' pd dd PIdle m None)
  | step_seek s s' pd dd m h c i r :
      ftc_seek_rpc_handler h c i s = Ret r s' ->
      prog_step (mk_cstate s pd dd PIdle m None) (mk_cstate s' pd dd PIdle m None)
  | step_close s s' pd dd m h c i r :
      close_begin h c i s = Ret r s' ->
      prog_step (mk_cstate s pd dd PIdle m None) (mk_cstate s' pd dd (next_close r) m None)
  | step_open_lock s dd m f :
      prog_step (mk_cstate s None dd (POpenLock f) m None)
        (mk_cstate s (Some Progress) dd (POpenLookup f) m None)
  | step_open_lookup s s' pd dd m f x :
      open_lookup f s = Ret x s' ->
      prog_step (mk_cstate s pd dd (POpenLookup f) m None)
        (mk_cstate s' pd dd (POpenUnlock f x) m None)
  | step_open_unlock s pd dd m f x :
      prog_step (mk_cstate s pd dd (POpenUnlock f x) m None)
        (mk_cstate s None dd (POpenFinish f x) m None)
  | step_open_finish s s' pd dd m f x r :
      open_finish f x s = Ret r s' ->
      prog_step (mk_cstate s pd dd (POpenFinish f x) m None) (mk_cstate s' pd dd PIdle m None)
  | step_close_lock s dd m f :
      prog_step (mk_cstate s None dd (PCloseLock f) m None)
        (mk_cstate s (Some Progress) dd (PCloseCheck f) m None)
  | step_close_check s s' pd dd m f b :
      close_check f s = Ret b s' ->
      prog_step (mk_cstate s pd dd (PCloseCheck f) m None)
        (mk_cstate s' pd dd (if b : bool then PCloseLockData f else PCloseUnlock f false) m None)
  | step_close_lock_data s pd m f :
      prog_step (mk_cstate s pd None (PCloseLockData f) m None)
        (mk_cstate s pd (Some Progress) (PClosePush f) m None)
  | step_close_push s s' pd dd m f :
      close_push f s = Ret tt s' ->
      prog_step (mk_cstate s pd dd (PClosePush f) m None)
        (mk_cstate s' pd dd (PCloseUnlockData f) (signalled m) None)
  | step_close_unlock_data s pd dd m f :
      prog_step (mk_cstate s pd dd (PCloseUnlockData f) m None)
        (mk_cstate s pd None (PCloseUnlock f true) m None)
  | step_close_unlock s pd dd m f b :
      prog_step (mk_cstate s pd dd (PCloseUnlock f b) m None)
        (mk_cstate s None dd (PCloseFinish f b) m None)
  | step_close_finish s s' pd dd m f b r :
      close_finish f b s = Ret r s' ->
      prog_step (mk_cstate s pd dd (PCloseFinish f b) m None) (mk_cstate s' pd dd PIdle m None).

(** One step of the data mover. *)
Inductive mover_step (nvme : string) : cstate -> cstate -> Prop :=
  | step_lock s pd p :
      mover_step nvme (mk_cstate s pd None p MLock None) (mk_cstate s pd (Some Mover) p MTest None)
  | step_test s pd dd p :
      mover_step nvme (mk_cstate s pd dd p MTest None)
        (match data_queue s with
         | [] => mk_cstate s pd None p MWait None
         | _ => mk_cstate s pd dd p MDrain None
         end)
  | step_relock s pd p :
      mover_step nvme (mk_cstate s pd None p MWake None) (mk_cstate s pd (Some Mover) p MTest None)
  | step_drain s s' pd dd p l :
      mover_drain [] s = Ret l s' ->
      mover_step nvme (mk_cstate s pd dd p MDrain None) (mk_cstate s' pd dd p (MUnlock l) None)
  | step_unlock s pd dd p l :
      mover_step nvme (mk_cstate s pd dd p (MUnlock l) None) (mk_cstate s pd None p (MCopy l) None)
  | step_copy s s' pd dd p q l r :
      mover_copy nvme q s = Ret r s' ->
      mover_step nvme (mk_cstate s pd dd p (MCopy (q :: l)) None)
        (mk_cstate s' pd dd p (next_copy q l r) None)
  | step_copied_all s pd dd p :
      mover_step nvme (mk_cstate s pd dd p (MCopy []) None) (mk_cstate s pd dd p MLock None)
  | step_lock_path s dd p q f l :
      mover_step nvme (mk_cstate s None dd p (MLockPath q f l) None)
        (mk_cstate s (Some Mover) dd p (MPublish q f l) None)
  | step_publish s s' pd dd p q f l :
      mover_publish q f s = Ret tt s' ->
      mover_step nvme (mk_cstate s pd dd p (MPublish q f l) None)
        (mk_cstate s' pd dd p (MUnlockPath l) None)
  | step_unlock_path s pd dd p l :
      mover_step nvme (mk_cstate s pd dd p (MUnlockPath l) None)
        (mk_cstate s None dd p (MCopy l) None).

(** The progress thread ends the process: a handler's piece fails. *)
Inductive prog_dies : server -> prog_pc -> fault -> server -> Prop :=
  | dies_open s s' h c i w : open_begin h c i s = Dies w s' -> prog_dies s PIdle w s'
  | dies_read s s' h c i w : ftc_rpc_handler h c i s = Dies w s' -> prog_dies s PIdle w s'
  | dies_bulk_cb s s' h r1 r2 w :
      ftc_rpc_handler_bulk_cb h r1 r2 s = Dies w s' -> prog_dies s PIdle w s'
  | dies_seek s s' h c i w : ftc_seek_rpc_handler h c i s = Dies w s' -> prog_dies s PIdle w s'
  | dies_close s s' h c i w : close_begin h c i s = Dies w s' -> prog_dies s PIdle w s'
  | dies_open_finish s s' f x w :
      open_finish f x s = Dies w s' -> prog_dies s (POpenFinish f x) w s'
  | dies_close_finish s s' f b w :
      close_finish f b s = Dies w s' -> prog_dies s (PCloseFinish f b) w s'.

(** The process: either thread, a spurious wake-up, or its end. *)
Inductive step (nvme : string) : cstate -> cstate -> Prop :=
  | step_prog st st' : prog_step st st' -> step nvme st st'
  | step_mover st st' : mover_step nvme st st' -> step nvme st st'
  | step_spurious s pd dd p :
      step nvme (mk_cstate s pd dd p MWait None) (mk_cstate s pd dd p MWake None)
  | step_dies s s' pd dd p m w :
      prog_dies s p w s' ->
      step nvme (mk_cstate s pd dd p m None) (mk_cstate s' pd dd p m (Some w)).

(** A server whose two threads have just been started. *)
Definition cstart (s : server) : cstate := mk_cstate s None None PIdle MLock None.

(** ** The invariant *)

Definition prog_holds_path (p : prog_pc) : bool :=
  match p with
  | POpenLookup _ | POpenUnlock _ _ | PCloseCheck _ | PCloseLockData _ | PClosePush _
  | PCloseUnlockData _ | PCloseUnlock _ _ => true
  | _ => false
  end.
Definition prog_holds_data (p : prog_pc) : bool :=
  match p with PClosePush _ | PCloseUnlockData _ => true | _ => false end.
Definition mover_holds_path (m : mover_pc) : bool :=
  match m with MPublish _ _ _ | MUnlockPath _ => true | _ => false end.
Definition mover_holds_data (m : mover_pc) : bool :=
  match m with MTest | MDrain | MUnlock _ => true | _ => false end.

(** The owner of a lock is the thread whose program point holds it. *)
Definition owner (p m : bool) : option tid :=
  if p then Some Progress else if m then Some Mover else None.

(** The descriptor a close handler has closed. *)
Definition closed_fds (p : prog_pc) : list Z :=
  match p with
  | PCloseLock f | PCloseCheck f | PCloseLockData f | PClosePush f | PCloseUnlockData f
  | PCloseUnlock f _ | PCloseFinish f _ => [ci_fd (cf_in f)]
  | _ => []
  end.

Definition prog_inv (o : os) (p : prog_pc) : Prop :=
  match p with
  | POpenUnlock f x | POpenFinish f x => same_file o x.1.1 (oi_path (of_in f))
  | _ => True
  end.

Definition mover_inv (q : list string) (o : os) (m : mover_pc) : Prop :=
  match m with
  | MWait => q = []
  | MDrain => q <> []
  | MLockPath p f _ | MPublish p f _ => copied p f o
  | _ => True
  end.

Record cinv (o0 : os) (st : cstate) : Prop := {
  ci_path : c_path st = owner (prog_holds_path (c_prog st)) (mover_holds_path (c_mover st));
  ci_data : c_data st = owner (prog_holds_data (c_prog st)) (mover_holds_data (c_mover st));
  ci_path_excl : prog_holds_path (c_prog st) && mover_holds_path (c_mover st) = false;
  ci_data_excl : prog_holds_data (c_prog st) && mover_holds_data (c_mover st) = false;
  ci_srv : c_dead st = None -> inv_from o0 (closed_fds (c_prog st)) (c_srv st);
  ci_prog : c_dead st = None -> prog_inv (srv_os (c_srv st)) (c_prog st);
  ci_mover : c_dead st = None -> mover_inv (data_queue (c_srv st)) (srv_os (c_srv st)) (c_mover st)
}.

(** ** The queue and the files under the handlers' pieces *)

(** A piece that does not touch the queue and only adds files. *)
Definition quiet (q : list string) (o : os) (s : server) : Prop :=
  data_queue s = q /\ os_ext o (srv_os s).

Section Quiet.
Context (q : list string) (o : os).
#[local] Abbreviation Q := (quiet q o).

Lemma quiet_modify f :
  (forall s, data_queue (f s) = data_queue s /\ os_ext (srv_os s) (srv_os (f s))) ->
  preserves Q (modify f).
Proof.
  intros Hf. apply preserves_modify. intros s [H1 H2]. destruct (Hf s) as [E1 E2].
  split; [congruence|by etrans].
Qed.

Lemma quiet_emit e : preserves Q (emit e).
Proof. by apply quiet_modify. Qed.

Lemma quiet_set_bulk m : preserves Q (modify (set_bulk m)).
Proof. by apply quiet_modify. Qed.

Lemma quiet_set_fd_to_path m : preserves Q (modify (set_fd_to_path m)).
Proof. by apply quiet_modify. Qed.

Lemma quiet_set_cache m : preserves Q (modify (set_cache m)).
Proof. by apply quiet_modify. Qed.

Lemma quiet_log i : preserves Q (log i).
Proof. intros s a s' [H1 H2] [t ->]%log_Ret. split; [done|]. etrans; [done|apply ext_set_text]. Qed.

Lemma quiet_sys {A} (f : os -> A * os) : (forall o, os_ext o (f o).2) -> preserves Q (sys f).
Proof. intros Hf s a s' [H1 H2] [= <- <-]. split; [done|]. by etrans; [|apply Hf]. Qed.

Lemma quiet_open p : preserves Q (sys (posix_open p O_RDONLY)).
Proof. apply quiet_sys, ext_open_rdonly. Qed.
Lemma quiet_read fd n : preserves Q (sys (posix_read fd n)).
Proof. apply quiet_sys, ext_read. Qed.
Lemma quiet_lseek fd off wh : preserves Q (sys (posix_lseek fd off wh)).
Proof. apply quiet_sys, ext_lseek. Qed.
Lemma quiet_close fd : preserves Q (sys (posix_close fd)).
Proof. apply quiet_sys, ext_close. Qed.

End Quiet.

#[export] Hint Resolve quiet_emit quiet_set_bulk quiet_set_fd_to_path quiet_set_cache quiet_log
  quiet_open quiet_read quiet_lseek quiet_close : ftc.

Section QuietPieces.
Context (q : list string) (o : os).
#[local] Abbreviation Q := (quiet q o).

Lemma quiet_peer_flag b : preserves Q (peer_flag b).
Proof. unfold peer_flag. walk. Qed.

#[local] Hint Resolve quiet_peer_flag : ftc.

Lemma quiet_open_begin h c i : preserves Q (open_begin h c i).
Proof. unfold open_begin, gettimeofday. walk. Qed.

Lemma quiet_open_finish f x : preserves Q (open_finish f x).
Proof. unfold open_finish, gettimeofday. walk. Qed.

Lemma quiet_start_transfer h c i d : preserves Q (start_transfer h c i d).
Proof. unfold start_transfer. walk. Qed.

#[local] Hint Resolve quiet_start_transfer : ftc.

Lemma quiet_rpc_handler h c i : preserves Q (ftc_rpc_handler h c i).
Proof.
  unfold ftc_rpc_handler, rpc_begin, rpc_stream_read, rpc_positioned_read, gettimeofday. walk.
Qed.

Lemma quiet_bulk_cb h r1 r2 : preserves Q (ftc_rpc_handler_bulk_cb h r1 r2).
Proof. unfold ftc_rpc_handler_bulk_cb, free_rpc_state. walk. Qed.

Lemma quiet_seek_handler h c i : preserves Q (ftc_seek_rpc_handler h c i).
Proof. unfold ftc_seek_rpc_handler. walk. Qed.

Lemma quiet_close_begin h c i : preserves Q (close_begin h c i).
Proof. unfold close_begin, erase_fd, gettimeofday. walk. Qed.

Lemma quiet_fd_to_path_at fd : preserves Q (fd_to_path_at fd).
Proof. unfold fd_to_path_at. walk. Qed.

#[local] Hint Resolve quiet_fd_to_path_at : ftc.

Lemma quiet_close_check f : preserves Q (close_check f).
Proof. unfold close_check. walk. Qed.

Lemma quiet_close_finish f b : preserves Q (close_finish f b).
Proof. unfold close_finish, erase_fd. walk. Qed.

End QuietPieces.

(** ** Every step keeps the invariant *)

Lemma quiet_result {A} (m : M server A) s a s' :
  (forall q o, preserves (quiet q o) m) -> m s = Ret a s' ->
  data_queue s' = data_queue s /\ os_ext (srv_os s) (srv_os s').
Proof. intros H Hm. by apply (H (data_queue s) (srv_os s) s a s'). Qed.

Lemma mover_inv_quiet m q o q' o' :
  q' = q -> os_ext o o' -> mover_inv q o m -> mover_inv q' o' m.
Proof. intros -> He. destruct m; simpl; eauto using copied_ext. Qed.

Lemma prog_inv_ext p o o' : os_ext o o' -> prog_inv o p -> prog_inv o' p.
Proof. intros He. destruct p; simpl; eauto using same_file_ext. Qed.

(** Only the two owner tests of a step change when the locks' status does. *)
Ltac locks :=
  repeat match goal with
  | H : context [mover_holds_path ?m] |- _ => destruct (mover_holds_path m)
  | H : context [mover_holds_data ?m] |- _ => destruct (mover_holds_data m)
  | H : context [prog_holds_path ?p] |- _ => destruct (prog_holds_path p)
  | H : context [prog_holds_data ?p] |- _ => destruct (prog_holds_data p)
  end; done.

Lemma close_push_queue f s s' : close_push f s = Ret tt s' ->
  (exists p, data_queue s' = data_queue s ++ [p]) /\ srv_os s' = srv_os s.
Proof.
  intros H. unfold close_push, fd_to_path_at, emit in H. mred_in H.
  destruct (fd_to_path s !! _); simplify_eq; simpl; eauto.
Qed.

Lemma open_lookup_same f x s s' : open_lookup f s = Ret x s' -> s' = s.
Proof.
  intros H. unfold open_lookup in H. mred_in H. by destruct (path_cache_map s !! _); simplify_eq.
Qed.

Lemma holds_signalled m :
  mover_holds_path (signalled m) = mover_holds_path m /\
  mover_holds_data (signalled m) = mover_holds_data m.
Proof. by destruct m. Qed.

Lemma prog_step_cinv o0 st st' : prog_step st st' -> cinv o0 st -> cinv o0 st'.
Proof.
  intros Hst [Hp Hd Ep Ed Hs Hg Hm]. destruct Hst; simpl in *;
    specialize (Hs eq_refl); specialize (Hg eq_refl); specialize (Hm eq_refl).
  - assert (HI := inv_open_begin _ _ _ _ _ _ _ Hs H).
    destruct (quiet_result _ _ _ _ (fun q o => quiet_open_begin q o _ _ _) H) as [Hq He].
    destruct r; split; simpl in *; try done; intros _; try done; by eapply mover_inv_quiet.
  - assert (HI := inv_rpc_handler _ _ _ _ _ _ _ Hs H).
    destruct (quiet_result _ _ _ _ (fun q o => quiet_rpc_handler q o _ _ _) H) as [Hq He].
    split; simpl in *; try done; intros _; by eapply mover_inv_quiet.
  - assert (HI := inv_bulk_cb _ _ _ _ _ _ _ Hs H).
    destruct (quiet_result _ _ _ _ (fun q o => quiet_bulk_cb q o _ _ _) H) as [Hq He].
    split; simpl in *; try done; intros _; by eapply mover_inv_quiet.
  - assert (HI := inv_seek_handler _ _ _ _ _ _ _ Hs H).
    destruct (quiet_result _ _ _ _ (fun q o => quiet_seek_handler q o _ _ _) H) as [Hq He].
    split; simpl in *; try done; intros _; by eapply mover_inv_quiet.
  - assert (HI := inv_close_begin _ _ _ _ _ _ _ Hs H).
    destruct (quiet_result _ _ _ _ (fun q o => quiet_close_begin q o _ _ _) H) as [Hq He].
    destruct r; split; simpl in *; try done; intros _; try done; by eapply mover_inv_quiet.
  - split; simpl in *; try done; locks.
  - destruct (open_lookup_run _ _ _ _ _ Hs H) as [-> Hx]. by split.
  - split; simpl in *; try done; locks.
  - assert (HI := inv_open_finish _ _ _ _ _ _ Hs Hg H).
    destruct (quiet_result _ _ _ _ (fun q o => quiet_open_finish q o _ _) H) as [Hq He].
    split; simpl in *; try done; intros _; by eapply mover_inv_quiet.
  - split; simpl in *; try done; locks.
  - assert (HI := inv_close_check _ _ _ _ _ Hs H).
    destruct (quiet_result _ _ _ _ (fun q o => quiet_close_check q o _) H) as [Hq He].
    destruct b; split; simpl in *; try done; intros _; by eapply mover_inv_quiet.
  - split; simpl in *; try done; locks.
  - assert (HI := inv_close_push _ _ _ _ _ Hs H).
    destruct (close_push_queue _ _ _ H) as [[p Hq] He]. destruct (holds_signalled m) as [E1 E2].
    split; simpl in *; rewrite ?E1, ?E2; try done; intros _.
    rewrite Hq, He. destruct m; simpl in *; try done.
  - split; simpl in *; try done; locks.
  - split; simpl in *; try done; locks.
  - assert (HI := inv_close_finish _ _ _ _ _ _ Hs H).
    destruct (quiet_result _ _ _ _ (fun q o => quiet_close_finish q o _ _) H) as [Hq He].
    split; simpl in *; try done; intros _; [by eapply inv_weaken|by eapply mover_inv_quiet].
Qed.

Lemma mover_drain_run s : mover_drain [] s = Ret (data_queue s) (set_queue [] s).
Proof. done. Qed.

Lemma inv_set_queue_state o0 K q s : inv_from o0 K s -> inv_from o0 K (set_queue q s).
Proof. intros [[H1 H2 H3] H4 H5]. by split. Qed.

Lemma mover_copy_queue nvme p s r s' :
  mover_copy nvme p s = Ret r s' -> data_queue s' = data_queue s.
Proof.
  intros H. destruct (mover_copy_run nvme p s) as (r1 & o & E & _). rewrite E in H. by simplify_eq.
Qed.

Lemma mover_step_cinv o0 nvme st st' : mover_step nvme st st' -> cinv o0 st -> cinv o0 st'.
Proof.
  intros Hst [Hp Hd Ep Ed Hs Hg Hm]. destruct Hst; simpl in *;
    specialize (Hs eq_refl); specialize (Hg eq_refl); specialize (Hm eq_refl).
  - split; simpl in *; try done; locks.
  - destruct (data_queue s) eqn:Eq; split; simpl in *; rewrite ?Eq; try done; locks.
  - split; simpl in *; try done; locks.
  - rewrite mover_drain_run in H. simplify_eq.
    split; simpl in *; try done; intros _; by apply inv_set_queue_state.
  - split; simpl in *; try done; locks.
  - destruct (inv_mover_copy _ _ _ _ _ _ _ Hs H) as (HI & He & Hr).
    destruct r; split; simpl in *; try done; intros _; by eapply prog_inv_ext.
  - by split.
  - split; simpl in *; try done; locks.
  - destruct (inv_mover_publish _ _ q f s Hs Hm) as [E HI]. rewrite E in H. simplify_eq.
    by split; simpl in *.
  - split; simpl in *; try done; locks.
Qed.

Lemma step_cinv o0 nvme st st' : step nvme st st' -> cinv o0 st -> cinv o0 st'.
Proof.
  intros [] Hc.
  - by eapply prog_step_cinv.
  - by eapply mover_step_cinv.
  - by destruct Hc; split.
  - by destruct Hc; split.
Qed.

Lemma cstart_cinv s : server_inv s -> cinv (srv_os s) (cstart s).
Proof. intros H. split; try done. Qed.

(** The states the server can be in, whatever the clients send, Mercury answers
    and the scheduler chooses. *)
Definition reachable (nvme : string) (s0 : server) (st : cstate) : Prop :=
  rtc (step nvme) (cstart s0) st.

Lemma reachable_cinv nvme s0 st : server_inv s0 -> reachable nvme s0 st -> cinv (srv_os s0) st.
Proof.
  intros H0 Hr. apply cstart_cinv in H0. revert H0. unfold reachable in Hr.
  induction Hr as [|st1 st2 st3 Hs _ IH]; [done|]. intros H. by apply IH, (step_cinv _ _ _ _ Hs).
Qed.

(** ** Progress *)

(** Every piece that cannot fail returns. *)
Lemma open_lookup_total f s : exists x s', open_lookup f s = Ret x s'.
Proof. unfold open_lookup. mred. destruct (path_cache_map s !! _); eauto. Qed.

Lemma close_check_total f s : exists b s', close_check f s = Ret b s'.
Proof. unfold close_check, fd_to_path_at. mred. destruct (fd_to_path s !! _); eauto. Qed.

Lemma close_push_total f s : exists s', close_push f s = Ret tt s'.
Proof. unfold close_push, fd_to_path_at, emit. mred. destruct (fd_to_path s !! _); eauto. Qed.

Lemma mover_copy_total nvme p s : exists r s', mover_copy nvme p s = Ret r s'.
Proof. destruct (mover_copy_run nvme p s) as (r & o & E & _). eauto. Qed.

(** A computation that never waits. *)
Definition no_block {A} (m : M server A) : Prop := forall s s', m s <> Blocked s'.

Lemma no_block_bind {A B} (m : M server A) (k : A -> M server B) :
  no_block m -> (forall a, no_block (k a)) -> no_block (m ≫= k).
Proof.
  intros Hm Hk s s'. unfold mbind, M_bind. destruct (m s) eqn:E; [apply Hk|done|].
  intros [= ->]. by apply (Hm s s').
Qed.

Lemma no_block_log i : no_block (log i).
Proof.
  intros s s'. unfold log, lift_os. destruct (logging_info i "server" (srv_os s)) eqn:E; try done.
  by apply logging_info_no_block in E.
Qed.

Lemma no_block_fun {A} (f : server -> A) (g : server -> server) : no_block (fun s => Ret (f s) (g s)).
Proof. done. Qed.

Lemma no_block_open_finish f x : no_block (open_finish f x).
Proof.
  destruct x as [[redir nv] li]. unfold open_finish, gettimeofday, emit.
  repeat (apply no_block_bind; [solve [apply no_block_log | apply no_block_fun]|intros]).
  apply no_block_fun.
Qed.

Lemma no_block_close_finish f b : no_block (close_finish f b).
Proof.
  unfold close_finish, erase_fd. apply no_block_bind.
  - destruct b; (apply no_block_bind; [apply no_block_log|intros; apply no_block_log]).
  - intros. apply no_block_bind; intros; [|apply no_block_fun].
    apply no_block_bind; intros; apply no_block_fun.
Qed.

(** A piece of the progress thread returns or ends the process. *)
Lemma returns_or_dies {A} (m : M server A) s : no_block m ->
  (exists a s', m s = Ret a s') \/ (exists w s', m s = Dies w s').
Proof. intros Hn. destruct (m s) eqn:E; [eauto..|]. by apply Hn in E. Qed.

(** The thread that holds [path_map_mutex], or that waits for a lock, has a
    step to take, or the thread that holds the lock has. *)
Lemma prog_can_step o0 nvme st : cinv o0 st -> c_dead st = None -> c_prog st <> PIdle ->
  exists st', step nvme st st'.
Proof.
  intros [Hp Hd Ep Ed _ _ _] Hdead Hidle. destruct st as [s pd dd p m d]. simpl in *. subst d pd dd.
  assert (Hmp : mover_holds_path m = true -> exists st', forall p dd, True -> mover_step nvme
    (mk_cstate s (Some Mover) dd p m None) (st' p dd)).
  { destruct m; try done; intros _; eexists (fun p dd => _); intros; econstructor; reflexivity. }
  assert (Hmd : mover_holds_data m = true -> exists st', forall p pd, True -> mover_step nvme
    (mk_cstate s pd (Some Mover) p m None) (st' p pd)).
  { destruct m; try done; intros _; eexists (fun p pd => _); intros; econstructor; reflexivity. }
  destruct p; try done; simpl in *.
  - destruct (mover_holds_path m) eqn:E; simpl.
    + destruct (Hmp eq_refl) as [st' H]. eexists. apply step_mover, H. done.
    + eexists. apply step_prog. constructor.
  - destruct (open_lookup_total f s) as (x & s' & H). eexists. eapply step_prog, step_open_lookup, H.
  - eexists. apply step_prog. constructor.
  - destruct (returns_or_dies _ s (no_block_open_finish f x)) as [(v & s' & H)|(w & s' & H)];
      eexists; [by eapply step_prog, step_open_finish|by eapply step_dies, dies_open_finish].
  - destruct (mover_holds_path m) eqn:E; simpl.
    + destruct (Hmp eq_refl) as [st' H]. eexists. apply step_mover, H. done.
    + eexists. apply step_prog. constructor.
  - destruct (close_check_total f s) as (b & s' & H). eexists. eapply step_prog, step_close_check, H.
  - destruct (mover_holds_data m) eqn:E; simpl.
    + destruct (Hmd eq_refl) as [st' H]. eexists. apply step_mover, H. done.
    + eexists. apply step_prog. constructor.
  - destruct (close_push_total f s) as (s' & H). eexists. eapply step_prog, step_close_push, H.
  - eexists. apply step_prog. constructor.
  - eexists. apply step_prog. constructor.
  - destruct (returns_or_dies _ s (no_block_close_finish f nvme_flag)) as [(v & s' & H)|(w & s' & H)];
      eexists; [by eapply step_prog, step_close_finish|by eapply step_dies, dies_close_finish].
Qed.

(** How many steps the mover needs to catch up, when the handlers rest. *)
Definition lock_cost (q : list string) : nat :=
  match q with [] => 2 | _ => 7 + 4 * length q end.
Definition copy_cost (l q : list string) : nat := 4 * length l + 1 + lock_cost q.
Definition mover_cost (st : cstate) : nat :=
  let q := data_queue (c_srv st) in
  match c_mover st with
  | MWait => 0
  | MLock | MWake => lock_cost q
  | MTest => lock_cost q - 1
  | MDrain => 5 + 4 * length q
  | MUnlock l => 1 + copy_cost l q
  | MCopy l => copy_cost l q
  | MLockPath _ _ l => 3 + copy_cost l q
  | MPublish _ _ l => 2 + copy_cost l q
  | MUnlockPath l => 1 + copy_cost l q
  end.

Lemma mover_step_cost nvme st st' : mover_step nvme st st' -> (mover_cost st' < mover_cost st)%nat.
Proof.
  intros Hst. destruct Hst; unfold mover_cost, copy_cost, lock_cost;
    try (destruct (data_queue s) eqn:E; simpl; rewrite ?E; simpl; lia).
  - rewrite mover_drain_run in H. simplify_eq. simpl. lia.
  - cbn [c_srv c_mover]. rewrite (mover_copy_queue _ _ _ _ _ H). destruct r; simpl; lia.
  - unfold mover_publish in H. mred_in H. simplify_eq. simpl. lia.
Qed.

Lemma mover_steps_cost nvme n st st' :
  nsteps (mover_step nvme) n st st' -> (n + mover_cost st' <= mover_cost st)%nat.
Proof.
  induction 1 as [|n st1 st2 st3 Hs _ IH]; [done|]. apply mover_step_cost in Hs. lia.
Qed.

Lemma mover_step_prog nvme st st' : mover_step nvme st st' ->
  c_prog st' = c_prog st /\ c_dead st' = None /\ step nvme st st'.
Proof.
  intros Hst. split_and!; [| |by apply step_mover]; destruct Hst; try done; simpl;
    by destruct (data_queue s).
Qed.

Lemma mover_steps_reach nvme n st st' : nsteps (mover_step nvme) n st st' -> c_dead st = None ->
  c_prog st' = c_prog st /\ c_dead st' = None /\ rtc (step nvme) st st'.
Proof.
  induction 1 as [st|n st1 st2 st3 Hs _ IH]; [done|]. intros _.
  destruct (mover_step_prog _ _ _ Hs) as (E1 & E2 & E3). destruct (IH E2) as (F1 & F2 & F3).
  split_and!; [congruence|done|]. by eapply rtc_l.
Qed.

(** With the handlers at rest, only a waiting mover has no step. *)
Lemma mover_can_step o0 nvme st : cinv o0 st -> c_dead st = None -> c_prog st = PIdle ->
  c_mover st <> MWait -> exists st', mover_step nvme st st'.
Proof.
  intros [Hp Hd _ _ _ _ _] Hdead Hidle Hw. destruct st as [s pd dd p m d]. simpl in *. subst d p pd dd.
  destruct m as [| | | | |l|[|q l]|? ? ?|? ? ?|?]; try done; try (eexists; econstructor; reflexivity).
  destruct (mover_copy_total nvme q s) as (r & s' & H). eexists. by eapply step_copy.
Qed.

(** Whatever the progress thread does, a mover that does not wait can go on, or
    the progress thread can. *)
Lemma system_can_step o0 nvme st : cinv o0 st -> c_dead st = None ->
  c_prog st <> PIdle \/ c_mover st <> MWait -> exists st', step nvme st st'.
Proof.
  intros Hc Hd Hor. assert (c_prog st = PIdle \/ c_prog st <> PIdle) as [E|E]
    by (destruct (c_prog st); auto).
  - destruct Hor as [H|H]; [done|]. destruct (mover_can_step o0 nvme st Hc Hd E H) as [st' Hs].
    exists st'. by apply step_mover.
  - by eapply prog_can_step.
Qed.

End ServerThreads.
Import ServerThreads ServerProps.ServerExample.

(** ** Properties *)

(** C25: in every state the server can reach, the two threads never hold the same
    lock together, and a lock is taken exactly when the thread that owns it is
    inside its critical section. *)
Theorem threads_mutual_exclusion nvme s0 st :
  server_inv s0 -> reachable nvme s0 st ->
  ~ (prog_holds_path (c_prog st) = true /\ mover_holds_path (c_mover st) = true) /\
  ~ (prog_holds_data (c_prog st) = true /\ mover_holds_data (c_mover st) = true) /\
  (c_path st = None <-> prog_holds_path (c_prog st) = false /\ mover_holds_path (c_mover st) = false) /\
  (c_data st = None <-> prog_holds_data (c_prog st) = false /\ mover_holds_data (c_mover st) = false).
Proof.
  intros H0 Hr. destruct (reachable_cinv _ _ _ H0 Hr) as [Hp Hd Ep Ed _ _ _]. rewrite Hp, Hd.
  destruct (prog_holds_path _), (prog_holds_data _), (mover_holds_path _), (mover_holds_data _);
    naive_solver.
Qed.

(** C13: no wake-up is lost: whenever the data mover waits on its condition, no
    file is queued, so the close handler's signal is never missed. *)
Theorem no_lost_wakeup nvme s0 st :
  server_inv s0 -> reachable nvme s0 st -> c_dead st = None -> c_mover st = MWait ->
  data_queue (c_srv st) = [].
Proof.
  intros H0 Hr Hd Hw. destruct (reachable_cinv _ _ _ H0 Hr) as [_ _ _ _ _ _ Hm].
  specialize (Hm Hd). by rewrite Hw in Hm.
Qed.

(** C12: the two threads never deadlock: as long as the process lives, a handler
    under way or a mover that is not waiting for work means that some thread
    has a step. *)
Theorem threads_deadlock_free nvme s0 st :
  server_inv s0 -> reachable nvme s0 st -> c_dead st = None ->
  c_prog st <> PIdle \/ c_mover st <> MWait -> exists st', step nvme st st'.
Proof. intros H0 Hr. by eapply system_can_step, reachable_cinv. Qed.

(** C26: when no request is being handled the mover empties the queue and waits:
    every run of it is bounded by [mover_cost], and a run that cannot be
    continued ends in the wait with nothing left to copy. *)
Theorem mover_drains nvme s0 st n st' :
  server_inv s0 -> reachable nvme s0 st -> c_dead st = None -> c_prog st = PIdle ->
  nsteps (mover_step nvme) n st st' ->
  (n <= mover_cost st)%nat /\
  ((exists st'', mover_step nvme st' st'') \/
   (c_mover st' = MWait /\ data_queue (c_srv st') = [])).
Proof.
  intros H0 Hr Hd Hi Hn. split; [apply mover_steps_cost in Hn; lia|].
  destruct (mover_steps_reach _ _ _ _ Hn Hd) as (E1 & E2 & E3).
  assert (Hr' : reachable nvme s0 st') by (unfold reachable in *; by etrans).
  pose proof (reachable_cinv _ _ _ H0 Hr') as Hc.
  destruct (c_mover st') eqn:Em; try (left; eapply mover_can_step; (done || congruence)).
  right. split; [done|]. destruct Hc as [_ _ _ _ _ _ Hm]. specialize (Hm E2). by rewrite Em in Hm.
Qed.

(** C11: the cache is coherent under every interleaving: while the process lives,
    every entry of [path_cache_map] leads to a copy with the bytes of its file,
    even between the steps of a handler, and a file that existed at the start
    still has its bytes. *)
Theorem cache_coherence nvme s0 st :
  server_inv s0 -> reachable nvme s0 st -> c_dead st = None ->
  (forall p f, path_cache_map (c_srv st) !! p = Some f ->
     exists d, file_at (srv_os (c_srv st)) p = Some d /\ file_at (srv_os (c_srv st)) f = Some d) /\
  (forall p d, file_at (srv_os s0) p = Some d -> file_at (srv_os (c_srv st)) p = Some d).
Proof.
  intros H0 Hr Hd. destruct (reachable_cinv _ _ _ H0 Hr) as [_ _ _ _ Hs _ _].
  destruct (Hs Hd) as [[_ Hc _] He _]. split; [exact Hc|]. intros p d. by apply ext_file_at.
Qed.

(** C6: caching is transparent: at any moment the server can reach, a positioned
    read of a descriptor that was opened for [p] delivers the bytes [p] had when
    the server started, whether the descriptor reads the original or a copy. *)
Theorem cached_reads_transparent nvme s0 st h c i p d f :
  server_inv s0 -> reachable nvme s0 st -> c_dead st = None ->
  call_ok c -> addr_ok (c_srv st) -> srv_bulk (c_srv st) !! h = None ->
  0 <= ri_input_val i < 2 ^ 31 -> 0 <= ri_offset i ->
  file_at (srv_os s0) p = Some d ->
  fd_to_path (c_srv st) !! ri_accessfd i = Some p ->
  os_fds (srv_os (c_srv st)) !! ri_accessfd i = Some f -> of_node f ∉ os_bad (srv_os (c_srv st)) ->
  exists s', serve h c (RRead i) (c_srv st) = Ret 0 s' /\
    pushed h (new_events (c_srv st) s') =
      zslice d (ri_offset i) (Z.min (ri_input_val i) MAX_RW_COUNT).
Proof.
  intros H0 Hr Hdead Hc Ha Hb Hv Ho Hp Hfd Hf Hbad.
  destruct (reachable_cinv _ _ _ H0 Hr) as [_ _ _ _ Hs _ _].
  destruct (Hs Hdead) as [[_ _ Hcoh] He _]. destruct (Hcoh _ _ _ Hfd Hf) as [Hn Hrd].
  destruct (pread_delivers h c i (c_srv st) d) as (s' & H1 & H2 & _); try done; [|by exists s'].
  unfold readable. rewrite Hf. cbn [mbind option_bind]. rewrite Hrd, bool_decide_true by done.
  cbn [andb]. rewrite Hn. by eapply ext_file_at.
Qed.

(** ** Witnesses *)

Lemma srv0_inv : server_inv srv0.
Proof.
  split; [split|..].
  - intros p n H. change (({["/pfs/f"%string := 0%nat]} : gmap string nat) !! p = Some n) in H.
    apply lookup_singleton_Some in H as [_ <-]. vm_compute. by eexists.
  - intros fd f H. done.
  - intros fd f H. done.
  - intros p f H. done.
  - intros fd p f H. done.
Qed.

Lemma srv1_inv : server_inv srv1.
Proof.
  assert (H : inv_from (srv_os srv0) [] srv0) by (split; [apply srv0_inv|done|constructor]).
  apply (inv_opened _ "/pfs/f" "/pfs/f") in H as [[H1 H2 H3] _ _]; [by split|by left].
Qed.

(** An open request that waits for [path_map_mutex], with a mover that has just
    tested the queue. *)
Definition st_open : cstate :=
  match open_begin 0 call0 (mk_open_in "/pfs/f" 0 5) srv0 with
  | Ret r s => mk_cstate s None None (next_open r) MWait None
  | _ => cstart srv0
  end.

Lemma st_open_reachable : reachable "/nvme" srv0 st_open.
Proof.
  eapply rtc_l; [apply step_mover, step_lock|].
  eapply rtc_l; [apply step_mover, step_test|].
  eapply rtc_l; [|apply rtc_refl]. apply step_prog. unfold st_open.
  destruct (open_begin 0 call0 (mk_open_in "/pfs/f" 0 5) srv0) eqn:E.
  - eapply step_open. exact E.
  - vm_compute in E. discriminate E.
  - vm_compute in E. discriminate E.
Qed.

Lemma threads_mutual_exclusion_witness :
  ~ (prog_holds_path (c_prog st_open) = true /\ mover_holds_path (c_mover st_open) = true) /\
  ~ (prog_holds_data (c_prog st_open) = true /\ mover_holds_data (c_mover st_open) = true) /\
  (c_path st_open = None <->
    prog_holds_path (c_prog st_open) = false /\ mover_holds_path (c_mover st_open) = false) /\
  (c_data st_open = None <->
    prog_holds_data (c_prog st_open) = false /\ mover_holds_data (c_mover st_open) = false).
Proof. exact (threads_mutual_exclusion "/nvme" srv0 st_open srv0_inv st_open_reachable). Defined.

Lemma no_lost_wakeup_witness : data_queue (c_srv st_open) = [].
Proof.
  apply (no_lost_wakeup "/nvme" srv0 st_open srv0_inv st_open_reachable); vm_compute; reflexivity.
Defined.

Lemma threads_deadlock_free_witness : exists st', step "/nvme" st_open st'.
Proof.
  apply (threads_deadlock_free "/nvme" srv0 st_open srv0_inv st_open_reachable).
  - vm_compute. reflexivity.
  - left. vm_compute. discriminate.
Defined.

(** A start with one file queued. *)
Definition srv_queued : server := set_queue ["/pfs/f"%string] srv0.

Lemma srv_queued_inv : server_inv srv_queued.
Proof. destruct srv0_inv. by split. Qed.

Lemma mover_drains_witness :
  (2 <= mover_cost (cstart srv_queued))%nat /\
  ((exists st'', mover_step "/nvme"
      (mk_cstate srv_queued None (Some Mover) PIdle MDrain None) st'') \/
   (c_mover (mk_cstate srv_queued None (Some Mover) PIdle MDrain None) = MWait /\
    data_queue (c_srv (mk_cstate srv_queued None (Some Mover) PIdle MDrain None)) = [])).
Proof.
  apply (mover_drains "/nvme" srv_queued (cstart srv_queued)).
  - exact srv_queued_inv.
  - apply rtc_refl.
  - reflexivity.
  - reflexivity.
  - eapply nsteps_l; [apply step_lock|]. eapply nsteps_l; [apply step_test|]. apply nsteps_O.
Defined.

Lemma cache_coherence_witness :
  (forall p f, path_cache_map (c_srv st_open) !! p = Some f ->
     exists d, file_at (srv_os (c_srv st_open)) p = Some d /\
          file_at (srv_os (c_srv st_open)) f = Some d) /\
  (forall p d, file_at (srv_os srv0) p = Some d -> file_at (srv_os (c_srv st_open)) p = Some d).
Proof.
  apply (cache_coherence "/nvme" srv0 st_open srv0_inv st_open_reachable). vm_compute. reflexivity.
Defined.

Lemma cached_reads_transparent_witness :
  exists s', serve 3 call0 (RRead (mk_rpc_in 2 0 5 1 0)) srv1 = Ret 0 s' /\
    pushed 3 (new_events srv1 s') = zslice data 1 (Z.min 2 MAX_RW_COUNT).
Proof.
  apply (cached_reads_transparent "/nvme" srv1 (cstart srv1) 3 call0 (mk_rpc_in 2 0 5 1 0) "/pfs/f"
    data (OFile 0 0 true false false)).
  - exact srv1_inv.
  - apply rtc_refl.
  - reflexivity.
  - exact call0_ok.
  - exact srv1_addr.
  - vm_compute. reflexivity.
  - vm_compute. split; [discriminate|reflexivity].
  - vm_compute. discriminate.
  - vm_compute. reflexivity.
  - vm_compute. reflexivity.
  - vm_compute. reflexivity.
  - apply not_elem_of_empty.
Defined.
