(* ===== verification/Client.v ===== *)
(** * The client library

    src/src/ftc_client.cpp and src/src/ftc_comm_client.cpp: the tables of the
    intercepted descriptors, the RPCs a client sends, the callbacks Mercury's
    progress thread runs when an answer arrives, and the functions that wait for
    them with a timeout.

    One application thread is modelled.  What happens during a wait is a list
    of [wake]s: the server may write to the registered buffer, the callback may
    run, and [pthread_cond_timedwait] may report a timeout.  A callback finds
    the locals of the caller through pointers; they are the frames [cl_frames],
    and a callback that runs after its caller returned dereferences dangling
    pointers. *)

From S2P Require Import Prelude CString HexDump Address Posix LogInfo Server ServerSpec.
Import Address Posix LogInfo.
Import ServerSpec(rpc, ROpen, RRead, RSeek, RClose).

Module Client.

(** ** Data *)

(** The locals a callback writes: [done], [bytes_read] and the user's buffer. *)
Record frame : Type := mk_frame { fr_done : bool; fr_bytes : Z; fr_buf : list byte }.

(** The heap block passed to the callback: [ftc_open_state_t] or
    [ftc_rpc_state_t_client]. *)
Record request : Type := mk_request { rq_local_fd : Z; rq_filepath : cbuf; rq_svr_hash : Z }.

(** One answer: [info->ret], [HG_Get_output] and the decoded value, the peer's
    address if [HG_Get_info] gives one, and the results of the clean-up calls. *)
Record reply : Type := mk_reply {
  rp_ret : Z; rp_get : Z; rp_out : Z; rp_peer : option cbuf;
  rp_free : Z; rp_bulk_free : Z; rp_destroy : Z
}.

(** What happens until [pthread_cond_timedwait] returns. *)
Record wake : Type := mk_wake {
  wk_push : option (list byte); wk_reply : option reply; wk_timedout : bool
}.

(** What Mercury answers while one RPC is sent, and the wait that follows. *)
Record cl_env : Type := mk_env {
  ce_create : Z;                (* HG_Create *)
  ce_info : bool;               (* HG_Get_info is not null *)
  ce_buffer : bool;             (* the user's buffer is not null *)
  ce_bulk_create : Z;           (* HG_Bulk_create *)
  ce_server_addr : cbuf;        (* HG_Addr_to_string *)
  ce_forward : Z;               (* HG_Forward *)
  ce_addr_free : Z;             (* HG_Addr_free *)
  ce_wakes : list wake
}.

(** What Mercury answers to [ftc_get_addr]: the text left in [addr_buffer] and
    whether the address can be looked up. *)
Record self_env : Type := mk_self { se_addr_buffer : cbuf; se_lookup : bool }.

Inductive cl_event : Type := CForward (host : Z) (r : rpc).

Record client : Type := mk_client {
  cl_os : os;
  fd_map : gmap Z string;
  fd_redir_map : gmap Z Z;
  timeout_counters : list Z;
  address_cache : gmap Z string;
  g_ftc_server_count : Z;
  ftc_data_dir : option string;
  g_disable_redirect : bool;
  tl_disable_redirect : bool;
  g_ftc_initialized : bool;
  init_locked : bool;           (* init_mutex *)
  g_mercury_init : bool;
  my_address : bool;            (* not HG_ADDR_NULL *)
  client_address : cbuf;
  cl_client_rank : Z;
  seek_done : Z;                (* the global [done], a byte *)
  read_ret : Z;
  cl_frames : gmap nat frame;
  cl_requests : gmap nat request;
  cl_next : nat;
  cl_trace : list cl_event
}.

Definition upd_os o c := mk_client o (fd_map c) (fd_redir_map c) (timeout_counters c) (address_cache c)
  (g_ftc_server_count c) (ftc_data_dir c) (g_disable_redirect c) (tl_disable_redirect c)
  (g_ftc_initialized c) (init_locked c) (g_mercury_init c) (my_address c) (client_address c)
  (cl_client_rank c) (seek_done c) (read_ret c) (cl_frames c) (cl_requests c) (cl_next c) (cl_trace c).
Definition upd_fd_map m c := mk_client (cl_os c) m (fd_redir_map c) (timeout_counters c) (address_cache c)
  (g_ftc_server_count c) (ftc_data_dir c) (g_disable_redirect c) (tl_disable_redirect c)
  (g_ftc_initialized c) (init_locked c) (g_mercury_init c) (my_address c) (client_address c)
  (cl_client_rank c) (seek_done c) (read_ret c) (cl_frames c) (cl_requests c) (cl_next c) (cl_trace c).
Definition upd_redir m c := mk_client (cl_os c) (fd_map c) m (timeout_counters c) (address_cache c)
  (g_ftc_server_count c) (ftc_data_dir c) (g_disable_redirect c) (tl_disable_redirect c)
  (g_ftc_initialized c) (init_locked c) (g_mercury_init c) (my_address c) (client_address c)
  (cl_client_rank c) (seek_done c) (read_ret c) (cl_frames c) (cl_requests c) (cl_next c) (cl_trace c).
Definition upd_counters l c := mk_client (cl_os c) (fd_map c) (fd_redir_map c) l (address_cache c)
  (g_ftc_server_count c) (ftc_data_dir c) (g_disable_redirect c) (tl_disable_redirect c)
  (g_ftc_initialized c) (init_locked c) (g_mercury_init c) (my_address c) (client_address c)
  (cl_client_rank c) (seek_done c) (read_ret c) (cl_frames c) (cl_requests c) (cl_next c) (cl_trace c).
Definition upd_cache m c := mk_client (cl_os c) (fd_map c) (fd_redir_map c) (timeout_counters c) m
  (g_ftc_server_count c) (ftc_data_dir c) (g_disable_redirect c) (tl_disable_redirect c)
  (g_ftc_initialized c) (init_locked c) (g_mercury_init c) (my_address c) (client_address c)
  (cl_client_rank c) (seek_done c) (read_ret c) (cl_frames c) (cl_requests c) (cl_next c) (cl_trace c).
Definition upd_config n d c := mk_client (cl_os c) (fd_map c) (fd_redir_map c) (timeout_counters c)
  (address_cache c) n d (g_disable_redirect c) (tl_disable_redirect c)
  (g_ftc_initialized c) (init_locked c) (g_mercury_init c) (my_address c) (client_address c)
  (cl_client_rank c) (seek_done c) (read_ret c) (cl_frames c) (cl_requests c) (cl_next c) (cl_trace c).
Definition upd_flags dis ini lck mer c := mk_client (cl_os c) (fd_map c) (fd_redir_map c) (timeout_counters c)
  (address_cache c) (g_ftc_server_count c) (ftc_data_dir c) dis (tl_disable_redirect c) ini lck mer
  (my_address c) (client_address c)
  (cl_client_rank c) (seek_done c) (read_ret c) (cl_frames c) (cl_requests c) (cl_next c) (cl_trace c).
Definition upd_self a b r c := mk_client (cl_os c) (fd_map c) (fd_redir_map c) (timeout_counters c)
  (address_cache c) (g_ftc_server_count c) (ftc_data_dir c) (g_disable_redirect c) (tl_disable_redirect c)
  (g_ftc_initialized c) (init_locked c) (g_mercury_init c) a b r
  (seek_done c) (read_ret c) (cl_frames c) (cl_requests c) (cl_next c) (cl_trace c).
Definition upd_seek d r c := mk_client (cl_os c) (fd_map c) (fd_redir_map c) (timeout_counters c)
  (address_cache c) (g_ftc_server_count c) (ftc_data_dir c) (g_disable_redirect c) (tl_disable_redirect c)
  (g_ftc_initialized c) (init_locked c) (g_mercury_init c) (my_address c) (client_address c)
  (cl_client_rank c) d r (cl_frames c) (cl_requests c) (cl_next c) (cl_trace c).
Definition upd_frames fs rs n c := mk_client (cl_os c) (fd_map c) (fd_redir_map c) (timeout_counters c)
  (address_cache c) (g_ftc_server_count c) (ftc_data_dir c) (g_disable_redirect c) (tl_disable_redirect c)
  (g_ftc_initialized c) (init_locked c) (g_mercury_init c) (my_address c) (client_address c)
  (cl_client_rank c) (seek_done c) (read_ret c) fs rs n (cl_trace c).
Definition upd_trace t c := mk_client (cl_os c) (fd_map c) (fd_redir_map c) (timeout_counters c)
  (address_cache c) (g_ftc_server_count c) (ftc_data_dir c) (g_disable_redirect c) (tl_disable_redirect c)
  (g_ftc_initialized c) (init_locked c) (g_mercury_init c) (my_address c) (client_address c)
  (cl_client_rank c) (seek_done c) (read_ret c) (cl_frames c) (cl_requests c) (cl_next c) t.

(** ** Primitive computations *)

Definition C : Type -> Type := M client.

Definition on_os {A} (m : M os A) : C A := fun c =>
  match m (cl_os c) with
  | Ret a o => Ret a (upd_os o c)
  | Dies w o => Dies w (upd_os o c)
  | Blocked o => Blocked (upd_os o c)
  end.
Definition sys {A} (f : os -> A * os) : C A := on_os (fun o => Ret (f o).1 (f o).2).
Definition log (i : log_info_t) : C unit := on_os (logging_info i "client").
Definition forward (host : Z) (r : rpc) : C unit :=
  modify (fun c => upd_trace (cl_trace c ++ [CForward host r]) c).

Definition TIMEOUT_LIMIT : Z := 3.
Definition HG_TRUE : Z := 1.
Definition HG_FALSE : Z := 0.

(** [timeout_counters[host]]: outside the vector it is undefined. *)
Definition counter (host : Z) : C Z :=
  let* l := gets timeout_counters in
  if host <? 0 then die UndefinedBehaviour else defined (l !! Z.to_nat host).
Definition inc_counter (host : Z) : C unit :=
  let* n := counter host in
  if n =? 2 ^ 31 - 1 then die UndefinedBehaviour
  else modify (fun c => upd_counters (<[Z.to_nat host := n + 1]> (timeout_counters c)) c).

(** [timeout_counters.resize(num_nodes, 0)]: an [int] that is negative becomes
    a size no vector can have, and [std::length_error] is not caught. *)
Definition initialize_timeout_counters (num_nodes : Z) : C unit :=
  if num_nodes <? 0 then die Uncaught
  else modify (fun c => upd_counters (resize (Z.to_nat num_nodes) 0 (timeout_counters c)) c).

(** [std::map::operator[]] of [fd_map] and [fd_redir_map]. *)
Definition fd_map_at (fd : Z) : C string :=
  let* m := gets fd_map in
  match m !! fd with
  | Some p => mret p
  | None => modify (upd_fd_map (<[fd := ""%string]> m));; mret ""%string
  end.
Definition fd_redir_at (fd : Z) : C Z :=
  let* m := gets fd_redir_map in
  match m !! fd with
  | Some r => mret r
  | None => modify (upd_redir (<[fd := 0]> m));; mret 0
  end.

(** The locals of a call: a fresh frame, and its end. *)
Definition push_frame (buf : list byte) : C nat :=
  let* id := gets cl_next in
  modify (fun c => upd_frames (<[id := mk_frame false (-1) buf]> (cl_frames c)) (cl_requests c) (S id) c);;
  mret id.
Definition pop_frame (id : nat) : C unit :=
  modify (fun c => upd_frames (delete id (cl_frames c)) (cl_requests c) (cl_next c) c).
Definition frame_of (id : nat) : C frame :=
  let* fs := gets cl_frames in defined (fs !! id).
Definition put_frame (id : nat) (f : frame) : C unit :=
  modify (fun c => upd_frames (<[id := f]> (cl_frames c)) (cl_requests c) (cl_next c) c).
Definition put_request (id : nat) (r : request) : C unit :=
  modify (fun c => upd_frames (cl_frames c) (<[id := r]> (cl_requests c)) (cl_next c) c).
Definition request_of (id : nat) : C request :=
  let* rs := gets cl_requests in defined (rs !! id).
Definition free_request (id : nat) : C unit :=
  modify (fun c => upd_frames (cl_frames c) (delete id (cl_requests c)) (cl_next c) c).

(** A write through a pointer into the frame of a call. *)
Definition write_frame (id : nat) (f : frame -> frame) : C unit :=
  let* fr := frame_of id in put_frame id (f fr).
Definition set_bytes (n : Z) (f : frame) : frame := mk_frame (fr_done f) n (fr_buf f).
Definition set_done (f : frame) : frame := mk_frame true (fr_bytes f) (fr_buf f).

(** The server's data arrives at the front of the user's buffer. *)
Definition write_front (d buf : list byte) : list byte := d ++ drop (length d) buf.
Definition set_buf (d : list byte) (f : frame) : frame :=
  mk_frame (fr_done f) (fr_bytes f) (write_front d (fr_buf f)).

(** ** Logging *)

(** The comparison of the peer's node with ours. *)
Definition same_node (addr : cbuf) : C Z :=
  let* a := defined (cstr addr) in
  let server_ip := extract_ip_portion a (uninit 128) 128 in
  let* ca := gets client_address in
  let* s1 := defined (cstr server_ip) in
  let* s2 := defined (cstr ca) in
  mret (if decide (s1 = s2) then 1 else 0).

(** The fields every record of the client has; [flag] is left out when the
    peer is unknown. *)
Definition client_log (path : cbuf) (req ex : string) (flag : option Z) (rank host epoch : Z)
    (now : Z * Z) : log_info_t :=
  mk_log path (fill_unterminated (uninit 256) (of_string req)) flag (Some rank) (Some (i32 host))
    (fill_unterminated (uninit 256) (of_string ex)) (Some epoch) (Some (-1)) (Some now).

Definition log_request (path : cbuf) (req : string) (host epoch : Z) (e : cl_env) : C unit :=
  let* flag := same_node (ce_server_addr e) in
  let* rank := gets cl_client_rank in
  let* now := gets (fun c => os_now (cl_os c)) in
  log (client_log path req "CRequest" (Some flag) rank host epoch now).

Definition log_answer (path : cbuf) (req : string) (host epoch : Z) (peer : option cbuf) : C unit :=
  let* flag := (match peer with
                | Some addr => let* z := same_node addr in mret (Some z)
                | None => mret None
                end : C (option Z)) in
  let* rank := gets cl_client_rank in
  let* now := gets (fun c => os_now (cl_os c)) in
  log (client_log path req "CReceive" flag rank host epoch now).

(** ** Callbacks *)

Definition ftc_open_cb (id : nat) (r : reply) : C unit :=
  let* st := request_of id in
  assertM (rp_ret r =? 0);;
  let* out := defined (if rp_get r =? 0 then Some (rp_out r) else None) in
  modify (fun c => upd_redir (<[rq_local_fd st := out]> (fd_redir_map c)) c);;
  let* path := defined (cstr (rq_filepath st)) in
  log_answer (fill_unterminated (uninit 256) path) "open" (rq_svr_hash st) (rq_local_fd st) (rp_peer r);;
  write_frame id set_done;;
  free_request id.

Definition ftc_read_cb (id : nat) (r : reply) : C unit :=
  let* st := request_of id in
  assertM (rp_ret r =? 0);;
  (if rp_get r =? 0 then
     write_frame id (set_bytes (rp_out r));;
     assertM (rp_free r =? 0)
   else mret tt);;
  log_answer (fill_fd (uninit 256) (rq_local_fd st)) "read" (rq_svr_hash st) (-1) (rp_peer r);;
  assertM (rp_bulk_free r =? 0);;
  assertM (rp_destroy r =? 0);;
  write_frame id set_done;;
  free_request id.

(** [done++] on a byte. *)
Definition ftc_seek_cb (r : reply) : C unit :=
  let* out := defined (if rp_get r =? 0 then Some (rp_out r) else None) in
  modify (fun c => upd_seek ((seek_done c + 1) mod 256) out c).

(** ** Waiting *)

(** What one wait observes before it returns. *)
Definition deliver (cb : nat -> reply -> C unit) (id : nat) (w : wake) : C unit :=
  (match wk_push w with Some d => write_frame id (set_buf d) | None => mret tt end);;
  match wk_reply w with Some r => cb id r | None => mret tt end.

(** The loop [while (done is not HG_TRUE) pthread_cond_timedwait(...)]: true when
    the deadline passed, which adds one to the counter of the host. *)
Fixpoint wait_loop (cb : nat -> reply -> C unit) (host : Z) (id : nat) (ws : list wake) : C bool :=
  let* f := frame_of id in
  if fr_done f then mret false
  else
    match ws with
    | [] => block
    | w :: ws' =>
        deliver cb id w;;
        if wk_timedout w then inc_counter host;; mret true
        else wait_loop cb host id ws'
    end.

Definition ftc_client_block (host : Z) (id : nat) (ws : list wake) : C unit :=
  let* t := wait_loop ftc_open_cb host id ws in mret tt.

Definition ftc_read_block (host : Z) (id : nat) (ws : list wake) : C Z :=
  let* t := wait_loop ftc_read_cb host id ws in
  if t : bool then mret (-1)
  else let* f := frame_of id in mret (fr_bytes f).

(** No deadline: it waits until the answer comes. *)
Fixpoint ftc_seek_block (ws : list wake) : C Z :=
  let* d := gets seek_done in
  if d =? HG_TRUE then gets read_ret
  else
    match ws with
    | [] => block
    | w :: ws' =>
        (match wk_reply w with Some r => ftc_seek_cb r | None => mret tt end);;
        ftc_seek_block ws'
    end.

(** ** Sending *)

(** The address of the server of a rank; a variable that was never assigned
    must not be used.  The stream of the registry, if it was opened, keeps its
    descriptor for good. *)
Definition leave_stream (opened : bool) (o : os) : os :=
  if opened then set_fds (take_fd (os_fds o)) o else o.
Definition lookup_addr (rank : Z) : C (option string) :=
  let* o := gets cl_os in
  let* m := gets address_cache in
  let file := os_text o !! Server.ports_cfg (getenv o "MY_JOBID") in
  let '(r, m', opened) := ftc_client_comm_lookup_addr file rank m in
  modify (fun c => upd_cache m' (upd_os (leave_stream opened o) c));;
  match r with
  | LAddr a => mret (Some a)
  | LNull => mret None
  | LUninit | LOverflow => die UndefinedBehaviour
  end.

(** Both end the process when Mercury reports an error. *)
Definition ftc_comm_create_handle (e : cl_env) : C unit := assertM (ce_create e =? 0).
Definition ftc_comm_free_addr (e : cl_env) : C unit := assertM (ce_addr_free e =? 0).

Definition ftc_client_comm_gen_open_rpc (svr_hash : Z) (path : string) (fd : Z) (id : nat)
    (e : cl_env) : C unit :=
  let* svr_addr := lookup_addr svr_hash in
  ftc_comm_create_handle e;;
  let* rank := gets cl_client_rank in
  put_request id (mk_request fd (fill (uninit 256) (of_string path)) svr_hash);;
  log_request (fill_unterminated (uninit 256) (of_string path)) "open" svr_hash fd e;;
  forward svr_hash (ROpen (Server.mk_open_in path rank fd));;
  assertM (ce_forward e =? 0);;
  ftc_comm_free_addr e.

Definition ftc_client_comm_gen_read_rpc (svr_hash localfd count offset : Z) (id : nat) (e : cl_env)
    : C unit :=
  let* svr_addr := lookup_addr svr_hash in
  assertM (ce_buffer e);;
  ftc_comm_create_handle e;;
  assertM (ce_info e);;
  assertM (ce_bulk_create e =? 0);;
  let* accessfd := fd_redir_at localfd in
  let* rank := gets cl_client_rank in
  put_request id (mk_request localfd (uninit 256) svr_hash);;
  log_request (fill_fd (uninit 256) localfd) "read" svr_hash (-1) e;;
  forward svr_hash (RRead (Server.mk_rpc_in (i32 count) accessfd localfd offset rank));;
  assertM (ce_forward e =? 0);;
  ftc_comm_free_addr e.

Definition ftc_client_comm_gen_seek_rpc (svr_hash fd offset whence : Z) (e : cl_env) : C unit :=
  modify (upd_seek HG_FALSE (-1));;
  let* svr_addr := lookup_addr svr_hash in
  ftc_comm_create_handle e;;
  let* rfd := fd_redir_at fd in
  forward svr_hash (RSeek (Server.mk_seek_in rfd offset whence));;
  assertM (ce_forward e =? 0);;
  ftc_comm_free_addr e.

Definition ftc_client_comm_gen_close_rpc (svr_hash fd : Z) (e : cl_env) : C unit :=
  let* svr_addr := lookup_addr svr_hash in
  ftc_comm_create_handle e;;
  let* rfd := fd_redir_at fd in
  let* rank := gets cl_client_rank in
  log_request (fill_fd (uninit 256) fd) "close" svr_hash (-1) e;;
  forward svr_hash (RClose (Server.mk_close_in rfd rank));;
  assertM (ce_forward e =? 0);;
  modify (fun c => upd_redir (delete fd (fd_redir_map c)) c);;
  ftc_comm_free_addr e.

(** ** Start-up *)

(** [ftc_get_addr]: [addr_buffer] is read as a string whatever Mercury did. *)
Definition ftc_get_addr (se : self_env) : C unit :=
  let* known := gets my_address in
  if known : bool then mret tt
  else
    let* addr := defined (cstr (se_addr_buffer se)) in
    let* old := gets client_address in
    let* rank_str := gets (fun c => getenv (cl_os c) "HOROVOD_RANK") in
    let rank := match rank_str with Some r => atoi (of_string r) | None => -1 end in
    modify (upd_self (se_lookup se) (extract_ip_portion addr old 128) rank).

(** The constructor of the library, but for the start of its log
    ([Startup.client_constructor]).  Without a server count it returns with
    [init_mutex] locked. *)
Definition ftc_client_init (se : self_env) : C unit :=
  let* locked := gets init_locked in
  if locked : bool then block
  else
  let* initialized := gets g_ftc_initialized in
  if initialized : bool then mret tt
  else
  let* o := gets cl_os in
  let* dis := gets g_disable_redirect in
  let* mer := gets g_mercury_init in
  match getenv o "FT_Cache_SERVER_COUNT" with
  | None => modify (upd_flags dis false true mer)
  | Some n =>
      modify (upd_config (u32 (atoi (of_string n))) (getenv o "FT_Cache_DATA_DIR"));;
      let* count := gets g_ftc_server_count in
      initialize_timeout_counters (i32 count);;
      modify (upd_flags dis true true mer);;
      ftc_get_addr se;;
      modify (upd_flags false true false mer)
  end.

(** The first tracked open starts Mercury.  The local [client_rank] names the
    log file; a null [HOROVOD_RANK] is undefined for [atoi]. *)
Definition start_mercury (se : self_env) : C unit :=
  let* started := gets g_mercury_init in
  if started : bool then mret tt
  else
    let* dis := gets g_disable_redirect in
    let* ini := gets g_ftc_initialized in
    let* lck := gets init_locked in
    modify (upd_flags dis ini lck true);;
    let* count := gets g_ftc_server_count in
    initialize_timeout_counters (i32 count);;
    let* rank_str := gets (fun c => getenv (cl_os c) "HOROVOD_RANK") in
    let* r := defined rank_str in
    on_os (initialize_log (atoi (of_string r)) "client");;
    ftc_get_addr se.

(** ** The API the wrappers call *)

Section Api.
(** [std::hash<std::string>], a [size_t]. *)
Context (hash : string -> Z).

(** [std::hash<std::string>{}(fd_map[fd]) % g_ftc_server_count], as an [int]. *)
Definition host_of (fd : Z) : C Z :=
  let* p := fd_map_at fd in
  let* count := gets g_ftc_server_count in
  if count =? 0 then die UndefinedBehaviour else mret (i32 (hash p mod count)).

(** Has the host reached the limit? *)
Definition skip_host (host : Z) : C bool :=
  let* n := counter host in mret (TIMEOUT_LIMIT <=? n).

Definition ftc_file_tracked (fd : Z) : C bool :=
  gets (fun c => bool_decide (is_Some (fd_map c !! fd))).

Definition ftc_get_path (fd : Z) : C (option string) := gets (fun c => fd_map c !! fd).

(** Should an open of [path] be tracked, and under which name?  An exception of
    [std::filesystem] means no. *)
Definition track_decision (c : client) (path : string) : option string :=
  canon ← fs_canonical (cl_os c) path;
  let ppath := fs_parent_path canon in
  match ftc_data_dir c with
  | Some dir =>
      test ← fs_canonical (cl_os c) dir;
      match find_sub (of_string test) (of_string ppath) with
      | Some _ => Some canon
      | None => None
      end
  | None => if String.eqb ppath (os_cwd (cl_os c)) then Some canon else None
  end.

Definition ftc_track_file (path : string) (flags fd : Z) (se : self_env) (e : cl_env) : C bool :=
  match find_sub (of_string ".ports.cfg.") (of_string path) with
  | Some _ => mret false
  | None =>
  if Z.land flags O_ACCMODE =? O_WRONLY then mret false
  else if has_flag flags O_APPEND then mret false
  else
  let* d := gets (fun c => track_decision c path) in
  match d with
  | None => mret false
  | Some canon =>
      modify (fun c => upd_fd_map (<[fd := canon]> (fd_map c)) c);;
      start_mercury se;;
      let* host := host_of fd in
      let* skip := skip_host host in
      if skip : bool then mret false
      else
        let* id := push_frame [] in
        let* p := fd_map_at fd in
        ftc_client_comm_gen_open_rpc host p fd id e;;
        ftc_client_block host id (ce_wakes e);;
        pop_frame id;;
        mret true
  end
  end.

(** [ftc_remote_read] (offset -1) and [ftc_remote_pread]: the result and the
    user's buffer. *)
Definition remote_transfer (fd count offset : Z) (buf : list byte) (e : cl_env)
    : C (Z * list byte) :=
  let* tracked := ftc_file_tracked fd in
  if negb tracked then mret (-1, buf)
  else
    let* host := host_of fd in
    let* skip := skip_host host in
    if skip : bool then mret (-1, buf)
    else
      let* id := push_frame buf in
      ftc_client_comm_gen_read_rpc host fd count offset id e;;
      let* bytes_read := ftc_read_block host id (ce_wakes e) in
      let* f := frame_of id in
      pop_frame id;;
      mret (bytes_read, fr_buf f).

Definition ftc_remote_read (fd count : Z) (buf : list byte) (e : cl_env) : C (Z * list byte) :=
  remote_transfer fd count (-1) buf e.
Definition ftc_remote_pread (fd count offset : Z) (buf : list byte) (e : cl_env)
    : C (Z * list byte) :=
  remote_transfer fd count offset buf e.

(** The limit is not looked at here; [offset] is an [int]. *)
Definition ftc_remote_lseek (fd offset whence : Z) (e : cl_env) : C Z :=
  let* tracked := ftc_file_tracked fd in
  if negb tracked then mret (-1)
  else
    let* host := host_of fd in
    ftc_client_comm_gen_seek_rpc host fd offset whence e;;
    ftc_seek_block (ce_wakes e).

Definition ftc_remote_close (fd : Z) (e : cl_env) : C unit :=
  let* tracked := ftc_file_tracked fd in
  if negb tracked then mret tt
  else
    let* host := host_of fd in
    let* skip := skip_host host in
    if skip : bool then mret tt
    else ftc_client_comm_gen_close_rpc host fd e.

Definition ftc_remove_fd (fd : Z) (e : cl_env) : C bool :=
  let* m := gets fd_map in
  if decide (m = ∅) then mret false
  else
    ftc_remote_close fd e;;
    let* m := gets fd_map in
    modify (upd_fd_map (delete fd m));;
    mret (bool_decide (is_Some (m !! fd))).

End Api.

End Client.
