(* ===== verification/Wrappers.v ===== *)
(** * The intercepted calls

    src/src/wrappers.c: the functions of the C library that the preloaded
    library replaces.  The [__real_] functions are the system calls of [Posix]
    on the client's own node; [dlsym] is taken to find them.  The caller's
    buffer is a list of bytes; a transfer overwrites its front. *)

From S2P Require Import Prelude CString HexDump Address Posix LogInfo Server ServerSpec Client.
Import Address Posix LogInfo Client.

Module Wrappers.

Section Wrap.
Context (hash : string -> Z).

Definition redirect_off : C bool :=
  gets (fun c => g_disable_redirect c || tl_disable_redirect c).

(** The library's own calls of the C library. *)
Definition real_open (path : string) (flags : Z) : C Z := sys (posix_open path flags).
Definition real_close (fd : Z) : C Z := sys (posix_close fd).
Definition real_read (fd count : Z) (buf : list byte) : C (Z * list byte) :=
  let* r := sys (posix_read fd count) in
  match r with
  | Some d => mret (Z.of_nat (length d), write_front d buf)
  | None => mret (-1, buf)
  end.
Definition real_pread (fd count offset : Z) (buf : list byte) : C (Z * list byte) :=
  let* o := gets cl_os in
  match posix_pread fd count offset o with
  | Some d => mret (Z.of_nat (length d), write_front d buf)
  | None => mret (-1, buf)
  end.
Definition real_write (fd : Z) (data : list byte) : C Z := sys (posix_write fd data).
Definition real_lseek (fd offset whence : Z) : C Z := sys (posix_lseek fd offset whence).

(** [readv] fills the buffers of the vector one after the other. *)
Definition real_readv (fd : Z) (iov : list Z) (buf : list byte) : C (Z * list byte) :=
  real_read fd (foldr Z.add 0 iov) buf.

(** The access mode of [fopen]: the characters [r], [w], [a] and [+]. *)
Definition fopen_flags (mode : string) : option Z :=
  match of_string mode with
  | c :: rest =>
      let plus := existsb (eqc "+"%char) rest in
      if eqc c "r"%char then Some (if plus then O_RDWR else O_RDONLY)
      else if eqc c "w"%char then
        Some (Z.lor (if plus then O_RDWR else O_WRONLY) (Z.lor O_CREAT O_TRUNC))
      else if eqc c "a"%char then
        Some (Z.lor (if plus then O_RDWR else O_WRONLY) (Z.lor O_CREAT O_APPEND))
      else None
  | [] => None
  end.

(** [__real_fopen] and [fileno] of its result: -1 stands for a null pointer. *)
Definition real_fopen (path mode : string) : C Z :=
  match fopen_flags mode with
  | Some flags => real_open path flags
  | None => mret (-1)
  end.

(** [fopen] and [fopen64] track every stream as if it were opened read-only. *)
Definition wrap_fopen (path mode : string) (se : self_env) (e : cl_env) : C Z :=
  let* off := redirect_off in
  if off : bool then real_fopen path mode
  else
    let* ptr := real_fopen path mode in
    (if ptr =? -1 then mret tt
     else let* t := ftc_track_file hash path O_RDONLY ptr se e in mret tt);;
    mret ptr.

(** [fclose] is not intercepted: the stream's descriptor is closed by the C
    library itself. *)
Definition fclose (fd : Z) : C Z := real_close fd.

(** [open] and [open64]; the mode argument concerns permissions only. *)
Definition wrap_open (pathname : string) (flags : Z) (se : self_env) (e : cl_env) : C Z :=
  let* off := redirect_off in
  if off : bool then real_open pathname flags
  else
    let* ret := real_open pathname flags in
    (if ret =? -1 then mret tt
     else let* t := ftc_track_file hash pathname flags ret se e in mret tt);;
    mret ret.

Definition wrap_close (fd : Z) (e : cl_env) : C Z :=
  let* off := redirect_off in
  if off : bool then real_close fd
  else
    let* path := ftc_get_path fd in
    (match path with
     | Some _ => let* r := ftc_remove_fd hash fd e in mret tt
     | None => mret tt
     end);;
    real_close fd.

(** The result is kept in an [int]. *)
Definition wrap_read (fd count : Z) (buf : list byte) (e : cl_env) : C (Z * list byte) :=
  let* r := ftc_remote_read hash fd count buf e in
  if i32 r.1 <? 0 then
    let* r' := real_read fd count r.2 in
    mret (i32 r'.1, r'.2)
  else mret (i32 r.1, r.2).

Definition wrap_pread (fd count offset : Z) (buf : list byte) (e : cl_env) : C (Z * list byte) :=
  let* path := ftc_get_path fd in
  match path with
  | Some _ =>
      let* r := ftc_remote_pread hash fd count offset buf e in
      if r.1 <? 0 then real_pread fd count offset r.2 else mret r
  | None => real_pread fd count offset buf
  end.

Definition wrap_read64 (fd count : Z) (buf : list byte) : C (Z * list byte) :=
  real_read fd count buf.

(** The test for a tracked file comes after the return. *)
Definition wrap_write (fd : Z) (data : list byte) : C Z := real_write fd data.

(** [lseek] and [lseek64]: the offset becomes an [int]. *)
Definition wrap_lseek (fd offset whence : Z) (e : cl_env) : C Z :=
  let* off := redirect_off in
  if off : bool then real_lseek fd offset whence
  else
    let* tracked := ftc_file_tracked fd in
    if tracked : bool then ftc_remote_lseek hash fd (i32 offset) (i32 whence) e
    else real_lseek fd offset whence.

Definition wrap_readv (fd : Z) (iov : list Z) (buf : list byte) : C (Z * list byte) :=
  real_readv fd iov buf.

End Wrap.

End Wrappers.
