(* ===== verification/ClientSpec.v ===== *)
(** * What the client's RPC layer does

    Lemmas about [Client]: what sending an RPC leaves behind, and how the waits
    end for an honest server, that is one that delivers the right bytes or an
    error, or nothing at all before the deadline. *)

From S2P Require Import Prelude CString HexDump Address Posix LogInfo Server ServerSpec Client Wrappers.
Import Address Posix LogInfo Client Wrappers.
Import ServerSpec(rpc, ROpen, RRead, RSeek, RClose).

Module ClientSpec.

(** ** Well-formed environments and states *)

Definition printable (b : cbuf) : Prop := is_Some (cstr b).

(** Mercury sends without an error. *)
Record env_ok (e : cl_env) : Prop := {
  ev_create : ce_create e = 0;
  ev_info : ce_info e = true;
  ev_buffer : ce_buffer e = true;
  ev_bulk : ce_bulk_create e = 0;
  ev_addr : printable (ce_server_addr e);
  ev_forward : ce_forward e = 0;
  ev_free : ce_addr_free e = 0
}.

(** An answer that arrives without a Mercury error. *)
Record reply_ok (r : reply) : Prop := {
  rk_ret : rp_ret r = 0;
  rk_get : rp_get r = 0;
  rk_peer : exists b, rp_peer r = Some b /\ printable b;
  rk_free : rp_free r = 0;
  rk_bulk : rp_bulk_free r = 0;
  rk_destroy : rp_destroy r = 0
}.

(** The registry, or the cache, has the server of a rank. *)
Definition host_known (c : client) (host : Z) : Prop :=
  exists a, (ftc_client_comm_lookup_addr (os_text (cl_os c) !! Server.ports_cfg (getenv (cl_os c) "MY_JOBID"))
    host (address_cache c)).1.1 = LAddr a.

Record client_ok (c : client) : Prop := {
  ck_count : 0 < g_ftc_server_count c < 2 ^ 31;
  ck_counters : length (timeout_counters c) = Z.to_nat (g_ftc_server_count c);
  ck_limit : Forall (fun n => 0 <= n <= INT_MAX) (timeout_counters c);
  ck_address : printable (client_address c);
  ck_fresh : forall id, (cl_next c <= id)%nat -> cl_frames c !! id = None
}.

(** Wakes of a wait for the bytes [sl]: the server writes them or nothing, and
    answers their number only once they are written, or -1. *)
Fixpoint honest (sl : list byte) (pushed : bool) (ws : list wake) : Prop :=
  match ws with
  | [] => True
  | w :: ws' =>
      (wk_push w = None \/ wk_push w = Some sl) /\
      let p := pushed || bool_decide (is_Some (wk_push w)) in
      match wk_reply w with
      | None => honest sl p ws'
      | Some r => reply_ok r /\ (rp_out r = -1 \/ (rp_out r = Z.of_nat (length sl) /\ p = true))
      end
  end.

(** The wait ends: an answer comes or the deadline passes. *)
Definition ends (ws : list wake) : Prop :=
  Exists (fun w => wk_timedout w = true \/ is_Some (wk_reply w)) ws.

(** ** Sending *)

Lemma same_node_ok addr c : printable addr -> printable (client_address c) ->
  exists z, same_node addr c = Ret z c.
Proof.
  intros [a Ha] [ca Hca]. unfold same_node. rewrite Ha. mred. rewrite Hca. mred.
  rewrite extract_ip_portion_cstr; [|by eapply cstr_no_nul|done|lia]. by eexists.
Qed.

Lemma log_run i c : log_complete i -> exists t, log i c = Ret tt (upd_os (set_text t (cl_os c)) c).
Proof.
  intros Hi. unfold log, on_os. destruct (logging_info_complete i "client" (cl_os c) Hi) as [t ->].
  eauto.
Qed.

Lemma printable_short s : (length s < 256)%nat -> no_nul s ->
  printable (fill_unterminated (uninit 256) s).
Proof.
  intros Hl Hs. exists s. rewrite cstr_fill_unterminated; [|apply length_replicate|done].
  by rewrite (proj2 (Nat.ltb_lt _ _)).
Qed.

(** The words the client logs. *)
Definition log_word (s : string) : Prop := (length (of_string s) < 256)%nat /\ no_nul (of_string s).

Lemma client_log_complete path req ex z rank host epoch now :
  printable path -> log_word req -> log_word ex ->
  log_complete (client_log path req ex (Some z) rank host epoch now).
Proof.
  intros Hp [Hr Nr] [He Ne]. unfold log_complete, client_log.
  cbn [LogInfo.filepath LogInfo.request LogInfo.flag LogInfo.client_rank LogInfo.server_rank LogInfo.expn LogInfo.n_epoch LogInfo.n_batch LogInfo.clocktime].
  split_and!; try by eexists; try exact Hp.
  - exact Hp.
  - by apply printable_short.
  - by apply printable_short.
Qed.

Lemma log_word_ok s : bool_decide (log_word s) = true -> log_word s.
Proof. by intros H%bool_decide_eq_true. Qed.

Lemma log_request_run path req host epoch e c :
  printable path -> log_word req -> printable (ce_server_addr e) -> printable (client_address c) ->
  exists t, log_request path req host epoch e c = Ret tt (upd_os (set_text t (cl_os c)) c).
Proof.
  intros Hp Hr Ha Hc. unfold log_request. destruct (same_node_ok _ _ Ha Hc) as [z Hz].
  rewrite (bind_Ret _ _ _ _ _ Hz). mred. apply log_run, client_log_complete; [done..|].
  by apply log_word_ok.
Qed.

Lemma log_answer_run path req host epoch b c :
  printable path -> log_word req -> printable b -> printable (client_address c) ->
  exists t, log_answer path req host epoch (Some b) c = Ret tt (upd_os (set_text t (cl_os c)) c).
Proof.
  intros Hp Hr Ha Hc. unfold log_answer. destruct (same_node_ok _ _ Ha Hc) as [z Hz]. mred. rewrite Hz.
  apply log_run, client_log_complete; [done..|]. by apply log_word_ok.
Qed.

(** A look-up takes a descriptor or none. *)
Lemma leave_stream_patched b o : leave_stream b o = patched (os_text o, if b : bool then 1%nat else 0%nat) o.
Proof. destruct b; by destruct o. Qed.

Lemma lookup_addr_run host c : host_known c host ->
  exists a m n, lookup_addr host c = Ret (Some a) (upd_cache m (upd_os (patched (os_text (cl_os c), n) (cl_os c)) c)) /\
    m !! host = Some a.
Proof.
  intros [a Ha]. unfold lookup_addr. mred.
  destruct (ftc_client_comm_lookup_addr _ host (address_cache c)) as [[r m] b] eqn:E. cbn [fst snd] in *. subst r.
  exists a, m. eexists. rewrite leave_stream_patched. split; [reflexivity|]. unfold ftc_client_comm_lookup_addr in E.
  destruct (address_cache c !! host) eqn:Ec; [by simplify_eq|].
  destruct (os_text (cl_os c) !! _) as [file|]; [|done].
  destruct (scan_ports (length file) host file); simplify_eq. apply lookup_insert_eq.
Qed.

Lemma fd_redir_at_run fd c : exists m,
  fd_redir_at fd c = Ret (default 0 (fd_redir_map c !! fd)) (upd_redir m c) /\
  m !! fd = Some (default 0 (fd_redir_map c !! fd)).
Proof.
  unfold fd_redir_at. mred. destruct (fd_redir_map c !! fd) as [r|] eqn:E.
  - exists (fd_redir_map c). by destruct c.
  - eexists. split; [reflexivity|]. apply lookup_insert_eq.
Qed.

(** The state after a read request was sent. *)
Definition read_msg (c : client) (fd count offset : Z) : rpc :=
  RRead (Server.mk_rpc_in (i32 count) (default 0 (fd_redir_map c !! fd)) fd offset (cl_client_rank c)).

Definition read_sent (t : patch) (m : gmap Z string) (rm : gmap Z Z)
    (host fd count offset : Z) (id : nat) (c : client) : client :=
  upd_trace (cl_trace c ++ [CForward host (read_msg c fd count offset)])
    (upd_os (patched t (cl_os c))
      (upd_frames (cl_frames c) (<[id := mk_request fd (uninit 256) host]> (cl_requests c)) (cl_next c)
        (upd_redir rm (upd_cache m c)))).

Lemma gen_read_run host fd count offset id e c :
  env_ok e -> printable (client_address c) -> host_known c host ->
  exists t m rm, ftc_client_comm_gen_read_rpc host fd count offset id e c =
    Ret tt (read_sent t m rm host fd count offset id c).
Proof.
  intros [E1 E2 E3 E4 E5 E6 E7] Hc Hh. destruct (lookup_addr_run host c Hh) as (a & m & n & Ha & _).
  unfold ftc_client_comm_gen_read_rpc, ftc_comm_create_handle, ftc_comm_free_addr. rewrite E1, E2, E3, E4, E6, E7. mred. rewrite Ha.
  change (0 =? 0) with true. mred. set (c1 := upd_cache _ _).
  destruct (fd_redir_at_run fd c1) as (rm & -> & _). mred.
  match goal with |- context [put_request id ?r ?st] =>
    change (put_request id r st) with (Ret tt (upd_frames (cl_frames st) (<[id := r]> (cl_requests st)) (cl_next st) st)) end.
  mred.
  match goal with |- context [log_request ?p ?r ?h ?ep e ?st] =>
    destruct (log_request_run p r h ep e st) as [t ->]; [apply cstr_fill_fd|by apply log_word_ok|done|exact Hc|] end.
  exists (t, n), m, rm. reflexivity.
Qed.

(** ** The read callback and the wait for it *)

Lemma write_frame_run id g c f : cl_frames c !! id = Some f ->
  write_frame id g c =
    Ret tt (upd_frames (<[id := g f]> (cl_frames c)) (cl_requests c) (cl_next c) c).
Proof. intros H. unfold write_frame, frame_of, put_frame. mred. rewrite H. reflexivity. Qed.

Lemma read_cb_run id r c f rq :
  cl_frames c !! id = Some f -> cl_requests c !! id = Some rq -> reply_ok r ->
  printable (client_address c) ->
  exists t, ftc_read_cb id r c =
    Ret tt (upd_frames (<[id := mk_frame true (rp_out r) (fr_buf f)]> (cl_frames c))
              (delete id (cl_requests c)) (cl_next c) (upd_os (set_text t (cl_os c)) c)).
Proof.
  intros Hf Hq [R1 R2 (b & R3 & R4) R5 R6 R7] Hc. unfold ftc_read_cb, request_of, free_request.
  rewrite R1, R2, R3, R5, R6, R7. change (0 =? 0) with true. mred. rewrite Hq. mred.
  rewrite (write_frame_run id _ c f Hf). mred.
  match goal with |- context [log_answer ?p ?q ?h ?ep (Some b) ?st] =>
    destruct (log_answer_run p q h ep b st) as [t ->]; [apply cstr_fill_fd|by apply log_word_ok|done|exact Hc|] end.
  mred. exists t. erewrite write_frame_run by apply lookup_insert_eq. mred.
  cbn [upd_frames upd_os cl_frames cl_requests cl_next]. by rewrite insert_insert_eq.
Qed.

(** A callback that finds no frame dereferences a dangling pointer. *)
Lemma read_cb_dangling id r c rq :
  cl_frames c !! id = None -> cl_requests c !! id = Some rq -> rp_ret r = 0 -> rp_get r = 0 ->
  ftc_read_cb id r c = Dies UndefinedBehaviour c.
Proof.
  intros Hf Hq R1 R2. unfold ftc_read_cb, request_of. rewrite R1, R2. change (0 =? 0) with true.
  mred. rewrite Hq. mred. unfold write_frame, frame_of. mred. by rewrite Hf.
Qed.

(** The configuration, which only start-up sets. *)
Definition config (c : client) : Z * option string * bool * bool * bool * cbuf :=
  (g_ftc_server_count c, ftc_data_dir c, g_disable_redirect c, tl_disable_redirect c,
   g_mercury_init c, client_address c).

(** What a wait leaves alone. *)
Record waited (id : nat) (c c' : client) : Prop := {
  wa_os : exists t, cl_os c' = set_text t (cl_os c);
  wa_fd_map : fd_map c' = fd_map c;
  wa_frames : forall i, i <> id -> cl_frames c' !! i = cl_frames c !! i;
  wa_next : cl_next c' = cl_next c;
  wa_config : config c' = config c;
  wa_address : client_address c' = client_address c;
  wa_trace : cl_trace c' = cl_trace c
}.

Lemma set_text_same o : o = set_text (os_text o) o.
Proof. by destruct o. Qed.

Lemma waited_refl id c : waited id c c.
Proof. split; try done. exists (os_text (cl_os c)). apply set_text_same. Qed.

Lemma waited_trans id c1 c2 c3 : waited id c1 c2 -> waited id c2 c3 -> waited id c1 c3.
Proof.
  intros [[t1 A1] A2 A4 A5 A6 A7 A8] [[t2 B1] B2 B4 B5 B6 B7 B8].
  split; try congruence.
  - exists t2. rewrite B1, A1. reflexivity.
  - intros i Hi. rewrite B4, A4 by done. done.
Qed.

Lemma waited_frame id f rs c : waited id c (upd_frames (<[id := f]> (cl_frames c)) rs (cl_next c) c).
Proof.
  split; try done; [exists (os_text (cl_os c)); apply set_text_same|].
  intros i Hi. cbn. by apply lookup_insert_ne.
Qed.

Lemma waited_frame_text id f rs t c :
  waited id c (upd_frames (<[id := f]> (cl_frames c)) rs (cl_next c) (upd_os (set_text t (cl_os c)) c)).
Proof. split; try done; [by exists t|]. intros i Hi. cbn. by apply lookup_insert_ne. Qed.

Lemma inc_counter_run host c n :
  0 <= host -> timeout_counters c !! Z.to_nat host = Some n -> n < 2 ^ 31 - 1 ->
  inc_counter host c = Ret tt (upd_counters (<[Z.to_nat host := n + 1]> (timeout_counters c)) c).
Proof.
  intros Hh Hn Hlt. unfold inc_counter, counter. mred.
  rewrite (proj2 (Z.ltb_ge host 0)), Hn by lia. mred.
  by rewrite (proj2 (Z.eqb_neq n (2 ^ 31 - 1))) by lia.
Qed.

(** The counters after a wait for [host] that timed out, or did not. *)
Definition counters_after (tm : bool) (host : Z) (l : list Z) : list Z :=
  if tm then alter (fun n : Z => n + 1) (Z.to_nat host) l else l.

Lemma inc_counter_waited id host c k :
  0 <= host -> timeout_counters c !! Z.to_nat host = Some k -> k < 2 ^ 31 - 1 ->
  exists c', inc_counter host c = Ret tt c' /\ waited id c c' /\ cl_frames c' = cl_frames c /\
    timeout_counters c' = counters_after true host (timeout_counters c) /\
    fd_redir_map c' = fd_redir_map c.
Proof.
  intros Hh Hk Hlt. rewrite (inc_counter_run host c k) by done. eexists. split; [reflexivity|].
  split; [|split; [done|split; [|done]]].
  - split; try done. exists (os_text (cl_os c)). apply set_text_same.
  - unfold counters_after. cbn. apply list_eq. intros i. destruct (decide (i = Z.to_nat host)) as [->|Hi].
    + rewrite list_lookup_insert_eq by (by eapply lookup_lt_Some). by rewrite list_lookup_alter_eq, Hk.
    + by rewrite list_lookup_insert_ne, list_lookup_alter_ne.
Qed.

(** One wake of an honest server: the state, and the frame. *)
Lemma deliver_read_run id w c n b rq sl p buf :
  cl_frames c !! id = Some (mk_frame false n b) -> cl_requests c !! id = Some rq ->
  printable (client_address c) -> b = (if p : bool then write_front sl buf else buf) ->
  honest sl p [w] -> write_front sl (write_front sl buf) = write_front sl buf ->
  let p' := p || bool_decide (is_Some (wk_push w)) in
  let b' := if p' : bool then write_front sl buf else buf in
  exists c', deliver ftc_read_cb id w c = Ret tt c' /\ waited id c c' /\
    timeout_counters c' = timeout_counters c /\
    match wk_reply w with
    | Some r => cl_frames c' !! id = Some (mk_frame true (rp_out r) b')
    | None => cl_frames c' !! id = Some (mk_frame false n b') /\ cl_requests c' !! id = Some rq
    end.
Proof.
  intros Hf Hq Hc -> (Hpush & Hrep) Hidem p' b'. unfold deliver.
  set (b := if p then write_front sl buf else buf) in *.
  assert (Hmid : exists c1, (match wk_push w with Some d => write_frame id (set_buf d) | None => mret tt end) c
      = Ret tt c1 /\ waited id c c1 /\ timeout_counters c1 = timeout_counters c /\
      cl_frames c1 !! id = Some (mk_frame false n b') /\ cl_requests c1 !! id = Some rq /\
      client_address c1 = client_address c).
  { destruct Hpush as [Hp|Hp]; rewrite Hp.
    - exists c. split_and!; try done; [by apply waited_refl|].
      unfold b', p'. rewrite Hp, bool_decide_false, orb_false_r by (by intros [? [=]]). done.
    - rewrite (write_frame_run id _ c _ Hf). eexists. split; [reflexivity|].
      split; [apply waited_frame|]. split; [done|]. split; [|by split].
      cbn. rewrite lookup_insert_eq. unfold set_buf, b', p'. cbn [fr_done fr_bytes fr_buf].
      rewrite Hp, bool_decide_true, orb_true_r by (by eexists). unfold b. by destruct p; rewrite ?Hidem. }
  destruct Hmid as (c1 & H1 & W1 & T1 & F1 & Q1 & A1). rewrite (bind_Ret _ _ _ _ _ H1).
  destruct (wk_reply w) as [r|].
  - destruct Hrep as [Hok _].
    destruct (read_cb_run id r c1 _ rq F1 Q1 Hok) as [t Ht]; [by rewrite A1|].
    eexists. split; [exact Ht|]. split; [eapply waited_trans; [exact W1|apply waited_frame_text]|].
    split; [done|]. cbn. apply lookup_insert_eq.
  - exists c1. by split_and!.
Qed.

Definition front_idem (sl buf : list byte) : Prop :=
  write_front sl (write_front sl buf) = write_front sl buf.

Lemma wait_done cb host id ws c f :
  cl_frames c !! id = Some f -> fr_done f = true -> wait_loop cb host id ws c = Ret false c.
Proof. intros Hf Hd. destruct ws; cbn [wait_loop]; unfold frame_of; mred; by rewrite Hf, Hd. Qed.

(** The answer that comes before the deadline, if any. *)
Fixpoint prompt (ws : list wake) : option reply :=
  match ws with
  | [] => None
  | w :: ws' =>
      if wk_timedout w then None else match wk_reply w with Some r => Some r | None => prompt ws' end
  end.

(** The wait for a read: it ends, with the bytes of an honest server in the
    buffer when the answer is not negative, and with one more timeout on the
    host when the deadline passed. *)
Lemma wait_read_run host id sl buf rq : front_idem sl buf -> 0 <= host -> forall ws c n b p k,
  cl_frames c !! id = Some (mk_frame false n b) -> cl_requests c !! id = Some rq ->
  printable (client_address c) -> b = (if p : bool then write_front sl buf else buf) ->
  timeout_counters c !! Z.to_nat host = Some k -> k < 2 ^ 31 - 1 ->
  honest sl p ws -> ends ws ->
  exists tm c' f', wait_loop ftc_read_cb host id ws c = Ret tm c' /\ waited id c c' /\
    timeout_counters c' = counters_after tm host (timeout_counters c) /\
    cl_frames c' !! id = Some f' /\
    (fr_buf f' = buf \/ fr_buf f' = write_front sl buf) /\
    (tm = false -> fr_bytes f' = -1 \/
       (fr_bytes f' = Z.of_nat (length sl) /\ fr_buf f' = write_front sl buf)) /\
    (forall r, prompt ws = Some r -> tm = false /\ fr_bytes f' = rp_out r).
Proof.
  intros Hidem Hh. induction ws as [|w ws IH]; intros c n b p k Hf Hq Hc Hb Hk Hlt Hon He.
  { by apply Exists_nil in He. }
  cbn [wait_loop prompt]. unfold frame_of. mred. rewrite Hf. mred. cbn [fr_done].
  assert (Hon1 : honest sl p [w]) by (destruct Hon as [H1 H2]; split; [done|]; by case_match).
  destruct (deliver_read_run id w c n b rq sl p buf Hf Hq Hc Hb Hon1 Hidem) as (c1 & H1 & W1 & T1 & F1).
  cbv zeta in F1. rewrite H1.
  set (b' := if p || bool_decide (is_Some (wk_push w)) then write_front sl buf else buf) in *.
  assert (Hb' : b' = buf \/ b' = write_front sl buf) by (unfold b'; destruct (p || _); auto).
  destruct (wk_timedout w) eqn:Et.
  - destruct (inc_counter_waited id host c1 k) as (c2 & -> & W2 & F2 & T2 & _); [done|by rewrite T1|done|].
    rewrite T1 in T2. rewrite <- F2 in F1.
    destruct (wk_reply w) as [r|].
    + exists true, c2, (mk_frame true (rp_out r) b'). split_and!; try done. by eapply waited_trans.
    + destruct F1 as [F1 _]. exists true, c2, (mk_frame false n b').
      split_and!; try done. by eapply waited_trans.
  - destruct (wk_reply w) as [r|] eqn:Er.
    + rewrite (wait_done _ _ _ _ _ _ F1 eq_refl).
      exists false, c1, (mk_frame true (rp_out r) b'). split_and!; try done; [|by intros ? [= <-]]. intros _.
      destruct Hon as (_ & Hon). rewrite Er in Hon. destruct Hon as [_ [Hr|[Hr Hp]]]; [by left|right].
      split; [done|]. unfold b'. by rewrite Hp.
    + destruct F1 as [F1 Q1].
      destruct Hon as (_ & Hon). rewrite Er in Hon.
      destruct (IH c1 n b' (p || bool_decide (is_Some (wk_push w))) k) as (tm & c2 & f' & E2 & W2 & T2 & R2);
        try done; [by rewrite (wa_address _ _ _ W1)|by rewrite T1| |].
      { apply Exists_cons in He as [[?|[??]]|?]; [congruence..|done]. }
      exists tm, c2, f'. rewrite E2. split; [done|]. split; [by eapply waited_trans|].
      rewrite T2, T1. by split.
Qed.

Lemma write_front_idem sl buf : front_idem sl buf.
Proof. unfold front_idem, write_front. by rewrite drop_app_length. Qed.

(** ** A whole remote read *)

Section Remote.
Context (hash : string -> Z).

(** The rank that serves a path. *)
Definition host_for (c : client) (p : string) : Z := hash p mod g_ftc_server_count c.

Lemma host_for_range c p : client_ok c -> 0 <= host_for c p < g_ftc_server_count c.
Proof. intros [Hc _ _ _ _]. apply Z.mod_pos_bound. lia. Qed.

Lemma host_of_run c fd p : client_ok c -> fd_map c !! fd = Some p ->
  host_of hash fd c = Ret (host_for c p) c.
Proof.
  intros Hok Hp. pose proof (host_for_range c p Hok). destruct Hok as [Hc _ _ _ _].
  unfold host_of, fd_map_at. mred. rewrite Hp.
  rewrite (proj2 (Z.eqb_neq (g_ftc_server_count c) 0)) by lia.
  by rewrite i32_id by (unfold in_i32, host_for in *; lia).
Qed.

Lemma counter_run c host : client_ok c -> 0 <= host < g_ftc_server_count c ->
  exists n, timeout_counters c !! Z.to_nat host = Some n /\ counter host c = Ret n c /\
    0 <= n <= INT_MAX.
Proof.
  intros [Hc Hl Hlim _ _] Hh.
  destruct (lookup_lt_is_Some_2 (timeout_counters c) (Z.to_nat host)) as [n Hn]; [lia|].
  exists n. split; [done|]. split.
  - unfold counter. mred. by rewrite (proj2 (Z.ltb_ge host 0)), Hn by lia.
  - rewrite Forall_forall in Hlim. by apply Hlim, (list_elem_of_lookup_2 _ _ _ Hn).
Qed.

(** The outcome of a remote read: what comes back, and what changed. *)
Record read_outcome (fd count offset : Z) (sl buf : list byte) (p : string) (c : client)
    (v : Z) (b : list byte) (c' : client) : Prop := {
  ro_value : (v = -1 /\ (b = buf \/ b = write_front sl buf)) \/
             (v = Z.of_nat (length sl) /\ b = write_front sl buf);
  ro_os : exists t, cl_os c' = patched t (cl_os c);
  ro_fd_map : fd_map c' = fd_map c;
  ro_frames : forall i, cl_frames c' !! i = cl_frames c !! i;
  ro_next : (cl_next c <= cl_next c')%nat;
  ro_config : config c' = config c;
  ro_trace : exists n, timeout_counters c !! Z.to_nat (host_for c p) = Some n /\
    if TIMEOUT_LIMIT <=? n
    then cl_trace c' = cl_trace c /\ timeout_counters c' = timeout_counters c /\ v = -1
    else cl_trace c' = cl_trace c ++ [CForward (host_for c p) (read_msg c fd count offset)] /\
         exists tm, timeout_counters c' = counters_after tm (host_for c p) (timeout_counters c) /\
           (tm = true -> v = -1)
}.

Lemma read_outcome_skip fd count offset sl buf p c n :
  timeout_counters c !! Z.to_nat (host_for c p) = Some n -> (TIMEOUT_LIMIT <=? n) = true ->
  read_outcome fd count offset sl buf p c (-1) buf c.
Proof.
  intros Hn Hlim. split; try done; [left; auto|eexists; apply patched_same|].
  exists n. by rewrite Hlim.
Qed.

(** The request went out and the wait ended. *)
Lemma sent_and_waited fd count offset buf sl e c host :
  client_ok c -> env_ok e -> 0 <= host < g_ftc_server_count c -> host_known c host ->
  (exists n, timeout_counters c !! Z.to_nat host = Some n /\ n < TIMEOUT_LIMIT) ->
  honest sl false (ce_wakes e) -> ends (ce_wakes e) ->
  let id := cl_next c in
  let c1 := upd_frames (<[id := mk_frame false (-1) buf]> (cl_frames c)) (cl_requests c) (S id) c in
  exists tm t m rm c2 f,
    ftc_client_comm_gen_read_rpc host fd count offset id e c1 =
      Ret tt (read_sent t m rm host fd count offset id c1) /\
    wait_loop ftc_read_cb host id (ce_wakes e) (read_sent t m rm host fd count offset id c1) = Ret tm c2 /\
    waited id (read_sent t m rm host fd count offset id c1) c2 /\
    timeout_counters c2 = counters_after tm host (timeout_counters c) /\
    cl_frames c2 !! id = Some f /\
    (fr_buf f = buf \/ fr_buf f = write_front sl buf) /\
    (tm = false -> fr_bytes f = -1 \/ (fr_bytes f = Z.of_nat (length sl) /\ fr_buf f = write_front sl buf)) /\
    (forall r, prompt (ce_wakes e) = Some r -> tm = false /\ fr_bytes f = rp_out r).
Proof.
  intros [K1 K2 K3 K5 K6] He Hh Hkn (n & Hn & Hlt) Hon Hen id c1.
  destruct (gen_read_run host fd count offset id e c1 He) as (t & m & rm & Hg);
    [done|exact Hkn|]. set (c1s := read_sent t m rm host fd count offset id c1) in *.
  destruct (wait_read_run host id sl buf (mk_request fd (uninit 256) host) (write_front_idem sl buf)
    (proj1 Hh) (ce_wakes e) c1s (-1) buf false n) as (tm & c2 & f & H1 & H2 & H3 & H4 & H5 & H6 & H7); try done.
  - cbn. apply lookup_insert_eq.
  - cbn. apply lookup_insert_eq.
  - unfold TIMEOUT_LIMIT in Hlt. lia.
  - exists tm, t, m, rm, c2, f. by split_and!.
Qed.

Lemma remote_transfer_prompt fd count offset buf sl e c p :
  client_ok c -> env_ok e -> fd_map c !! fd = Some p -> host_known c (host_for c p) ->
  honest sl false (ce_wakes e) -> ends (ce_wakes e) ->
  exists v b c', remote_transfer hash fd count offset buf e c = Ret (v, b) c' /\
    read_outcome fd count offset sl buf p c v b c' /\
    forall r n, prompt (ce_wakes e) = Some r ->
      timeout_counters c !! Z.to_nat (host_for c p) = Some n -> n < TIMEOUT_LIMIT ->
      v = rp_out r /\ timeout_counters c' = timeout_counters c.
Proof.
  intros Hok He Hp Hkn Hon Hen. pose proof (host_for_range c p Hok) as Hh.
  destruct (counter_run c (host_for c p) Hok Hh) as (n & Hn & Hcnt & Hlim).
  unfold remote_transfer, ftc_file_tracked. mred. rewrite Hp, bool_decide_true by (by eexists).
  cbn [negb]. rewrite (host_of_run c fd p Hok Hp). unfold skip_host. mred. rewrite Hcnt.
  destruct (TIMEOUT_LIMIT <=? n) eqn:El.
  { exists (-1), buf, c. split; [done|]. split; [by eapply read_outcome_skip|].
    intros r n' _ Hn'. rewrite Hn in Hn'. injection Hn' as <-. zbool. lia. }
  zbool. destruct (sent_and_waited fd count offset buf sl e c (host_for c p) Hok He Hh Hkn) as
    (tm & t & m & rm & c2 & f & Hg & Hw & [[t2 W1] W2 W4 W5 W6 W7 W8] & Hct & Hf & Hbuf & Hval & Hprompt); try done.
  { by exists n. }
  unfold push_frame. mred. rewrite Hg. unfold ftc_read_block. mred. rewrite Hw.
  assert (Hfr : frame_of (cl_next c) c2 = Ret f c2) by (unfold frame_of; mred; by rewrite Hf).
  set (v := if tm then -1 else fr_bytes f).
  exists v, (fr_buf f), (upd_frames (delete (cl_next c) (cl_frames c2)) (cl_requests c2) (cl_next c2) c2).
  split; [unfold v; destruct tm; rewrite ?Hfr; unfold pop_frame; mred; by rewrite ?Hfr|].
  split; [|by intros r n' Hr _ _; unfold v; destruct (Hprompt r Hr) as [-> ->]; split; [|exact Hct]].
  split.
  - unfold v. destruct tm; [left; auto|]. destruct (Hval eq_refl) as [->|[-> ->]]; auto.
  - cbn. exists (t2, t.2). rewrite W1. reflexivity.
  - cbn. by rewrite W2.
  - intros i. cbn. destruct (decide (i = cl_next c)) as [->|Hi].
    + rewrite lookup_delete_eq. symmetry. by apply (ck_fresh _ Hok).
    + rewrite lookup_delete_ne, W4 by done. cbn. by rewrite lookup_insert_ne.
  - cbn. rewrite W5. cbn. lia.
  - exact W6.
  - exists n. split; [done|]. rewrite (proj2 (Z.leb_gt TIMEOUT_LIMIT n)) by done. split.
    + cbn. rewrite W8. reflexivity.
    + exists tm. split; [exact Hct|]. unfold v. by intros ->.
Qed.

Lemma remote_transfer_run fd count offset buf sl e c p :
  client_ok c -> env_ok e -> fd_map c !! fd = Some p -> host_known c (host_for c p) ->
  honest sl false (ce_wakes e) -> ends (ce_wakes e) ->
  exists v b c', remote_transfer hash fd count offset buf e c = Ret (v, b) c' /\
    read_outcome fd count offset sl buf p c v b c'.
Proof.
  intros H1 H2 H3 H4 H5 H6.
  destruct (remote_transfer_prompt fd count offset buf sl e c p H1 H2 H3 H4 H5 H6) as (v & b & c' & Hr & Ho & _).
  by exists v, b, c'.
Qed.

End Remote.

(** ** A silent server *)

(** Nothing arrives, and the deadline passes. *)
Definition silent (ws : list wake) : Prop :=
  Forall (fun w => wk_push w = None /\ wk_reply w = None) ws /\
  Exists (fun w => wk_timedout w = true) ws.

Lemma silent_honest sl ws p : silent ws -> honest sl p ws /\ ends ws.
Proof.
  intros [Hs He]. split.
  - clear He. revert p. induction Hs as [|w ws [H1 H2] _ IH]; intros p; simpl; [done|].
    rewrite H2. split; [by left|apply IH].
  - eapply Exists_impl; [exact He|]. simpl. auto.
Qed.

Lemma wait_silent_run cb host id ws c f k :
  silent ws -> cl_frames c !! id = Some f -> fr_done f = false -> 0 <= host ->
  timeout_counters c !! Z.to_nat host = Some k -> k < 2 ^ 31 - 1 ->
  wait_loop cb host id ws c =
    Ret true (upd_counters (<[Z.to_nat host := k + 1]> (timeout_counters c)) c).
Proof.
  intros [Hs He] Hf Hd Hh Hk Hlt. induction Hs as [|w ws [H1 H2] _ IH]; [by apply Exists_nil in He|].
  cbn [wait_loop]. unfold frame_of, deliver. mred. rewrite Hf, Hd, H1, H2. mred.
  destruct (wk_timedout w) eqn:Et.
  - by rewrite (inc_counter_run host c k).
  - apply IH. apply Exists_cons in He as [?|?]; [congruence|done].
Qed.

(** A read from a silent server: the request stays pending, the frame is gone. *)
Lemma remote_transfer_silent hash fd count offset buf e c p k :
  client_ok c -> env_ok e -> fd_map c !! fd = Some p -> host_known c (host_for hash c p) ->
  silent (ce_wakes e) -> timeout_counters c !! Z.to_nat (host_for hash c p) = Some k ->
  k < TIMEOUT_LIMIT ->
  exists c', remote_transfer hash fd count offset buf e c = Ret (-1, buf) c' /\
    cl_frames c' !! cl_next c = None /\
    cl_requests c' !! cl_next c = Some (mk_request fd (uninit 256) (host_for hash c p)) /\
    (exists t, cl_os c' = patched t (cl_os c)) /\
    timeout_counters c' = <[Z.to_nat (host_for hash c p) := k + 1]> (timeout_counters c).
Proof.
  intros Hok He Hp Hkn Hs Hk Hlt. pose proof (host_for_range hash c p Hok) as Hh.
  unfold remote_transfer, ftc_file_tracked. mred. rewrite Hp, bool_decide_true by (by eexists).
  cbn [negb]. rewrite (host_of_run hash c fd p Hok Hp). unfold skip_host, counter. mred.
  rewrite (proj2 (Z.ltb_ge (host_for hash c p) 0)), Hk by lia.
  rewrite (proj2 (Z.leb_gt TIMEOUT_LIMIT k)) by done. unfold push_frame. mred.
  set (c1 := upd_frames _ _ _ c).
  destruct (gen_read_run (host_for hash c p) fd count offset (cl_next c) e c1 He) as (t & m & rm & ->);
    [apply Hok|exact Hkn|].
  unfold ftc_read_block. mred.
  rewrite (wait_silent_run _ _ _ _ _ (mk_frame false (-1) buf) k); try done; [|by apply lookup_insert_eq|lia|unfold TIMEOUT_LIMIT in *; lia].
  assert (Hfr : forall l c0, frame_of (cl_next c) (upd_counters l c0) =
    match cl_frames c0 !! cl_next c with Some f => Ret f (upd_counters l c0) | None => Dies UndefinedBehaviour (upd_counters l c0) end).
  { intros l c0. unfold frame_of. mred. cbn. by destruct (cl_frames c0 !! cl_next c). }
  rewrite Hfr. cbn [cl_frames read_sent upd_trace upd_os upd_frames c1]. rewrite lookup_insert_eq.
  unfold pop_frame. mred. eexists. split; [reflexivity|]. cbn. split_and!.
  - apply lookup_delete_eq.
  - apply lookup_insert_eq.
  - by exists t.
  - done.
Qed.

(** The wait of a seek has no deadline. *)
Lemma seek_block_silent ws c :
  Forall (fun w => wk_push w = None /\ wk_reply w = None) ws -> seek_done c = HG_FALSE ->
  ftc_seek_block ws c = Blocked c.
Proof.
  intros Hs Hd. induction Hs as [|w ws [_ H] _ IH]; cbn [ftc_seek_block]; mred; rewrite Hd.
  - done.
  - rewrite H. exact IH.
Qed.

(** An untracked open does nothing more. *)
Lemma track_file_untracked hash path flags fd se e c :
  track_decision c path = None -> ftc_track_file hash path flags fd se e c = Ret false c.
Proof.
  intros Hd. unfold ftc_track_file. destruct (find_sub _ _); [done|].
  do 2 (case_if; [done|]). mred. by rewrite Hd.
Qed.

(** ** Seeking *)

Lemma seek_cb_run r c : rp_get r = 0 ->
  ftc_seek_cb r c = Ret tt (upd_seek ((seek_done c + 1) mod 256) (rp_out r) c).
Proof. intros Hr. unfold ftc_seek_cb. by rewrite Hr. Qed.

(** ** Opening a tracked file *)

(** The answer [r] comes after some spurious wake-ups. *)
Inductive answered (r : reply) : list wake -> Prop :=
  | answered_now d ws : wk_timedout d = false -> wk_push d = None -> wk_reply d = Some r ->
      answered r (d :: ws)
  | answered_later d ws : wk_timedout d = false -> wk_push d = None -> wk_reply d = None ->
      answered r ws -> answered r (d :: ws).

(** A path the log can print. *)
Definition path_ok (p : string) : Prop := no_nul (of_string p) /\ (length (of_string p) < 256)%nat.

Lemma open_cb_run id r c f fd host p :
  cl_frames c !! id = Some f -> path_ok p ->
  cl_requests c !! id = Some (mk_request fd (fill (uninit 256) (of_string p)) host) ->
  reply_ok r -> printable (client_address c) ->
  exists t, ftc_open_cb id r c =
    Ret tt (upd_frames (<[id := set_done f]> (cl_frames c)) (delete id (cl_requests c)) (cl_next c)
      (upd_os (set_text t (cl_os c)) (upd_redir (<[fd := rp_out r]> (fd_redir_map c)) c))).
Proof.
  intros Hf [Hn Hl] Hq [R1 R2 (b & R3 & R4) R5 R6 R7] Hc. unfold ftc_open_cb, request_of, free_request.
  rewrite R1, R2, R3. change (0 =? 0) with true. mred. rewrite Hq. mred.
  cbn [rq_local_fd rq_filepath rq_svr_hash]. unfold fill.
  rewrite cstr_strncpy_poke by (done || (unfold uninit; rewrite length_replicate; lia)). mred.
  rewrite firstn_all2 by lia.
  match goal with |- context [log_answer ?q ?w ?h ?ep (Some b) ?st] =>
    destruct (log_answer_run q w h ep b st) as [t ->]; [by apply printable_short|by apply log_word_ok|done|exact Hc|] end.
  mred. exists t. erewrite write_frame_run by exact Hf. mred. reflexivity.
Qed.

Definition opened (id : nat) (fd out : Z) (t : gmap string cstring) (c : client) : client :=
  upd_frames (<[id := mk_frame true (-1) []]> (cl_frames c)) (delete id (cl_requests c)) (cl_next c)
    (upd_os (set_text t (cl_os c)) (upd_redir (<[fd := out]> (fd_redir_map c)) c)).

Lemma wait_open_run host id fd p r ws c :
  answered r ws -> cl_frames c !! id = Some (mk_frame false (-1) []) -> path_ok p ->
  cl_requests c !! id = Some (mk_request fd (fill (uninit 256) (of_string p)) host) ->
  reply_ok r -> printable (client_address c) ->
  exists t, wait_loop ftc_open_cb host id ws c = Ret false (opened id fd (rp_out r) t c).
Proof.
  intros Ha Hf Hp Hq Hr Hc. induction Ha as [w ws H1 H2 H3|w ws H1 H2 H3 _ IH]; cbn [wait_loop];
    unfold frame_of, deliver; mred; rewrite Hf, H2, H3; cbn [fr_done]; mred.
  - destruct (open_cb_run id r c _ fd host p Hf Hp Hq Hr Hc) as [t ->]. rewrite H1. exists t.
    apply (wait_done _ _ _ _ _ (mk_frame true (-1) [])); [|done]. cbn. apply lookup_insert_eq.
  - rewrite H1. exact IH.
Qed.

(** Wakes of a wait for an open: any answer, without a Mercury error. *)
Fixpoint open_honest (ws : list wake) : Prop :=
  match ws with
  | [] => True
  | w :: ws' => wk_push w = None /\
      match wk_reply w with None => open_honest ws' | Some r => reply_ok r end
  end.

(** The answer that comes before the wait ends, if any. *)
Fixpoint replied (ws : list wake) : option reply :=
  match ws with
  | [] => None
  | w :: ws' =>
      match wk_reply w with
      | Some r => Some r
      | None => if wk_timedout w then None else replied ws'
      end
  end.

(** What an open leaves in [fd_redir_map]. *)
Definition redir_after (fd : Z) (ws : list wake) (m : gmap Z Z) : gmap Z Z :=
  match replied ws with Some r => <[fd := rp_out r]> m | None => m end.

(** The wait for an open ends, whatever is answered and whenever. *)
Lemma wait_open_total host id fd p : path_ok p -> 0 <= host -> forall ws c k,
  open_honest ws -> ends ws -> cl_frames c !! id = Some (mk_frame false (-1) []) ->
  cl_requests c !! id = Some (mk_request fd (fill (uninit 256) (of_string p)) host) ->
  printable (client_address c) ->
  timeout_counters c !! Z.to_nat host = Some k -> k < 2 ^ 31 - 1 ->
  exists tm c', wait_loop ftc_open_cb host id ws c = Ret tm c' /\ waited id c c' /\
    timeout_counters c' = counters_after tm host (timeout_counters c) /\
    fd_redir_map c' = redir_after fd ws (fd_redir_map c) /\
    (is_Some (prompt ws) -> tm = false).
Proof.
  intros Hp Hh. induction ws as [|w ws IH]; intros c k Hon He Hf Hq Hc Hk Hlt.
  { by apply Exists_nil in He. }
  destruct Hon as [Hpush Hon].
  unfold redir_after. cbn [wait_loop replied prompt]. unfold frame_of, deliver. mred. rewrite Hf, Hpush. cbn [fr_done]. mred.
  destruct (wk_reply w) as [r|] eqn:Er.
  - destruct (open_cb_run id r c _ fd host p Hf Hp Hq Hon Hc) as [t ->].
    set (c1 := upd_frames _ _ _ _).
    assert (W1 : waited id c c1) by (split; try done; [by exists t|]; intros i Hi; by apply lookup_insert_ne).
    destruct (wk_timedout w).
    + destruct (inc_counter_waited id host c1 k) as (c2 & -> & W2 & _ & T2 & R2); try done.
      exists true, c2. split_and!; try done. by eapply waited_trans.
    + exists false, c1. split_and!; try done.
      apply (wait_done _ _ _ _ _ (mk_frame true (-1) [])); [|done]. cbn. apply lookup_insert_eq.
  - destruct (wk_timedout w) eqn:Et.
    + destruct (inc_counter_waited id host c k) as (c2 & -> & W2 & _ & T2 & R2); try done.
      exists true, c2. split_and!; try done.
    + apply (IH c k); try done. apply Exists_cons in He as [[?|[??]]|?]; [congruence..|done].
Qed.

Lemma gen_open_run host p fd id e c :
  env_ok e -> path_ok p -> printable (client_address c) -> host_known c host ->
  exists t m, ftc_client_comm_gen_open_rpc host p fd id e c =
    Ret tt (upd_trace (cl_trace c ++ [CForward host (ROpen (Server.mk_open_in p (cl_client_rank c) fd))])
      (upd_os (patched t (cl_os c))
        (upd_frames (cl_frames c) (<[id := mk_request fd (fill (uninit 256) (of_string p)) host]> (cl_requests c))
          (cl_next c) (upd_cache m c)))) /\ is_Some (m !! host).
Proof.
  intros [E1 E2 E3 E4 E5 E6 E7] [Hn Hl] Hc Hh. destruct (lookup_addr_run host c Hh) as (a & m & n & Ha & Hm).
  unfold ftc_client_comm_gen_open_rpc, ftc_comm_create_handle, ftc_comm_free_addr. rewrite E1, E6, E7. mred. rewrite Ha.
  change (0 =? 0) with true. mred.
  match goal with |- context [put_request id ?r ?st] =>
    change (put_request id r st) with (Ret tt (upd_frames (cl_frames st) (<[id := r]> (cl_requests st)) (cl_next st) st)) end.
  mred.
  match goal with |- context [log_request ?q ?r ?h ?ep e ?st] =>
    destruct (log_request_run q r h ep e st) as [t ->]; [by apply printable_short|by apply log_word_ok|done|exact Hc|] end.
  exists (t, n), m. split; [reflexivity|]. by eexists.
Qed.

(** The calls of the application are redirected and Mercury runs. *)
Definition started (c : client) : Prop :=
  g_disable_redirect c = false /\ tl_disable_redirect c = false /\ g_mercury_init c = true.

(** An open of a tracked file that the server answers. *)
Record open_outcome (hash : string -> Z) (fd : Z) (p : string) (out : Z) (c c' : client) : Prop := {
  oo_fd_map : fd_map c' = <[fd := p]> (fd_map c);
  oo_redir : fd_redir_map c' = <[fd := out]> (fd_redir_map c);
  oo_os : exists t, cl_os c' = patched t (cl_os c);
  oo_counters : timeout_counters c' = timeout_counters c;
  oo_count : g_ftc_server_count c' = g_ftc_server_count c;
  oo_rank : cl_client_rank c' = cl_client_rank c;
  oo_address : client_address c' = client_address c;
  oo_known : is_Some (address_cache c' !! host_for hash c p);
  oo_frames : forall i, (cl_next c' <= i)%nat -> cl_frames c' !! i = None;
  oo_trace : cl_trace c' = cl_trace c ++
    [CForward (host_for hash c p) (ROpen (Server.mk_open_in p (cl_client_rank c) fd))]
}.

(** The open request is on its way. *)
Definition open_sent (t : patch) (m : gmap Z string) (host : Z) (p : string) (fd : Z)
    (c : client) : client :=
  let id := cl_next c in
  upd_trace (cl_trace c ++ [CForward host (ROpen (Server.mk_open_in p (cl_client_rank c) fd))])
    (upd_os (patched t (cl_os c))
      (upd_frames (<[id := mk_frame false (-1) []]> (cl_frames c))
        (<[id := mk_request fd (fill (uninit 256) (of_string p)) host]> (cl_requests c)) (S id)
        (upd_cache m c))).

(** An open that is tracked, by a client whose Mercury runs or starts: up to the
    test of the host's counter, and then up to the wait for the answer. *)
Section Tracked.
Context (hash : string -> Z) (path : string) (flags fd : Z) (se : self_env) (e : cl_env)
  (c c1 : client) (p : string) (k : Z).
Context (Hok : client_ok c1) (Hsub : find_sub (of_string ".ports.cfg.") (of_string path) = None)
  (Hacc : Z.land flags O_ACCMODE <> O_WRONLY) (Happ : has_flag flags O_APPEND = false)
  (Hd : track_decision c path = Some p)
  (Hst : start_mercury se (upd_fd_map (<[fd := p]> (fd_map c)) c) = Ret tt c1)
  (Hp1 : fd_map c1 !! fd = Some p)
  (Hk : timeout_counters c1 !! Z.to_nat (host_for hash c1 p) = Some k).

Lemma track_file_tested :
  ftc_track_file hash path flags fd se e c =
    (if TIMEOUT_LIMIT <=? k then mret false
     else let* id := push_frame [] in
          let* q := fd_map_at fd in
          ftc_client_comm_gen_open_rpc (host_for hash c1 p) q fd id e;;
          ftc_client_block (host_for hash c1 p) id (ce_wakes e);;
          pop_frame id;;
          mret true) c1.
Proof using All.
  unfold ftc_track_file. rewrite Hsub, (proj2 (Z.eqb_neq _ _) Hacc), Happ. mred. rewrite Hd, Hst.
  pose proof (host_for_range hash c1 p Hok) as Hh.
  rewrite (host_of_run hash c1 fd p Hok Hp1). unfold skip_host, counter. mred.
  rewrite (proj2 (Z.ltb_ge (host_for hash c1 p) 0)), Hk by lia. by destruct (TIMEOUT_LIMIT <=? k).
Qed.

Lemma track_file_sent : env_ok e -> path_ok p -> host_known c1 (host_for hash c1 p) -> k < TIMEOUT_LIMIT ->
  exists t m, is_Some (m !! host_for hash c1 p) /\
    ftc_track_file hash path flags fd se e c =
      (let* b := wait_loop ftc_open_cb (host_for hash c1 p) (cl_next c1) (ce_wakes e) in
       pop_frame (cl_next c1);; mret true) (open_sent t m (host_for hash c1 p) p fd c1).
Proof using All.
  intros He Hpo Hkn Hlt. rewrite track_file_tested.
  rewrite (proj2 (Z.leb_gt TIMEOUT_LIMIT k)) by done. unfold push_frame, fd_map_at. mred.
  set (c2 := upd_frames _ _ _ c1). change (fd_map c2) with (fd_map c1). rewrite Hp1.
  destruct (gen_open_run (host_for hash c1 p) p fd (cl_next c1) e c2 He Hpo) as (t & m & -> & Hm);
    [apply Hok|exact Hkn|].
  exists t, m. split; [exact Hm|]. unfold ftc_client_block, pop_frame. mred.
  fold (open_sent t m (host_for hash c1 p) p fd c1). by destruct (wait_loop _ _ _ _ _).
Qed.

End Tracked.

(** Mercury already runs. *)
Lemma start_mercury_started se c : g_mercury_init c = true -> start_mercury se c = Ret tt c.
Proof. intros H. unfold start_mercury. mred. by rewrite H. Qed.

Lemma client_ok_fd_map m c : client_ok c -> client_ok (upd_fd_map m c).
Proof. by intros []. Qed.

Lemma track_file_run hash path flags fd se e c p r k :
  client_ok c -> started c -> env_ok e -> path_ok p ->
  find_sub (of_string ".ports.cfg.") (of_string path) = None ->
  Z.land flags O_ACCMODE <> O_WRONLY -> has_flag flags O_APPEND = false ->
  track_decision c path = Some p -> host_known c (host_for hash c p) ->
  timeout_counters c !! Z.to_nat (host_for hash c p) = Some k -> k < TIMEOUT_LIMIT ->
  answered r (ce_wakes e) -> reply_ok r ->
  exists c', ftc_track_file hash path flags fd se e c = Ret true c' /\
    open_outcome hash fd p (rp_out r) c c'.
Proof.
  intros Hok (_ & _ & Hmer) He Hpo Hsub Hacc Happ Hd Hkn Hk Hlt Ha Hr.
  set (c1 := upd_fd_map (<[fd := p]> (fd_map c)) c).
  destruct (track_file_sent hash path flags fd se e c c1 p k) as (t & m & Hm & ->);
    try done; [by apply client_ok_fd_map|by apply start_mercury_started|apply lookup_insert_eq|].
  mred. match goal with |- context [wait_loop ftc_open_cb ?h ?i ?w ?st] =>
    destruct (wait_open_run h i fd p r w st Ha) as [t2 ->]; try done end.
  { cbn. apply lookup_insert_eq. }
  { cbn. apply lookup_insert_eq. }
  { apply (ck_address _ Hok). }
  unfold pop_frame. mred. eexists. split; [reflexivity|]. split; try done.
  - exists (t2, t.2). reflexivity.
  - intros i Hi. cbn in *. destruct (decide (i = cl_next c)) as [->|Hne]; [apply lookup_delete_eq|].
    rewrite lookup_delete_ne, lookup_insert_ne, lookup_insert_ne by done.
    apply (ck_fresh _ Hok). lia.
Qed.

(** An open of a tracked file that nobody answers. *)
Record open_unanswered (hash : string -> Z) (fd : Z) (p : string) (k : Z) (c c' : client) : Prop := {
  ou_fd_map : fd_map c' = <[fd := p]> (fd_map c);
  ou_redir : fd_redir_map c' = fd_redir_map c;
  ou_os : exists t, cl_os c' = patched t (cl_os c);
  ou_counters : timeout_counters c' = <[Z.to_nat (host_for hash c p) := k + 1]> (timeout_counters c);
  ou_count : g_ftc_server_count c' = g_ftc_server_count c;
  ou_rank : cl_client_rank c' = cl_client_rank c;
  ou_address : client_address c' = client_address c;
  ou_known : is_Some (address_cache c' !! host_for hash c p);
  ou_frames : forall i, (cl_next c' <= i)%nat -> cl_frames c' !! i = None
}.

Lemma track_file_silent hash path flags fd se e c p k :
  client_ok c -> started c -> env_ok e -> path_ok p ->
  find_sub (of_string ".ports.cfg.") (of_string path) = None ->
  Z.land flags O_ACCMODE <> O_WRONLY -> has_flag flags O_APPEND = false ->
  track_decision c path = Some p -> host_known c (host_for hash c p) ->
  timeout_counters c !! Z.to_nat (host_for hash c p) = Some k -> k < TIMEOUT_LIMIT ->
  silent (ce_wakes e) ->
  exists c', ftc_track_file hash path flags fd se e c = Ret true c' /\
    open_unanswered hash fd p k c c'.
Proof.
  intros Hok (_ & _ & Hmer) He Hpo Hsub Hacc Happ Hd Hkn Hk Hlt Hs.
  set (c1 := upd_fd_map (<[fd := p]> (fd_map c)) c). pose proof (host_for_range hash c p Hok) as Hh.
  destruct (track_file_sent hash path flags fd se e c c1 p k) as (t & m & Hm & ->);
    try done; [by apply client_ok_fd_map|by apply start_mercury_started|apply lookup_insert_eq|].
  mred. rewrite (wait_silent_run _ _ _ _ _ (mk_frame false (-1) []) k); try done;
    [|by apply lookup_insert_eq|by apply Hh|unfold TIMEOUT_LIMIT in *; lia].
  unfold pop_frame. mred. eexists. split; [reflexivity|]. split; try done.
  - by exists t.
  - intros i Hi. cbn in *. destruct (decide (i = cl_next c)) as [->|Hne]; [apply lookup_delete_eq|].
    rewrite lookup_delete_ne, lookup_insert_ne by done. apply (ck_fresh _ Hok). lia.
Qed.

Lemma open_unanswered_ok hash fd p k c c' : client_ok c -> open_unanswered hash fd p k c c' ->
  timeout_counters c !! Z.to_nat (host_for hash c p) = Some k -> k < TIMEOUT_LIMIT ->
  client_ok c' /\ host_for hash c' p = host_for hash c p /\ host_known c' (host_for hash c' p).
Proof.
  intros [K1 K2 K3 K4 K5] [O1 O2 O3 O4 O5 O6 O7 O8 O9] Hk Hlt.
  assert (Hh : host_for hash c' p = host_for hash c p) by (unfold host_for; by rewrite O5).
  split; [|split; [done|]].
  - split; [by rewrite O5|by rewrite O4, O5, length_insert| |by rewrite O7|done].
    rewrite O4. apply Forall_insert; [done|]. rewrite Forall_lookup in K3. specialize (K3 _ _ Hk). unfold TIMEOUT_LIMIT in *. lia.
  - rewrite Hh. destruct O8 as [a Ha]. exists a. unfold ftc_client_comm_lookup_addr. by rewrite Ha.
Qed.

(** Up to the call of [ftc_track_file]. *)
Lemma wrap_open_track hash path fd n se e c c' :
  started c -> lowest_fd (os_fds (cl_os c)) = fd ->
  os_files (cl_os c) !! resolve (cl_os c) path = Some n ->
  let c0 := upd_os (set_fds (<[fd := OFile n 0 true false false]> (os_fds (cl_os c))) (cl_os c)) c in
  ftc_track_file hash path O_RDONLY fd se e c0 = Ret true c' ->
  wrap_open hash path O_RDONLY se e c = Ret fd c'.
Proof.
  intros (H1 & H2 & _) Hfd Hn c0 Ht. unfold wrap_open, redirect_off. mred. rewrite H1, H2. cbn [orb].
  unfold real_open, sys, on_os. rewrite posix_open_rdonly, Hn, Hfd. cbn [fst snd].
  assert (Hneg : (fd =? -1) = false).
  { apply Z.eqb_neq. destruct (lowest_fd_free (os_fds (cl_os c))). lia. }
  rewrite Hneg. fold c0. by rewrite Ht.
Qed.

End ClientSpec.
