(* ===== verification/ClientInv.v ===== *)
(** * What the client never breaks

    Invariants of the client that hold whatever Mercury answers.  [Stable] says
    what an invariant must tolerate to survive the RPC layer; the operations of
    [Client] preserve every stable invariant.  Two instances: the values of the
    failure counters, which only a timeout changes, and the knowledge of the
    servers' addresses. *)

From S2P Require Import Prelude CString HexDump Address Posix LogInfo Server ServerSpec Client Wrappers ClientSpec.
Import Address Posix LogInfo Client Wrappers ClientSpec.
Import ServerSpec(rpc, ROpen, RRead, RSeek, RClose).

Module ClientInv.

(** ** Stable invariants *)

(** What the RPC layer does besides the frames of the calls. *)
Class Quiet (J : client -> Prop) : Prop := {
  qt_log i : preserves J (log i);
  qt_lookup h : preserves J (lookup_addr h);
  qt_redir_at fd : preserves J (fd_redir_at fd);
  qt_fd_map m c : J c -> J (upd_fd_map m c);
  qt_requests rs c : J c -> J (upd_frames (cl_frames c) rs (cl_next c) c);
  qt_seek d r c : J c -> J (upd_seek d r c);
  qt_trace t c : J c -> J (upd_trace t c)
}.

Class Steady (J : client -> Prop) : Prop := {
  st_log i : preserves J (log i);
  st_lookup h : preserves J (lookup_addr h);
  st_redir_at fd : preserves J (fd_redir_at fd);
  st_fd_map m c : J c -> J (upd_fd_map m c);
  st_frames fs rs n c : J c -> J (upd_frames fs rs n c);
  st_seek d r c : J c -> J (upd_seek d r c);
  st_trace t c : J c -> J (upd_trace t c)
}.

(** ... and any change of the redirections, of the client's own address and of
    the flags. *)
Class Stable (J : client -> Prop) : Prop := {
  st_steady :: Steady J;
  st_redir m c : J c -> J (upd_redir m c);
  st_self a b r c : J c -> J (upd_self a b r c);
  st_flags d i l m c : J c -> J (upd_flags d i l m c)
}.

(** ... and, for reads, a timeout. *)
Class Enduring (J : client -> Prop) : Prop := {
  en_steady :: Steady J;
  en_counters l c : J c -> J (upd_counters l c)
}.

#[export] Instance steady_quiet J : Steady J -> Quiet J.
Proof. intros [H1 H2 H3 H4 H5 H6 H7]. split; auto. Qed.

#[export] Hint Resolve qt_log qt_lookup qt_redir_at st_log st_lookup st_redir_at st_steady en_steady steady_quiet : ftc.

(** A change of one field keeps a stable invariant. *)
Ltac stable_upd :=
  first [ apply st_redir | apply st_fd_map | apply st_frames | apply st_seek | apply st_self
        | apply st_flags | apply st_trace
        | apply qt_fd_map | apply qt_requests | apply qt_seek | apply qt_trace ]; assumption.

(** Walk through a computation whose leaves are known. *)
Ltac keep :=
  repeat first
    [ progress intros
    | solve [eauto 3 with ftc]
    | solve [apply preserves_modify; intros; stable_upd]
    | apply preserves_bind
    | apply preserves_if
    | match goal with |- preserves _ (match ?x with _ => _ end) => destruct x end ].

Section KeepsQuiet.
Context (J : client -> Prop) `{!Quiet J}.

Lemma keeps_fd_map_at fd : preserves J (fd_map_at fd).
Proof. unfold fd_map_at. keep. Qed.
Lemma keeps_frame_of id : preserves J (frame_of id).
Proof. unfold frame_of. keep. Qed.
Lemma keeps_same_node a : preserves J (same_node a).
Proof. unfold same_node. keep. Qed.
Lemma keeps_request_of id : preserves J (request_of id).
Proof. unfold request_of. keep. Qed.
Lemma keeps_put_request id r : preserves J (put_request id r).
Proof. unfold put_request. keep. Qed.
Lemma keeps_free_request id : preserves J (free_request id).
Proof. unfold free_request. keep. Qed.
Lemma keeps_forward h r : preserves J (forward h r).
Proof. unfold forward. keep. Qed.

#[local] Hint Resolve keeps_fd_map_at keeps_same_node keeps_put_request keeps_forward : ftc.

Lemma keeps_log_request a b d f e : preserves J (log_request a b d f e).
Proof. unfold log_request. keep. Qed.
Lemma keeps_log_answer a b d f e : preserves J (log_answer a b d f e).
Proof. unfold log_answer. keep. Qed.

#[local] Hint Resolve keeps_log_request keeps_log_answer : ftc.

Lemma keeps_seek_cb r : preserves J (ftc_seek_cb r).
Proof. unfold ftc_seek_cb. keep. Qed.
Lemma keeps_gen_open h p fd id e : preserves J (ftc_client_comm_gen_open_rpc h p fd id e).
Proof. unfold ftc_client_comm_gen_open_rpc, ftc_comm_create_handle, ftc_comm_free_addr. keep. Qed.
Lemma keeps_gen_read h fd n off id e : preserves J (ftc_client_comm_gen_read_rpc h fd n off id e).
Proof. unfold ftc_client_comm_gen_read_rpc, ftc_comm_create_handle, ftc_comm_free_addr. keep. Qed.
Lemma keeps_gen_seek h fd off wh e : preserves J (ftc_client_comm_gen_seek_rpc h fd off wh e).
Proof. unfold ftc_client_comm_gen_seek_rpc, ftc_comm_create_handle, ftc_comm_free_addr. keep. Qed.

#[local] Hint Resolve keeps_seek_cb : ftc.

Lemma keeps_seek_block ws : preserves J (ftc_seek_block ws).
Proof. induction ws as [|w ws IH]; cbn [ftc_seek_block]; keep. Qed.
Lemma keeps_host_of hash fd : preserves J (host_of hash fd).
Proof. unfold host_of. keep. Qed.

End KeepsQuiet.

Section KeepsSteady.
Context (J : client -> Prop) `{!Steady J}.

Lemma keeps_push_frame b : preserves J (push_frame b).
Proof. unfold push_frame. keep. Qed.
Lemma keeps_pop_frame id : preserves J (pop_frame id).
Proof. unfold pop_frame. keep. Qed.
Lemma keeps_write_frame id f : preserves J (write_frame id f).
Proof. unfold write_frame, frame_of, put_frame. keep. Qed.

Lemma keeps_read_cb id r : preserves J (ftc_read_cb id r).
Proof.
  pose proof (keeps_request_of J). pose proof (keeps_log_answer J). pose proof (keeps_write_frame).
  pose proof (keeps_free_request J). unfold ftc_read_cb. keep.
Qed.

Lemma keeps_deliver cb id w : (forall i r, preserves J (cb i r)) -> preserves J (deliver cb id w).
Proof. pose proof keeps_write_frame. intros Hcb. unfold deliver. keep. Qed.

End KeepsSteady.

Section KeepsStable.
Context (J : client -> Prop) `{!Stable J}.

Lemma keeps_open_cb id r : preserves J (ftc_open_cb id r).
Proof.
  pose proof (keeps_request_of J). pose proof (keeps_log_answer J). pose proof (keeps_write_frame J).
  pose proof (keeps_free_request J). unfold ftc_open_cb. keep.
Qed.
Lemma keeps_gen_close h fd e : preserves J (ftc_client_comm_gen_close_rpc h fd e).
Proof.
  pose proof (keeps_log_request J). pose proof (keeps_forward J). unfold ftc_client_comm_gen_close_rpc, ftc_comm_create_handle, ftc_comm_free_addr. keep.
Qed.
Lemma keeps_ftc_get_addr se : preserves J (ftc_get_addr se).
Proof. unfold ftc_get_addr. keep. Qed.

End KeepsStable.

Lemma redir_at_stable (J : client -> Prop) fd :
  (forall m c, J c -> J (upd_redir m c)) -> preserves J (fd_redir_at fd).
Proof.
  intros HJ. unfold fd_redir_at. apply preserves_bind; [apply preserves_gets|]. intros m.
  destruct (m !! fd); [apply preserves_ret|]. apply preserves_bind; [|intros; apply preserves_ret].
  apply preserves_modify. auto.
Qed.

(** ** The counters *)

(** A property of the failure counters. *)
Definition on_counters (P : list Z -> Prop) (c : client) : Prop := P (timeout_counters c).

(** Every counter is between 0 and a bound: the limit, for the calls of a single
    thread, and for many threads the largest [int]. *)
Definition within (bound : Z) (l : list Z) : Prop := Forall (fun n => 0 <= n <= bound) l.
Definition in_limit : list Z -> Prop := within TIMEOUT_LIMIT.

Lemma limit_max : TIMEOUT_LIMIT <= INT_MAX.
Proof. unfold TIMEOUT_LIMIT. lia. Qed.

Section Bound.
Context (bound : Z) (Hbound : TIMEOUT_LIMIT <= bound).

Definition counters_ok : client -> Prop := on_counters (within bound).

(** The same, and the host's counter leaves room for one more timeout. *)
Definition room_for (host : Z) : client -> Prop :=
  on_counters (fun l => within bound l /\ forall n, l !! Z.to_nat host = Some n -> n < TIMEOUT_LIMIT).

Lemma counters_on_os P {A} (m : M os A) : preserves (on_counters P) (on_os m).
Proof.
  intros c a c' Hc H. unfold on_os in H. destruct (m (cl_os c)); simplify_eq. exact Hc.
Qed.

Lemma counters_sys P {A} (f : os -> A * os) : preserves (on_counters P) (sys f).
Proof. apply counters_on_os. Qed.

#[export] Instance on_counters_stable P : Stable (on_counters P).
Proof.
  split; try done. split; try done.
  - intros i. apply counters_on_os.
  - intros h c a c' Hc H. unfold lookup_addr in H. mred_in H.
    destruct (ftc_client_comm_lookup_addr _ h _) as [[r m] b]. by destruct r; simplify_eq.
  - intros fd. by apply redir_at_stable.
Qed.

Lemma inc_counter_ok host c u c' : room_for host c -> inc_counter host c = Ret u c' -> counters_ok c'.
Proof.
  intros [H1 H2] H. unfold inc_counter, counter in H. mred_in H.
  destruct (host <? 0); [done|]. destruct (timeout_counters c !! Z.to_nat host) as [n|] eqn:En; [|done].
  destruct (n =? 2 ^ 31 - 1); simplify_eq. unfold counters_ok. cbn.
  apply Forall_insert; [done|]. specialize (H2 n eq_refl).
  unfold within in H1. rewrite Forall_lookup in H1. specialize (H1 _ _ En). lia.
Qed.

(** A wait adds at most one timeout, to a host that had room for it. *)
Lemma wait_loop_ok cb host id ws : (forall i r, preserves (room_for host) (cb i r)) ->
  triple (room_for host) (wait_loop cb host id ws) (fun _ => counters_ok).
Proof.
  intros Hcb. induction ws as [|w ws IH]; intros c a c' Hr H; cbn [wait_loop] in H;
    apply bind_inv in H as (f & c1 & H1 & H);
    apply (keeps_frame_of (room_for host) id) in H1; try done;
    (destruct (fr_done f); [mred_in H; simplify_eq; apply H1|]).
  - done.
  - apply bind_inv in H as (u & c2 & H2 & H).
    apply (keeps_deliver (room_for host) cb id w Hcb) in H2; [|done].
    destruct (wk_timedout w); [|by eapply IH].
    apply bind_inv in H as (u' & c3 & H3 & H). mred_in H. simplify_eq. by eapply inc_counter_ok.
Qed.

(** After the limit test the host has room. *)
Lemma skip_host_room host c b c' : counters_ok c -> skip_host host c = Ret b c' ->
  c' = c /\ (b = false -> room_for host c).
Proof.
  intros Hok H. unfold skip_host, counter in H. mred_in H.
  destruct (host <? 0); [done|]. destruct (timeout_counters c !! Z.to_nat host) as [n|] eqn:En; [|done].
  simplify_eq. split; [done|]. intros Hn. split; [done|]. intros k Hk. zbool. congruence.
Qed.

Section Counters.
Context (hash : string -> Z).

Lemma transfer_counters fd count off buf e : preserves counters_ok (remote_transfer hash fd count off buf e).
Proof.
  intros c a c' Hok H. unfold remote_transfer in H.
  apply bind_inv in H as (tr & c0 & H0 & H). unfold ftc_file_tracked in H0. mred_in H0. simplify_eq.
  destruct (negb _); [mred_in H; by simplify_eq|].
  apply bind_inv in H as (host & c1 & H1 & H).
  apply (keeps_host_of counters_ok hash fd) in H1; [|done].
  apply bind_inv in H as (b & c2 & H2 & H). destruct (skip_host_room _ _ _ _ H1 H2) as [-> Hroom].
  destruct b; [mred_in H; by simplify_eq|]. specialize (Hroom eq_refl).
  apply bind_inv in H as (id & c3 & H3 & H).
  apply (keeps_push_frame (room_for host) buf) in H3; [|done].
  apply bind_inv in H as (u & c4 & H4 & H).
  apply (keeps_gen_read (room_for host) host fd count off id e) in H4; [|done].
  apply bind_inv in H as (v & c5 & H5 & H). unfold ftc_read_block in H5.
  apply bind_inv in H5 as (tm & c6 & H6 & H5).
  apply (wait_loop_ok ftc_read_cb host id (ce_wakes e)) in H6; [|by intros; apply keeps_read_cb, _|done].
  assert (H5' : counters_ok c5).
  { revert H5. destruct tm; [intros H5; mred_in H5; by simplify_eq|].
    intros (f & c7 & H7 & H5)%bind_inv. apply (keeps_frame_of counters_ok id) in H7; [|done].
    mred_in H5. by simplify_eq. }
  apply bind_inv in H as (f & c7 & H7 & H). apply (keeps_frame_of counters_ok id) in H7; [|done].
  apply bind_inv in H as (u' & c8 & H8 & H). apply (keeps_pop_frame counters_ok id) in H8; [|done].
  mred_in H. by simplify_eq.
Qed.

(** A close never changes them. *)
Lemma keeps_remote_close_stable J `{!Stable J} fd e : preserves J (ftc_remote_close hash fd e).
Proof.
  unfold ftc_remote_close. apply preserves_bind; [apply preserves_gets|]. intros tr.
  destruct (negb tr); [apply preserves_ret|].
  apply preserves_bind; [apply keeps_host_of, _|]. intros host.
  apply preserves_bind; [unfold skip_host, counter; keep|]. intros [|]; [apply preserves_ret|].
  apply keeps_gen_close, _.
Qed.

Lemma keeps_remove_fd J `{!Stable J} fd e : preserves J (ftc_remove_fd hash fd e).
Proof.
  unfold ftc_remove_fd. apply preserves_bind; [apply preserves_gets|]. intros m.
  case_decide; [apply preserves_ret|]. apply preserves_bind; [by apply keeps_remote_close_stable|]. intros _.
  keep.
Qed.

Lemma remote_lseek_counters fd off wh e : preserves counters_ok (ftc_remote_lseek hash fd off wh e).
Proof.
  unfold ftc_remote_lseek. apply preserves_bind; [apply preserves_gets|]. intros tr.
  destruct (negb tr); [apply preserves_ret|].
  apply preserves_bind; [apply keeps_host_of, _|]. intros host.
  apply preserves_bind; [apply keeps_gen_seek, _|]. intros _.
  apply keeps_seek_block, _.
Qed.

Lemma remove_fd_counters fd e : preserves counters_ok (ftc_remove_fd hash fd e).
Proof. apply keeps_remove_fd, _. Qed.

End Counters.

(** The start of Mercury, for an invariant that the counters are part of. *)
Lemma start_mercury_stable J `{!Stable J} se :
  (forall c u c', J c -> initialize_timeout_counters (i32 (g_ftc_server_count c)) c = Ret u c' -> J c') ->
  (forall r, preserves J (on_os (initialize_log r "client"))) -> preserves J (start_mercury se).
Proof.
  intros Hinit Hlog. unfold start_mercury.
  apply preserves_bind; [apply preserves_gets|]. intros [|]; [apply preserves_ret|].
  do 3 (apply preserves_bind; [apply preserves_gets|]; intros ?).
  apply preserves_bind; [keep|]. intros _ c v c' Hc H.
  apply bind_inv in H as (count & c1 & H1 & H). mred_in H1. simplify_eq.
  apply bind_inv in H as (u & c2 & H2 & H). apply (Hinit c1) in H2; [|done]. revert H2 H. apply preserves_bind; [apply preserves_gets|].
  intros r. apply preserves_bind; [apply preserves_defined|]. intros r'.
  apply preserves_bind; [apply Hlog|]. intros _. apply keeps_ftc_get_addr, _.
Qed.

(** The start of Mercury may only change the length of the vector. *)
Lemma resize_on_counters P n : (forall m l, P l -> P (resize m 0 l)) ->
  preserves (on_counters P) (initialize_timeout_counters n).
Proof.
  intros HP. unfold initialize_timeout_counters. destruct (n <? 0); [apply preserves_die|].
  apply preserves_modify. intros c Hc. by apply HP.
Qed.

Lemma start_mercury_on_counters P se : (forall m l, P l -> P (resize m 0 l)) ->
  preserves (on_counters P) (start_mercury se).
Proof.
  intros HP. apply start_mercury_stable; [apply _| |intros r; apply counters_on_os].
  intros c u c'. by apply resize_on_counters.
Qed.

Section OpenCounters.
Context (hash : string -> Z).

Lemma start_mercury_counters se : preserves counters_ok (start_mercury se).
Proof.
  apply start_mercury_on_counters. intros m l Hl. apply Forall_resize; [|exact Hl].
  unfold TIMEOUT_LIMIT in Hbound. lia.
Qed.

(** From the limit test to the end of an open. *)
Lemma open_rpc_counters fd host e c1 c' a :
  room_for host c1 ->
  (let* id := push_frame [] in
   let* p := fd_map_at fd in
   ftc_client_comm_gen_open_rpc host p fd id e;;
   ftc_client_block host id (ce_wakes e);;
   pop_frame id;; mret true) c1 = Ret a c' -> counters_ok c'.
Proof.
  intros Hroom H.
  apply bind_inv in H as (id & c3 & H3 & H).
  apply (keeps_push_frame (room_for host) []) in H3; [|done].
  apply bind_inv in H as (p & c4 & H4 & H).
  apply (keeps_fd_map_at (room_for host) fd) in H4; [|done].
  apply bind_inv in H as (u & c5 & H5 & H).
  apply (keeps_gen_open (room_for host) host p fd id e) in H5; [|done].
  apply bind_inv in H as (u' & c6 & H6 & H). unfold ftc_client_block in H6.
  apply bind_inv in H6 as (tm & c7 & H7 & H6). mred_in H6. simplify_eq.
  apply (wait_loop_ok ftc_open_cb host id (ce_wakes e)) in H7; [|by intros; apply keeps_open_cb, _|done].
  apply bind_inv in H as (u'' & c8 & H8 & H).
  apply (keeps_pop_frame counters_ok id) in H8; [|done]. mred_in H. by simplify_eq.
Qed.

Lemma track_file_counters path flags fd se e : preserves counters_ok (ftc_track_file hash path flags fd se e).
Proof.
  unfold ftc_track_file. destruct (find_sub _ _); [apply preserves_ret|].
  do 2 (apply preserves_if; [apply preserves_ret|]).
  apply preserves_bind; [apply preserves_gets|]. intros [canon|]; [|apply preserves_ret].
  apply preserves_bind; [keep|]. intros _.
  apply preserves_bind; [apply start_mercury_counters|]. intros _.
  apply preserves_bind; [apply keeps_host_of, _|]. intros host.
  intros c a c' Hok H. apply bind_inv in H as (b & c1 & H1 & H).
  destruct (skip_host_room _ _ _ _ Hok H1) as [-> Hroom].
  destruct b; [mred_in H; by simplify_eq|]. by eapply open_rpc_counters; [apply Hroom|].
Qed.

Lemma wrap_open_counters path flags se e : preserves counters_ok (wrap_open hash path flags se e).
Proof.
  unfold wrap_open. apply preserves_bind; [apply preserves_gets|]. intros [|];
    [apply counters_sys|].
  apply preserves_bind; [apply counters_sys|]. intros ret.
  apply preserves_bind; [|intros; apply preserves_ret].
  destruct (ret =? -1); [apply preserves_ret|].
  apply preserves_bind; [apply track_file_counters|intros; apply preserves_ret].
Qed.

Lemma wrap_fopen_counters path mode se e : preserves counters_ok (wrap_fopen hash path mode se e).
Proof.
  assert (Hr : preserves counters_ok (real_fopen path mode)).
  { unfold real_fopen. destruct (fopen_flags mode); [|apply preserves_ret].
    apply counters_sys. }
  unfold wrap_fopen. apply preserves_bind; [apply preserves_gets|]. intros [|]; [exact Hr|].
  apply preserves_bind; [exact Hr|]. intros ret.
  apply preserves_bind; [|intros; apply preserves_ret].
  destruct (ret =? -1); [apply preserves_ret|].
  apply preserves_bind; [apply track_file_counters|intros; apply preserves_ret].
Qed.

Lemma wrap_close_counters fd e : preserves counters_ok (wrap_close hash fd e).
Proof.
  unfold wrap_close. apply preserves_bind; [apply preserves_gets|]. intros [|];
    [apply counters_sys|].
  apply preserves_bind; [apply preserves_gets|]. intros path.
  apply preserves_bind; [|intros; apply counters_sys].
  destruct path; [|apply preserves_ret].
  apply preserves_bind; [apply remove_fd_counters|intros; apply preserves_ret].
Qed.

Lemma real_read_counters fd n b : preserves counters_ok (real_read fd n b).
Proof.
  unfold real_read. apply preserves_bind; [apply counters_sys|].
  intros [d|]; apply preserves_ret.
Qed.

Lemma real_pread_counters fd n off b : preserves counters_ok (real_pread fd n off b).
Proof.
  unfold real_pread. apply preserves_bind; [apply preserves_gets|]. intros o.
  destruct (posix_pread fd n off o); apply preserves_ret.
Qed.

Lemma wrap_read_counters fd n b e : preserves counters_ok (wrap_read hash fd n b e).
Proof.
  unfold wrap_read. apply preserves_bind; [apply transfer_counters|]. intros r.
  apply preserves_if; [|apply preserves_ret].
  apply preserves_bind; [apply real_read_counters|intros; apply preserves_ret].
Qed.

Lemma wrap_pread_counters fd n off b e : preserves counters_ok (wrap_pread hash fd n off b e).
Proof.
  unfold wrap_pread. apply preserves_bind; [apply preserves_gets|]. intros [p|]; [|apply real_pread_counters].
  apply preserves_bind; [apply transfer_counters|]. intros r.
  apply preserves_if; [apply real_pread_counters|apply preserves_ret].
Qed.

Lemma wrap_lseek_counters fd off wh e : preserves counters_ok (wrap_lseek hash fd off wh e).
Proof.
  unfold wrap_lseek. apply preserves_bind; [apply preserves_gets|]. intros [|];
    [apply counters_sys|].
  apply preserves_bind; [apply preserves_gets|]. intros [|]; [apply remote_lseek_counters|].
  apply counters_sys.
Qed.

End OpenCounters.

(** The calls an application makes. *)
Inductive app_call : Type :=
  | AOpen (path : string) (flags : Z)
  | AFopen (path mode : string)
  | AClose (fd : Z)
  | ARead (fd count : Z) (buf : list byte)
  | APread (fd count offset : Z) (buf : list byte)
  | ALseek (fd offset whence : Z)
  | AWrite (fd : Z) (data : list byte).

Definition app_run (hash : string -> Z) (se : self_env) (e : cl_env) (a : app_call) : C Z :=
  match a with
  | AOpen path flags => wrap_open hash path flags se e
  | AFopen path mode => wrap_fopen hash path mode se e
  | AClose fd => wrap_close hash fd e
  | ARead fd count buf => let* r := wrap_read hash fd count buf e in mret r.1
  | APread fd count offset buf => let* r := wrap_pread hash fd count offset buf e in mret r.1
  | ALseek fd offset whence => wrap_lseek hash fd offset whence e
  | AWrite fd data => wrap_write fd data
  end.

Lemma app_run_counters hash se e a : preserves counters_ok (app_run hash se e a).
Proof.
  destruct a; simpl; try (apply preserves_bind; [|intros; apply preserves_ret]);
    auto using wrap_open_counters, wrap_fopen_counters, wrap_close_counters, wrap_read_counters,
      wrap_pread_counters, wrap_lseek_counters.
  apply counters_sys.
Qed.

(** A run of the application: every call with its own environment. *)
Fixpoint app_runs (hash : string -> Z) (se : self_env) (l : list (cl_env * app_call)) : C unit :=
  match l with
  | [] => mret tt
  | (e, a) :: l' => app_run hash se e a;; app_runs hash se l'
  end.

Lemma app_runs_counters hash se l : preserves counters_ok (app_runs hash se l).
Proof.
  induction l as [|[e a] l IH]; simpl; [apply preserves_ret|].
  apply preserves_bind; [apply app_run_counters|done].
Qed.

End Bound.

(** ** The whole API *)

(** Reads. *)
Section Transfer.
Context (J : client -> Prop) `{!Enduring J} (hash : string -> Z).

Lemma keeps_counter h : preserves J (counter h).
Proof. unfold counter. keep. Qed.
Lemma keeps_skip_host h : preserves J (skip_host h).
Proof. unfold skip_host. pose proof keeps_counter. keep. Qed.
Lemma keeps_inc_counter h : preserves J (inc_counter h).
Proof.
  unfold inc_counter. apply preserves_bind; [apply keeps_counter|]. intros n. apply preserves_if; [keep|].
  apply preserves_modify. intros c. apply en_counters.
Qed.

Lemma keeps_wait_loop cb h id ws : (forall i r, preserves J (cb i r)) -> preserves J (wait_loop cb h id ws).
Proof.
  intros Hcb. induction ws as [|w ws IH]; cbn [wait_loop];
    (apply preserves_bind; [apply (keeps_frame_of J)|]; intros f; apply preserves_if; [keep|]); [keep|].
  apply preserves_bind; [by apply (keeps_deliver J)|]. intros _. apply preserves_if; [|exact IH].
  apply preserves_bind; [apply keeps_inc_counter|keep].
Qed.

Lemma keeps_transfer fd n off buf e : preserves J (remote_transfer hash fd n off buf e).
Proof.
  unfold remote_transfer, ftc_read_block.
  pose proof (keeps_host_of J hash). pose proof (keeps_push_frame J). pose proof (keeps_pop_frame J).
  pose proof (keeps_frame_of J). pose proof (keeps_gen_read J). pose proof keeps_skip_host.
  pose proof (fun h id ws => keeps_wait_loop ftc_read_cb h id ws (keeps_read_cb J)). keep.
Qed.

End Transfer.

(** An invariant that also tolerates a timeout and the start of Mercury. *)
Class Robust (J : client -> Prop) : Prop := {
  rb_stable :: Stable J;
  rb_counters l c : J c -> J (upd_counters l c);
  rb_init_log r : preserves J (on_os (initialize_log r "client"))
}.

#[export] Instance robust_enduring (J : client -> Prop) : Robust J -> Enduring J.
Proof. intros HJ. split; [apply _|apply rb_counters]. Qed.

Section Api.
Context (J : client -> Prop) `{!Robust J} (hash : string -> Z).

Lemma keeps_remote_close fd e : preserves J (ftc_remote_close hash fd e).
Proof.
  unfold ftc_remote_close. pose proof (keeps_host_of J hash). pose proof (keeps_gen_close J).
  pose proof (keeps_skip_host J). keep.
Qed.

Lemma keeps_start_mercury se : preserves J (start_mercury se).
Proof.
  unfold start_mercury, initialize_timeout_counters. pose proof (keeps_ftc_get_addr J). pose proof rb_init_log.
  keep. apply preserves_modify. intros c. apply rb_counters.
Qed.

Lemma keeps_track_file path flags fd se e : preserves J (ftc_track_file hash path flags fd se e).
Proof.
  unfold ftc_track_file, ftc_client_block.
  pose proof (keeps_host_of J hash). pose proof (keeps_push_frame J). pose proof (keeps_pop_frame J).
  pose proof (keeps_fd_map_at J). pose proof (keeps_gen_open J). pose proof (keeps_skip_host J).
  pose proof (fun h id ws => keeps_wait_loop J ftc_open_cb h id ws (keeps_open_cb J)).
  pose proof keeps_start_mercury. keep.
Qed.

End Api.

(** ** The servers' addresses *)

(** Every server is in the registry or in the cache, and no log file is the
    registry. *)
Record addressed (c : client) : Prop := {
  ad_apart r : log_filename (getenv (cl_os c) LOG_DIR) "client" r <>
               Server.ports_cfg (getenv (cl_os c) "MY_JOBID");
  ad_known h : 0 <= h < g_ftc_server_count c -> host_known c h
}.

(** A log file changed. *)
Lemma addressed_text f s c : addressed c -> (exists r, f = log_filename (getenv (cl_os c) LOG_DIR) "client" r) ->
  addressed (upd_os (set_text (<[f := s]> (os_text (cl_os c))) (cl_os c)) c).
Proof.
  intros [H1 H2] [r ->]. split; [exact H1|]. intros h Hh. destruct (H2 h Hh) as [a Ha]. exists a.
  rewrite <- Ha. cbn. by rewrite lookup_insert_ne by apply H1.
Qed.

Lemma addressed_log i : preserves addressed (log i).
Proof.
  intros c [] c' Hc H. unfold log, on_os, logging_info in H.
  assert (Hid : addressed (upd_os (cl_os c) c)) by by destruct c.
  destruct (LogInfo.server_rank i) as [sr|]; [|done]. destruct (can_create _ _); [|by simplify_eq].
  destruct (log_line i) as [l|]; simplify_eq. apply addressed_text; [done|]. by exists sr.
Qed.

Lemma addressed_lookup h : preserves addressed (lookup_addr h).
Proof.
  intros c a c' Hc H. unfold lookup_addr in H. mred_in H.
  destruct (ftc_client_comm_lookup_addr _ h (address_cache c)) as [[r m] opened] eqn:E.
  set (o := leave_stream opened (cl_os c)) in H.
  assert (Eo : os_text o = os_text (cl_os c) /\ os_env o = os_env (cl_os c)) by (unfold o; by destruct opened).
  assert (Hm : forall k, k <> h -> m !! k = address_cache c !! k).
  { intros k Hk. unfold ftc_client_comm_lookup_addr in E.
    repeat (case_match; simplify_eq; try done). by apply lookup_insert_ne. }
  assert (Hh : forall b, r = LAddr b -> m !! h = Some b).
  { intros b ->. unfold ftc_client_comm_lookup_addr in E.
    repeat (case_match; simplify_eq; try done). apply lookup_insert_eq. }
  assert (c' = upd_cache m (upd_os o c)) as -> by (by destruct r; simplify_eq). clear H.
  destruct Hc as [H1 H2]. destruct Eo as [Et Ee].
  split; [intros r'; cbn; unfold getenv; rewrite Ee; apply H1|].
  intros k Hk. destruct (H2 k Hk) as [b Hb]. exists b. unfold getenv in *.
  cbn [cl_os address_cache upd_cache upd_os]. rewrite Et, Ee.
  destruct (decide (k = h)) as [->|Hne].
  - rewrite E in Hb. unfold ftc_client_comm_lookup_addr. by rewrite (Hh b Hb).
  - unfold ftc_client_comm_lookup_addr in Hb |- *. rewrite Hm by done.
    destruct (address_cache c !! k); [exact Hb|]. destruct (os_text (cl_os c) !! _) as [file|]; [|exact Hb].
    by destruct (scan_ports (length file) k file).
Qed.

#[export] Instance addressed_robust : Robust addressed.
Proof.
  split.
  - split; [split|..]; try (by intros; destruct_and?; match goal with H : addressed _ |- _ => destruct H; split end).
    + apply addressed_log.
    + apply addressed_lookup.
    + intros fd. apply redir_at_stable. by intros m c [].
  - by intros l c [H1 H2]; split.
  - intros r c [] c' Hc H. unfold on_os, initialize_log in H. destruct (can_create _ _); simplify_eq.
    apply addressed_text; [done|]. by exists r.
Qed.

End ClientInv.
