(* ===== verification/ClientProps.v ===== *)
(** * The client library is correct

    The properties of the intercepted calls: a positioned read returns what the
    plain call would whatever the servers and the network do, a host that timed
    out three times gets no more requests, the counters stay in their range,
    and the errors the client has. *)

From S2P Require Import Prelude CString HexDump Address Posix LogInfo Server ServerSpec Client Wrappers ClientSpec ClientInv.
Import Address Posix LogInfo Client Wrappers ClientSpec ClientInv.
Import ServerSpec(rpc, ROpen, RRead, RSeek, RClose).

Module ClientProps.

(** A positioned read of a readable descriptor. *)
Lemma wrap_pread_run hash fd count offset buf e c d :
  client_ok c -> env_ok e ->
  (forall p, fd_map c !! fd = Some p -> host_known c (host_for hash c p)) ->
  readable (cl_os c) fd = Some d -> 0 <= offset ->
  honest (zslice d offset (Z.min count MAX_RW_COUNT)) false (ce_wakes e) -> ends (ce_wakes e) ->
  exists r c', real_pread fd count offset buf c = Ret r c /\
    wrap_pread hash fd count offset buf e c = Ret r c' /\
    r.1 = Z.of_nat (length (zslice d offset (Z.min count MAX_RW_COUNT))) /\
    exists p, cl_os c' = patched p (cl_os c).
Proof.
  intros Hok He Hkn Hd Ho Hon Hen. set (sl := zslice _ _ _) in *.
  assert (Hp : forall o, readable o fd = Some d -> posix_pread fd count offset o = Some sl).
  { intros o Hr. unfold posix_pread. rewrite Hr. cbn [mbind option_bind].
    by rewrite (proj2 (Z.ltb_ge offset 0)). }
  assert (Hreal : forall b c0, readable (cl_os c0) fd = Some d ->
    real_pread fd count offset b c0 = Ret (Z.of_nat (length sl), write_front sl b) c0).
  { intros b c0 Hr. unfold real_pread. mred. by rewrite (Hp _ Hr). }
  rewrite (Hreal buf c Hd). exists (Z.of_nat (length sl), write_front sl buf).
  unfold wrap_pread, ftc_get_path. mred. destruct (fd_map c !! fd) as [p|] eqn:Ep; cycle 1.
  { exists c. rewrite Hreal by done. split_and!; [done..|]. eexists. apply patched_same. }
  destruct (remote_transfer_run hash fd count offset buf sl e c p Hok He Ep (Hkn p eq_refl) Hon Hen)
    as (v & b & c' & Hr & [Hv [t Hos] _ _ _ _ _]).
  unfold ftc_remote_pread. rewrite Hr. exists c'.
  assert (Hfds : exists p, cl_os c' = patched p (cl_os c)) by by exists t.
  destruct Hv as [[-> Hb]|[-> ->]]; cbn [fst snd].
  - change (-1 <? 0) with true. cbv iota. rewrite Hreal by (rewrite Hos, patched_readable; exact Hd).
    destruct Hb as [->| ->]; [done|]. by rewrite (write_front_idem sl buf).
  - by rewrite (proj2 (Z.ltb_ge (Z.of_nat (length sl)) 0)) by lia.
Qed.

End ClientProps.
Import ClientProps.

(** ** A concrete client for the witnesses *)

Module ClientExample.

Definition data : list byte := [Byte.x41; Byte.x42; Byte.x43; Byte.x44; Byte.x45].
Definition os_c : os :=
  mk_os {["/pfs/f"%string := 0%nat; "/tmp/g"%string := 1%nat]} {["/pfs"%string; "/tmp"%string]} ∅
    {[0%nat := data; 1%nat := [Byte.x5a]]} ∅
    {[0 := OFile 1 0 true true false; 1 := OFile 1 0 true true false; 2 := OFile 1 0 true true false;
      3 := OFile 0 0 true false false]} "/pfs" ∅ ∅ [] (0, 0).

(** One server; descriptor 3 is the tracked file, served as descriptor 7. *)
Definition cl (n : Z) : client :=
  mk_client os_c {[3 := "/pfs/f"%string]} {[3 := 7]} [n] {[0 := "tcp://s:1"%string]} 1 (Some "/pfs"%string)
    false false true false true true (strncpy (uninit 128) (of_string "tcp://c") 128) 0 0 (-1) ∅ ∅ 0 [].

Definition hash0 (s : string) : Z := 5.

Definition addr_s : cbuf := strncpy (uninit 128) (of_string "tcp://s:1") 128.
Definition env (ws : list wake) : cl_env := mk_env 0 true true 0 addr_s 0 0 ws.

Definition ok_reply (out : Z) : reply := mk_reply 0 0 out (Some addr_s) 0 0 0.

(** A spurious wake-up, then two bytes and the answer. *)
Definition good_wakes : list wake :=
  [mk_wake None None false; mk_wake (Some [Byte.x42; Byte.x43]) (Some (ok_reply 2)) false].
Definition dead_wakes : list wake := [mk_wake None None false; mk_wake None None true].

Lemma cl_ok n : 0 <= n <= 3 -> client_ok (cl n).
Proof.
  intros Hn. split; simpl.
  - lia.
  - reflexivity.
  - apply Forall_singleton. unfold TIMEOUT_LIMIT. lia.
  - vm_compute. by eexists.
  - done.
Qed.

Lemma cl_known n : host_known (cl n) (host_for hash0 (cl n) "/pfs/f").
Proof. by eexists. Qed.

Lemma env_is_ok ws : env_ok (env ws).
Proof. split; try done. vm_compute. by eexists. Qed.

Lemma ok_reply_ok out : reply_ok (ok_reply out).
Proof. split; try done. exists addr_s. split; [done|]. vm_compute. by eexists. Qed.

Lemma good_honest : honest [Byte.x42; Byte.x43] false good_wakes.
Proof.
  split; [by left|]. split; [by right|]. split; [apply ok_reply_ok|]. by right.
Qed.

Lemma good_ends : ends good_wakes.
Proof. right. left. right. by eexists. Qed.

Lemma dead_silent : silent dead_wakes.
Proof. split; [by repeat constructor|]. right. by left. Qed.

End ClientExample.
Import ClientExample.

(** ** Properties *)

(** A positioned read through the library is transparent.  Whatever the
    timeouts, spurious wake-ups and answers of an honest server, and whether or
    not the host has been given up, [pread] returns the count and leaves the
    buffer that the plain [pread] of the same descriptor would, and on the node
    of the process only log files change and descriptors are taken for streams. *)
Lemma pread_transparent hash fd count offset buf e c d :
  client_ok c -> env_ok e ->
  (forall p, fd_map c !! fd = Some p -> host_known c (host_for hash c p)) ->
  readable (cl_os c) fd = Some d -> 0 <= offset ->
  honest (zslice d offset (Z.min count MAX_RW_COUNT)) false (ce_wakes e) -> ends (ce_wakes e) ->
  exists r c', real_pread fd count offset buf c = Ret r c /\
    wrap_pread hash fd count offset buf e c = Ret r c' /\
    r.1 = Z.of_nat (length (zslice d offset (Z.min count MAX_RW_COUNT))) /\
    exists p, cl_os c' = patched p (cl_os c).
Proof.
  intros. by apply wrap_pread_run.
Qed.

Lemma pread_transparent_witness :
  exists r c', real_pread 3 2 1 (replicate 4 Byte.x00) (cl 2) = Ret r (cl 2) /\
    wrap_pread hash0 3 2 1 (replicate 4 Byte.x00) (env good_wakes) (cl 2) = Ret r c' /\
    r.1 = Z.of_nat (length (zslice data 1 (Z.min 2 MAX_RW_COUNT))) /\
    exists p, cl_os c' = patched p (cl_os (cl 2)).
Proof.
  apply (pread_transparent hash0 3 2 1 (replicate 4 Byte.x00) (env good_wakes) (cl 2) data).
  - apply cl_ok. lia.
  - apply env_is_ok.
  - intros p [= <-]. apply cl_known.
  - vm_compute. reflexivity.
  - lia.
  - exact good_honest.
  - exact good_ends.
Defined.

(** The failure counters stay within the limit.  Along any run of the
    application, whatever Mercury answers, no host's counter exceeds three:
    each host costs a process at most three timeouts. *)
Lemma timeouts_bounded hash se l c c' :
  Forall (fun n => 0 <= n <= TIMEOUT_LIMIT) (timeout_counters c) ->
  app_runs hash se l c = Ret tt c' ->
  Forall (fun n => 0 <= n <= TIMEOUT_LIMIT) (timeout_counters c').
Proof. intros H. by apply (app_runs_counters TIMEOUT_LIMIT). Qed.

Lemma timeouts_bounded_witness :
  exists c', app_runs hash0 (mk_self addr_s true)
      [(env dead_wakes, APread 3 2 0 []); (env dead_wakes, APread 3 2 0 [])] (cl 2) = Ret tt c' /\
    Forall (fun n => 0 <= n <= TIMEOUT_LIMIT) (timeout_counters c').
Proof.
  destruct (app_runs hash0 (mk_self addr_s true)
      [(env dead_wakes, APread 3 2 0 []); (env dead_wakes, APread 3 2 0 [])] (cl 2)) as [[] c'|w c'|c'] eqn:E.
  - exists c'. split; [reflexivity|].
    refine (timeouts_bounded hash0 (mk_self addr_s true) _ (cl 2) c' _ E). apply Forall_singleton. vm_compute. split; discriminate.
  - vm_compute in E. discriminate E.
  - vm_compute in E. discriminate E.
Defined.

(** C14: a host that reached the limit gets no more read, open or close requests:
    reads report failure, which sends the caller to the local file, a close
    only forgets the descriptor, and nothing is sent.  A seek, however, does
    not look at the limit: it is sent, and waits for ever when the host is
    silent. *)
Theorem failed_host_skipped hash fd count offset whence buf e c p :
  client_ok c -> env_ok e -> fd_map c !! fd = Some p -> host_known c (host_for hash c p) ->
  timeout_counters c !! Z.to_nat (hash p mod g_ftc_server_count c) = Some TIMEOUT_LIMIT ->
  ftc_remote_read hash fd count buf e c = Ret (-1, buf) c /\
  ftc_remote_pread hash fd count offset buf e c = Ret (-1, buf) c /\
  ftc_remove_fd hash fd e c = Ret true (upd_fd_map (delete fd (fd_map c)) c) /\
  (silent (ce_wakes e) -> exists c',
     ftc_remote_lseek hash fd offset whence e c = Blocked c' /\
     cl_trace c' = cl_trace c ++ [CForward (hash p mod g_ftc_server_count c)
       (RSeek (Server.mk_seek_in (default 0 (fd_redir_map c !! fd)) offset whence))]).
Proof.
  intros Hok He Hp Hkn Hlim. pose proof (host_for_range hash c p Hok) as Hh.
  fold (host_for hash c p) in *.
  assert (Hskip : skip_host (host_for hash c p) c = Ret true c).
  { unfold skip_host, counter. mred. by rewrite (proj2 (Z.ltb_ge (host_for hash c p) 0)), Hlim by lia. }
  assert (Htr : forall off, remote_transfer hash fd count off buf e c = Ret (-1, buf) c).
  { intros off. unfold remote_transfer, ftc_file_tracked. mred.
    rewrite Hp, bool_decide_true by (by eexists). cbn [negb].
    rewrite (host_of_run hash c fd p Hok Hp). by rewrite Hskip. }
  split; [apply Htr|]. split; [apply Htr|]. split.
  - unfold ftc_remove_fd, ftc_remote_close, ftc_file_tracked. mred.
    rewrite decide_False by (intros E; by rewrite E in Hp).
    rewrite Hp, bool_decide_true by (by eexists). cbn [negb].
    rewrite (host_of_run hash c fd p Hok Hp), Hskip. mred.
    by rewrite Hp, bool_decide_true by (by eexists).
  - intros [Hs _]. unfold ftc_remote_lseek, ftc_file_tracked. mred.
    rewrite Hp, bool_decide_true by (by eexists). cbn [negb].
    rewrite (host_of_run hash c fd p Hok Hp). unfold ftc_client_comm_gen_seek_rpc, ftc_comm_create_handle, ftc_comm_free_addr. mred.
    set (c1 := upd_seek _ _ c).
    destruct (lookup_addr_run (host_for hash c p) c1) as (a & m & n & -> & _); [exact Hkn|].
    destruct He as [E1 E2 E3 E4 E5 E6 E7]. rewrite E1, E6, E7. change (0 =? 0) with true. mred.
    set (c2 := upd_cache _ _). destruct (fd_redir_at_run fd c2) as (rm & -> & _). unfold forward. mred.
    eexists. split; [by apply seek_block_silent|]. reflexivity.
Qed.

Lemma failed_host_skipped_witness :
  ftc_remote_read hash0 3 2 [] (env dead_wakes) (cl 3) = Ret (-1, []) (cl 3) /\
  ftc_remote_pread hash0 3 2 1 [] (env dead_wakes) (cl 3) = Ret (-1, []) (cl 3) /\
  ftc_remove_fd hash0 3 (env dead_wakes) (cl 3) =
    Ret true (upd_fd_map (delete 3 (fd_map (cl 3))) (cl 3)) /\
  (silent (ce_wakes (env dead_wakes)) -> exists c',
     ftc_remote_lseek hash0 3 1 0 (env dead_wakes) (cl 3) = Blocked c' /\
     cl_trace c' = cl_trace (cl 3) ++ [CForward (hash0 "/pfs/f" mod g_ftc_server_count (cl 3))
       (RSeek (Server.mk_seek_in (default 0 (fd_redir_map (cl 3) !! 3)) 1 0))]).
Proof.
  apply (failed_host_skipped hash0 3 2 1 0 [] (env dead_wakes) (cl 3) "/pfs/f").
  - apply cl_ok. lia.
  - apply env_is_ok.
  - vm_compute. reflexivity.
  - apply cl_known.
  - vm_compute. reflexivity.
Defined.

(** C36: an answer that comes too late is undefined behaviour.  After a read that
    timed out, the call has returned and its locals are gone, but the request is
    still pending; when its answer arrives, the callback writes through the
    pointers to those locals. *)
Theorem late_answer_is_undefined hash fd count offset buf e c p k r :
  client_ok c -> env_ok e -> fd_map c !! fd = Some p -> host_known c (host_for hash c p) ->
  silent (ce_wakes e) ->
  timeout_counters c !! Z.to_nat (hash p mod g_ftc_server_count c) = Some k -> k < TIMEOUT_LIMIT ->
  rp_ret r = 0 -> rp_get r = 0 ->
  exists c', ftc_remote_pread hash fd count offset buf e c = Ret (-1, buf) c' /\
    ftc_read_cb (cl_next c) r c' = Dies UndefinedBehaviour c'.
Proof.
  intros Hok He Hp Hkn Hs Hk Hlt R1 R2.
  destruct (remote_transfer_silent hash fd count offset buf e c p k Hok He Hp Hkn Hs Hk Hlt)
    as (c' & Hr & Hf & Hq & _). exists c'. split; [exact Hr|]. by eapply read_cb_dangling.
Qed.

Lemma late_answer_is_undefined_witness :
  exists c', ftc_remote_pread hash0 3 2 1 [] (env dead_wakes) (cl 0) = Ret (-1, []) c' /\
    ftc_read_cb (cl_next (cl 0)) (ok_reply 2) c' = Dies UndefinedBehaviour c'.
Proof.
  apply (late_answer_is_undefined hash0 3 2 1 [] (env dead_wakes) (cl 0) "/pfs/f" 0).
  - apply cl_ok. lia.
  - apply env_is_ok.
  - vm_compute. reflexivity.
  - apply cl_known.
  - exact dead_silent.
  - vm_compute. reflexivity.
  - vm_compute. reflexivity.
  - reflexivity.
  - reflexivity.
Defined.

(** C35: sequential reads keep two positions.  A [read] of a tracked file is
    either answered remotely, with the bytes of the server's descriptor, and
    then the local descriptor does not move, or it falls back to the local
    descriptor at its own position: bytes that were read remotely are delivered
    again after the first timeout.  The other descriptors stay as they are,
    except that the look-up of the server may have taken one for good. *)
Theorem read_remote_or_local hash fd count buf sl e c p d f :
  client_ok c -> env_ok e -> fd_map c !! fd = Some p -> host_known c (host_for hash c p) ->
  honest sl false (ce_wakes e) -> ends (ce_wakes e) -> Z.of_nat (length sl) < 2 ^ 31 ->
  os_fds (cl_os c) !! fd = Some f -> readable (cl_os c) fd = Some d ->
  let loc := zslice d (of_off f) (Z.min count MAX_RW_COUNT) in
  exists ret b c' n, wrap_read hash fd count buf e c = Ret (ret, b) c' /\
    ((ret = Z.of_nat (length sl) /\ b = write_front sl buf /\
        os_fds (cl_os c') = taken_fds n (os_fds (cl_os c)) /\ os_fds (cl_os c') !! fd = Some f) \/
     (ret = i32 (Z.of_nat (length loc)) /\
      (b = write_front loc buf \/ b = write_front loc (write_front sl buf)) /\
        os_fds (cl_os c') = <[fd := set_off (of_off f + Z.of_nat (length loc)) f]> (taken_fds n (os_fds (cl_os c))))).
Proof.
  intros Hok He Hp Hkn Hon Hen Hsl Hf Hd loc.
  destruct (remote_transfer_run hash fd count (-1) buf sl e c p Hok He Hp Hkn Hon Hen)
    as (v & b & c' & Hr & [Hv [t Hos] _ _ _ _ _]).
  unfold wrap_read, ftc_remote_read. rewrite (bind_Ret _ _ _ _ _ Hr). cbn [fst snd].
  destruct Hv as [[-> Hb]|[-> ->]].
  - rewrite (i32_id (-1)) by (unfold in_i32; lia). change (-1 <? 0) with true. cbv iota.
    assert (Hread : posix_read fd count (cl_os c') = (Some loc,
      set_fds (<[fd := set_off (of_off f + Z.of_nat (length loc)) f]> (os_fds (cl_os c'))) (cl_os c'))).
    { unfold posix_read. rewrite Hos, patched_readable, Hd. cbn [patched os_fds set_text set_fds].
      by rewrite (taken_fds_lookup _ _ _ _ Hf). }
    unfold real_read, sys, on_os. mred. rewrite Hread. cbn [fst snd].
    do 3 eexists. exists t.2. split; [reflexivity|]. right. split; [done|]. split.
    + destruct Hb as [->| ->]; auto.
    + cbn. by rewrite Hos.
  - rewrite i32_id by (unfold in_i32; lia).
    rewrite (proj2 (Z.ltb_ge (Z.of_nat (length sl)) 0)) by lia.
    do 3 eexists. exists t.2. split; [reflexivity|]. left. split; [done|]. split; [done|]. rewrite Hos.
    split; [done|]. by apply taken_fds_lookup.
Qed.

Lemma read_remote_or_local_witness :
  exists ret b c' n, wrap_read hash0 3 2 [] (env good_wakes) (cl 0) = Ret (ret, b) c' /\
    ((ret = 2 /\ b = write_front [Byte.x42; Byte.x43] [] /\
        os_fds (cl_os c') = taken_fds n (os_fds (cl_os (cl 0))) /\
        os_fds (cl_os c') !! 3 = Some (OFile 0 0 true false false)) \/
     (ret = i32 (Z.of_nat (length (zslice data 0 (Z.min 2 MAX_RW_COUNT)))) /\
      (b = write_front (zslice data 0 (Z.min 2 MAX_RW_COUNT)) [] \/
       b = write_front (zslice data 0 (Z.min 2 MAX_RW_COUNT)) (write_front [Byte.x42; Byte.x43] [])) /\
        os_fds (cl_os c') =
          <[3 := set_off (0 + Z.of_nat (length (zslice data 0 (Z.min 2 MAX_RW_COUNT))))
            (OFile 0 0 true false false)]> (taken_fds n (os_fds (cl_os (cl 0)))))).
Proof.
  apply (read_remote_or_local hash0 3 2 [] [Byte.x42; Byte.x43] (env good_wakes) (cl 0) "/pfs/f" data
    (OFile 0 0 true false false)).
  - apply cl_ok. lia.
  - apply env_is_ok.
  - vm_compute. reflexivity.
  - apply cl_known.
  - exact good_honest.
  - exact good_ends.
  - vm_compute. reflexivity.
  - vm_compute. reflexivity.
  - vm_compute. reflexivity.
Defined.

(** C38: a stream leaves its descriptor tracked.  [fclose] is not intercepted, so
    after it the descriptor is still in [fd_map]; when an [open] of an
    untracked file gets the same number, a [pread] of that file is sent to the
    server as a read of the old one. *)
Theorem stale_descriptor hash fd path2 n2 se e count offset buf sl c p f :
  client_ok c -> env_ok e -> honest sl false (ce_wakes e) -> ends (ce_wakes e) ->
  g_disable_redirect c = false -> tl_disable_redirect c = false ->
  fd_map c !! fd = Some p -> host_known c (host_for hash c p) -> os_fds (cl_os c) !! fd = Some f ->
  lowest_fd (delete fd (os_fds (cl_os c))) = fd ->
  os_files (cl_os c) !! resolve (cl_os c) path2 = Some n2 -> track_decision c path2 = None ->
  (forall k, timeout_counters c !! Z.to_nat (hash p mod g_ftc_server_count c) = Some k -> k < TIMEOUT_LIMIT) ->
  exists c2 c3 v, (let* r := fclose fd in wrap_open hash path2 O_RDONLY se e) c = Ret fd c2 /\
    remote_transfer hash fd count offset buf e c2 = Ret v c3 /\
    cl_trace c3 = cl_trace c ++ [CForward (hash p mod g_ftc_server_count c) (read_msg c fd count offset)].
Proof.
  intros Hok He Hon Hen Hg Htl Hp Hkn Hf Hlow Hn2 Htr Hlim.
  set (o1 := set_fds (delete fd (os_fds (cl_os c))) (cl_os c)).
  set (o2 := set_fds (<[fd := OFile n2 0 true false false]> (os_fds o1)) o1).
  assert (Hopen : (let* r := fclose fd in wrap_open hash path2 O_RDONLY se e) c = Ret fd (upd_os o2 c)).
  { unfold fclose, real_close, sys, on_os, posix_close. mred. rewrite Hf. cbn [fst snd].
    unfold wrap_open, redirect_off. mred. cbn [upd_os g_disable_redirect tl_disable_redirect].
    rewrite Hg, Htl. cbn [orb]. unfold real_open, sys, on_os. cbn [cl_os upd_os]. fold o1.
    rewrite posix_open_rdonly. change (resolve o1 path2) with (resolve (cl_os c) path2).
    change (os_files o1) with (os_files (cl_os c)). rewrite Hn2.
    assert (Hlow1 : lowest_fd (os_fds o1) = fd) by exact Hlow. rewrite Hlow1. cbn [fst snd]. fold o2.
    destruct (fd =? -1); [done|]. rewrite track_file_untracked; [done|exact Htr]. }
  assert (Hok2 : client_ok (upd_os o2 c)) by by destruct Hok.
  destruct (remote_transfer_run hash fd count offset buf sl e (upd_os o2 c) p Hok2 He Hp Hkn Hon Hen)
    as (v & b & c3 & Hr & [_ _ _ _ _ _ (k & Hk & Htrace)]).
  exists (upd_os o2 c), c3, (v, b). split; [exact Hopen|]. split; [exact Hr|].
  specialize (Hlim k Hk). rewrite (proj2 (Z.leb_gt TIMEOUT_LIMIT k)) in Htrace by done.
  destruct Htrace as [Htrace _]. exact Htrace.
Qed.

Lemma stale_descriptor_witness :
  exists c2 c3 v, (let* r := fclose 3 in wrap_open hash0 "/tmp/g" O_RDONLY (mk_self addr_s true) (env good_wakes)) (cl 0)
      = Ret 3 c2 /\
    remote_transfer hash0 3 2 1 [] (env good_wakes) c2 = Ret v c3 /\
    cl_trace c3 = cl_trace (cl 0) ++
      [CForward (hash0 "/pfs/f" mod g_ftc_server_count (cl 0)) (read_msg (cl 0) 3 2 1)].
Proof.
  apply (stale_descriptor hash0 3 "/tmp/g" 1 (mk_self addr_s true) (env good_wakes) 2 1 []
    [Byte.x42; Byte.x43] (cl 0) "/pfs/f" (OFile 0 0 true false false)).
  - apply cl_ok. lia.
  - apply env_is_ok.
  - exact good_honest.
  - exact good_ends.
  - reflexivity.
  - reflexivity.
  - vm_compute. reflexivity.
  - apply cl_known.
  - vm_compute. reflexivity.
  - vm_compute. reflexivity.
  - vm_compute. reflexivity.
  - vm_compute. reflexivity.
  - vm_compute. intros k [= <-]. reflexivity.
Defined.

(** Which opens are tracked.  With a data directory configured, a path is
    tracked, under its canonical name, exactly when the canonical path of the
    directory occurs somewhere in the canonical path of its parent.  That is not
    the same as lying in the directory: with the directory [/pfs] a file of
    [/backup/pfs2] is tracked too. *)
Lemma track_decision_iff c path dir canon :
  ftc_data_dir c = Some dir ->
  track_decision c path = Some canon <->
  fs_canonical (cl_os c) path = Some canon /\
  exists test a b, fs_canonical (cl_os c) dir = Some test /\
    of_string (fs_parent_path canon) = a ++ of_string test ++ b.
Proof.
  intros Hdir. unfold track_decision. rewrite Hdir.
  destruct (fs_canonical (cl_os c) path) as [q|]; cbn [mbind option_bind]; [|by split; [|intros [? _]]].
  destruct (fs_canonical (cl_os c) dir) as [test|]; cbn [mbind option_bind]; cycle 1.
  { split; [done|]. by intros (_ & ? & ? & ? & ? & _). }
  assert (Hfs := find_sub_spec (of_string test) (of_string (fs_parent_path q))).
  destruct (find_sub (of_string test) (of_string (fs_parent_path q))) as [i|].
  - split.
    + intros [= <-]. split; [done|]. destruct (proj1 Hfs) as (a & b & E); [by eexists|]. by exists test, a, b.
    + by intros [? _].
  - split; [done|]. intros ([= <-] & t & a & b & [= <-] & E). exfalso.
    destruct (proj2 Hfs) as [? ?]; [by exists a, b|done].
Qed.

Definition os_backup : os :=
  mk_os {["/backup/pfs2/f"%string := 0%nat]} {["/pfs"%string; "/backup"%string; "/backup/pfs2"%string]} ∅
    {[0%nat := data]} ∅ ∅ "/pfs" ∅ ∅ [] (0, 0).

Lemma track_decision_iff_witness :
  track_decision (upd_os os_backup (cl 0)) "/backup/pfs2/f" = Some "/backup/pfs2/f"%string /\
  (track_decision (upd_os os_backup (cl 0)) "/backup/pfs2/f" = Some "/backup/pfs2/f"%string <->
   fs_canonical os_backup "/backup/pfs2/f" = Some "/backup/pfs2/f"%string /\
   exists test a b, fs_canonical os_backup "/pfs" = Some test /\
     of_string (fs_parent_path "/backup/pfs2/f") = a ++ of_string test ++ b).
Proof.
  split; [vm_compute; reflexivity|].
  apply (track_decision_iff (upd_os os_backup (cl 0)) "/backup/pfs2/f" "/pfs"). reflexivity.
Defined.

(** Without FT_Cache_SERVER_COUNT the library stays out of the way, at a
    price.  The constructor returns with redirection off, so every open, close
    and seek is the plain call; but it also returns with [init_mutex] locked, so
    a second call of it never returns. *)
Lemma client_init_without_count hash se c :
  init_locked c = false -> g_ftc_initialized c = false -> g_disable_redirect c = true ->
  getenv (cl_os c) "FT_Cache_SERVER_COUNT" = None ->
  exists c1, ftc_client_init se c = Ret tt c1 /\ init_locked c1 = true /\
    (forall path flags fd off wh e,
       wrap_open hash path flags se e c1 = real_open path flags c1 /\
       wrap_close hash fd e c1 = real_close fd c1 /\
       wrap_lseek hash fd off wh e c1 = real_lseek fd off wh c1) /\
    forall se', ftc_client_init se' c1 = Blocked c1.
Proof.
  intros Hl Hi Hd Hn. unfold ftc_client_init. mred. rewrite Hl, Hi. mred. rewrite Hn. mred.
  eexists. split; [reflexivity|]. split; [done|]. split; [|done].
  intros path flags fd off wh e. unfold wrap_open, wrap_close, wrap_lseek, redirect_off. mred.
  cbn. by rewrite Hd.
Qed.

Definition cl_cold : client :=
  mk_client os_c ∅ ∅ [] ∅ 0 None true false false false false false (uninit 128) 0 0 (-1) ∅ ∅ 0 [].

Lemma client_init_without_count_witness :
  exists c1, ftc_client_init (mk_self (uninit 4096) false) cl_cold = Ret tt c1 /\ init_locked c1 = true /\
    (forall path flags fd off wh e,
       wrap_open hash0 path flags (mk_self (uninit 4096) false) e c1 = real_open path flags c1 /\
       wrap_close hash0 fd e c1 = real_close fd c1 /\
       wrap_lseek hash0 fd off wh e c1 = real_lseek fd off wh c1) /\
    forall se', ftc_client_init se' c1 = Blocked c1.
Proof.
  apply (client_init_without_count hash0 (mk_self (uninit 4096) false) cl_cold); vm_compute; reflexivity.
Defined.

(** An open that nobody answers leaves a wrong descriptor behind.  The call
    succeeds and the file stays tracked, but no server descriptor was recorded;
    the next read of it asks the server for its descriptor 0, whatever that
    is. *)
Lemma unanswered_open_reads_descriptor_0 hash path n se e e2 c p k count offset buf sl :
  let fd := lowest_fd (os_fds (cl_os c)) in
  client_ok c -> started c -> env_ok e -> path_ok p ->
  find_sub (of_string ".ports.cfg.") (of_string path) = None ->
  os_files (cl_os c) !! resolve (cl_os c) path = Some n ->
  track_decision c path = Some p -> host_known c (host_for hash c p) ->
  timeout_counters c !! Z.to_nat (host_for hash c p) = Some k -> k + 1 < TIMEOUT_LIMIT ->
  silent (ce_wakes e) -> fd_redir_map c !! fd = None ->
  env_ok e2 -> honest sl false (ce_wakes e2) -> ends (ce_wakes e2) ->
  exists c1 v c2, wrap_open hash path O_RDONLY se e c = Ret fd c1 /\
    ftc_remote_pread hash fd count offset buf e2 c1 = Ret v c2 /\
    cl_trace c2 = cl_trace c1 ++ [CForward (host_for hash c p)
      (RRead (Server.mk_rpc_in (i32 count) 0 fd offset (cl_client_rank c)))].
Proof.
  intros fd Hok Hst He Hpo Hsub Hn Hd Hkn Hk Hlt Hs Hredir He2 Hon Hen.
  set (c0 := upd_os (set_fds (<[fd := OFile n 0 true false false]> (os_fds (cl_os c))) (cl_os c)) c).
  destruct (track_file_silent hash path O_RDONLY fd se e c0 p k) as (c1 & Ht & Hou); try done;
    [by destruct Hok|lia|].
  assert (Hok0 : client_ok c0) by by destruct Hok.
  destruct (open_unanswered_ok hash fd p k c0 c1 Hok0 Hou Hk) as (Hok1 & Hh1 & Hkn1); [lia|].
  destruct Hou as [O1 O2 O3 O4 O5 O6 O7 O8 O9].
  assert (Hp1 : fd_map c1 !! fd = Some p) by (rewrite O1; apply lookup_insert_eq).
  destruct (remote_transfer_run hash fd count offset buf sl e2 c1 p Hok1 He2 Hp1 Hkn1 Hon Hen)
    as (v & b & c2 & Hr & [_ _ _ _ _ _ (k' & Hk' & Htrace)]).
  exists c1, (v, b), c2. split; [by eapply wrap_open_track|]. split; [exact Hr|].
  rewrite Hh1, O4, list_lookup_insert_eq in Hk' by (by eapply lookup_lt_Some). injection Hk' as <-.
  rewrite (proj2 (Z.leb_gt TIMEOUT_LIMIT (k + 1))), Hh1 in Htrace by done. destruct Htrace as [-> _].
  unfold read_msg. rewrite O2, O6. change (fd_redir_map c0) with (fd_redir_map c). by rewrite Hredir.
Qed.

Lemma unanswered_open_reads_descriptor_0_witness :
  exists c1 v c2, wrap_open hash0 "/pfs/f" O_RDONLY (mk_self addr_s true) (env dead_wakes) (cl 0) = Ret 4 c1 /\
    ftc_remote_pread hash0 4 2 1 [] (env good_wakes) c1 = Ret v c2 /\
    cl_trace c2 = cl_trace c1 ++ [CForward (host_for hash0 (cl 0) "/pfs/f")
      (RRead (Server.mk_rpc_in (i32 2) 0 4 1 (cl_client_rank (cl 0))))].
Proof.
  apply (unanswered_open_reads_descriptor_0 hash0 "/pfs/f" 0 (mk_self addr_s true) (env dead_wakes)
    (env good_wakes) (cl 0) "/pfs/f" 0 2 1 [] [Byte.x42; Byte.x43]).
  - apply cl_ok. lia.
  - done.
  - apply env_is_ok.
  - split; [by apply (bool_decide_unpack _)|vm_compute; lia].
  - vm_compute. reflexivity.
  - vm_compute. reflexivity.
  - vm_compute. reflexivity.
  - apply cl_known.
  - vm_compute. reflexivity.
  - vm_compute. reflexivity.
  - exact dead_silent.
  - vm_compute. reflexivity.
  - apply env_is_ok.
  - exact good_honest.
  - exact good_ends.
Defined.

(** C39: long paths break the client's log.  The open request copies the path into
    a 256-byte field without a terminator when it does not fit, and prints the
    field as a string: with a log file that can be written, opening a tracked
    file whose path has 256 characters or more is undefined behaviour. *)
Theorem long_path_open_is_undefined host p fd id e c :
  env_ok e -> printable (client_address c) -> host_known c host ->
  no_nul (of_string p) -> (256 <= length (of_string p))%nat ->
  can_create (cl_os c) (log_filename (getenv (cl_os c) LOG_DIR) "client" (i32 host)) = true ->
  exists c', ftc_client_comm_gen_open_rpc host p fd id e c = Dies UndefinedBehaviour c' /\
    cl_trace c' = cl_trace c.
Proof.
  intros [E1 E2 E3 E4 E5 E6 E7] Hc Hh Hn Hl Hcan.
  destruct (lookup_addr_run host c Hh) as (a & m & n & Ha & _).
  unfold ftc_client_comm_gen_open_rpc, ftc_comm_create_handle, ftc_comm_free_addr. rewrite E1. mred. rewrite Ha. change (0 =? 0) with true. mred.
  unfold put_request, log_request. mred.
  match goal with |- context [same_node ?b ?st] => destruct (same_node_ok b st E5 Hc) as [z ->] end.
  unfold log, on_os, logging_info. cbn [LogInfo.server_rank client_log cl_os upd_frames upd_cache].
  change (can_create (cl_os (upd_os (patched ?p (cl_os c)) c)) ?f) with (can_create (cl_os c) f).
  change (getenv (cl_os (upd_os (patched ?p (cl_os c)) c)) LOG_DIR) with (getenv (cl_os c) LOG_DIR).
  rewrite Hcan. unfold log_line. cbn [LogInfo.filepath client_log].
  rewrite cstr_fill_unterminated by (apply length_replicate || done).
  rewrite (proj2 (Nat.ltb_ge (length (of_string p)) 256)) by done. cbn [mbind option_bind].
  eexists. by split.
Qed.

Definition os_log : os :=
  mk_os ∅ {["/tmp"%string]} ∅ ∅ ∅ ∅ "/pfs" {["FT_Cache_LOG_DIR"%string := "/tmp"%string]} ∅ [] (0, 0).

Lemma long_path_open_is_undefined_witness :
  exists c', ftc_client_comm_gen_open_rpc 0 (to_string (replicate 300 "a"%char)) 4 0 (env []) (upd_os os_log (cl 0))
      = Dies UndefinedBehaviour c' /\ cl_trace c' = cl_trace (upd_os os_log (cl 0)).
Proof.
  apply (long_path_open_is_undefined 0 (to_string (replicate 300 "a"%char)) 4 0 (env []) (upd_os os_log (cl 0))).
  - apply env_is_ok.
  - vm_compute. by eexists.
  - by eexists.
  - by apply (bool_decide_unpack _).
  - vm_compute. lia.
  - vm_compute. reflexivity.
Defined.
