(* ===== verification/Transparency.v ===== *)
(** * The library is transparent to a whole application

    An application opens files for reading, reads them at offsets and closes
    them.  It gets the same results with the library and without it, call after
    call, whether the servers answer in time, with the right bytes or an error,
    or not at all, on a node where the library takes a descriptor now and then.
    An answer after its deadline is excluded (see
    [ClientProps.late_answer_is_undefined]). *)

From S2P Require Import Prelude CString HexDump Address Posix LogInfo Server ServerSpec Client Wrappers ClientSpec.
From S2P Require Import ClientInv ClientProps.
Import Address Posix LogInfo Client Wrappers ClientSpec ClientInv ClientProps.
Import ServerSpec(rpc, ROpen, RRead, RSeek, RClose).

Module Transparency.

(** ** The calls, with the library and without *)

Inductive ro_call : Type :=
  | XOpen (path : string)
  | XPread (fd count offset : Z) (buf : list byte)
  | XClose (fd : Z).

(** What a call returns: its value and the buffer it was given. *)
Definition answer : Type := Z * list byte.

Definition lib_call (hash : string -> Z) (se : self_env) (e : cl_env) (x : ro_call) : C answer :=
  match x with
  | XOpen path => let* r := wrap_open hash path O_RDONLY se e in mret (r, [])
  | XPread fd count offset buf => wrap_pread hash fd count offset buf e
  | XClose fd => let* r := wrap_close hash fd e in mret (r, [])
  end.

Definition plain_call (x : ro_call) (o : os) : answer * os :=
  match x with
  | XOpen path => let (r, o') := posix_open path O_RDONLY o in ((r, []), o')
  | XPread fd count offset buf =>
      match posix_pread fd count offset o with
      | Some d => ((Z.of_nat (length d), write_front d buf), o)
      | None => ((-1, buf), o)
      end
  | XClose fd => let (r, o') := posix_close fd o in ((r, []), o')
  end.

Fixpoint lib_calls (hash : string -> Z) (se : self_env) (l : list (cl_env * ro_call))
    : C (list answer) :=
  match l with
  | [] => mret []
  | (e, x) :: l' =>
      let* a := lib_call hash se e x in
      let* r := lib_calls hash se l' in
      mret (a :: r)
  end.

Fixpoint plain_calls (l : list ro_call) (o : os) : list answer * os :=
  match l with
  | [] => ([], o)
  | x :: l' =>
      let (a, o1) := plain_call x o in
      let (r, o2) := plain_calls l' o1 in
      (a :: r, o2)
  end.

(** ** What is assumed of the servers *)

(** Mercury sends, and the servers answer honestly, late or not at all. *)
Definition env_for (o : os) (x : ro_call) (e : cl_env) : Prop :=
  env_ok e /\
  match x with
  | XOpen _ => open_honest (ce_wakes e) /\ ends (ce_wakes e)
  | XPread fd count offset _ =>
      0 <= offset /\ ends (ce_wakes e) /\
      forall sl, posix_pread fd count offset o = Some sl -> honest sl false (ce_wakes e)
  | XClose _ => True
  end.

(** Along a run of the library: each call finds servers that are honest about
    the files of the node it is made on. *)
Fixpoint fair (hash : string -> Z) (se : self_env) (l : list (cl_env * ro_call)) (c : client) : Prop :=
  match l with
  | [] => True
  | (e, x) :: l' => env_for (cl_os c) x e /\
      forall a c', lib_call hash se e x c = Ret a c' -> fair hash se l' c'
  end.

(** ** What the library does to the node of its process *)

(** It writes text files, its log, and takes descriptors for streams that it
    never closes. *)
Definition os_like (o o' : os) : Prop := exists p, o' = patched p o.

#[export] Instance os_like_preorder : PreOrder os_like.
Proof.
  split.
  - intros o. eexists. apply patched_same.
  - intros o _ _ [p ->] [q ->]. rewrite patched_trans. by eexists.
Qed.

Lemma os_like_text t o : os_like o (set_text t o).
Proof. exists (t, 0%nat). by destruct o. Qed.

Lemma os_like_patched p o : os_like o (patched p o).
Proof. by exists p. Qed.

Lemma like_readable o o' fd : os_like o o' -> readable o' fd = readable o fd.
Proof. intros [p ->]. apply patched_readable. Qed.

Lemma like_fd o o' fd f : os_like o o' -> os_fds o !! fd = Some f -> os_fds o' !! fd = Some f.
Proof. intros [p ->]. apply taken_fds_lookup. Qed.

#[export] Instance env_for_proper : Proper (os_like ==> (=) ==> (=) ==> iff) env_for.
Proof.
  intros o _ [t ->] x _ <- e _ <-. destruct x as [|fd count offset buf|]; [done| |done].
  unfold env_for. by rewrite patched_pread.
Qed.

(** *** Plain calls between which descriptors are taken *)

Section Runs.
Context {call : Type} (plain : call -> os -> answer * os).

(** A call made while the library takes descriptors: it may do so before the
    call takes effect, where that does not change the result, and after. *)
Definition after_by (x : call) (o o' : os) : Prop :=
  exists o1, os_like o o1 /\ (plain x o1).1 = (plain x o).1 /\ os_like (plain x o1).2 o'.

(** The calls of an application on a node where the library takes descriptors in
    between, with their results. *)
Inductive run_by : os -> list (call * answer) -> os -> Prop :=
  | pr_nil o o' : os_like o o' -> run_by o [] o'
  | pr_call o o1 x o2 l o3 : os_like o o1 -> after_by x o1 o2 -> run_by o2 l o3 ->
      run_by o ((x, (plain x o1).1) :: l) o3.

Lemma after_now x o o' : os_like (plain x o).2 o' -> after_by x o o'.
Proof. intros H. by exists o. Qed.

Lemma after_like x o o' o'' : after_by x o o' -> os_like o' o'' -> after_by x o o''.
Proof. intros (o1 & H1 & H2 & H3) H. exists o1. split_and!; [done..|]. by etrans. Qed.

Lemma plain_run_like o l o' o'' : run_by o l o' -> os_like o' o'' -> run_by o l o''.
Proof.
  induction 1 as [o o' H|o o1 x o2 l o3 H1 H2 _ IH]; intros H'; [apply pr_nil; by etrans|].
  apply (pr_call o o1 x o2); auto.
Qed.

Lemma plain_run_snoc o l o1 x o2 : run_by o l o1 -> after_by x o1 o2 ->
  run_by o (l ++ [(x, (plain x o1).1)]) o2.
Proof.
  induction 1 as [o o' H|o p1 y p2 l o3 H1 H2 _ IH]; intros H'; cbn [app].
  - apply (pr_call o o' x o2); [done..|]. by apply pr_nil.
  - apply (pr_call o p1 y p2); auto.
Qed.

End Runs.

Abbreviation after := (after_by plain_call).
Abbreviation plain_run := (run_by plain_call).

Lemma readable_close g q fd :
  readable (plain_call (XClose g) q).2 fd = if decide (fd = g) then None else readable q fd.
Proof.
  cbn [plain_call]. unfold posix_close. destruct (os_fds q !! g) as [f|] eqn:E; cbn [fst snd].
  - unfold readable. cbn [set_fds os_fds os_bad os_nodes]. case_decide as Hd; [subst fd; by rewrite lookup_delete_eq|].
    by rewrite lookup_delete_ne.
  - case_decide as Hd; [subst fd|done]. unfold readable. by rewrite E.
Qed.

(** What is taken is not what the application reads from. *)
Lemma after_readable x o o' fd : after x o o' -> readable o' fd = readable (plain_call x o).2 fd.
Proof.
  intros (_ & [p ->] & Hr & H). rewrite (like_readable _ _ _ H). clear H.
  destruct x as [path|g count offset buf|g]; cbn [plain_call] in *.
  - rewrite !posix_open_rdonly in *. change (resolve (patched p o) path) with (resolve o path) in *.
    change (os_files (patched p o)) with (os_files o) in *.
    destruct (os_files o !! resolve o path) as [n|]; cbn [fst snd] in *; [|apply patched_readable].
    assert (Hl : lowest_fd (os_fds (patched p o)) = lowest_fd (os_fds o)) by by injection Hr.
    rewrite Hl. unfold readable. cbn [set_fds os_fds os_bad os_nodes].
    change (os_bad (patched p o)) with (os_bad o). change (os_nodes (patched p o)) with (os_nodes o).
    rewrite !lookup_insert. case_decide; [done|]. exact (patched_readable p o fd).
  - rewrite patched_pread. destruct (posix_pread g count offset o); apply patched_readable.
  - pose proof (readable_close g (patched p o) fd) as H1. pose proof (readable_close g o fd) as H2.
    cbn [plain_call] in H1, H2. rewrite H1, H2. by rewrite patched_readable.
Qed.

(** ** The states the library works from *)

(** [start_mercury] will succeed. *)
Definition startable (o : os) : Prop :=
  exists r, getenv o "HOROVOD_RANK" = Some r /\
    can_create o (log_filename (getenv o LOG_DIR) "client" (atoi (of_string r))) = true.

(** The client's own state. *)
Record core_ok (c : client) : Prop := {
  co_client : client_ok c;
  co_redirect : g_disable_redirect c = false /\ tl_disable_redirect c = false;
  co_start : g_mercury_init c = true \/ startable (cl_os c);
  co_addressed : addressed c;
  co_length : length (client_address c) = 128%nat
}.

(** The same, on a healthy node whose paths fit the log, and the tracked
    descriptors are open for reading. *)
Record lib_ok (c : client) : Prop := {
  lo_core : core_ok c;
  lo_wf : os_wf (cl_os c);
  lo_healthy : os_bad (cl_os c) = ∅;
  lo_paths : forall p n, os_files (cl_os c) !! p = Some n -> path_ok p;
  lo_tracked : forall fd p, fd_map c !! fd = Some p -> is_Some (readable (cl_os c) fd)
}.

(** One RPC later. *)
Lemma core_ok_rpc c c' : core_ok c -> config c' = config c -> addressed c' ->
  length (timeout_counters c') = length (timeout_counters c) -> counters_ok INT_MAX c' ->
  (forall i, (cl_next c' <= i)%nat -> cl_frames c' !! i = None) -> os_like (cl_os c) (cl_os c') ->
  core_ok c'.
Proof.
  intros [[K1 K2 K3 K4 K5] [R1 R2] Hs Ha Hl] [= C1 C2 C3 C4 C5 C6] Ha' Hlen Hcnt Hfr [t Ho].
  split; [split| | | |]; rewrite ?C1, ?C3, ?C4, ?C5, ?C6, ?Hlen; try done.
  destruct Hs as [Hs|Hs]; [by left|]. right. by rewrite Ho.
Qed.

Lemma counters_after_length tm h l : length (counters_after tm h l) = length l.
Proof. destruct tm; [apply length_alter|done]. Qed.

Lemma host_known_for hash c p : core_ok c -> host_known c (host_for hash c p).
Proof. intros [Hok _ _ Ha _]. apply (ad_known _ Ha). by apply host_for_range. Qed.

(** ** Positioned reads *)

Lemma transfer_core hash fd count offset buf sl e c p v b c' :
  core_ok c -> remote_transfer hash fd count offset buf e c = Ret (v, b) c' ->
  read_outcome hash fd count offset sl buf p c v b c' -> core_ok c'.
Proof.
  intros Hc Hr [_ Ho _ Hf Hn Hcfg (n & _ & Ht)].
  apply (core_ok_rpc c c' Hc Hcfg); try done.
  - exact (keeps_transfer addressed hash fd count offset buf e c (v, b) c' (co_addressed _ Hc) Hr).
  - destruct (TIMEOUT_LIMIT <=? n); destruct Ht as [_ Ht]; [by destruct Ht as [-> _]|].
    destruct Ht as (tm & -> & _). apply counters_after_length.
  - refine (transfer_counters INT_MAX limit_max hash fd count offset buf e c (v, b) c' _ Hr).
    exact (ck_limit _ (co_client _ Hc)).
  - intros i Hi. rewrite Hf. apply (ck_fresh _ (co_client _ Hc)). lia.
Qed.

(** ** Opening *)

Lemma get_addr_run se c : printable (se_addr_buffer se) -> printable (client_address c) ->
  length (client_address c) = 128%nat ->
  exists k a r, ftc_get_addr se c = Ret tt (upd_self k a r c) /\ printable a /\ length a = 128%nat.
Proof.
  intros [addr Ha] Hp Hl. unfold ftc_get_addr. mred. destruct (my_address c) eqn:Em.
  - exists true, (client_address c), (cl_client_rank c). split; [|done]. rewrite <- Em. by destruct c.
  - rewrite Ha. do 3 eexists. split; [reflexivity|]. split.
    + eexists. apply extract_ip_portion_cstr; [by eapply cstr_no_nul|done|lia].
    + by rewrite length_extract_ip_portion; [|exact Hl|lia].
Qed.

Lemma init_counters_run c : client_ok c ->
  initialize_timeout_counters (i32 (g_ftc_server_count c)) c = Ret tt (upd_counters (timeout_counters c) c).
Proof.
  intros [Hc Hl _ _ _]. unfold initialize_timeout_counters. rewrite i32_id by (unfold in_i32; lia).
  rewrite (proj2 (Z.ltb_ge _ _)) by lia. unfold modify. by rewrite <- Hl, resize_all.
Qed.

Lemma start_mercury_run se c : core_ok c -> printable (se_addr_buffer se) ->
  exists c', start_mercury se c = Ret tt c' /\ core_ok c' /\ g_mercury_init c' = true /\
    os_like (cl_os c) (cl_os c') /\ fd_map c' = fd_map c /\
    g_ftc_server_count c' = g_ftc_server_count c /\
    fd_redir_map c' = fd_redir_map c /\ timeout_counters c' = timeout_counters c /\
    cl_trace c' = cl_trace c /\ ftc_data_dir c' = ftc_data_dir c.
Proof.
  intros Hc Hse. destruct Hc as [Hok [Hr1 Hr2] Hs Hadr Hlen] eqn:E. clear E.
  destruct (g_mercury_init c) eqn:Em; [exists c; by rewrite start_mercury_started|].
  destruct Hs as [?|(r & Hr & Hcan)]; [done|].
  set (c1 := upd_flags (g_disable_redirect c) (g_ftc_initialized c) (init_locked c) true c).
  set (o2 := text_write (log_filename (getenv (cl_os c) LOG_DIR) "client" (atoi (of_string r)))
    (of_string "Log file for " ++ of_string "client" ++ of_string " rank " ++
       print_int (atoi (of_string r)) ++ ["010"%char]) (cl_os c)).
  destruct (get_addr_run se (upd_os o2 (upd_counters (timeout_counters c1) c1)) Hse) as (k & a & rk & Hg & Hpa & Hla);
    [by apply Hok|done|].
  assert (Hrun : start_mercury se c = Ret tt (upd_self k a rk (upd_os o2 (upd_counters (timeout_counters c1) c1)))).
  { unfold start_mercury. mred. rewrite Em. fold c1. rewrite (init_counters_run c1) by (by destruct Hok).
    cbn [upd_counters cl_os c1 upd_flags]. rewrite Hr. unfold on_os, initialize_log.
    cbn [upd_counters cl_os c1 upd_flags]. rewrite Hcan. exact Hg. }
  exists (upd_self k a rk (upd_os o2 (upd_counters (timeout_counters c1) c1))).
  split; [exact Hrun|]. split; [|split; [done|]; split; [apply os_like_text|done]].
  pose proof (keeps_start_mercury addressed se c tt _ Hadr Hrun) as Had.
  split; try done; [|by left]. destruct Hok as [K1 K2 K3 K4 K5]. by split.
Qed.

(** What a call of the library's own code did. *)
Record lib_step (fd : Z) (c c' : client) : Prop := {
  ls_core : core_ok c';
  ls_os : os_like (cl_os c) (cl_os c');
  ls_fd_map : forall i, i <> fd -> fd_map c' !! i = fd_map c !! i
}.

Lemma core_ok_fd_map m c : core_ok c -> core_ok (upd_fd_map m c).
Proof.
  intros [H1 H2 H3 H4 H5]. split; try done; [by apply client_ok_fd_map|by apply st_fd_map].
Qed.

Lemma counter_of hash c p : core_ok c ->
  exists k, timeout_counters c !! Z.to_nat (host_for hash c p) = Some k /\ 0 <= k <= INT_MAX.
Proof.
  intros [Hok _ _ _ _]. destruct (counter_run c (host_for hash c p) Hok) as (k & Hk & _ & Hlim); [|eauto].
  by apply host_for_range.
Qed.

(** The wait of an open is over. *)
Lemma open_waited_core hash t m p fd c1 tm c2 : core_ok c1 ->
  let c3 := upd_frames (delete (cl_next c1) (cl_frames c2)) (cl_requests c2) (cl_next c2) c2 in
  waited (cl_next c1) (open_sent t m (host_for hash c1 p) p fd c1) c2 ->
  timeout_counters c2 = counters_after tm (host_for hash c1 p) (timeout_counters c1) ->
  addressed c3 -> counters_ok INT_MAX c3 -> core_ok c3.
Proof.
  intros Hc c3 [[t2 W1] W2 W4 W5 W6 W7 W8] Hcnt Had Hcok.
  apply (core_ok_rpc c1 c3 Hc); try done.
  - cbn. by rewrite Hcnt, counters_after_length.
  - cbn. intros i Hi. rewrite W5 in Hi. cbn in Hi.
    rewrite lookup_delete_ne, W4 by lia. cbn. rewrite lookup_insert_ne by lia.
    apply (ck_fresh _ (co_client _ Hc)). lia.
  - exists (t2, t.2). cbn. by rewrite W1.
Qed.

Lemma track_file_total hash path fd se e c :
  core_ok c -> printable (se_addr_buffer se) -> env_ok e ->
  open_honest (ce_wakes e) -> ends (ce_wakes e) ->
  (forall p, track_decision c path = Some p -> path_ok p) ->
  exists b c', ftc_track_file hash path O_RDONLY fd se e c = Ret b c' /\ lib_step fd c c'.
Proof.
  intros Hc Hse He Hon Hen Hpath.
  destruct (find_sub (of_string ".ports.cfg.") (of_string path)) as [i|] eqn:Hsub.
  { exists false, c. split; [|by split]. unfold ftc_track_file. by rewrite Hsub. }
  destruct (track_decision c path) as [p|] eqn:Hd.
  2: { exists false, c. split; [by apply track_file_untracked|by split]. }
  destruct (start_mercury_run se (upd_fd_map (<[fd := p]> (fd_map c)) c)) as (c1 & Hst & Hc1 & Hm1 & Ho1 & Hf1 & Hn1 & _);
    [by apply core_ok_fd_map|done|].
  assert (Hp1 : fd_map c1 !! fd = Some p) by (rewrite Hf1; apply lookup_insert_eq).
  assert (Hother : forall i, i <> fd -> fd_map c1 !! i = fd_map c !! i)
    by (intros i Hi; rewrite Hf1; by apply lookup_insert_ne).
  destruct (counter_of hash c1 p Hc1) as (k & Hk & Hlim).
  pose proof (co_client _ Hc1) as Hok1. pose proof (host_for_range hash c1 p Hok1) as Hh.
  destruct (TIMEOUT_LIMIT <=? k) eqn:El.
  { exists false, c1. split; [|by split]. by rewrite (track_file_tested hash path O_RDONLY fd se e c c1 p k), El. }
  zbool. destruct (track_file_sent hash path O_RDONLY fd se e c c1 p k) as (t & m & _ & Hrun);
    try done; [by apply Hpath|by apply host_known_for|].
  destruct (wait_open_total (host_for hash c1 p) (cl_next c1) fd p (Hpath p eq_refl) (proj1 Hh) (ce_wakes e)
    (open_sent t m (host_for hash c1 p) p fd c1) k) as (tm & c2 & Hw & W2 & T2 & _); try done.
  { cbn. apply lookup_insert_eq. }
  { cbn. apply lookup_insert_eq. }
  { apply Hok1. }
  { unfold TIMEOUT_LIMIT in *. lia. }
  rewrite (bind_Ret _ _ _ _ _ Hw) in Hrun. unfold pop_frame in Hrun. mred_in Hrun.
  eexists true, _. split; [exact Hrun|]. split.
  - eapply open_waited_core; try done.
    + exact (keeps_track_file addressed hash path O_RDONLY fd se e c true _ (co_addressed _ Hc) Hrun).
    + exact (track_file_counters INT_MAX limit_max hash path O_RDONLY fd se e c true _ (ck_limit _ (co_client _ Hc)) Hrun).
  - destruct W2 as [[t2 W1] _ _ _ _ _ _]. cbn. rewrite W1. etrans; [exact Ho1|]. by exists (t2, t.2).
  - intros i Hi. cbn. rewrite (wa_fd_map _ _ _ W2). by apply Hother.
Qed.

(** ** Closing *)

Lemma gen_close_run host fd e c : env_ok e -> printable (client_address c) -> host_known c host ->
  exists t m r es, ftc_client_comm_gen_close_rpc host fd e c =
    Ret tt (upd_redir r (upd_trace es (upd_os (patched t (cl_os c)) (upd_cache m c)))).
Proof.
  intros [E1 E2 E3 E4 E5 E6 E7] Hc Hh. destruct (lookup_addr_run host c Hh) as (a & m & n & Ha & _).
  unfold ftc_client_comm_gen_close_rpc, ftc_comm_create_handle, ftc_comm_free_addr. rewrite E1, E6, E7. mred. rewrite Ha. change (0 =? 0) with true. mred.
  set (c1 := upd_cache _ _). destruct (fd_redir_at_run fd c1) as (rm & -> & _). mred.
  match goal with |- context [log_request ?p ?r ?h ?ep e ?st] =>
    destruct (log_request_run p r h ep e st) as [t ->]; [apply cstr_fill_fd|by apply log_word_ok|done|exact Hc|] end.
  unfold forward. mred. exists (t, n), m. eexists _, _. reflexivity.
Qed.

Lemma remote_close_total hash fd e c p : core_ok c -> env_ok e -> fd_map c !! fd = Some p ->
  exists c', ftc_remote_close hash fd e c = Ret tt c' /\ core_ok c' /\
    os_like (cl_os c) (cl_os c') /\ fd_map c' = fd_map c.
Proof.
  intros Hc He Hp. destruct (counter_of hash c p Hc) as (k & Hk & _).
  pose proof (co_client _ Hc) as Hok. pose proof (host_for_range hash c p Hok) as Hh.
  destruct (gen_close_run (host_for hash c p) fd e c He) as (t & m & r & es & Hg);
    [apply Hok|by apply host_known_for|].
  assert (Hrun : ftc_remote_close hash fd e c =
    (if TIMEOUT_LIMIT <=? k then mret tt else ftc_client_comm_gen_close_rpc (host_for hash c p) fd e) c).
  { unfold ftc_remote_close, ftc_file_tracked. mred. rewrite Hp, bool_decide_true by (by eexists). cbn [negb].
    rewrite (host_of_run hash c fd p Hok Hp). unfold skip_host, counter. mred.
    rewrite (proj2 (Z.ltb_ge (host_for hash c p) 0)), Hk by lia. by destruct (TIMEOUT_LIMIT <=? k). }
  destruct (TIMEOUT_LIMIT <=? k); [by exists c|]. rewrite Hg in Hrun.
  eexists. split; [exact Hrun|]. split; [|by split; [eexists|]].
  apply (core_ok_rpc c _ Hc); try done.
  - exact (keeps_remote_close addressed hash fd e c tt _ (co_addressed _ Hc) Hrun).
  - exact (ck_limit _ Hok).
  - exact (ck_fresh _ Hok).
  - by eexists.
Qed.

(** ** What the calls do to the node *)

Lemma plain_call_keeps x o : os_wf o ->
  os_wf (plain_call x o).2 /\ os_bad (plain_call x o).2 = os_bad o /\
  os_files (plain_call x o).2 = os_files o.
Proof.
  intros Hw. destruct x as [path|fd count offset buf|fd]; simpl.
  - pose proof (wf_open_rdonly path o Hw) as H. rewrite posix_open_rdonly in H |- *.
    by destruct (os_files o !! resolve o path).
  - by destruct (posix_pread fd count offset o).
  - pose proof (wf_close fd o Hw) as H. unfold posix_close in H |- *. by destruct (os_fds o !! fd).
Qed.

Lemma after_keeps x o o' : os_wf o -> after x o o' ->
  os_wf o' /\ os_bad o' = os_bad o /\ os_files o' = os_files o.
Proof.
  intros Hw (_ & [p ->] & _ & [q ->]). destruct (plain_call_keeps x (patched p o) (patched_wf p o Hw)) as (H1 & H2 & H3).
  split; [by apply patched_wf|]. by split.
Qed.

Lemma lib_ok_call x c c' : lib_ok c -> core_ok c' -> after x (cl_os c) (cl_os c') ->
  (forall i p, fd_map c' !! i = Some p -> is_Some (readable (plain_call x (cl_os c)).2 i)) ->
  lib_ok c'.
Proof.
  intros [L1 L2 L3 L4 L5] Hc' Ho Htr. destruct (after_keeps _ _ _ L2 Ho) as (P1 & P2 & P3).
  split; [done|done|by rewrite P2|by rewrite P3|]. intros i p Hp. rewrite (after_readable _ _ _ i Ho). by eapply Htr.
Qed.

Lemma track_decision_canon c path p : track_decision c path = Some p -> p = resolve (cl_os c) path.
Proof.
  unfold track_decision. intros (q & Hq & H)%bind_Some.
  assert (q = resolve (cl_os c) path) as <- by (unfold fs_canonical in Hq; case_decide; congruence).
  destruct (ftc_data_dir c) as [dir|].
  - apply bind_Some in H as (test & _ & H). destruct (find_sub _ _); congruence.
  - case_match; congruence.
Qed.

(** A descriptor other than the one that a call opens or closes. *)
Lemma readable_insert o i fd f : i <> fd -> readable (set_fds (<[fd := f]> (os_fds o)) o) i = readable o i.
Proof. intros Hi. unfold readable. cbn. by rewrite lookup_insert_ne. Qed.

Lemma readable_delete o i fd : i <> fd -> readable (set_fds (delete fd (os_fds o)) o) i = readable o i.
Proof. intros Hi. unfold readable. cbn. by rewrite lookup_delete_ne. Qed.

(** ** One call *)

Lemma core_ok_fds fds c : core_ok c -> core_ok (upd_os (set_fds fds (cl_os c)) c).
Proof. intros [[] H2 H3 [] H5]. split; try done; by split. Qed.

(** The call returns what the plain call returns. *)
Definition transparent (hash : string -> Z) (se : self_env) (e : cl_env) (x : ro_call) (c : client) : Prop :=
  exists c', lib_call hash se e x c = Ret (plain_call x (cl_os c)).1 c' /\
    after x (cl_os c) (cl_os c') /\ lib_ok c'.

Lemma open_transparent hash se e path c : lib_ok c -> printable (se_addr_buffer se) ->
  env_for (cl_os c) (XOpen path) e -> transparent hash se e (XOpen path) c.
Proof.
  intros Hl Hse (He & Hon & Hen). pose proof (lo_core _ Hl) as Hc.
  pose proof (lib_ok_call (XOpen path) c) as Hstep. unfold transparent. cbn [plain_call lib_call] in *.
  rewrite posix_open_rdonly in Hstep |- *. unfold wrap_open, redirect_off. mred.
  destruct (co_redirect _ Hc) as [-> ->]. cbn [orb]. unfold real_open, sys, on_os. rewrite posix_open_rdonly.
  destruct (os_files (cl_os c) !! resolve (cl_os c) path) as [n|] eqn:En; cbn [fst snd] in *.
  2: { exists c. assert (upd_os (cl_os c) c = c) as -> by by destruct c.
       split_and!; [done|apply after_now; cbn [plain_call]; by rewrite posix_open_rdonly, En|done]. }
  set (fd := lowest_fd (os_fds (cl_os c))) in *.
  destruct (lowest_fd_free (os_fds (cl_os c))) as [Hfree Hpos]. fold fd in Hfree, Hpos.
  rewrite (proj2 (Z.eqb_neq fd (-1))) by lia. set (o1 := set_fds _ _) in *.
  destruct (track_file_total hash path fd se e (upd_os o1 c)) as (b & c' & Ht & [Hc' Ho' Hf']); try done.
  { by apply core_ok_fds. }
  { intros p Hp%track_decision_canon. change (resolve _ path) with (resolve (cl_os c) path) in Hp.
    subst p. by eapply (lo_paths _ Hl). }
  assert (Hnow : after (XOpen path) (cl_os c) (cl_os c'))
    by (apply after_now; cbn [plain_call]; rewrite posix_open_rdonly, En; exact Ho').
  rewrite Ht. exists c'. split; [done|]. split; [done|]. apply Hstep; try done.
  intros i p Hp. destruct (decide (i = fd)) as [->|Hne].
  - destruct (wf_files _ (lo_wf _ Hl) _ _ En) as [d Hd]. exists d. unfold readable, o1. cbn.
    rewrite lookup_insert_eq. cbn. by rewrite (lo_healthy _ Hl), bool_decide_true by set_solver.
  - unfold o1. rewrite readable_insert by done. apply (lo_tracked _ Hl i p). by rewrite <- Hf'.
Qed.

Lemma pread_call_transparent hash se e fd count offset buf c : lib_ok c ->
  env_for (cl_os c) (XPread fd count offset buf) e -> transparent hash se e (XPread fd count offset buf) c.
Proof.
  intros Hl (He & Hoff & Hen & Hon). pose proof (lo_core _ Hl) as Hc.
  unfold transparent. cbn [plain_call lib_call]. unfold wrap_pread, ftc_get_path. mred.
  assert (Hreal : forall b c0, os_like (cl_os c) (cl_os c0) ->
    real_pread fd count offset b c0 = Ret (plain_call (XPread fd count offset b) (cl_os c)).1 c0).
  { intros b c0 [t Ht]. unfold real_pread. mred. rewrite Ht.
    rewrite patched_pread. cbn. by destruct (posix_pread fd count offset (cl_os c)). }
  destruct (fd_map c !! fd) as [p|] eqn:Ep.
  2: { exists c. rewrite Hreal by done. split_and!; [|apply after_now|done]; cbn [plain_call];
       by destruct (posix_pread fd count offset (cl_os c)). }
  destruct (lo_tracked _ Hl fd p Ep) as [d Hd].
  assert (Hsl : posix_pread fd count offset (cl_os c) = Some (zslice d offset (Z.min count MAX_RW_COUNT))).
  { unfold posix_pread. rewrite Hd. cbn [mbind option_bind]. by rewrite (proj2 (Z.ltb_ge offset 0)). }
  set (sl := zslice _ _ _) in *. specialize (Hon sl Hsl).
  destruct (remote_transfer_run hash fd count offset buf sl e c p (co_client _ Hc) He Ep
    (host_known_for hash c p Hc) Hon Hen) as (v & b & c' & Hr & Hout).
  pose proof (transfer_core _ _ _ _ _ _ _ _ _ _ _ _ Hc Hr Hout) as Hc'.
  destruct Hout as [Hv Hos Hfm _ _ _ _]. cbn [plain_call] in Hreal.
  unfold ftc_remote_pread. rewrite Hr. rewrite Hsl in Hreal |- *. cbn [fst snd] in Hreal |- *. exists c'.
  assert (Hnow : after (XPread fd count offset buf) (cl_os c) (cl_os c'))
    by (apply after_now; cbn; by rewrite Hsl).
  split; [|split; [done|]].
  - destruct Hv as [[-> Hb]|[-> ->]].
    + change (-1 <? 0) with true. cbv iota. rewrite Hreal by exact Hos.
      destruct Hb as [->| ->]; [done|]. by rewrite (write_front_idem sl buf).
    + by rewrite (proj2 (Z.ltb_ge (Z.of_nat (length sl)) 0)) by lia.
  - apply (lib_ok_call (XPread fd count offset buf) c c' Hl Hc').
    + done.
    + intros i q. rewrite Hfm. cbn. rewrite Hsl. apply (lo_tracked _ Hl).
Qed.

Lemma close_transparent hash se e fd c : lib_ok c ->
  env_for (cl_os c) (XClose fd) e -> transparent hash se e (XClose fd) c.
Proof.
  intros Hl [He _]. pose proof (lo_core _ Hl) as Hc. pose proof (lib_ok_call (XClose fd) c) as Hstep.
  unfold transparent. cbn [plain_call lib_call] in *. unfold wrap_close, redirect_off, ftc_get_path. mred.
  destruct (co_redirect _ Hc) as [-> ->]. cbn [orb]. unfold real_close, sys, on_os.
  destruct (fd_map c !! fd) as [p|] eqn:Ep.
  - destruct (lo_tracked _ Hl fd p Ep) as [d Hd].
    assert (Hopen : exists f, os_fds (cl_os c) !! fd = Some f).
    { unfold readable in Hd. apply bind_Some in Hd as (f & Hf & _). by exists f. }
    destruct Hopen as [f Hf]. unfold posix_close in Hstep |- *. rewrite Hf in Hstep |- *.
    destruct (remote_close_total hash fd e c p Hc He Ep) as (c1 & Hcl & Hc1 & Ho1 & Hfm).
    assert (Hrm : ftc_remove_fd hash fd e c = Ret true (upd_fd_map (delete fd (fd_map c1)) c1)).
    { unfold ftc_remove_fd. mred. rewrite decide_False by (intros E; by rewrite E in Ep). rewrite Hcl.
      by rewrite Hfm, Ep, bool_decide_true by (by eexists). }
    pose proof (like_fd _ _ _ _ Ho1 Hf) as Hf1.
    rewrite Hrm. cbn [upd_fd_map cl_os]. rewrite Hf1. cbn [fst snd] in Hstep |- *. eexists. split; [reflexivity|].
    assert (Hnow : after (XClose fd) (cl_os c) (set_fds (delete fd (os_fds (cl_os c1))) (cl_os c1))).
    { exists (cl_os c1). split; [done|]. cbn [plain_call]. unfold posix_close. by rewrite Hf, Hf1. }
    split; [done|]. apply Hstep; [done| |done|].
    + exact (core_ok_fds (delete fd (os_fds (cl_os c1))) _ (core_ok_fd_map (delete fd (fd_map c1)) _ Hc1)).
    + cbn. rewrite Hfm. intros i q [Hne Hq]%lookup_delete_Some. rewrite readable_delete by done.
      by apply (lo_tracked _ Hl i q).
  - assert (Hnow : forall q, posix_close fd (cl_os c) = q -> after (XClose fd) (cl_os c) q.2).
    { intros q <-. apply after_now. cbn [plain_call]. by destruct (posix_close fd (cl_os c)). }
    unfold posix_close in Hstep, Hnow |- *. destruct (os_fds (cl_os c) !! fd) as [f|] eqn:Ef; cbn [fst snd] in *.
    + eexists. split; [reflexivity|]. split; [by apply (Hnow _ eq_refl)|].
      apply Hstep; [done|by apply core_ok_fds|by apply (Hnow _ eq_refl)|].
      cbn. intros i q Hq. rewrite readable_delete by congruence. by apply (lo_tracked _ Hl i q).
    + eexists. split; [reflexivity|]. split; [by apply (Hnow _ eq_refl)|].
      apply Hstep; [done|by destruct c|by apply (Hnow _ eq_refl)|].
      cbn. apply (lo_tracked _ Hl).
Qed.

Lemma call_transparent hash se e x c : lib_ok c -> printable (se_addr_buffer se) ->
  env_for (cl_os c) x e -> transparent hash se e x c.
Proof.
  destruct x; intros; [by apply open_transparent|by apply pread_call_transparent|by apply close_transparent].
Qed.

(** A sequence of calls. *)
Lemma lib_calls_run hash se l c :
  lib_ok c -> printable (se_addr_buffer se) -> fair hash se l c ->
  exists hist c', hist.*1 = l.*2 /\ lib_calls hash se l c = Ret hist.*2 c' /\
    plain_run (cl_os c) hist (cl_os c') /\ lib_ok c'.
Proof.
  intros Hl Hse. revert c Hl. induction l as [|[e x] l IH]; intros c Hl Hf.
  { exists [], c. split_and!; try done. by apply pr_nil. }
  destruct Hf as [He Hf].
  destruct (call_transparent hash se e x c Hl Hse He) as (c1 & H1 & Ha & Hl1).
  destruct (IH c1 Hl1 (Hf _ _ H1)) as (hist & c' & Hx & H & Hr & Hl').
  exists ((x, (plain_call x (cl_os c)).1) :: hist), c'. split_and!; try done.
  - cbn. by rewrite Hx.
  - cbn [lib_calls]. rewrite (bind_Ret _ _ _ _ _ H1), (bind_Ret _ _ _ _ _ H). done.
  - by apply (pr_call _ _ (cl_os c) x (cl_os c1)).
Qed.

End Transparency.
Import Transparency.

Import ClientExample.

(** ** A client that has not started Mercury *)

Module TransparencyExample.

Definition os_t : os :=
  mk_os {["/pfs/f"%string := 0%nat; "/tmp/g"%string := 1%nat]} {["/pfs"%string; "/tmp"%string]} ∅
    {[0%nat := data; 1%nat := [Byte.x5a]]} ∅
    {[0 := OFile 1 0 true true false; 1 := OFile 1 0 true true false; 2 := OFile 1 0 true true false]} "/pfs"
    {["HOROVOD_RANK"%string := "0"%string; "MY_JOBID"%string := "7"%string; "FT_Cache_LOG_DIR"%string := "/tmp"%string]}
    {["./.ports.cfg.7"%string := of_string "0 tcp://s:1" ++ ["010"%char]]} [] (0, 0).

Definition cl_t : client :=
  mk_client os_t ∅ ∅ [0] ∅ 1 (Some "/pfs"%string) false false true false false false
    (strncpy (uninit 128) (of_string "tcp://c") 128) 0 0 (-1) ∅ ∅ 0 [].

Definition se_t : self_env := mk_self addr_s true.

(** The open times out; a read is answered, the next one times out. *)
Definition calls : list (cl_env * ro_call) :=
  [(env dead_wakes, XOpen "/pfs/f");
   (env good_wakes, XPread 3 2 1 [Byte.x00; Byte.x00; Byte.x00]);
   (env dead_wakes, XPread 3 9 3 [Byte.x00; Byte.x00; Byte.x00]);
   (env [], XClose 3)].

Lemma cl_t_ok : lib_ok cl_t.
Proof.
  split.
  - split; [|done|right; by exists "0"%string| |reflexivity].
    + split; [simpl; lia|done|by apply Forall_singleton|vm_compute; by eexists|done].
    + split; [by intros r H|]. intros h Hh. simpl in Hh. assert (h = 0) as -> by lia.
      eexists. vm_compute. reflexivity.
  - split.
    + intros p n. cbn. rewrite lookup_insert_Some, lookup_singleton_Some. intros [[_ <-]|[_ [_ <-]]]; by eexists.
    + intros fd f. cbn. rewrite !lookup_insert_Some, lookup_singleton_Some.
      intros H. assert (of_node f = 1%nat) as -> by naive_solver. by eexists.
    + intros fd f. cbn. rewrite !lookup_insert_Some, lookup_singleton_Some. lia.
  - done.
  - intros p n. cbn. rewrite lookup_insert_Some, lookup_singleton_Some.
    intros [[<- _]|[_ [<- _]]]; (split; [by apply (bool_decide_unpack _)|vm_compute; lia]).
  - intros fd p. cbn. by rewrite lookup_empty.
Qed.

Lemma dead_open_honest : open_honest dead_wakes /\ ends dead_wakes.
Proof. split; [by repeat split|]. right. left. by left. Qed.

(** The client after a first call. *)
Definition next (e : cl_env) (x : ro_call) (c : client) : client :=
  match lib_call hash0 se_t e x c with Ret _ c' => c' | _ => c end.

Lemma fair_step e x l c : env_for (cl_os c) x e -> fair hash0 se_t l (next e x c) ->
  fair hash0 se_t ((e, x) :: l) c.
Proof. intros He Hl. split; [done|]. intros a c' H. unfold next in Hl. by rewrite H in Hl. Qed.

Lemma calls_fair : fair hash0 se_t calls cl_t.
Proof.
  apply fair_step; [split; [apply env_is_ok|apply dead_open_honest]|].
  apply fair_step; [split; [apply env_is_ok|]|].
  { split; [lia|]. split; [exact good_ends|]. intros sl H. vm_compute in H. injection H as <-. exact good_honest. }
  apply fair_step; [split; [apply env_is_ok|]|].
  { split; [lia|]. split; [apply dead_open_honest|]. intros sl _. by apply silent_honest, dead_silent. }
  apply fair_step; [split; [apply env_is_ok|done]|done].
Qed.

End TransparencyExample.
Import TransparencyExample.

(** C4: A client started in any state it can reach, on a healthy node: for every
    sequence of opens for reading, positioned reads and closes, each call
    returns under the library, and returns exactly what the plain call returns
    on the same node: the same descriptor or error, the same count and the same
    bytes.  For each call the servers either answer before its deadline, with the
    right bytes or -1, or stay silent past it; an answer that comes after its
    deadline is excluded (it is undefined behaviour, shown elsewhere).  The plain
    node is one on which a descriptor may be taken by someone else between two
    calls, as the library's lookup of a host does with the stream that it never
    closes. *)
Theorem run_transparent hash se l c :
  lib_ok c -> printable (se_addr_buffer se) -> fair hash se l c ->
  exists hist c', hist.*1 = l.*2 /\ lib_calls hash se l c = Ret hist.*2 c' /\
    plain_run (cl_os c) hist (cl_os c') /\ lib_ok c'.
Proof. exact (lib_calls_run hash se l c). Qed.

Lemma run_transparent_witness :
  exists hist c', lib_calls hash0 se_t calls cl_t = Ret hist.*2 c' /\
    hist.*2 = [(3, []); (2, [Byte.x42; Byte.x43; Byte.x00]); (2, [Byte.x44; Byte.x45; Byte.x00]); (0, [])] /\
    plain_run os_t hist (cl_os c').
Proof.
  destruct (run_transparent hash0 se_t calls cl_t) as (hist & c' & _ & H & Hr & _).
  - exact cl_t_ok.
  - vm_compute. by eexists.
  - exact calls_fair.
  - exists hist, c'. split; [exact H|]. split; [|exact Hr].
    assert (E : hist.*2 = match lib_calls hash0 se_t calls cl_t with Ret r _ => r | _ => [] end) by (by rewrite H).
    rewrite E. vm_compute. reflexivity.
Defined.
