(* ===== verification/Renumbering.v ===== *)
(** * The descriptors of an application, up to their numbers

    The library takes descriptors of the process for streams that it never
    closes, so the descriptors of an application are not the ones it would get
    without the library.  They are the same up to a renumbering, as long as the
    application only uses descriptors that an open returned. *)

From S2P Require Import Prelude Address Posix Client Wrappers ClientSpec.
From S2P Require Import ClientInv ClientProps Transparency.
Import Posix Client Wrappers ClientSpec ClientInv ClientProps Transparency.

Module Renumbering.





(** ** Two nodes that differ in the numbers *)








(** ** One call on both *)




(** ** A whole run *)


End Renumbering.
Import Renumbering.

Import ClientExample TransparencyExample.


Module RenumberingExample.





End RenumberingExample.
Import RenumberingExample.

