(* ===== verification/System.v ===== *)
(** * Client and server together

    An application opens a tracked file and reads from it.  The requests the
    client sends are the requests the server handles, and the wakes of the
    client's waits are what the server's events put on the wire: the bytes it
    pushed and the number it answered. *)

From S2P Require Import Prelude CString HexDump Address Posix LogInfo Server ServerSpec ServerProps.
From S2P Require Import Client Wrappers ClientSpec ClientProps.
Import Address Posix LogInfo Client Wrappers ClientSpec ClientProps.
Import ServerSpec.

Module System.

(** An open that succeeds locally, is tracked and is answered. *)
Lemma wrap_open_run hash path flags fd n se e c p r k :
  client_ok c -> started c -> env_ok e -> path_ok p ->
  find_sub (of_string ".ports.cfg.") (of_string path) = None ->
  flags = O_RDONLY -> lowest_fd (os_fds (cl_os c)) = fd ->
  os_files (cl_os c) !! resolve (cl_os c) path = Some n ->
  track_decision c path = Some p -> host_known c (host_for hash c p) ->
  timeout_counters c !! Z.to_nat (host_for hash c p) = Some k -> k < TIMEOUT_LIMIT ->
  answered r (ce_wakes e) -> reply_ok r ->
  exists c', wrap_open hash path flags se e c = Ret fd c' /\
    open_outcome hash fd p (rp_out r)
      (upd_os (set_fds (<[fd := OFile n 0 true false false]> (os_fds (cl_os c))) (cl_os c)) c) c'.
Proof.
  intros Hok Hst He Hpo Hsub -> Hfd Hn Hd Hkn Hk Hlt Ha Hr.
  set (o := set_fds (<[fd := OFile n 0 true false false]> (os_fds (cl_os c))) (cl_os c)).
  destruct (track_file_run hash path O_RDONLY fd se e (upd_os o c) p r k) as (c' & Ht & Hout);
    try done; [by destruct Hok|].
  exists c'. split; [|done]. by eapply wrap_open_track.
Qed.

(** The state after the open is fit for reads of the new descriptor. *)
Lemma open_outcome_ok hash fd p out c c' : client_ok c -> open_outcome hash fd p out c c' ->
  client_ok c' /\ host_for hash c' p = host_for hash c p /\ host_known c' (host_for hash c' p).
Proof.
  intros [K1 K2 K3 K4 K5] [O1 O2 O3 O4 O5 O6 O7 O8 O9 O10].
  assert (Hh : host_for hash c' p = host_for hash c p) by (unfold host_for; by rewrite O5).
  split; [|split; [done|]].
  - split; [by rewrite O5|by rewrite O4, O5|by rewrite O4|by rewrite O7|done].
  - rewrite Hh. destruct O8 as [a Ha]. exists a. unfold ftc_client_comm_lookup_addr. by rewrite Ha.
Qed.

(** What reaches the client of the events of one served read. *)
Definition read_wakes (h : nat) (es : list Server.event) (pre : list wake) (r : reply) (late : bool)
    : list wake :=
  pre ++ [mk_wake (Some (pushed h es)) (Some r) late].

(** Before the answer: spurious wake-ups only. *)
Definition spurious (ws : list wake) : Prop :=
  Forall (fun w => wk_push w = None /\ wk_reply w = None) ws.

Lemma read_wakes_honest h es pre r late sl : spurious pre -> reply_ok r ->
  pushed h es = sl -> rp_out r = Z.of_nat (length sl) ->
  honest sl false (read_wakes h es pre r late) /\ ends (read_wakes h es pre r late).
Proof.
  intros Hpre Hr Hsl Hout. split.
  - unfold read_wakes. induction Hpre as [|w ws [H1 H2] _ IH].
    + simpl. split; [right; by rewrite Hsl|]. split; [done|]. by right.
    + simpl. rewrite H2. split; [by left|]. by rewrite H1.
  - apply Exists_app. right. left. right. by eexists.
Qed.

Lemma read_wakes_prompt h es pre r : spurious pre -> Forall (fun w => wk_timedout w = false) pre ->
  prompt (read_wakes h es pre r false) = Some r.
Proof.
  intros Hs Hf. unfold read_wakes. induction Hs as [|w ws [_ Hr] _ IH]; [done|].
  apply Forall_cons in Hf as [Ht Hf]. cbn [app prompt]. rewrite Ht, Hr. by apply IH.
Qed.

End System.
Import System.

(** End to end: an application opens a tracked file whose bytes are [d] on
    its node and on the server that the hash of the name selects.  The server
    answers the forwarded open with a descriptor [rfd]; when that answer reaches
    the client, the open returns the local descriptor.  Every later [pread] of
    it forwards a read of [rfd], which the server serves, and when its bytes and
    its answer reach the client, after any spurious wake-ups and even together
    with the deadline, the application gets exactly the bytes of the file. *)
Lemma open_then_pread_end_to_end hash se c s path p n d ns k h1 call1 :
  let fd := lowest_fd (os_fds (cl_os c)) in
  let host := host_for hash c p in
  (* the client *)
  client_ok c -> started c -> path_ok p ->
  find_sub (of_string ".ports.cfg.") (of_string path) = None ->
  os_files (cl_os c) !! resolve (cl_os c) path = Some n -> os_nodes (cl_os c) !! n = Some d ->
  n ∉ os_bad (cl_os c) -> track_decision c path = Some p ->
  host_known c host -> timeout_counters c !! Z.to_nat host = Some k -> k < TIMEOUT_LIMIT ->
  (* the server *)
  Server.call_ok call1 -> Server.addr_ok s ->
  os_files (Server.srv_os s) !! resolve (Server.srv_os s) (served_path s p) = Some ns ->
  os_nodes (Server.srv_os s) !! ns = Some d -> ns ∉ os_bad (Server.srv_os s) ->
  exists rfd s1, serve h1 call1 (ROpen (Server.mk_open_in p (cl_client_rank c) fd)) s = Ret 0 s1 /\
    responses h1 (new_events s s1) = [rfd] /\
    forall e1 r1, env_ok e1 -> reply_ok r1 -> rp_out r1 = rfd -> answered r1 (ce_wakes e1) ->
    exists c1, wrap_open hash path O_RDONLY se e1 c = Ret fd c1 /\
      cl_trace c1 = cl_trace c ++ [CForward host (ROpen (Server.mk_open_in p (cl_client_rank c) fd))] /\
      forall count offset buf h2 call2, 0 <= count < 2 ^ 31 -> 0 <= offset ->
        Server.call_ok call2 -> Server.srv_bulk s !! h2 = None ->
      let msg := RRead (Server.mk_rpc_in count rfd fd offset (cl_client_rank c)) in
      let sl := zslice d offset (Z.min count MAX_RW_COUNT) in
      exists s2, serve h2 call2 msg s1 = Ret 0 s2 /\
        responses h2 (new_events s1 s2) = [Z.of_nat (length sl)] /\
        forall e2 r2 pre late, env_ok e2 -> reply_ok r2 -> spurious pre ->
          responses h2 (new_events s1 s2) = [rp_out r2] ->
          ce_wakes e2 = read_wakes h2 (new_events s1 s2) pre r2 late ->
        exists c2, wrap_pread hash fd count offset buf e2 c1 =
            Ret (Z.of_nat (length sl), write_front sl buf) c2 /\
          read_msg c1 fd count offset = msg.
Proof.
  intros fd host Hok Hst Hpo Hsub Hn Hd Hbad Htr Hkn Hk Hlt Hc1 Ha Hns Hds Hbads.
  destruct (open_events h1 call1 (Server.mk_open_in p (cl_client_rank c) fd) s Hc1 Ha)
    as (s1 & Hs1 & Hl1 & Hev1).
  pose proof (readable_open _ _ _ _ Hns Hds Hbads) as Hrd.
  rewrite posix_open_rdonly in Hev1. cbn [Server.oi_path] in Hev1. rewrite Hns in Hev1. cbn [fst] in Hev1.
  exists (lowest_fd (os_fds (Server.srv_os s))), s1. split; [done|].
  split; [rewrite Hev1; unfold responses; simpl; by rewrite decide_True|].
  intros e1 r1 He1 Hr1 Hout1 Hans.
  destruct (wrap_open_run hash path O_RDONLY fd n se e1 c p r1 k) as (c1 & Ho & Hoc); try done.
  set (c0 := upd_os _ c) in Hoc. assert (Hok0 : client_ok c0) by by destruct Hok.
  destruct (open_outcome_ok _ _ _ _ _ _ Hok0 Hoc) as (Hok1 & _ & Hkn1).
  exists c1. split; [done|]. split; [exact (oo_trace _ _ _ _ _ _ Hoc)|].
  intros count offset buf h2 call2 Hcnt Hoff Hc2 Hbk msg sl.
  destruct (pread_delivers h2 call2 (Server.mk_rpc_in count (lowest_fd (os_fds (Server.srv_os s))) fd offset
    (cl_client_rank c)) s1 d) as (s2 & Hs2 & Hpush & Hresp & _); try done.
  { destruct Hl1 as [t ->]. exact Ha. }
  { by destruct Hl1 as [t ->]. }
  { rewrite (logs_only_readable _ _ _ Hl1). exact Hrd. }
  cbn [Server.ri_offset Server.ri_input_val] in Hpush, Hresp. fold sl in Hpush, Hresp.
  exists s2. split; [done|]. split; [done|].
  intros e2 r2 pre late He2 Hr2 Hpre Hout2 Hw2. rewrite Hresp in Hout2.
  destruct (read_wakes_honest h2 (new_events s1 s2) pre r2 late sl) as [Hhon Hends]; try done; [congruence|].
  assert (Hrc : readable (cl_os c1) fd = Some d).
  { destruct (oo_os _ _ _ _ _ _ Hoc) as [t ->]. rewrite patched_readable. unfold readable. cbn. rewrite lookup_insert_eq. cbn.
    by rewrite bool_decide_true. }
  destruct (wrap_pread_run hash fd count offset buf e2 c1 d) as (r & c2 & Hreal & Hrun & _); try done.
  { rewrite (oo_fd_map _ _ _ _ _ _ Hoc). intros q. rewrite lookup_insert_eq. by intros [= <-]. }
  { by rewrite Hw2. }
  { by rewrite Hw2. }
  exists c2. rewrite Hrun. split.
  - f_equal. unfold real_pread, posix_pread in Hreal. mred_in Hreal. rewrite Hrc in Hreal.
    rewrite (proj2 (Z.ltb_ge offset 0)) in Hreal by done. cbn in Hreal. by simplify_eq.
  - unfold read_msg. rewrite (oo_redir _ _ _ _ _ _ Hoc), lookup_insert_eq, (oo_rank _ _ _ _ _ _ Hoc).
    rewrite i32_id by (unfold in_i32; lia). cbn [default]. by rewrite Hout1.
Qed.

(** C17: a lost answer to an open gives wrong bytes.  An application opens a tracked
    file; the server does not answer before the deadline, or the answer is lost.
    The open succeeds, the file stays tracked and nothing is recorded.  When the
    server is well again, every [pread] asks it for its descriptor 0, and if that
    descriptor can be read the application gets the bytes of whatever file it
    refers to, with their number, as if they were its file's. *)
Theorem lost_open_wrong_bytes hash se c s path p n k e1 dq :
  let fd := lowest_fd (os_fds (cl_os c)) in
  let host := host_for hash c p in
  (* the client, and an open that nobody answers *)
  client_ok c -> started c -> path_ok p ->
  find_sub (of_string ".ports.cfg.") (of_string path) = None ->
  os_files (cl_os c) !! resolve (cl_os c) path = Some n -> track_decision c path = Some p ->
  host_known c host -> timeout_counters c !! Z.to_nat host = Some k -> k + 1 < TIMEOUT_LIMIT ->
  env_ok e1 -> silent (ce_wakes e1) -> fd_redir_map c !! fd = None ->
  (* the server *)
  Server.addr_ok s -> readable (Server.srv_os s) 0 = Some dq ->
  exists c1, wrap_open hash path O_RDONLY se e1 c = Ret fd c1 /\ fd_map c1 !! fd = Some p /\
    forall count offset buf h2 call2, 0 <= count < 2 ^ 31 -> 0 <= offset ->
      Server.call_ok call2 -> Server.srv_bulk s !! h2 = None ->
    let msg := RRead (Server.mk_rpc_in count 0 fd offset (cl_client_rank c)) in
    let sl := zslice dq offset (Z.min count MAX_RW_COUNT) in
    exists s2, serve h2 call2 msg s = Ret 0 s2 /\
      responses h2 (new_events s s2) = [Z.of_nat (length sl)] /\
      forall e2 r2 pre, env_ok e2 -> reply_ok r2 -> spurious pre ->
        Forall (fun w => wk_timedout w = false) pre ->
        responses h2 (new_events s s2) = [rp_out r2] ->
        ce_wakes e2 = read_wakes h2 (new_events s s2) pre r2 false ->
      exists c2, wrap_pread hash fd count offset buf e2 c1 =
          Ret (Z.of_nat (length sl), write_front sl buf) c2 /\
        cl_trace c2 = cl_trace c1 ++ [CForward host msg].
Proof.
  intros fd host Hok Hst Hpo Hsub Hn Htr Hkn Hk Hlt He1 Hs Hredir Ha Hrd.
  set (c0 := upd_os (set_fds (<[fd := OFile n 0 true false false]> (os_fds (cl_os c))) (cl_os c)) c).
  destruct (track_file_silent hash path O_RDONLY fd se e1 c0 p k) as (c1 & Ht & Hou); try done;
    [by destruct Hok|lia|].
  assert (Hok0 : client_ok c0) by by destruct Hok.
  destruct (open_unanswered_ok hash fd p k c0 c1 Hok0 Hou Hk) as (Hok1 & Hh1 & Hkn1); [lia|].
  change (host_for hash c0 p) with host in Hh1.
  destruct Hou as [O1 O2 O3 O4 O5 O6 O7 O8 O9].
  assert (Hp1 : fd_map c1 !! fd = Some p) by (rewrite O1; apply lookup_insert_eq).
  exists c1. split; [by eapply wrap_open_track|]. split; [done|].
  intros count offset buf h2 call2 Hcnt Hoff Hc2 Hbk msg sl.
  destruct (pread_delivers h2 call2 (Server.mk_rpc_in count 0 fd offset (cl_client_rank c)) s dq)
    as (s2 & Hs2 & Hpush & Hresp & _); try done.
  cbn [Server.ri_offset Server.ri_input_val] in Hpush, Hresp. fold sl in Hpush, Hresp.
  exists s2. split; [done|]. split; [done|].
  intros e2 r2 pre He2 Hr2 Hpre Hnt Hout2 Hw2. rewrite Hresp in Hout2.
  destruct (read_wakes_honest h2 (new_events s s2) pre r2 false sl) as [Hhon Hends]; try done; [congruence|].
  destruct (remote_transfer_prompt hash fd count offset buf sl e2 c1 p Hok1 He2 Hp1 Hkn1)
    as (v & b & c2 & Hrun & [Hval _ _ _ _ _ (k' & Hk' & Htrace)] & Hprompt); [by rewrite Hw2..|].
  rewrite Hh1, O4, list_lookup_insert_eq in Hk', Hprompt by (by eapply lookup_lt_Some). injection Hk' as <-.
  assert (Hv : v = Z.of_nat (length sl)).
  { destruct (Hprompt r2 (k + 1)) as [-> _]; [|done|done|congruence]. rewrite Hw2. by apply read_wakes_prompt. }
  subst v. assert (b = write_front sl buf) as -> by (destruct Hval as [[? _]|[_ ->]]; [lia|done]).
  exists c2. unfold wrap_pread, ftc_get_path, ftc_remote_pread. mred. rewrite Hp1. mred. rewrite Hrun. cbn [fst].
  rewrite (proj2 (Z.ltb_ge _ 0)) by lia. split; [done|].
  rewrite (proj2 (Z.leb_gt TIMEOUT_LIMIT (k + 1))), Hh1 in Htrace by done. destruct Htrace as [-> _].
  unfold read_msg, msg. rewrite O2, O6, i32_id by (unfold in_i32; lia).
  change (fd_redir_map c0) with (fd_redir_map c). by rewrite Hredir.
Qed.

Import ClientProps.ClientExample.

(** Descriptor 0 of the server answers the open; two bytes answer the read. *)
Definition open_wakes : list wake := [mk_wake None None false; mk_wake None (Some (ok_reply 0)) false].

Lemma open_then_pread_end_to_end_witness :
  exists c1 c2, wrap_open hash0 "/pfs/f" O_RDONLY (mk_self addr_s true) (env open_wakes) (cl 0) = Ret 4 c1 /\
    wrap_pread hash0 4 2 1 [Byte.x00; Byte.x00; Byte.x00] (env good_wakes) c1 =
      Ret (2, [Byte.x42; Byte.x43; Byte.x00]) c2.
Proof.
  destruct (open_then_pread_end_to_end hash0 (mk_self addr_s true) (cl 0) ServerExample.srv0
    "/pfs/f" "/pfs/f" 0 data 0 0 1 ServerExample.call0) as (rfd & s1 & Hs1 & Hresp & Hopen).
  - apply cl_ok. lia.
  - done.
  - split; [by apply (bool_decide_unpack _)|vm_compute; lia].
  - vm_compute. reflexivity.
  - vm_compute. reflexivity.
  - vm_compute. reflexivity.
  - apply not_elem_of_empty.
  - vm_compute. reflexivity.
  - apply cl_known.
  - vm_compute. reflexivity.
  - vm_compute. reflexivity.
  - exact ServerExample.call0_ok.
  - exact ServerExample.srv0_addr.
  - vm_compute. reflexivity.
  - vm_compute. reflexivity.
  - apply not_elem_of_empty.
  - assert (rfd = 0) as -> by (vm_compute in Hs1; injection Hs1 as <-; vm_compute in Hresp; congruence).
    destruct (Hopen (env open_wakes) (ok_reply 0)) as (c1 & Hc1 & _ & Hread).
    { apply env_is_ok. } { apply ok_reply_ok. } { reflexivity. }
    { apply answered_later; try reflexivity. by apply answered_now. }
    destruct (Hread 2 1 [Byte.x00; Byte.x00; Byte.x00] 2%nat ServerExample.call0)
      as (s2 & Hs2 & Hr2 & Hfin); [lia..|exact ServerExample.call0_ok|vm_compute; reflexivity|].
    assert (Hp : pushed 2 (new_events s1 s2) = [Byte.x42; Byte.x43]).
    { vm_compute in Hs1. injection Hs1 as <-. vm_compute in Hs2. injection Hs2 as <-. vm_compute. reflexivity. }
    destruct (Hfin (env good_wakes) (ok_reply 2) [mk_wake None None false] false) as (c2 & Hc2 & _).
    { apply env_is_ok. } { apply ok_reply_ok. } { by repeat constructor. } { rewrite Hr2. vm_compute. reflexivity. }
    { unfold read_wakes. rewrite Hp. reflexivity. }
    exists c1, c2. split; [exact Hc1|exact Hc2].
Defined.

(** A server whose descriptor 0 is another file, "/pfs/g" with the bytes "XYZ". *)
Definition other : list byte := [Byte.x58; Byte.x59; Byte.x5a].
Definition srv_other : Server.server :=
  Server.mk_server
    (mk_os {["/pfs/f"%string := 0%nat; "/pfs/g"%string := 1%nat]} {["/pfs"%string; "/nvme"%string]} ∅
      {[0%nat := data; 1%nat := other]} ∅ {[0 := OFile 1 0 true false false]} "/pfs" ∅ ∅ ["a0"%string; "a1"%string] (0, 0))
    ∅ {[0 := "/pfs/g"%string]} [] 0 0 (strncpy (uninit 128) (of_string "10.0.0.1") 128) ∅ [].

(** The application asked for "BC" of its file and gets "YZ". *)
Lemma lost_open_wrong_bytes_witness :
  exists c1 c2, wrap_open hash0 "/pfs/f" O_RDONLY (mk_self addr_s true) (env dead_wakes) (cl 0) = Ret 4 c1 /\
    wrap_pread hash0 4 2 1 [Byte.x00; Byte.x00; Byte.x00]
      (env [mk_wake None None false; mk_wake (Some [Byte.x59; Byte.x5a]) (Some (ok_reply 2)) false]) c1 =
      Ret (2, [Byte.x59; Byte.x5a; Byte.x00]) c2 /\
    readable (cl_os (cl 0)) 3 = Some data.
Proof.
  destruct (lost_open_wrong_bytes hash0 (mk_self addr_s true) (cl 0) srv_other "/pfs/f" "/pfs/f" 0 0
    (env dead_wakes) other) as (c1 & Hc1 & _ & Hread).
  - apply cl_ok. lia.
  - done.
  - split; [by apply (bool_decide_unpack _)|vm_compute; lia].
  - vm_compute. reflexivity.
  - vm_compute. reflexivity.
  - vm_compute. reflexivity.
  - apply cl_known.
  - vm_compute. reflexivity.
  - vm_compute. reflexivity.
  - apply env_is_ok.
  - apply dead_silent.
  - vm_compute. reflexivity.
  - vm_compute. by eexists.
  - vm_compute. reflexivity.
  - destruct (Hread 2 1 [Byte.x00; Byte.x00; Byte.x00] 2%nat ServerExample.call0)
      as (s2 & Hs2 & Hr2 & Hfin); [lia..|exact ServerExample.call0_ok|vm_compute; reflexivity|].
    assert (Hp : pushed 2 (new_events srv_other s2) = [Byte.x59; Byte.x5a]).
    { vm_compute in Hs2. injection Hs2 as <-. vm_compute. reflexivity. }
    destruct (Hfin (env [mk_wake None None false; mk_wake (Some [Byte.x59; Byte.x5a]) (Some (ok_reply 2)) false])
      (ok_reply 2) [mk_wake None None false]) as (c2 & Hc2 & _).
    { apply env_is_ok. } { apply ok_reply_ok. } { by repeat constructor. } { by repeat constructor. }
    { rewrite Hr2. vm_compute. reflexivity. } { unfold read_wakes. rewrite Hp. reflexivity. }
    exists c1, c2. split; [exact Hc1|]. split; [exact Hc2|vm_compute; reflexivity].
Defined.
