(* ===== verification/ServerWire.v ===== *)
(** * The server as its clients see it

    The steps of [ServerThreads], sorted by what a client can tell apart: a
    request is taken off the wire ([accept]), or the server goes on with its own
    work ([internal]).  For each of them: the descriptors that serve a file keep
    serving it, and the answers and the bytes that are sent for a request are
    those of the file. *)

From S2P Require Import Prelude CString HexDump Address Posix LogInfo Server ServerSpec ServerProps.
From S2P Require Import DataMover ServerInv ServerThreads.
Import Address Posix LogInfo Server ServerSpec DataMover ServerInv ServerThreads.

Module ServerWire.

(** ** Steps *)

(** The progress thread takes request [r], with handle [h], and runs the first
    piece of its handler. *)
Inductive accept (h : nat) (c : hg_call) : rpc -> cstate -> cstate -> Prop :=
  | accept_open s s' pd dd m i r : open_begin h c i s = Ret r s' ->
      accept h c (ROpen i) (mk_cstate s pd dd PIdle m None) (mk_cstate s' pd dd (next_open r) m None)
  | accept_read s s' pd dd m i r : ftc_rpc_handler h c i s = Ret r s' ->
      accept h c (RRead i) (mk_cstate s pd dd PIdle m None) (mk_cstate s' pd dd PIdle m None)
  | accept_seek s s' pd dd m i r : ftc_seek_rpc_handler h c i s = Ret r s' ->
      accept h c (RSeek i) (mk_cstate s pd dd PIdle m None) (mk_cstate s' pd dd PIdle m None)
  | accept_close s s' pd dd m i r : close_begin h c i s = Ret r s' ->
      accept h c (RClose i) (mk_cstate s pd dd PIdle m None) (mk_cstate s' pd dd (next_close r) m None).

(** A transfer completes, a handler goes on, the mover works, or it wakes. *)
Inductive internal (nvme : string) : cstate -> cstate -> Prop :=
  | int_complete s s' pd dd m h r1 r2 r : ftc_rpc_handler_bulk_cb h r1 r2 s = Ret r s' ->
      internal nvme (mk_cstate s pd dd PIdle m None) (mk_cstate s' pd dd PIdle m None)
  | int_handler st st' : prog_step st st' -> c_prog st <> PIdle -> internal nvme st st'
  | int_mover st st' : mover_step nvme st st' -> internal nvme st st'
  | int_spurious s pd dd p :
      internal nvme (mk_cstate s pd dd p MWait None) (mk_cstate s pd dd p MWake None).

Lemma accept_step nvme h c r st st' : accept h c r st st' -> step nvme st st'.
Proof.
  intros []; apply step_prog;
    [by eapply step_open|by eapply step_read|by eapply step_seek|by eapply step_close].
Qed.

Lemma internal_step nvme st st' : internal nvme st st' -> step nvme st st'.
Proof.
  intros [].
  - apply step_prog. by eapply step_bulk_cb.
  - by apply step_prog.
  - by apply step_mover.
  - apply step_spurious.
Qed.

(** Every step of a server that does not end it is one of the two. *)
Lemma step_cases nvme st st' : step nvme st st' -> c_dead st' = None ->
  internal nvme st st' \/ exists h c r, accept h c r st st'.
Proof.
  intros [st1 st2 Hs|st1 st2 Hs|s pd dd p|s s' pd dd p m w Hd] Hn; [|left; by apply int_mover|left; apply int_spurious|done].
  destruct Hs; try (left; by apply int_handler; [econstructor|]).
  - right. do 3 eexists. by eapply accept_open.
  - right. do 3 eexists. by eapply accept_read.
  - left. by eapply int_complete.
  - right. do 3 eexists. by eapply accept_seek.
  - right. do 3 eexists. by eapply accept_close.
Qed.

(** ** A descriptor that serves a file *)

Definition holds (rfd : Z) (p : string) (s : server) : Prop :=
  0 <= rfd /\ is_Some (os_fds (srv_os s) !! rfd) /\ fd_to_path s !! rfd = Some p.

(** ... and that no handler has closed. *)
Definition serving (rfd : Z) (p : string) (st : cstate) : Prop :=
  holds rfd p (c_srv st) /\ rfd ∉ closed_fds (c_prog st).

Section Holds.
Context (rfd : Z) (p : string).
#[local] Abbreviation H := (holds rfd p).

Lemma holds_modify f :
  (forall s, os_fds (srv_os (f s)) = os_fds (srv_os s) /\ fd_to_path (f s) = fd_to_path s) ->
  preserves H (modify f).
Proof.
  intros Hf. apply preserves_modify. intros s (H0 & H1 & H2). destruct (Hf s) as [E1 E2].
  split; [done|]. split; by rewrite ?E1, ?E2.
Qed.

Lemma holds_emit e : preserves H (emit e).
Proof. by apply holds_modify. Qed.
Lemma holds_set_bulk m : preserves H (modify (set_bulk m)).
Proof. by apply holds_modify. Qed.
Lemma holds_set_queue m : preserves H (modify (set_queue m)).
Proof. by apply holds_modify. Qed.
Lemma holds_set_cache m : preserves H (modify (set_cache m)).
Proof. by apply holds_modify. Qed.
Lemma holds_log i : preserves H (log i).
Proof. by intros s a s' Hs [t ->]%log_Ret. Qed.

Lemma holds_sys {A} (f : os -> A * os) :
  (forall o, is_Some (os_fds o !! rfd) -> is_Some (os_fds (f o).2 !! rfd)) -> preserves H (sys f).
Proof. intros Hf s a s' (H0 & H1 & H2) [= <- <-]. split_and!; [done| |done]. by apply Hf. Qed.

Lemma holds_read fd n : preserves H (sys (posix_read fd n)).
Proof.
  apply holds_sys. intros o Ho. unfold posix_read.
  destruct (os_fds o !! fd), (readable o fd); try done. simpl. rewrite lookup_insert. by case_decide.
Qed.

Lemma holds_lseek fd off wh : preserves H (sys (posix_lseek fd off wh)).
Proof.
  apply holds_sys. intros o Ho. unfold posix_lseek.
  destruct (os_fds o !! fd) as [f|], rfd; try done; destruct (seek_base f wh o); try done;
    case_if; try done; simpl; rewrite lookup_insert; by case_decide.
Qed.

Lemma holds_close fd : fd <> rfd -> preserves H (sys (posix_close fd)).
Proof.
  intros Hne. apply holds_sys. intros o Ho. unfold posix_close.
  destruct (os_fds o !! fd); [|done]. simpl. by rewrite lookup_delete_ne.
Qed.

Lemma holds_erase_fd fd : fd <> rfd -> preserves H (erase_fd fd).
Proof.
  intros Hne s a s' (H0 & H1 & H2) E. unfold erase_fd in E. mred_in E. simplify_eq.
  split_and!; [done..|]. cbn. by rewrite lookup_delete_ne.
Qed.

Lemma holds_fd_to_path_at fd : preserves H (fd_to_path_at fd).
Proof.
  intros s a s' (H0 & H1 & H2) E. unfold fd_to_path_at in E. mred_in E.
  destruct (fd_to_path s !! fd) eqn:Ef; simplify_eq; [done|]. split_and!; [done..|]. cbn.
  rewrite lookup_insert_ne; [done|]. congruence.
Qed.

End Holds.

#[export] Hint Resolve holds_emit holds_set_bulk holds_set_queue holds_set_cache holds_log holds_read
  holds_lseek holds_close holds_erase_fd holds_fd_to_path_at : ftc.

Section HoldsPieces.
Context (rfd : Z) (p : string).
#[local] Abbreviation H := (holds rfd p).

Lemma holds_peer_flag b : preserves H (peer_flag b).
Proof. unfold peer_flag. walk. Qed.

#[local] Hint Resolve holds_peer_flag : ftc.

Lemma holds_open_begin h c i : preserves H (open_begin h c i).
Proof. unfold open_begin, gettimeofday. walk. Qed.
Lemma holds_start_transfer h c i d : preserves H (start_transfer h c i d).
Proof. unfold start_transfer. walk. Qed.

#[local] Hint Resolve holds_start_transfer : ftc.

Lemma holds_rpc_handler h c i : preserves H (ftc_rpc_handler h c i).
Proof.
  unfold ftc_rpc_handler, rpc_begin, rpc_stream_read, rpc_positioned_read, gettimeofday. walk.
Qed.
Lemma holds_bulk_cb h r1 r2 : preserves H (ftc_rpc_handler_bulk_cb h r1 r2).
Proof. unfold ftc_rpc_handler_bulk_cb, free_rpc_state. walk. Qed.
Lemma holds_seek_handler h c i : preserves H (ftc_seek_rpc_handler h c i).
Proof. unfold ftc_seek_rpc_handler. walk. Qed.
Lemma holds_close_begin h c i : ci_fd i <> rfd -> preserves H (close_begin h c i).
Proof.
  intros Hne. pose proof (holds_close rfd p _ Hne). pose proof (holds_erase_fd rfd p _ Hne).
  unfold close_begin, gettimeofday. walk.
Qed.
Lemma holds_close_check f : preserves H (close_check f).
Proof. unfold close_check. walk. Qed.
Lemma holds_close_push f : preserves H (close_push f).
Proof. unfold close_push. walk. Qed.
Lemma holds_close_finish f b : ci_fd (cf_in f) <> rfd -> preserves H (close_finish f b).
Proof. intros Hne. pose proof (holds_erase_fd rfd p _ Hne). unfold close_finish. walk. Qed.

End HoldsPieces.

(** The end of an open: a new descriptor serves the file, the others go on. *)
Lemma open_finish_run f x s v s' : open_finish f x s = Ret v s' ->
  exists t, let r := posix_open x.1.1 O_RDONLY (srv_os s) in
    s' = emit_event (EvRespond (of_handle f) r.1)
           (set_fd_to_path (<[r.1 := oi_path (of_in f)]> (fd_to_path s)) (set_os (set_text t r.2) s)).
Proof.
  destruct x as [[redir nv] li]. unfold open_finish. intros H.
  apply bind_inv in H as (now & s1 & H1 & H). unfold gettimeofday in H1. mred_in H1. simplify_eq.
  apply bind_inv in H as ([] & s2 & [t1 ->]%log_Ret & H).
  rewrite (bind_Ret _ _ _ _ _ (sys_Ret _ _)) in H.
  apply bind_inv in H as (now2 & s3 & H3 & H). unfold gettimeofday in H3. mred_in H3. simplify_eq.
  apply bind_inv in H as ([] & s4 & [t2 ->]%log_Ret & H).
  unfold emit in H. mred_in H. simplify_eq. exists t2. cbn.
  by rewrite !open_set_text.
Qed.

Lemma holds_open_finish rfd p f x : preserves (holds rfd p) (open_finish f x).
Proof.
  intros s v s' (H0 & Ho & Hf) [t ->]%open_finish_run. unfold holds. cbn. rewrite posix_open_rdonly.
  destruct (os_files (srv_os s) !! _); cbn.
  - assert (lowest_fd (os_fds (srv_os s)) <> rfd).
    { intros <-. destruct (lowest_fd_free (os_fds (srv_os s))) as [E _]. rewrite E in Ho. by destruct Ho. }
    by rewrite !lookup_insert_ne by done.
  - by rewrite lookup_insert_ne by lia.
Qed.

Lemma holds_mover_copy rfd p nvme q : preserves (holds rfd p) (mover_copy nvme q).
Proof.
  intros s r s' (H0 & Ho & Hf) E. destruct (mover_copy_run nvme q s) as (r1 & o & E1 & _ & Hfds & _).
  rewrite E1 in E. simplify_eq. split_and!; [done| |done]. cbn. by rewrite Hfds.
Qed.

(** A step that closes another descriptor, or none, keeps [rfd] serving. *)
Definition closes (rfd : Z) (r : rpc) : Prop :=
  match r with RClose i => ci_fd i = rfd | _ => False end.

Lemma close_begin_frame h c i s f s' : close_begin h c i s = Ret (inr f) s' -> cf_in f = i.
Proof.
  unfold close_begin. intros ([] & s1 & _ & H)%bind_inv. apply bind_inv in H as (now & s2 & _ & H).
  destruct (hc_peer c) as [[z b]|]; repeat (apply bind_inv in H as (? & ? & _ & H)); mred_in H; by simplify_eq.
Qed.

Lemma open_begin_frame h c i s f s' : open_begin h c i s = Ret (inr f) s' ->
  of_handle f = h /\ of_in f = i.
Proof.
  unfold open_begin. intros ([] & s1 & _ & H)%bind_inv. apply bind_inv in H as (now & s2 & _ & H).
  destruct (hc_peer c) as [[z b]|]; repeat (apply bind_inv in H as (? & ? & _ & H)); mred_in H; by simplify_eq.
Qed.

Lemma accept_serving h c r st st' rfd p : accept h c r st st' -> ~ closes rfd r ->
  serving rfd p st -> serving rfd p st'.
Proof.
  intros Ha Hn [Hh _]. destruct Ha as [s s' pd dd m i v H|s s' pd dd m i v H|s s' pd dd m i v H|s s' pd dd m i v H];
    unfold serving; cbn in *.
  - split; [by eapply holds_open_begin|]. destruct v; by apply not_elem_of_nil.
  - split; [by eapply holds_rpc_handler|by apply not_elem_of_nil].
  - split; [by eapply holds_seek_handler|by apply not_elem_of_nil].
  - split; [by eapply holds_close_begin|]. destruct v as [|f]; [by apply not_elem_of_nil|].
    apply close_begin_frame in H as <-. cbn. set_solver.
Qed.

Lemma internal_serving nvme st st' rfd p : internal nvme st st' -> serving rfd p st -> serving rfd p st'.
Proof.
  intros [s s' pd dd m h r1 r2 r H|st1 st2 Hs Hi|st1 st2 Hs|s pd dd q] [Hh Hc]; unfold serving in *; cbn in *.
  - split; [by eapply holds_bulk_cb|done].
  - destruct Hs; try done; cbn in *.
    + apply open_lookup_same in H as ->. done.
    + split; [by eapply holds_open_finish|done].
    + split; [by eapply holds_close_check|]. by destruct b.
    + split; [by eapply holds_close_push|done].
    + split; [eapply holds_close_finish; [|done..]; set_solver|by apply not_elem_of_nil].
  - destruct Hs; cbn in *; try done.
    + by destruct (data_queue s).
    + rewrite mover_drain_run in H. by simplify_eq.
    + split; [by eapply holds_mover_copy|done].
    + unfold mover_publish in H. mred_in H. by simplify_eq.
  - done.
Qed.

(** ** What goes back on the wire *)

(** The events a client sees: bytes written to its buffer, and answers. *)
Definition on_wire (e : event) : bool :=
  match e with EvPush _ _ | EvRespond _ _ => true | _ => false end.

Definition wire (s s' : server) : list event := filter on_wire (new_events s s').

(** [s'] was reached from [s], and [es] was sent. *)
Definition says (s : server) (es : list event) (s' : server) : Prop :=
  exists l, srv_trace s' = srv_trace s ++ l /\ filter on_wire l = es.

Lemma says_wire s es s' : says s es s' -> wire s s' = es.
Proof. intros (l & H1 & H2). unfold wire. by rewrite (new_events_app _ _ _ H1). Qed.

Lemma says_trans s1 s2 s3 es1 es2 : says s1 es1 s2 -> says s2 es2 s3 -> says s1 (es1 ++ es2) s3.
Proof.
  intros (l1 & H1 & <-) (l2 & H2 & <-). exists (l1 ++ l2).
  by rewrite H2, H1, filter_app, app_assoc.
Qed.

Lemma says_same s s' : srv_trace s' = srv_trace s -> says s [] s'.
Proof. intros H. exists []. by rewrite H, app_nil_r. Qed.

Lemma says_one s s' e : srv_trace s' = srv_trace s ++ [e] -> on_wire e = true -> says s [e] s'.
Proof. intros H He. exists [e]. split; [done|]. by destruct e. Qed.

(** Nothing was sent and no transfer was started or ended. *)
Definition mute (s0 s : server) : Prop := says s0 [] s /\ srv_bulk s = srv_bulk s0.

(** The node is as it was, the log files aside. *)
Definition same_node_as (s0 s : server) : Prop := exists t, srv_os s = set_text t (srv_os s0).

Lemma same_node_refl s : same_node_as s s.
Proof. exists (os_text (srv_os s)). by destruct s as [[]]. Qed.

Section Mute.
Context (s0 : server).

Lemma mute_modify f :
  (forall s, srv_trace (f s) = srv_trace s /\ srv_bulk (f s) = srv_bulk s) -> preserves (mute s0) (modify f).
Proof.
  intros Hf. apply preserves_modify. intros s [H1 H2]. destruct (Hf s) as [E1 E2]. split; [|congruence].
  rewrite <- (app_nil_r []). eapply says_trans; [done|by apply says_same].
Qed.

Lemma mute_emit e : on_wire e = false -> preserves (mute s0) (emit e).
Proof.
  intros He. apply preserves_modify. intros s [H1 H2]. split; [|done].
  rewrite <- (app_nil_r []). eapply says_trans; [done|]. exists [e]. split; [done|].
  by destruct e.
Qed.

Lemma mute_sys {A} (f : os -> A * os) : preserves (mute s0) (sys f).
Proof.
  intros s a s' [H1 H2] [= <- <-]. split; [|done].
  rewrite <- (app_nil_r []). eapply says_trans; [done|by apply says_same].
Qed.

Lemma mute_log i : preserves (mute s0) (log i).
Proof.
  intros s a s' [H1 H2] [t ->]%log_Ret. split; [|done].
  rewrite <- (app_nil_r []). eapply says_trans; [done|by apply says_same].
Qed.

Lemma mute_set_fd_to_path m : preserves (mute s0) (modify (set_fd_to_path m)).
Proof. by apply mute_modify. Qed.
Lemma mute_set_queue m : preserves (mute s0) (modify (set_queue m)).
Proof. by apply mute_modify. Qed.
Lemma mute_alloc h r : preserves (mute s0) (emit (EvAlloc h r)).
Proof. by apply mute_emit. Qed.
Lemma mute_free h r : preserves (mute s0) (emit (EvFree h r)).
Proof. by apply mute_emit. Qed.
Lemma mute_signal : preserves (mute s0) (emit EvSignal).
Proof. by apply mute_emit. Qed.

Lemma same_log i : preserves (same_node_as s0) (log i).
Proof. intros s a s' [t Ht] [t' ->]%log_Ret. exists t'. cbn. by rewrite Ht. Qed.
Lemma same_emit e : preserves (same_node_as s0) (emit e).
Proof. by apply preserves_modify. Qed.

End Mute.

#[export] Hint Resolve mute_sys mute_log mute_set_fd_to_path mute_set_queue mute_alloc mute_free
  mute_signal same_log same_emit : ftc.

Section MutePieces.
Context (s0 : server).

Lemma mute_peer_flag b : preserves (mute s0) (peer_flag b).
Proof. unfold peer_flag. walk. Qed.
Lemma same_peer_flag b : preserves (same_node_as s0) (peer_flag b).
Proof. unfold peer_flag. walk. Qed.
Lemma mute_fd_to_path_at fd : preserves (mute s0) (fd_to_path_at fd).
Proof. unfold fd_to_path_at. walk. Qed.

#[local] Hint Resolve mute_peer_flag same_peer_flag mute_fd_to_path_at : ftc.

Lemma mute_open_begin h c i : preserves (mute s0) (open_begin h c i).
Proof. unfold open_begin, gettimeofday. walk. Qed.
Lemma mute_rpc_begin h c i : preserves (mute s0) (rpc_begin h c i).
Proof. unfold rpc_begin, gettimeofday. walk. Qed.
Lemma same_rpc_begin h c i : preserves (same_node_as s0) (rpc_begin h c i).
Proof. unfold rpc_begin, gettimeofday. walk. Qed.
Lemma mute_close_begin h c i : preserves (mute s0) (close_begin h c i).
Proof. unfold close_begin, erase_fd, gettimeofday. walk. Qed.
Lemma mute_close_check f : preserves (mute s0) (close_check f).
Proof. unfold close_check. walk. Qed.
Lemma mute_close_push f : preserves (mute s0) (close_push f).
Proof. unfold close_push. walk. Qed.
Lemma mute_close_finish f b : preserves (mute s0) (close_finish f b).
Proof. unfold close_finish, erase_fd. walk. Qed.

End MutePieces.

Lemma mute_refl s : mute s s.
Proof. split; [by apply says_same|done]. Qed.

Lemma mute_run {A} (m : M server A) s a s' : (forall s0, preserves (mute s0) m) -> m s = Ret a s' -> mute s s'.
Proof. intros Hm. apply Hm, mute_refl. Qed.

Lemma mute_trans s1 s2 s3 : mute s1 s2 -> mute s2 s3 -> mute s1 s3.
Proof. intros [A1 A2] [B1 B2]. split; [by apply (says_trans s1 s2 s3 [] [])|congruence]. Qed.

(** The answer to a positioned read: nothing, an error, or the bytes of the
    descriptor, whose number follows when the transfer is complete. *)
Lemma rpc_handler_says h c i s v s' : ri_offset i <> -1 -> ftc_rpc_handler h c i s = Ret v s' ->
  mute s s' \/
  (says s [EvRespond h (-1)] s' /\ srv_bulk s' = srv_bulk s) \/
  exists d, posix_pread (ri_accessfd i) (u64 (ri_input_val i)) (ri_offset i) (srv_os s) = Some d /\
    says s [EvPush h d] s' /\
    srv_bulk s' = <[h := mk_rpc_state (u64 (Z.of_nat (length d))) d i]> (srv_bulk s).
Proof.
  intros Ho H. unfold ftc_rpc_handler in H. apply bind_inv in H as (r & s1 & H1 & H).
  pose proof (mute_run _ _ _ _ (fun s0 => mute_rpc_begin s0 h c i) H1) as M1.
  pose proof (same_rpc_begin s h c i s r s1 (same_node_refl s) H1) as [t T1].
  destruct r as [ret|li]; [mred_in H; left; by simplify_eq|]. rewrite (proj2 (Z.eqb_neq _ _) Ho) in H.
  unfold rpc_positioned_read, gettimeofday in H. mred_in H. rewrite T1, pread_set_text in H.
  destruct (posix_pread _ _ _ (srv_os s)) as [d|] eqn:Ep.
  - right. right. exists d. split; [done|].
    destruct (log _ s1) as [[] s2| |] eqn:L1; try done.
    pose proof (mute_run _ _ _ _ (fun s0 => mute_log s0 _) L1) as M2.
    destruct (log _ s2) as [[] s3| |] eqn:L2; try done.
    pose proof (mute_run _ _ _ _ (fun s0 => mute_log s0 _) L2) as M3.
    destruct (mute_trans _ _ _ M1 (mute_trans _ _ _ M2 M3)) as [[l [E1 E2]] E3].
    unfold start_transfer, emit in H. mred_in H. cbn [ssize default] in H.
    destruct (hc_bulk_transfer c _ =? 0); [|done]. mred_in H. simplify_eq. cbn. rewrite E3. split; [|done].
    exists (l ++ [EvPush h d]). split; [cbn; by rewrite E1, <- app_assoc|].
    rewrite filter_app, E2. done.
  - right. left. destruct (log _ s1) as [[] s2| |] eqn:L1; try done.
    pose proof (mute_run _ _ _ _ (fun s0 => mute_log s0 _) L1) as M2.
    destruct (mute_trans _ _ _ M1 M2) as [[l [E1 E2]] E3].
    unfold emit in H. mred_in H. simplify_eq. cbn. split; [|done].
    exists (l ++ [EvFree h RBulk; EvFree h RBuffer; EvRespond h (-1); EvFree h RState]).
    split; [cbn; by rewrite E1, <- !app_assoc|]. rewrite filter_app, E2. done.
Qed.

(** The completion of a transfer answers the number of bytes, or not at all. *)
Lemma bulk_cb_says h r1 r2 s v s' : ftc_rpc_handler_bulk_cb h r1 r2 s = Ret v s' ->
  exists st, srv_bulk s !! h = Some st /\ srv_bulk s' = delete h (srv_bulk s) /\
    (says s [] s' \/ says s [EvRespond h (i32 (rs_size st))] s').
Proof.
  unfold ftc_rpc_handler_bulk_cb, free_rpc_state, emit. mred. intros H.
  destruct (srv_bulk s !! h) as [st|]; [|done]. exists st. split; [done|].
  destruct (negb (r1 =? 0)); [simplify_eq; split; [done|]; left|].
  { eexists. split; [cbn; rewrite <- !app_assoc; reflexivity|done]. }
  destruct (negb (r2 =? HG_SUCCESS)); simplify_eq; (split; [done|]; right);
    (eexists; split; [cbn; rewrite <- !app_assoc; reflexivity|done]).
Qed.

Lemma open_finish_says f x s v s' : open_finish f x s = Ret v s' ->
  says s [EvRespond (of_handle f) (posix_open x.1.1 O_RDONLY (srv_os s)).1] s' /\ srv_bulk s' = srv_bulk s.
Proof. intros [t ->]%open_finish_run. split; [by apply says_one|done]. Qed.

(** ** The steps, by what they send *)

(** The open request under way. *)
Definition opening (p : prog_pc) : option open_frame :=
  match p with
  | POpenLock f | POpenLookup f | POpenUnlock f _ | POpenFinish f _ => Some f
  | _ => None
  end.

(** A positioned read, an open or a close: what an application of opens,
    positioned reads and closes sends. *)
Definition positioned (r : rpc) : Prop :=
  match r with RRead i => 0 <= ri_offset i | RSeek _ => False | _ => True end.

Inductive accept_outcome (h : nat) (r : rpc) (st st' : cstate) : Prop :=
  | ao_mute : mute (c_srv st) (c_srv st') ->
      (forall f, opening (c_prog st') = Some f -> of_handle f = h /\ r = ROpen (of_in f)) ->
      accept_outcome h r st st'
  | ao_error : says (c_srv st) [EvRespond h (-1)] (c_srv st') -> srv_bulk (c_srv st') = srv_bulk (c_srv st) ->
      opening (c_prog st') = None -> (exists i, r = RRead i) -> accept_outcome h r st st'
  | ao_data i d : r = RRead i ->
      posix_pread (ri_accessfd i) (u64 (ri_input_val i)) (ri_offset i) (srv_os (c_srv st)) = Some d ->
      says (c_srv st) [EvPush h d] (c_srv st') ->
      srv_bulk (c_srv st') = <[h := mk_rpc_state (u64 (Z.of_nat (length d))) d i]> (srv_bulk (c_srv st)) ->
      opening (c_prog st') = None -> accept_outcome h r st st'.

Lemma accept_says h c r st st' : accept h c r st st' -> positioned r -> accept_outcome h r st st'.
Proof.
  intros [s s' pd dd m i v H|s s' pd dd m i v H|s s' pd dd m i v H|s s' pd dd m i v H] Hp; cbn in Hp.
  - apply ao_mute; [by eapply (mute_run (open_begin h c i)); [intros; apply mute_open_begin|]|].
    intros f Hf. destruct v as [|f0]; [done|]. cbn in Hf. simplify_eq.
    by destruct (open_begin_frame _ _ _ _ _ _ H) as [-> ->].
  - destruct (rpc_handler_says h c i s v s') as [M|[[H1 H2]|(d & H1 & H2 & H3)]]; [lia|done|..].
    + by apply ao_mute.
    + apply ao_error; [done..|by eexists].
    + by eapply ao_data.
  - done.
  - apply ao_mute; [by eapply (mute_run (close_begin h c i)); [intros; apply mute_close_begin|]|].
    intros f Hf. by destruct v.
Qed.

Inductive internal_outcome (o0 : os) (st st' : cstate) : Prop :=
  | io_mute : mute (c_srv st) (c_srv st') -> opening (c_prog st') = opening (c_prog st) ->
      internal_outcome o0 st st'
  | io_complete h rs : srv_bulk (c_srv st) !! h = Some rs ->
      srv_bulk (c_srv st') = delete h (srv_bulk (c_srv st)) ->
      says (c_srv st) [] (c_srv st') \/ says (c_srv st) [EvRespond h (i32 (rs_size rs))] (c_srv st') ->
      opening (c_prog st') = opening (c_prog st) -> internal_outcome o0 st st'
  | io_opened f out : opening (c_prog st) = Some f -> opening (c_prog st') = None ->
      says (c_srv st) [EvRespond (of_handle f) out] (c_srv st') ->
      srv_bulk (c_srv st') = srv_bulk (c_srv st) ->
      (is_Some (file_at o0 (oi_path (of_in f))) ->
         os_fds (srv_os (c_srv st)) !! out = None /\ serving out (oi_path (of_in f)) st') ->
      internal_outcome o0 st st'.

(** The file an open is served from exists, and so it gets a descriptor. *)
Lemma open_finish_serving o f x s v s' : same_file (srv_os s) x.1.1 (oi_path (of_in f)) -> os_ext o (srv_os s) ->
  is_Some (file_at o (oi_path (of_in f))) -> open_finish f x s = Ret v s' ->
  let out := (posix_open x.1.1 O_RDONLY (srv_os s)).1 in
  os_fds (srv_os s) !! out = None /\ holds out (oi_path (of_in f)) s'.
Proof.
  intros Hsame He [d Hd] [t ->]%open_finish_run out. unfold out in *. clear out.
  apply (ext_file_at _ _ _ _ He) in Hd.
  assert (exists n, os_files (srv_os s) !! resolve (srv_os s) x.1.1 = Some n) as [n Hn].
  { assert (is_Some (file_at (srv_os s) x.1.1)) as [d' Hd'] by
      (destruct Hsame as [->|(d' & H1 & _)]; by eexists).
    unfold file_at, content in Hd'. apply bind_Some in Hd' as (n & Hn & _). by exists n. }
  rewrite posix_open_rdonly, Hn. unfold holds. cbn. rewrite !lookup_insert_eq.
  destruct (lowest_fd_free (os_fds (srv_os s))). split_and!; by try eexists.
Qed.

Lemma internal_says o0 nvme st st' : internal nvme st st' -> cinv o0 st -> c_dead st = None ->
  internal_outcome o0 st st'.
Proof.
  intros Hi Hc Hdead. destruct Hi as [s s' pd dd m h r1 r2 r H|st1 st2 Hs Hi|st1 st2 Hs|s pd dd q].
  - apply bulk_cb_says in H as (rs & H1 & H2 & H3). by eapply io_complete.
  - destruct Hc as [_ _ _ _ Hsrv Hprog _]. specialize (Hsrv Hdead). specialize (Hprog Hdead).
    destruct Hs; try done; cbn in *;
      try (apply io_mute; cbn; [apply mute_refl|done]).
    + apply open_lookup_same in H as ->. apply io_mute; [apply mute_refl|done].
    + destruct (open_finish_says _ _ _ _ _ H) as [Hsay Hb].
      eapply io_opened; cbn; [done..|]. intros Hf.
      destruct (open_finish_serving o0 f x s r s') as [H1 H2]; try done; [by destruct Hsrv|].
      split; [done|]. split; [done|]. apply not_elem_of_nil.
    + apply io_mute; [by eapply (mute_run (close_check f)); [intros; apply mute_close_check|]|by destruct b].
    + apply io_mute; [by eapply (mute_run (close_push f)); [intros; apply mute_close_push|]|done].
    + apply io_mute; [by eapply (mute_run (close_finish f b)); [intros; apply mute_close_finish|]|done].
  - destruct Hs; cbn in *; try (apply io_mute; cbn; [apply mute_refl|done]).
    + destruct (data_queue s); (apply io_mute; cbn; [apply mute_refl|done]).
    + rewrite mover_drain_run in H. simplify_eq. apply io_mute; cbn; [|done].
      split; [by apply says_same|done].
    + destruct (mover_copy_run nvme q s) as (r1 & o & E1 & _). rewrite E1 in H. simplify_eq.
      apply io_mute; cbn; [|done]. split; [by apply says_same|done].
    + unfold mover_publish in H. mred_in H. simplify_eq. apply io_mute; cbn; [|done].
      split; [by apply says_same|done].
  - apply io_mute; [apply mute_refl|done].
Qed.

(** What a served descriptor reads are the bytes of its file. *)
Lemma serving_reads o0 st rfd p d n off l : cinv o0 st -> c_dead st = None -> serving rfd p st ->
  file_at o0 p = Some d -> posix_pread rfd n off (srv_os (c_srv st)) = Some l ->
  l = zslice d off (Z.min n MAX_RW_COUNT).
Proof.
  intros [_ _ _ _ Hs _ _] Hd [(H0 & [f Hf] & Hp) _] Hfile Hr. destruct (Hs Hd) as [[_ _ Hcoh] He _].
  destruct (Hcoh _ _ _ Hp Hf) as [Hn Hrd]. apply (ext_file_at _ _ _ _ He) in Hfile.
  unfold posix_pread, readable in Hr. rewrite Hf in Hr. cbn [mbind option_bind] in Hr.
  rewrite Hrd, Hn, Hfile in Hr. cbn [andb] in Hr. case_bool_decide; [|done]. cbn in Hr.
  destruct (off <? 0); by simplify_eq.
Qed.

End ServerWire.
