(* ===== verification/ClientWire.v ===== *)
(** * The client as its servers see it

    For each call of a read-only application: whether it returns at once or
    waits, the request it sends, and what it does to the tables that decide
    which request a later call sends. *)

From S2P Require Import Prelude CString HexDump Address Posix LogInfo Server ServerSpec Client Wrappers ClientSpec.
From S2P Require Import ClientInv ClientProps Transparency.
Import Address Posix LogInfo Client Wrappers ClientSpec ClientInv ClientProps Transparency.
Import ServerSpec(rpc, ROpen, RRead, RSeek, RClose).

Module ClientWire.

(** The same environment, with other wakes. *)
Definition with_wakes (ws : list wake) (e : cl_env) : cl_env :=
  mk_env (ce_create e) (ce_info e) (ce_buffer e) (ce_bulk_create e) (ce_server_addr e) (ce_forward e)
    (ce_addr_free e) ws.

Lemma env_ok_wakes ws e : env_ok e -> env_ok (with_wakes ws e).
Proof. by intros []. Qed.

(** A deadline that passes in silence. *)
Definition deadline : list wake := [mk_wake None None true].

Lemma deadline_silent : silent deadline.
Proof. split; [by repeat constructor|by left]. Qed.

(** ** Hosts that were given up stay given up *)

Definition given_up (c : client) (host : Z) : Prop :=
  exists k, timeout_counters c !! Z.to_nat host = Some k /\ TIMEOUT_LIMIT <= k.

Record kept (c c' : client) : Prop := {
  kp_count : g_ftc_server_count c' = g_ftc_server_count c;
  kp_dir : ftc_data_dir c' = ftc_data_dir c;
  kp_given : forall h, given_up c h -> given_up c' h
}.

#[export] Instance kept_preorder : PreOrder kept.
Proof.
  split; [by intros c; split|]. intros c1 c2 c3 [A1 A2 A3] [B1 B2 B3]. split; [congruence..|auto].
Qed.

Lemma kept_host hash c c' p : kept c c' -> host_for hash c' p = host_for hash c p.
Proof. intros [H _ _]. unfold host_for. by rewrite H. Qed.

Lemma kept_counters tm host c c' : g_ftc_server_count c' = g_ftc_server_count c ->
  ftc_data_dir c' = ftc_data_dir c ->
  timeout_counters c' = counters_after tm host (timeout_counters c) -> kept c c'.
Proof.
  intros Hn Hdir Ht. split; [done..|]. intros h (k & Hk & Hl). unfold given_up. rewrite Ht. destruct tm; [|by exists k].
  unfold counters_after. destruct (decide (Z.to_nat h = Z.to_nat host)) as [E|Hne].
  - rewrite <- E, list_lookup_alter_eq, Hk. exists (k + 1). split; [done|]. lia.
  - rewrite list_lookup_alter_ne by done. by exists k.
Qed.

(** Reads never drop or change a redirection. *)
#[export] Instance redir_grows m : Enduring (fun c => m ⊆ fd_redir_map c).
Proof.
  split; [split|done]; try done.
  - intros i c [] c' Hc H. unfold log, on_os in H. by destruct (logging_info _ _ _); simplify_eq.
  - intros h c a c' Hc H. unfold lookup_addr in H. mred_in H.
    destruct (ftc_client_comm_lookup_addr _ h _) as [[r n] b]. by destruct r; simplify_eq.
  - intros fd c r c' Hc H. unfold fd_redir_at in H. mred_in H.
    destruct (fd_redir_map c !! fd) eqn:E; simplify_eq; [done|]. cbn. etrans; [done|].
    by apply insert_subseteq.
Qed.

(** ** Opens *)

Section Effects.
Context (hash : string -> Z) (se : self_env) (e : cl_env) (c : client).
Context (Hse : printable (se_addr_buffer se)) (He : env_ok e).

(** The open of [fd] is over without a request. *)
Definition open_now (path : string) (fd : Z) (c' : client) : Prop :=
  cl_trace c' = cl_trace c /\ fd_redir_map c' = fd_redir_map c /\ kept c c' /\
  (fd_map c' = fd_map c \/
   exists p, track_decision c path = Some p /\ fd_map c' = <[fd := p]> (fd_map c) /\
     given_up c' (host_for hash c' p)).

(** It asked the host of [p] and has seen [ws]. *)
Definition open_after (p : string) (fd : Z) (ws : list wake) (c' : client) : Prop :=
  fd_map c' = <[fd := p]> (fd_map c) /\ fd_redir_map c' = redir_after fd ws (fd_redir_map c) /\ kept c c'.

Definition open_request (p : string) (fd rank : Z) : cl_event :=
  CForward (host_for hash c p) (ROpen (Server.mk_open_in p rank fd)).

Lemma track_effect path fd : core_ok c -> (forall p, track_decision c path = Some p -> path_ok p) ->
  (exists b c', (forall ws, ftc_track_file hash path O_RDONLY fd se (with_wakes ws e) c = Ret b c') /\
     open_now path fd c' /\ timeout_counters c' = timeout_counters c) \/
  (exists p rank, track_decision c path = Some p /\ ~ given_up c (host_for hash c p) /\
     (exists c1, ftc_track_file hash path O_RDONLY fd se (with_wakes [] e) c = Blocked c1 /\
        cl_trace c1 = cl_trace c ++ [open_request p fd rank]) /\
     forall ws, open_honest ws -> ends ws -> exists c',
       ftc_track_file hash path O_RDONLY fd se (with_wakes ws e) c = Ret true c' /\ open_after p fd ws c' /\
       (is_Some (prompt ws) -> timeout_counters c' = timeout_counters c)).
Proof using All.
  intros Hc Hpath. destruct (find_sub (of_string ".ports.cfg.") (of_string path)) as [i|] eqn:Hsub.
  { left. exists false, c. split; [intros ws; unfold ftc_track_file; by rewrite Hsub|].
    split; [|done]. split_and!; try done. by left. }
  destruct (track_decision c path) as [p|] eqn:Hd.
  2: { left. exists false, c. split; [intros ws; by apply track_file_untracked|].
       split; [|done]. split_and!; try done. by left. }
  specialize (Hpath p eq_refl).
  destruct (start_mercury_run se (upd_fd_map (<[fd := p]> (fd_map c)) c))
    as (c1 & Hst & Hc1 & _ & _ & Hf1 & Hn1 & Hr1 & Ht1 & Htr1 & Hdir1); [by apply core_ok_fd_map|done|].
  cbn in Hf1, Hn1, Hr1, Ht1, Htr1, Hdir1.
  assert (Hp1 : fd_map c1 !! fd = Some p) by (rewrite Hf1; apply lookup_insert_eq).
  assert (Hk1 : kept c c1) by by apply (kept_counters false 0).
  pose proof (kept_host hash _ _ p Hk1) as Hhost.
  destruct (counter_of hash c1 p Hc1) as (k & Hk & Hlim).
  pose proof (co_client _ Hc1) as Hok1. pose proof (host_for_range hash c1 p Hok1) as Hh.
  destruct (TIMEOUT_LIMIT <=? k) eqn:El.
  { left. exists false, c1. split.
    - intros ws. by rewrite (track_file_tested hash path O_RDONLY fd se _ c c1 p k), El.
    - split; [|done]. split_and!; try done. right. exists p. split_and!; try done. exists k. by zbool. }
  right. zbool. exists p, (cl_client_rank c1). split; [done|]. split; [|split].
  - intros (k' & Hk' & Hl'). rewrite <- Hhost, <- Ht1 in Hk'. rewrite Hk in Hk'. simplify_eq. lia.
  - destruct (track_file_sent hash path O_RDONLY fd se (with_wakes [] e) c c1 p k) as (t & m & _ & ->);
      try done; [by apply env_ok_wakes|by apply host_known_for|].
    eexists. split.
    + cbn [ce_wakes with_wakes wait_loop]. unfold frame_of. mred. cbn. rewrite lookup_insert_eq. done.
    + unfold open_request. cbn. by rewrite Htr1, Hhost.
  - intros ws Hon Hen.
    destruct (track_file_sent hash path O_RDONLY fd se (with_wakes ws e) c c1 p k) as (t & m & _ & Hrun);
      try done; [by apply env_ok_wakes|by apply host_known_for|].
    destruct (wait_open_total (host_for hash c1 p) (cl_next c1) fd p Hpath (proj1 Hh) ws
      (open_sent t m (host_for hash c1 p) p fd c1) k) as (tm & c2 & Hw & W2 & T2 & R2 & P2); try done.
    { cbn. apply lookup_insert_eq. }
    { cbn. apply lookup_insert_eq. }
    { apply Hok1. }
    { unfold TIMEOUT_LIMIT in *. lia. }
    rewrite (bind_Ret _ _ _ _ _ Hw) in Hrun. unfold pop_frame in Hrun. mred_in Hrun.
    eexists. split; [exact Hrun|]. split; [|intros Hpr; cbn; rewrite T2, (P2 Hpr); exact Ht1]. split_and!; cbn.
    + by rewrite (wa_fd_map _ _ _ W2).
    + rewrite R2. cbn. by rewrite Hr1.
    + etrans; [exact Hk1|]. eapply (kept_counters tm (host_for hash c1 p)); cbn; [..|exact T2];
      by pose proof (wa_config _ _ _ W2) as [= E1 E2 _ _ _ _].
Qed.

End Effects.

(** ** Whole calls *)

Section Calls.
Context (hash : string -> Z) (se : self_env) (e : cl_env) (c : client).
Context (Hse : printable (se_addr_buffer se)) (He : env_ok e).

Definition opened_fd : Z := lowest_fd (os_fds (cl_os c)).

(** What a call that does not wait has done to the tables and on the wire. *)
Definition now_spec (x : ro_call) (c' : client) : Prop :=
  kept c c' /\
  match x with
  | XOpen path => open_now hash c path opened_fd c' /\
      (fd_map c' = fd_map c \/ is_Some (os_files (cl_os c) !! resolve (cl_os c) path))
  | XPread _ _ _ _ => cl_trace c' = cl_trace c /\ fd_redir_map c' = fd_redir_map c /\ fd_map c' = fd_map c
  | XClose fd => fd_map c' = delete fd (fd_map c) /\
      ((cl_trace c' = cl_trace c /\ fd_redir_map c' = fd_redir_map c) \/
       exists p rank, fd_map c !! fd = Some p /\ ~ given_up c (host_for hash c p) /\
         cl_trace c' = cl_trace c ++ [CForward (host_for hash c p)
           (RClose (Server.mk_close_in (default 0 (fd_redir_map c !! fd)) rank))] /\
         fd_redir_map c' = delete fd (fd_redir_map c))
  end.

(** What a call that waits has asked, and what it does once it has seen [ws]. *)
Definition wait_spec (x : ro_call) (host : Z) (msg : rpc) : Prop :=
  match x with
  | XOpen path => exists p rank n, os_files (cl_os c) !! resolve (cl_os c) path = Some n /\
      track_decision c path = Some p /\ host = host_for hash c p /\
      ~ given_up c host /\ msg = ROpen (Server.mk_open_in p rank opened_fd) /\
      forall ws, open_honest ws -> ends ws -> exists a c',
        lib_call hash se (with_wakes ws e) x c = Ret a c' /\ open_after c p opened_fd ws c' /\
        (is_Some (prompt ws) -> timeout_counters c' = timeout_counters c)
  | XPread fd count offset buf => exists p, fd_map c !! fd = Some p /\ host = host_for hash c p /\
      ~ given_up c host /\ msg = read_msg c fd count offset /\
      forall ws sl, honest sl false ws -> ends ws -> exists a c',
        lib_call hash se (with_wakes ws e) x c = Ret a c' /\
        fd_map c' = fd_map c /\ fd_redir_map c ⊆ fd_redir_map c' /\ kept c c' /\
        (is_Some (prompt ws) -> timeout_counters c' = timeout_counters c)
  | XClose _ => False
  end.

Definition call_effect (x : ro_call) : Prop :=
  (exists a c', (forall ws, lib_call hash se (with_wakes ws e) x c = Ret a c') /\ now_spec x c' /\
     timeout_counters c' = timeout_counters c) \/
  (exists host msg c1, lib_call hash se (with_wakes [] e) x c = Blocked c1 /\
     cl_trace c1 = cl_trace c ++ [CForward host msg] /\ wait_spec x host msg).

Lemma open_effect path : lib_ok c -> call_effect (XOpen path).
Proof using Hse He.
  intros Hl. pose proof (lo_core _ Hl) as Hc. unfold call_effect. cbn [lib_call now_spec wait_spec].
  assert (Hrun : forall ws, wrap_open hash path O_RDONLY se (with_wakes ws e) c =
    match os_files (cl_os c) !! resolve (cl_os c) path with
    | Some n =>
        (ftc_track_file hash path O_RDONLY opened_fd se (with_wakes ws e);; mret opened_fd)
          (upd_os (set_fds (<[opened_fd := OFile n 0 true false false]> (os_fds (cl_os c))) (cl_os c)) c)
    | None => Ret (-1) c
    end).
  { intros ws. unfold wrap_open, redirect_off. mred. destruct (co_redirect _ Hc) as [-> ->]. cbn [orb].
    unfold real_open, sys, on_os. rewrite posix_open_rdonly.
    destruct (os_files (cl_os c) !! resolve (cl_os c) path) as [n|] eqn:En; cbn [fst snd].
    - destruct (lowest_fd_free (os_fds (cl_os c))) as [_ Hpos]. unfold opened_fd.
      rewrite (proj2 (Z.eqb_neq (lowest_fd (os_fds (cl_os c))) (-1))) by lia.
      by destruct (ftc_track_file _ _ _ _ _ _ _).
    - by destruct c. }
  destruct (os_files (cl_os c) !! resolve (cl_os c) path) as [n|] eqn:En.
  2: { left. exists (-1, []), c. split; [intros ws; by rewrite (bind_Ret _ _ _ _ _ (Hrun ws))|].
       split; [|done]. split; [done|]. split; [split_and!; try done; by left|by left]. }
  set (o1 := set_fds (<[opened_fd := OFile n 0 true false false]> (os_fds (cl_os c))) (cl_os c)) in *.
  destruct (track_effect hash se e (upd_os o1 c) Hse He path opened_fd)
    as [(b & c' & Hr & Hnow & Hcnt)|(p & rank & Hd & Hng & (c1 & Hb & Ht) & Hafter)].
  { by apply core_ok_fds. }
  { intros q Hq%track_decision_canon. change (resolve _ path) with (resolve (cl_os c) path) in Hq.
    subst q. by eapply (lo_paths _ Hl). }
  - left. exists (opened_fd, []), c'. split.
    + intros ws. unfold mbind, M_bind. rewrite Hrun. mred. by rewrite Hr.
    + destruct Hnow as (H1 & H2 & [K1 K2 K3] & H4). split; [|exact Hcnt]. split; [by split|]. split; [by split_and!|]. rewrite En. right. by eexists.
  - right. exists (host_for hash c p), (ROpen (Server.mk_open_in p rank opened_fd)), c1. split_and!.
    + unfold mbind, M_bind. rewrite Hrun. mred. by rewrite Hb.
    + exact Ht.
    + exists p, rank, n. split_and!; try done. intros ws Hon Hen.
      destruct (Hafter ws Hon Hen) as (c' & Hr & Ho & Hcnt). exists (opened_fd, []), c'. split; [|split; [|exact Hcnt]; destruct Ho as (O1 & O2 & [K1 K2 K3]); split_and!; by try split].
      unfold mbind, M_bind. rewrite Hrun. mred. by rewrite Hr.
Qed.

(** A remote read, positioned or not: it is refused at once, or waits. *)
Lemma transfer_effect fd count offset buf : core_ok c ->
  ((fd_map c !! fd = None \/ exists p, fd_map c !! fd = Some p /\ given_up c (host_for hash c p)) /\
   forall ws, remote_transfer hash fd count offset buf (with_wakes ws e) c = Ret (-1, buf) c) \/
  (exists p c1, fd_map c !! fd = Some p /\ ~ given_up c (host_for hash c p) /\
     remote_transfer hash fd count offset buf (with_wakes [] e) c = Blocked c1 /\
     cl_trace c1 = cl_trace c ++ [CForward (host_for hash c p) (read_msg c fd count offset)] /\
     forall ws sl, honest sl false ws -> ends ws -> exists v b c',
       remote_transfer hash fd count offset buf (with_wakes ws e) c = Ret (v, b) c' /\
       read_outcome hash fd count offset sl buf p c v b c' /\ fd_redir_map c ⊆ fd_redir_map c' /\ kept c c' /\
       forall r, prompt ws = Some r -> v = rp_out r /\ timeout_counters c' = timeout_counters c).
Proof using He.
  intros Hc. pose proof (co_client _ Hc) as Hok. destruct (fd_map c !! fd) as [p|] eqn:Ep.
  2: { left. split; [by left|]. intros ws. unfold remote_transfer, ftc_file_tracked. mred.
       by rewrite Ep, bool_decide_false by (by intros []). }
  pose proof (host_for_range hash c p Hok) as Hh. set (host := host_for hash c p) in *.
  destruct (counter_run c host Hok Hh) as (k & Hk & Hcnt & Hlim).
  assert (Hpre : forall ws, remote_transfer hash fd count offset buf (with_wakes ws e) c =
    (if TIMEOUT_LIMIT <=? k then mret (-1, buf) else
     let* id := push_frame buf in
     ftc_client_comm_gen_read_rpc host fd count offset id (with_wakes ws e);;
     let* bytes_read := ftc_read_block host id ws in
     let* f := frame_of id in
     pop_frame id;; mret (bytes_read, fr_buf f)) c).
  { intros ws. unfold remote_transfer, ftc_file_tracked. mred. rewrite Ep, bool_decide_true by (by eexists).
    cbn [negb]. rewrite (host_of_run hash c fd p Hok Ep). unfold skip_host. mred. fold host. rewrite Hcnt.
    by destruct (TIMEOUT_LIMIT <=? k). }
  destruct (TIMEOUT_LIMIT <=? k) eqn:El; zbool.
  { left. split; [|exact Hpre]. right. exists p. split; [done|]. by exists k. }
  right. destruct (gen_read_run host fd count offset (cl_next c) (with_wakes [] e)
    (upd_frames (<[cl_next c := mk_frame false (-1) buf]> (cl_frames c)) (cl_requests c) (S (cl_next c)) c))
    as (t & m & rm & Hg); [by apply env_ok_wakes|apply Hok|by apply (host_known_for hash c p)|].
  exists p. eexists. split; [done|]. split; [|split; [|split]].
  - fold host. intros (k' & Hk' & Hl'). simplify_eq. lia.
  - rewrite Hpre. unfold push_frame. mred. rewrite Hg. unfold ftc_read_block. mred. cbn [wait_loop].
    unfold frame_of. mred. cbn. rewrite lookup_insert_eq. cbn. reflexivity.
  - reflexivity.
  - intros ws sl Hon Hen.
    destruct (remote_transfer_prompt hash fd count offset buf sl (with_wakes ws e) c p Hok)
      as (v & b & c' & Hr & Hout & Hprompt); try done; [by apply env_ok_wakes|by apply host_known_for|].
    pose proof (keeps_transfer (fun c0 => fd_redir_map c ⊆ fd_redir_map c0) hash fd count offset buf _ _ _ _
      (reflexivity _) Hr) as Hgrow. cbn beta in Hgrow.
    exists v, b, c'. split_and!; try done; [|by intros r Hpr; apply (Hprompt r k)].
    destruct Hout as [_ _ _ _ _ Hcfg (k' & Hk' & Hcase)]. pose proof Hcfg as [= Hn Hdir _ _ _ _].
    fold host in Hk', Hcase. rewrite Hk in Hk'. injection Hk' as <-.
    rewrite (proj2 (Z.leb_gt TIMEOUT_LIMIT k)) in Hcase by done.
    destruct Hcase as (_ & tm & Hc' & _). by eapply kept_counters.
Qed.

Lemma pread_effect fd count offset buf : lib_ok c -> call_effect (XPread fd count offset buf).
Proof using Hse He.
  intros Hl. pose proof (lo_core _ Hl) as Hc.
  assert (Hreal : forall b c0, exists a, real_pread fd count offset b c0 = Ret a c0).
  { intros b c0. unfold real_pread. mred. by destruct (posix_pread fd count offset (cl_os c0)); eexists. }
  assert (Hlib : forall ws p, fd_map c !! fd = Some p ->
    lib_call hash se (with_wakes ws e) (XPread fd count offset buf) c =
      (let* r := remote_transfer hash fd count offset buf (with_wakes ws e) in
       if r.1 <? 0 then real_pread fd count offset r.2 else mret r) c).
  { intros ws p Ep. cbn [lib_call]. unfold wrap_pread, ftc_get_path, ftc_remote_pread. mred. by rewrite Ep. }
  destruct (transfer_effect fd count offset buf Hc) as [[Hnone Hr]|(p & c1 & Ep & Hng & Hb & Ht & Hwait)].
  - left. destruct (Hreal buf c) as [a Ha]. exists a, c. split; [|by split].
    intros ws. destruct (fd_map c !! fd) as [p|] eqn:Ep.
    + rewrite (Hlib ws p) by done. mred. by rewrite Hr.
    + cbn [lib_call]. unfold wrap_pread, ftc_get_path. mred. by rewrite Ep.
  - right. exists (host_for hash c p), (read_msg c fd count offset), c1. split_and!; [|done|].
    { rewrite (Hlib [] p) by done. mred. by rewrite Hb. }
    exists p. split_and!; try done. intros ws sl Hon Hen.
    destruct (Hwait ws sl Hon Hen) as (v & b & c' & Hr & Hout & Hgrow & Hk & Hpr).
    assert (Hrest : fd_map c' = fd_map c /\ fd_redir_map c ⊆ fd_redir_map c' /\ kept c c' /\
      (is_Some (prompt ws) -> timeout_counters c' = timeout_counters c)).
    { split_and!; [apply Hout|done..|]. intros [r Er]. by apply (Hpr r). }
    rewrite (Hlib ws p) by done. mred. rewrite Hr. cbn [fst snd].
    destruct (v <? 0); [|by exists (v, b), c']. destruct (Hreal b c') as [a Ha]. rewrite Ha. by exists a, c'.
Qed.

(** Closing a tracked descriptor tells its host, unless that was given up. *)
Lemma remote_close_effect fd p : core_ok c -> fd_map c !! fd = Some p ->
  exists c1, (forall ws, ftc_remote_close hash fd (with_wakes ws e) c = Ret tt c1) /\
    fd_map c1 = fd_map c /\ kept c c1 /\ timeout_counters c1 = timeout_counters c /\
    ((cl_trace c1 = cl_trace c /\ fd_redir_map c1 = fd_redir_map c) \/
     (~ given_up c (host_for hash c p) /\ cl_trace c1 = cl_trace c ++ [CForward (host_for hash c p)
        (RClose (Server.mk_close_in (default 0 (fd_redir_map c !! fd)) (cl_client_rank c)))] /\
      fd_redir_map c1 = delete fd (fd_redir_map c))).
Proof using He.
  intros Hc Ep. pose proof (co_client _ Hc) as Hok. pose proof (host_for_range hash c p Hok) as Hh.
  set (host := host_for hash c p) in *.
  destruct (counter_run c host Hok Hh) as (k & Hk & Hcnt & Hlim).
  assert (Hpre : forall ws, ftc_remote_close hash fd (with_wakes ws e) c =
    (if TIMEOUT_LIMIT <=? k then mret tt else ftc_client_comm_gen_close_rpc host fd e) c).
  { intros ws. unfold ftc_remote_close, ftc_file_tracked. mred. rewrite Ep, bool_decide_true by (by eexists).
    cbn [negb]. rewrite (host_of_run hash c fd p Hok Ep). unfold skip_host. mred. fold host. rewrite Hcnt.
    by destruct (TIMEOUT_LIMIT <=? k). }
  destruct (TIMEOUT_LIMIT <=? k) eqn:El.
  { exists c. split; [intros ws; by rewrite Hpre|]. split_and!; try done. by left. }
  zbool. destruct He as [E1 E2 E3 E4 E5 E6 E7].
  destruct (lookup_addr_run host c) as (a & m & n & Ha & _); [by apply (host_known_for hash c p)|].
  set (c0 := upd_cache m (upd_os (patched (os_text (cl_os c), n) (cl_os c)) c)) in Ha.
  destruct (fd_redir_at_run fd c0) as (rm & Hrm & _).
  destruct (log_request_run (fill_fd (uninit 256) fd) "close" host (-1) e (upd_redir rm c0))
    as [t Ht]; [apply cstr_fill_fd|by apply log_word_ok|done|apply Hok|].
  assert (Hdel : delete fd rm = delete fd (fd_redir_map c)).
  { unfold fd_redir_at in Hrm. mred_in Hrm. cbn in Hrm. destruct (fd_redir_map c !! fd) eqn:Er; injection Hrm.
    - intros E. by rewrite <- E.
    - intros E. rewrite <- E. by rewrite delete_insert_eq. }
  eexists. split; [intros ws; rewrite Hpre; unfold ftc_client_comm_gen_close_rpc, ftc_comm_create_handle, ftc_comm_free_addr;
    rewrite E1, E6, E7; mred; rewrite Ha; change (0 =? 0) with true; mred; rewrite Hrm; mred;
    rewrite Ht; unfold forward; mred; reflexivity|].
  split; [done|]. split; [by apply (kept_counters false 0)|]. split; [done|]. right. split; [|split; [done|exact Hdel]].
  intros (k' & Hk' & Hl'). simplify_eq. lia.
Qed.

Lemma close_effect fd : lib_ok c -> call_effect (XClose fd).
Proof using Hse He.
  intros Hl. pose proof (lo_core _ Hl) as Hc. left. cbn [lib_call].
  destruct (fd_map c !! fd) as [p|] eqn:Ep.
  2: { eexists (_, []), _. split.
       - intros ws. unfold wrap_close, redirect_off, ftc_get_path. mred.
         destruct (co_redirect _ Hc) as [-> ->]. cbn [orb]. rewrite Ep. unfold real_close, sys, on_os. reflexivity.
       - split; [|done]. split; [done|]. split; [cbn; by rewrite delete_id|]. by left. }
  assert (Hne : fd_map c <> ∅) by (intros E; by rewrite E in Ep).
  destruct (remote_close_effect fd p Hc Ep) as (c1 & Hr & Hf & Hk1 & Hcnt & Hcase).
  eexists (_, []), _. split.
  - intros ws. unfold wrap_close, redirect_off, ftc_get_path. mred.
    destruct (co_redirect _ Hc) as [-> ->]. cbn [orb]. rewrite Ep. unfold ftc_remove_fd. mred.
    rewrite decide_False by done. rewrite Hr. unfold real_close, sys, on_os. reflexivity.
  - split; [|exact Hcnt]. split; [by etrans; [exact Hk1|]|]. split; [cbn; by rewrite Hf|].
    destruct Hcase as [[H1 H2]|(H1 & H2 & H3)]; [by left|]. right. by exists p, (cl_client_rank c).
Qed.

(** *** Seeks *)

(** The wait for a seek returns the answer, however late it is. *)
Lemma seek_wait_run r ws c0 : answered r ws -> rp_get r = 0 -> seek_done c0 = HG_FALSE ->
  ftc_seek_block ws c0 = Ret (rp_out r) (upd_seek HG_TRUE (rp_out r) c0).
Proof.
  intros Ha Hg Hd. induction Ha as [w ws H1 H2 H3|w ws H1 H2 H3 _ IH]; cbn [ftc_seek_block]; mred;
    rewrite Hd, H3; change (HG_FALSE =? HG_TRUE) with false; cbv iota; [cbv beta|exact IH].
  rewrite (seek_cb_run r c0 Hg), Hd. by destruct ws.
Qed.

Lemma remote_lseek_effect fd off wh p : core_ok c -> fd_map c !! fd = Some p ->
  exists c1, ftc_remote_lseek hash fd off wh (with_wakes [] e) c = Blocked c1 /\
    cl_trace c1 = cl_trace c ++ [CForward (host_for hash c p)
      (RSeek (Server.mk_seek_in (default 0 (fd_redir_map c !! fd)) off wh))] /\
    forall ws r, answered r ws -> rp_get r = 0 -> exists c',
      ftc_remote_lseek hash fd off wh (with_wakes ws e) c = Ret (rp_out r) c' /\
      os_like (cl_os c) (cl_os c') /\ fd_map c' = fd_map c /\ fd_redir_map c ⊆ fd_redir_map c' /\
      timeout_counters c' = timeout_counters c /\ config c' = config c /\ core_ok c'.
Proof using He.
  intros Hc Ep. pose proof (co_client _ Hc) as Hok. destruct He as [E1 E2 E3 E4 E5 E6 E7].
  pose proof (host_known_for hash c p Hc) as Hkn.
  set (c0 := upd_seek HG_FALSE (-1) c).
  destruct (lookup_addr_run (host_for hash c p) c0) as (a & m & n & Ha & _); [exact Hkn|].
  set (c2 := upd_cache m (upd_os (patched (os_text (cl_os c), n) (cl_os c)) c0)).
  change (lookup_addr (host_for hash c p) c0 = Ret (Some a) c2) in Ha.
  destruct (fd_redir_at_run fd c2) as (rm & Hrm & _).
  set (msg := RSeek (Server.mk_seek_in (default 0 (fd_redir_map c !! fd)) off wh)).
  set (c1 := upd_trace (cl_trace c ++ [CForward (host_for hash c p) msg]) (upd_redir rm c2)).
  assert (Hgen : forall ws, ftc_client_comm_gen_seek_rpc (host_for hash c p) fd off wh (with_wakes ws e) c = Ret tt c1).
  { intros ws. unfold ftc_client_comm_gen_seek_rpc, ftc_comm_create_handle, ftc_comm_free_addr. mred. fold c0. rewrite Ha. cbn [ce_create ce_forward ce_addr_free with_wakes].
    rewrite E1, E6, E7. change (0 =? 0) with true. mred. rewrite Hrm. unfold forward. by mred. }
  assert (Hrun : forall ws, ftc_remote_lseek hash fd off wh (with_wakes ws e) c = ftc_seek_block ws c1).
  { intros ws. unfold ftc_remote_lseek, ftc_file_tracked. mred. rewrite Ep, bool_decide_true by (by eexists).
    cbn [negb]. rewrite (host_of_run hash c fd p Hok Ep), Hgen. done. }
  exists c1. split; [by rewrite Hrun|]. split; [done|]. intros ws r Hans Hg.
  exists (upd_seek HG_TRUE (rp_out r) c1). rewrite Hrun.
  split; [by apply seek_wait_run|]. split_and!; try done.
  - apply os_like_patched.
  - exact (keeps_gen_seek (fun c0 => fd_redir_map c ⊆ fd_redir_map c0) (host_for hash c p) fd off wh
      (with_wakes [] e) c tt c1 (reflexivity _) (Hgen [])).
  - apply (core_ok_rpc c); try done; [|apply Hok|apply Hok|apply os_like_patched].
    refine (keeps_seek_cb addressed r c1 tt _ _ (seek_cb_run r c1 Hg)).
    exact (keeps_gen_seek addressed (host_for hash c p) fd off wh (with_wakes [] e) c tt c1 (co_addressed _ Hc) (Hgen [])).
Qed.

Lemma lib_call_effect x : lib_ok c -> call_effect x.
Proof using Hse He. destruct x; [apply open_effect|apply pread_effect|apply close_effect]. Qed.

End Calls.

End ClientWire.
