(* ===== verification/Cluster.v ===== *)
(** * A cluster: many clients, many servers

    Applications run on the clients, each with the preloaded library; the cache
    servers run their two threads.  A request travels from a client to the
    server its path is hashed to, waits until the server's progress thread takes
    it, is served while the data mover copies files, and what the server sends
    reaches the client during its wait.  Servers fail and stay down; requests to
    them, and reads and closes anywhere, may be lost, and reads may time out
    anywhere.  [cstep] has these steps.  [nstep] adds those that the code does
    not survive, an open that misses its deadline at a server that lives and an
    answer that comes when its call is over, and a flag that says whether one of
    them has happened. *)

From S2P Require Import Prelude CString HexDump Address Posix LogInfo Server ServerSpec ServerProps.
From S2P Require Import DataMover ServerInv ServerThreads ServerWire.
From S2P Require Import Client Wrappers ClientSpec ClientInv ClientProps Transparency ClientWire.
Import Address Posix LogInfo ServerSpec ServerInv ServerThreads ServerWire.
Import Client Wrappers ClientSpec ClientInv ClientProps Transparency ClientWire.
Import Server(event, EvPush, EvRespond, srv_os, srv_bulk, of_handle, of_in, oi_path, ri_accessfd,
  ri_input_val, ri_offset, ci_fd, rs_size, rs_data, mk_open_in, mk_rpc_in, mk_close_in, server,
  fd_to_path, open_frame, mk_rpc_state).

Module Cluster.

(** ** The state *)

(** A call that waits: its handle and the server it asked. *)
Record pending : Type := mk_pending {
  pd_env : cl_env; pd_call : ro_call; pd_handle : nat; pd_host : Z
}.

(** An application: the state of its client, as it was when the pending call
    started, and the calls it has completed with their answers. *)
Record node : Type := mk_node {
  ap_client : client; ap_pending : option pending; ap_done : list (ro_call * answer)
}.

(** Requests in flight by handle, and all that the servers have sent. *)
Record cluster : Type := mk_cluster {
  cu_apps : gmap nat node; cu_servers : gmap Z cstate; cu_net : gmap nat (Z * rpc);
  cu_mail : list event; cu_next : nat
}.

(** ** The steps *)

(** The requests a computation of a client has sent. *)
Definition sent (c c' : client) : list cl_event := drop (length (cl_trace c)) (cl_trace c').

Fixpoint post (h : nat) (l : list cl_event) (net : gmap nat (Z * rpc)) : gmap nat (Z * rpc) :=
  match l with
  | [] => net
  | CForward host r :: l' => post (S h) l' (<[h := (host, r)]> net)
  end.

(** An application calls with a read count that fits [int32_t], which the
    request has for it, and Mercury sends without an error. *)
Definition call_wf (x : ro_call) (e : cl_env) : Prop :=
  env_ok e /\
  match x with XPread _ count offset _ => 0 <= count < 2 ^ 31 /\ 0 <= offset | _ => True end.

(** The wakes of the wait for [h] show what was sent: bytes that were pushed,
    an answer that was given, and no answer before the bytes it counts. *)
Fixpoint shows (h : nat) (mail : list event) (pushed : bool) (ws : list wake) : Prop :=
  match ws with
  | [] => True
  | w :: ws' =>
      (forall d, wk_push w = Some d -> EvPush h d ∈ mail) /\
      let p := pushed || bool_decide (is_Some (wk_push w)) in
      match wk_reply w with
      | None => shows h mail p ws'
      | Some r => reply_ok r /\ EvRespond h (rp_out r) ∈ mail /\
          (p = false -> forall d, EvPush h d ∉ mail)
      end
  end.

(** What a call may see before it returns.  The answer to an open of a server
    that lives arrives in time. *)
Definition arrives (srv : gmap Z cstate) (mail : list event) (q : pending) (ws : list wake) : Prop :=
  shows (pd_handle q) mail false ws /\ ends ws /\
  match pd_call q with
  | XOpen _ => replied ws = None -> srv !! pd_host q = None
  | _ => True
  end.

Section Steps.
Context (hash : string -> Z) (se : nat -> self_env) (nvme : Z -> string).

Inductive cstep : cluster -> cluster -> Prop :=
  (** a call that returns without waiting *)
  | cs_now i c hist x e a c' apps srv net mail nx :
      apps !! i = Some (mk_node c None hist) -> call_wf x e ->
      lib_call hash (se i) (with_wakes [] e) x c = Ret a c' ->
      cstep (mk_cluster apps srv net mail nx)
        (mk_cluster (<[i := mk_node c' None (hist ++ [(x, a)])]> apps) srv (post nx (sent c c') net) mail
           (nx + length (sent c c')))
  (** a call that sends its request and waits *)
  | cs_call i c hist x e c1 host msg apps srv net mail nx :
      apps !! i = Some (mk_node c None hist) -> call_wf x e ->
      lib_call hash (se i) (with_wakes [] e) x c = Blocked c1 -> sent c c1 = [CForward host msg] ->
      cstep (mk_cluster apps srv net mail nx)
        (mk_cluster (<[i := mk_node c (Some (mk_pending e x nx host)) hist]> apps) srv
           (post nx (sent c c1) net) mail (nx + 1))
  (** ... and returns *)
  | cs_return i c hist q ws a c' apps srv net mail nx :
      apps !! i = Some (mk_node c (Some q) hist) -> arrives srv mail q ws ->
      lib_call hash (se i) (with_wakes ws (pd_env q)) (pd_call q) c = Ret a c' ->
      cstep (mk_cluster apps srv net mail nx)
        (mk_cluster (<[i := mk_node c' None (hist ++ [(pd_call q, a)])]> apps) srv net mail nx)
  (** a server takes a request *)
  | cs_accept H h call r st st' apps srv net mail nx :
      net !! h = Some (H, r) -> srv !! H = Some st -> accept h call r st st' ->
      cstep (mk_cluster apps srv net mail nx)
        (mk_cluster apps (<[H := st']> srv) (delete h net) (mail ++ wire (c_srv st) (c_srv st')) nx)
  (** a server goes on *)
  | cs_work H st st' apps srv net mail nx :
      srv !! H = Some st -> internal (nvme H) st st' ->
      cstep (mk_cluster apps srv net mail nx)
        (mk_cluster apps (<[H := st']> srv) net (mail ++ wire (c_srv st) (c_srv st')) nx)
  (** a request is lost *)
  | cs_lose H h r apps srv net mail nx :
      net !! h = Some (H, r) -> match r with ROpen _ => srv !! H = None | _ => True end ->
      cstep (mk_cluster apps srv net mail nx) (mk_cluster apps srv (delete h net) mail nx)
  (** a server fails *)
  | cs_fail H apps srv net mail nx :
      cstep (mk_cluster apps srv net mail nx) (mk_cluster apps (delete H srv) net mail nx).

(** ** Deadlines that are missed

    What the code does not survive is a step too, and it is marked: the flag says
    that it has happened.  From then on any server may be asked to close or read
    a descriptor that is not the client's. *)
Inductive nstep : cluster * bool -> cluster * bool -> Prop :=
  | ns_step s s' late : cstep s s' -> nstep (s, late) (s', late)
  (** an open is lost on its way to a server that lives *)
  | ns_lose_open H h i apps srv net mail nx late :
      net !! h = Some (H, ROpen i) ->
      nstep (mk_cluster apps srv net mail nx, late) (mk_cluster apps srv (delete h net) mail nx, true)
  (** the deadline of an open passes before the answer of its server comes: the
      file stays tracked, without a descriptor of the server *)
  | ns_miss_open i c hist q path ws a c' apps srv net mail nx late :
      apps !! i = Some (mk_node c (Some q) hist) -> pd_call q = XOpen path ->
      shows (pd_handle q) mail false ws -> ends ws -> replied ws = None ->
      lib_call hash (se i) (with_wakes ws (pd_env q)) (pd_call q) c = Ret a c' ->
      nstep (mk_cluster apps srv net mail nx, late)
        (mk_cluster (<[i := mk_node c' None (hist ++ [(pd_call q, a)])]> apps) srv net mail nx, true)
  (** bytes or an answer come to a client that no longer waits for them: they are
      written to memory that is the application's again, or to a stack frame that
      is gone, and nothing is known of the process from then on *)
  | ns_late i n n' h apps srv net mail nx late :
      apps !! i = Some n -> ((exists out, EvRespond h out ∈ mail) \/ exists d, EvPush h d ∈ mail) ->
      (forall q, ap_pending n = Some q -> pd_handle q <> h) ->
      nstep (mk_cluster apps srv net mail nx, late) (mk_cluster (<[i := n']> apps) srv net mail nx, true).

(** Every step up to the present one was in time. *)
Lemma nstep_flag x y : nstep x y -> y.2 = false -> x.2 = false /\ cstep x.1 y.1.
Proof. by intros []. Qed.

Lemma nsteps_timely x y : rtc nstep x y -> y.2 = false -> x.2 = false /\ rtc cstep x.1 y.1.
Proof.
  intros Hr Hy. induction Hr as [x|x y z Hs _ IH]; [done|]. destruct (IH Hy) as [Hf Hc].
  destruct (nstep_flag x y Hs Hf) as [Hx Hx']. split; [done|]. by eapply rtc_l.
Qed.

Lemma timely_nsteps s s' late : rtc cstep s s' -> rtc nstep (s, late) (s', late).
Proof. induction 1 as [s|s1 s2 s3 Hs _ IH]; [done|]. eapply rtc_l; [by apply ns_step|done]. Qed.

End Steps.

End Cluster.
