(* ===== verification/ClusterRun.v ===== *)
(** * Runs of a cluster, computed

    [exec] carries out one scheduled step of [Cluster]; a schedule that it
    carries out is a path of the step relation ([exec_sound], [exec_free]). *)

From S2P Require Import Prelude CString HexDump Address Posix LogInfo Server ServerSpec ServerProps.
From S2P Require Import DataMover ServerInv ServerThreads ServerWire.
From S2P Require Import Client Wrappers ClientSpec ClientInv ClientProps Transparency ClientWire Cluster.
Import Address Posix LogInfo ServerSpec DataMover ServerInv ServerThreads ServerWire.
Import Client Wrappers ClientSpec ClientInv ClientProps Transparency ClientWire Cluster.
Import Server(server, hg_call, open_begin, open_lookup, open_finish, close_begin, close_check, close_push,
  close_finish, ftc_rpc_handler, ftc_rpc_handler_bulk_cb, ftc_seek_rpc_handler, data_queue).

Module ClusterRun.

Definition returned {S A} (o : outcome S A) : option (A * S) :=
  match o with Ret a s => Some (a, s) | _ => None end.

Lemma returned_Some {S A} (o : outcome S A) a s : returned o = Some (a, s) -> o = Ret a s.
Proof. by destruct o; intros [= -> ->]. Qed.

(** ** The server *)

Definition exec_accept (h : nat) (c : hg_call) (r : rpc) (st : cstate) : option cstate :=
  match st with
  | mk_cstate s pd dd PIdle m None =>
      match r with
      | ROpen i => '(x, s') ← returned (open_begin h c i s); Some (mk_cstate s' pd dd (next_open x) m None)
      | RRead i => '(_, s') ← returned (ftc_rpc_handler h c i s); Some (mk_cstate s' pd dd PIdle m None)
      | RSeek i => '(_, s') ← returned (ftc_seek_rpc_handler h c i s); Some (mk_cstate s' pd dd PIdle m None)
      | RClose i => '(x, s') ← returned (close_begin h c i s); Some (mk_cstate s' pd dd (next_close x) m None)
      end
  | _ => None
  end.

Lemma exec_accept_sound h c r st st' : exec_accept h c r st = Some st' -> accept h c r st st'.
Proof.
  destruct st as [s pd dd [] m []]; try done. simpl. intros He.
  destruct r; apply bind_Some in He as ([x s'] & Hx%returned_Some & [= <-]); by econstructor.
Qed.

(** The step of a handler that is under way. *)
Definition exec_handler (st : cstate) : option cstate :=
  match st with
  | mk_cstate s pd dd p m None =>
      match p, pd, dd with
      | POpenLock f, None, _ => Some (mk_cstate s (Some Progress) dd (POpenLookup f) m None)
      | POpenLookup f, _, _ =>
          '(x, s') ← returned (open_lookup f s); Some (mk_cstate s' pd dd (POpenUnlock f x) m None)
      | POpenUnlock f x, _, _ => Some (mk_cstate s None dd (POpenFinish f x) m None)
      | POpenFinish f x, _, _ =>
          '(_, s') ← returned (open_finish f x s); Some (mk_cstate s' pd dd PIdle m None)
      | PCloseLock f, None, _ => Some (mk_cstate s (Some Progress) dd (PCloseCheck f) m None)
      | PCloseCheck f, _, _ =>
          '(b, s') ← returned (close_check f s);
          Some (mk_cstate s' pd dd (if b : bool then PCloseLockData f else PCloseUnlock f false) m None)
      | PCloseLockData f, _, None => Some (mk_cstate s pd (Some Progress) (PClosePush f) m None)
      | PClosePush f, _, _ =>
          '(_, s') ← returned (close_push f s); Some (mk_cstate s' pd dd (PCloseUnlockData f) (signalled m) None)
      | PCloseUnlockData f, _, _ => Some (mk_cstate s pd None (PCloseUnlock f true) m None)
      | PCloseUnlock f b, _, _ => Some (mk_cstate s None dd (PCloseFinish f b) m None)
      | PCloseFinish f b, _, _ =>
          '(_, s') ← returned (close_finish f b s); Some (mk_cstate s' pd dd PIdle m None)
      | _, _, _ => None
      end
  | _ => None
  end.

Lemma exec_handler_sound nvme st st' : exec_handler st = Some st' -> internal nvme st st'.
Proof.
  intros He. apply int_handler; [|by destruct st as [s pd dd [] m []]].
  destruct st as [s pd dd p m [w|]]; [done|].
  destruct p, pd as [?|], dd as [?|]; simpl in He; try done;
    first [injection He as <-; econstructor; fail
          |apply bind_Some in He as ([x' s'] & Hx%returned_Some & [= <-]); first [by econstructor|by destruct x'; econstructor]].
Qed.

(** A transfer completes. *)
Definition exec_complete (h : nat) (r1 r2 : Z) (st : cstate) : option cstate :=
  match st with
  | mk_cstate s pd dd PIdle m None =>
      '(_, s') ← returned (ftc_rpc_handler_bulk_cb h r1 r2 s); Some (mk_cstate s' pd dd PIdle m None)
  | _ => None
  end.

Lemma exec_complete_sound nvme h r1 r2 st st' : exec_complete h r1 r2 st = Some st' -> internal nvme st st'.
Proof.
  destruct st as [s pd dd [] m []]; try done. simpl.
  intros ([x s'] & Hx%returned_Some & [= <-])%bind_Some. by econstructor.
Qed.

(** The step of the data mover. *)
Definition exec_mover (nvme : string) (st : cstate) : option cstate :=
  match st with
  | mk_cstate s pd dd p m None =>
      match m, pd, dd with
      | MLock, _, None | MWake, _, None => Some (mk_cstate s pd (Some Mover) p MTest None)
      | MTest, _, _ =>
          Some (match data_queue s with
                | [] => mk_cstate s pd None p MWait None
                | _ => mk_cstate s pd dd p MDrain None
                end)
      | MDrain, _, _ => '(l, s') ← returned (mover_drain [] s); Some (mk_cstate s' pd dd p (MUnlock l) None)
      | MUnlock l, _, _ => Some (mk_cstate s pd None p (MCopy l) None)
      | MCopy (q :: l), _, _ =>
          '(r, s') ← returned (mover_copy nvme q s); Some (mk_cstate s' pd dd p (next_copy q l r) None)
      | MCopy [], _, _ => Some (mk_cstate s pd dd p MLock None)
      | MLockPath q f l, None, _ => Some (mk_cstate s (Some Mover) dd p (MPublish q f l) None)
      | MPublish q f l, _, _ =>
          '(_, s') ← returned (mover_publish q f s); Some (mk_cstate s' pd dd p (MUnlockPath l) None)
      | MUnlockPath l, _, _ => Some (mk_cstate s None dd p (MCopy l) None)
      | _, _, _ => None
      end
  | _ => None
  end.

Lemma exec_mover_sound nvme st st' : exec_mover nvme st = Some st' -> internal nvme st st'.
Proof.
  intros He. apply int_mover. destruct st as [s pd dd p m [w|]]; [done|].
  destruct m as [| | | | |l|[|q l]|q f l|q f l|l], pd as [?|], dd as [?|]; cbn [exec_mover] in He; try done;
    first [injection He as <-; econstructor; fail
          |apply bind_Some in He as ([x' s'] & Hx%returned_Some & [= <-]); first [by econstructor|by destruct x'; econstructor]].
Qed.

(** ** The cluster *)

Inductive act : Type :=
  | ACall (i : nat) (x : ro_call) (e : cl_env)
  | AReturn (i : nat) (ws : list wake)
  | AAccept (h : nat) (call : hg_call)
  | AHandler (H : Z)
  | AComplete (H : Z) (h : nat)
  | AMover (H : Z)
  | ALose (h : nat)
  | AFail (H : Z).

Section Exec.
Context (hash : string -> Z) (se : nat -> self_env) (nvme : Z -> string).

Definition exec_server (H : Z) (f : cstate -> option cstate) (s : cluster) : option cluster :=
  st ← cu_servers s !! H; st' ← f st;
  Some (mk_cluster (cu_apps s) (<[H := st']> (cu_servers s)) (cu_net s)
          (cu_mail s ++ wire (c_srv st) (c_srv st')) (cu_next s)).

Definition exec (a : act) (s : cluster) : option cluster :=
  match s with
  | mk_cluster apps srv net mail nx =>
      match a with
      | ACall i x e =>
          match apps !! i with
          | Some (mk_node c None hist) =>
              match lib_call hash (se i) (with_wakes [] e) x c with
              | Ret r c' =>
                  Some (mk_cluster (<[i := mk_node c' None (hist ++ [(x, r)])]> apps) srv
                    (post nx (sent c c') net) mail (nx + length (sent c c')))
              | Blocked c1 =>
                  match sent c c1 with
                  | [CForward host msg] =>
                      Some (mk_cluster (<[i := mk_node c (Some (mk_pending e x nx host)) hist]> apps) srv
                        (post nx (sent c c1) net) mail (nx + 1))
                  | _ => None
                  end
              | Dies _ _ => None
              end
          | _ => None
          end
      | AReturn i ws =>
          match apps !! i with
          | Some (mk_node c (Some q) hist) =>
              '(r, c') ← returned (lib_call hash (se i) (with_wakes ws (pd_env q)) (pd_call q) c);
              Some (mk_cluster (<[i := mk_node c' None (hist ++ [(pd_call q, r)])]> apps) srv net mail nx)
          | _ => None
          end
      | AAccept h call =>
          '(H, r) ← net !! h; st ← srv !! H; st' ← exec_accept h call r st;
          Some (mk_cluster apps (<[H := st']> srv) (delete h net) (mail ++ wire (c_srv st) (c_srv st')) nx)
      | AHandler H => exec_server H exec_handler s
      | AComplete H h => exec_server H (exec_complete h 0 0) s
      | AMover H => exec_server H (exec_mover (nvme H)) s
      | ALose h =>
          '(H, r) ← net !! h;
          match r, srv !! H with
          | ROpen _, Some _ => None
          | _, _ => Some (mk_cluster apps srv (delete h net) mail nx)
          end
      | AFail H => Some (mk_cluster apps (delete H srv) net mail nx)
      end
  end.

(** What the schedule has to respect. *)
Definition act_ok (a : act) (s : cluster) : Prop :=
  match a with
  | ACall _ x e => call_wf x e
  | AReturn i ws =>
      match ap_pending <$> cu_apps s !! i with
      | Some (Some q) => arrives (cu_servers s) (cu_mail s) q ws
      | _ => True
      end
  | _ => True
  end.

Lemma exec_server_sound H f s s' :
  (forall st st', f st = Some st' -> internal (nvme H) st st') ->
  exec_server H f s = Some s' -> cstep hash se nvme s s'.
Proof.
  intros Hf (st & Hst & (st' & Hst' & [= <-])%bind_Some)%bind_Some.
  destruct s as [apps srv net mail nx]. eapply cs_work; [done|]. by apply Hf.
Qed.

Lemma exec_sound a s s' : act_ok a s -> exec a s = Some s' -> cstep hash se nvme s s'.
Proof.
  destruct s as [apps srv net mail nx], a as [i x e|i ws|h call|H|H h|H|h|H]; cbn [exec act_ok cu_apps];
    intros Hok He.
  - destruct (apps !! i) as [[c [q|] hist]|] eqn:Ei; try done.
    destruct (lib_call _ _ _ _ _) as [r c'|w c'|c1] eqn:El; [injection He as <-; by eapply cs_now|done|].
    destruct (sent c c1) as [|[host msg] [|]] eqn:Es; try done. injection He as <-.
    pose proof (cs_call hash se nvme i c hist x e c1 host msg apps srv net mail nx Ei Hok El Es) as Hs.
    by rewrite Es in Hs.
  - destruct (apps !! i) as [[c [q|] hist]|] eqn:Ei; try done.
    apply bind_Some in He as ([r c'] & Hr%returned_Some & [= <-]). eapply cs_return; [exact Ei|exact Hok|exact Hr].
  - apply bind_Some in He as ([H r] & Hn & He). apply bind_Some in He as (st & Hs & He).
    apply bind_Some in He as (st' & Hst & [= <-]). eapply cs_accept; [done..|]. by apply exec_accept_sound.
  - eapply exec_server_sound; [|done]. apply exec_handler_sound.
  - eapply exec_server_sound; [|done]. apply exec_complete_sound.
  - eapply exec_server_sound; [|done]. apply exec_mover_sound.
  - apply bind_Some in He as ([H r] & Hn & He). destruct r, (srv !! H) eqn:Es; try done;
      injection He as <-; eapply cs_lose; done.
  - injection He as <-. apply cs_fail.
Qed.

(** A schedule. *)
Fixpoint exec_all (l : list act) (s : cluster) : option cluster :=
  match l with [] => Some s | a :: l' => s1 ← exec a s; exec_all l' s1 end.

(** The steps that the schedule may take at any time. *)
Definition free (a : act) : bool :=
  match a with ACall _ _ _ | AReturn _ _ => false | _ => true end.

Lemma exec_free l s s' :
  forallb free l = true -> exec_all l s = Some s' -> rtc (cstep hash se nvme) s s'.
Proof.
  revert s. induction l as [|a l IH]; intros s; cbn [exec_all forallb]; [by intros _ [= ->]|].
  intros [Ha Hl]%andb_true_iff (s1 & H1 & H2)%bind_Some.
  eapply rtc_l; [eapply (exec_sound a s s1); [by destruct a|exact H1]|]. by apply IH.
Qed.

End Exec.

End ClusterRun.
