(* ===== verification/ClusterInv.v ===== *)
(** * The invariant of a cluster

    Every descriptor that a client reads through, that an answer to an open
    carries or that a close is about to close is open on its server, belongs to
    nobody else and serves the file of its path.  With it the bytes a server
    sends for a read are those the client would have read itself; each step of
    [Cluster] keeps it. *)

From S2P Require Import Prelude CString HexDump Address Posix LogInfo Server ServerSpec ServerProps.
From S2P Require Import DataMover ServerInv ServerThreads ServerWire.
From S2P Require Import Client Wrappers ClientSpec ClientInv ClientProps Transparency ClientWire Cluster.
Import Address Posix LogInfo ServerSpec ServerInv ServerThreads ServerWire.
Import Client Wrappers ClientSpec ClientInv ClientProps Transparency ClientWire Cluster.
Import Server(event, EvPush, EvRespond, srv_os, srv_bulk, of_handle, of_in, oi_path, ri_accessfd,
  ri_input_val, ri_offset, ci_fd, rs_size, rs_data, mk_open_in, mk_rpc_in, mk_close_in, server,
  fd_to_path, open_frame, mk_rpc_state).

Module ClusterInv.

(** ** The invariant *)

(** To whom a descriptor of a server belongs: a descriptor of a client, an open
    that has been answered, or a close on its way. *)
Inductive owner : Type := Live (i : nat) (fd : Z) | Flight (h : nat) | Closing (h : nat).

Abbreviation owners := (gmap (Z * Z) (owner * string)).

Section Invariant.
Context (hash : string -> Z) (se : nat -> self_env) (nvme : Z -> string).
Context (apps0 : gmap nat client) (servers0 : gmap Z server).

(** The servers have the file with these bytes. *)
Definition shared (p : string) (d : list byte) : Prop :=
  forall H s, servers0 !! H = Some s -> file_at (srv_os s) p = Some d.

(** The files a client hands to the servers are the servers' files. *)
Definition mounted (c : client) : Prop :=
  forall path p n, track_decision c path = Some p -> os_files (cl_os c) !! p = Some n ->
    exists d, os_nodes (cl_os c) !! n = Some d /\ shared p d.

Definition same_files (c : client) : Prop :=
  forall fd p, fd_map c !! fd = Some p -> exists d, readable (cl_os c) fd = Some d /\ shared p d.

(** A tracked descriptor whose host lives and is asked reads a descriptor of the
    host that belongs to it. *)
Definition redirected (own : owners) (srv : gmap Z cstate) (i : nat) (c : client) : Prop :=
  forall fd p, fd_map c !! fd = Some p -> ~ given_up c (host_for hash c p) ->
    is_Some (srv !! host_for hash c p) ->
    exists rfd, fd_redir_map c !! fd = Some rfd /\ own !! (host_for hash c p, rfd) = Some (Live i fd, p).

(** The conversation about a read of the bytes [sl]. *)
Record read_conv (srv : gmap Z cstate) (net : gmap nat (Z * rpc)) (mail : list event)
    (h : nat) (host : Z) (msg : rpc) (sl : list byte) : Prop := {
  rc_net : forall x, net !! h = Some x -> x = (host, msg);
  rc_push : forall d, EvPush h d ∈ mail -> d = sl;
  rc_answer : forall out, EvRespond h out ∈ mail ->
    out = -1 \/ (out = Z.of_nat (length sl) /\ EvPush h sl ∈ mail);
  rc_bulk : forall H st rs, srv !! H = Some st -> srv_bulk (c_srv st) !! h = Some rs ->
    rs_size rs = Z.of_nat (length sl) /\ EvPush h sl ∈ mail;
  rc_frame : forall H st f, srv !! H = Some st -> opening (c_prog st) = Some f -> of_handle f <> h
}.

(** The conversation about an open of [p]. *)
Record open_conv (own : owners) (srv : gmap Z cstate) (net : gmap nat (Z * rpc)) (mail : list event)
    (h : nat) (host : Z) (p : string) : Prop := {
  oc_net : forall x, net !! h = Some x -> exists rank fd, x = (host, ROpen (mk_open_in p rank fd));
  oc_push : forall d, EvPush h d ∉ mail;
  oc_answer : forall out, EvRespond h out ∈ mail -> is_Some (srv !! host) ->
    own !! (host, out) = Some (Flight h, p);
  oc_bulk : forall H st, srv !! H = Some st -> srv_bulk (c_srv st) !! h = None;
  oc_frame : forall H st f, srv !! H = Some st -> opening (c_prog st) = Some f -> of_handle f = h ->
    H = host /\ oi_path (of_in f) = p
}.

Definition pending_ok (own : owners) (srv : gmap Z cstate) (net : gmap nat (Z * rpc)) (mail : list event)
    (i : nat) (c : client) (q : pending) : Prop :=
  call_wf (pd_call q) (pd_env q) /\
  exists msg, wait_spec hash (se i) (pd_env q) c (pd_call q) (pd_host q) msg /\
  match pd_call q with
  | XOpen path => forall p, track_decision c path = Some p ->
      open_conv own srv net mail (pd_handle q) (pd_host q) p
  | XPread fd count offset _ => forall d, readable (cl_os c) fd = Some d ->
      read_conv srv net mail (pd_handle q) (pd_host q) msg (zslice d offset (Z.min count MAX_RW_COUNT))
  | XClose _ => True
  end.

Record node_ok (own : owners) (s : cluster) (i : nat) (a : node) : Prop := {
  ao_lib : lib_ok (ap_client a);
  ao_mounted : mounted (ap_client a);
  ao_files : same_files (ap_client a);
  ao_redirected : redirected own (cu_servers s) i (ap_client a);
  ao_done : exists c0, apps0 !! i = Some c0 /\
    plain_run (cl_os c0) (ap_done a) (cl_os (ap_client a));
  ao_pending : forall q, ap_pending a = Some q ->
    pending_ok own (cu_servers s) (cu_net s) (cu_mail s) i (ap_client a) q
}.

Record srv_ok (own : owners) (H : Z) (st : cstate) : Prop := {
  so_from : exists s0, servers0 !! H = Some s0 /\ cinv (srv_os s0) st;
  so_alive : c_dead st = None;
  so_serving : forall rfd o p, own !! (H, rfd) = Some (o, p) -> serving rfd p st;
  so_frame : forall f, opening (c_prog st) = Some f -> exists d, shared (oi_path (of_in f)) d
}.

Definition net_ok (own : owners) (srv : gmap Z cstate) (h : nat) (x : Z * rpc) : Prop :=
  positioned x.2 /\
  match x.2 with
  | ROpen i => exists d, shared (oi_path i) d
  | RClose i => is_Some (srv !! x.1) -> exists p, own !! (x.1, ci_fd i) = Some (Closing h, p)
  | RRead i => 0 <= ri_input_val i < 2 ^ 31
  | RSeek _ => True
  end.

(** Handles from [n] on are not in use. *)
Record fresh_from (n : nat) (s : cluster) : Prop := {
  fr_net : forall h x, cu_net s !! h = Some x -> (h < n)%nat;
  fr_mail : forall h d, EvPush h d ∈ cu_mail s -> (h < n)%nat;
  fr_mail2 : forall h out, EvRespond h out ∈ cu_mail s -> (h < n)%nat;
  fr_bulk : forall H st h rs, cu_servers s !! H = Some st -> srv_bulk (c_srv st) !! h = Some rs -> (h < n)%nat;
  fr_frame : forall H st f, cu_servers s !! H = Some st -> opening (c_prog st) = Some f -> (of_handle f < n)%nat;
  fr_pending : forall i a q, cu_apps s !! i = Some a -> ap_pending a = Some q -> (pd_handle q < n)%nat
}.

Record cluster_ok (own : owners) (s : cluster) : Prop := {
  cu_app : forall i a, cu_apps s !! i = Some a -> node_ok own s i a;
  cu_srv : forall H st, cu_servers s !! H = Some st -> srv_ok own H st;
  cu_msg : forall h x, cu_net s !! h = Some x -> net_ok own (cu_servers s) h x;
  cu_idle : forall h x H st, cu_net s !! h = Some x -> cu_servers s !! H = Some st ->
    srv_bulk (c_srv st) !! h = None;
  cu_fresh : fresh_from (cu_next s) s;
  cu_distinct : forall i j a b q r, cu_apps s !! i = Some a -> cu_apps s !! j = Some b ->
    ap_pending a = Some q -> ap_pending b = Some r -> pd_handle q = pd_handle r -> i = j
}.

(** ** What a step leaves alone *)

(** Nothing happened about handle [h]. *)
Record untouched (h : nat) (s s' : cluster) : Prop := {
  un_net : forall x, cu_net s' !! h = Some x -> cu_net s !! h = Some x;
  un_push : forall d, EvPush h d ∈ cu_mail s' <-> EvPush h d ∈ cu_mail s;
  un_answer : forall out, EvRespond h out ∈ cu_mail s' <-> EvRespond h out ∈ cu_mail s;
  un_bulk : forall H st' rs, cu_servers s' !! H = Some st' -> srv_bulk (c_srv st') !! h = Some rs ->
    exists st, cu_servers s !! H = Some st /\ srv_bulk (c_srv st) !! h = Some rs;
  un_frame : forall H st' f, cu_servers s' !! H = Some st' -> opening (c_prog st') = Some f -> of_handle f = h ->
    exists st, cu_servers s !! H = Some st /\ opening (c_prog st) = Some f
}.

Lemma untouched_servers h s s' : cu_servers s' = cu_servers s -> cu_mail s' = cu_mail s ->
  (forall x, cu_net s' !! h = Some x -> cu_net s !! h = Some x) -> untouched h s s'.
Proof. intros E1 E2 Hn. split; rewrite ?E1, ?E2; eauto. Qed.

(** The owners an application looks at. *)
Definition concerns (i : nat) (a : node) (o : owner) : Prop :=
  match o with
  | Live j _ => j = i
  | Flight h => exists q, ap_pending a = Some q /\ pd_handle q = h
  | Closing _ => False
  end.

Definition alive_still (s s' : cluster) : Prop :=
  forall H, is_Some (cu_servers s' !! H) -> is_Some (cu_servers s !! H).

Definition owners_kept (P : owner -> Prop) (own own' : owners) (s' : cluster) : Prop :=
  forall H rfd o p, P o -> is_Some (cu_servers s' !! H) -> own !! (H, rfd) = Some (o, p) ->
    own' !! (H, rfd) = Some (o, p).

Lemma redirected_frame own own' s s' i a : alive_still s s' -> owners_kept (concerns i a) own own' s' ->
  redirected own (cu_servers s) i (ap_client a) -> redirected own' (cu_servers s') i (ap_client a).
Proof.
  intros Ha Ho Hr fd p Hp Hg Hs. destruct (Hr fd p Hp Hg (Ha _ Hs)) as (rfd & H1 & H2).
  exists rfd. split; [done|]. by apply Ho.
Qed.

Lemma read_conv_frame s s' h host msg sl : untouched h s s' ->
  read_conv (cu_servers s) (cu_net s) (cu_mail s) h host msg sl ->
  read_conv (cu_servers s') (cu_net s') (cu_mail s') h host msg sl.
Proof.
  intros [U1 U2 U3 U4 U5] [R1 R2 R3 R4 R5]. split.
  - intros x Hx. by apply R1, U1.
  - intros d Hd. by apply R2, U2.
  - intros out Ho. destruct (R3 out) as [?|[? ?]]; [by apply U3|by left|right]. split; [done|by apply U2].
  - intros H st' rs Hst Hb. destruct (U4 H st' rs Hst Hb) as (st & H1 & H2).
    destruct (R4 H st rs H1 H2). split; [done|by apply U2].
  - intros H st' f Hst Hf Hh. destruct (U5 H st' f Hst Hf Hh) as (st & H1 & H2). by eapply R5.
Qed.

Lemma open_conv_frame own own' s s' h host p : untouched h s s' -> alive_still s s' ->
  owners_kept (fun o => o = Flight h) own own' s' ->
  open_conv own (cu_servers s) (cu_net s) (cu_mail s) h host p ->
  open_conv own' (cu_servers s') (cu_net s') (cu_mail s') h host p.
Proof.
  intros [U1 U2 U3 U4 U5] Ha Ho [R1 R2 R3 R4 R5]. split.
  - intros x Hx. by apply R1, U1.
  - intros d Hd. by apply (R2 d), U2.
  - intros out Hout Hs. apply Ho; [done..|]. apply R3; [by apply U3|by apply Ha].
  - intros H st' Hst. destruct (srv_bulk (c_srv st') !! h) as [rs|] eqn:Hb; [|done].
    destruct (U4 H st' rs Hst Hb) as (st & H1 & H2). by rewrite (R4 H st H1) in H2.
  - intros H st' f Hst Hf Hh. destruct (U5 H st' f Hst Hf Hh) as (st & H1 & H2). by eapply R5.
Qed.

Lemma pending_frame own own' s s' i c q : untouched (pd_handle q) s s' -> alive_still s s' ->
  owners_kept (fun o => o = Flight (pd_handle q)) own own' s' ->
  pending_ok own (cu_servers s) (cu_net s) (cu_mail s) i c q ->
  pending_ok own' (cu_servers s') (cu_net s') (cu_mail s') i c q.
Proof.
  intros Hu Ha Ho (Hwf & msg & Hw & Hq). split; [done|]. exists msg. split; [done|].
  destruct (pd_call q); [|intros d Hd; by eapply read_conv_frame, Hq|done].
  intros p Hp. by eapply open_conv_frame, Hq.
Qed.

Lemma node_frame own own' s s' i a : alive_still s s' -> owners_kept (concerns i a) own own' s' ->
  (forall q, ap_pending a = Some q -> untouched (pd_handle q) s s') ->
  node_ok own s i a -> node_ok own' s' i a.
Proof.
  intros Ha Ho Hu [A1 A2 A3 A4 A5 A6]. split; try done; [by eapply redirected_frame|].
  intros q Hq. apply (pending_frame own _ s); [by apply Hu|done| |by apply A6].
  intros H rfd o p ->. apply Ho. by exists q.
Qed.

(** A server that is not the one of the step. *)
Lemma srv_frame own own' H st : (forall rfd, own' !! (H, rfd) = own !! (H, rfd)) ->
  srv_ok own H st -> srv_ok own' H st.
Proof. intros Ho [S1 S2 S3 S4]. split; try done. intros rfd o p. rewrite Ho. apply S3. Qed.

(** ** The steps of a server *)

Section ServerStep.
Context (own own' : owners) (apps : gmap nat node) (srv : gmap Z cstate) (net net' : gmap nat (Z * rpc))
  (mail es : list event) (nx : nat) (H : Z) (st st' : cstate) (k : nat).
#[local] Abbreviation s := (mk_cluster apps srv net mail nx).
#[local] Abbreviation s' := (mk_cluster apps (<[H := st']> srv) net' (mail ++ es) nx).

(** The step is about handle [k] of server [H]. *)
Record about : Prop := {
  ab_server : srv !! H = Some st;
  ab_net : forall h x, net' !! h = Some x -> net !! h = Some x;
  ab_fresh : (k < nx)%nat \/ (es = [] /\ opening (c_prog st') = opening (c_prog st) /\
    forall h rs, srv_bulk (c_srv st') !! h = Some rs -> srv_bulk (c_srv st) !! h = Some rs);
  ab_push : forall h d, EvPush h d ∈ es -> h = k;
  ab_answer : forall h out, EvRespond h out ∈ es -> h = k;
  ab_bulk : forall h rs, srv_bulk (c_srv st') !! h = Some rs -> h = k \/ srv_bulk (c_srv st) !! h = Some rs;
  ab_taken : net' !! k = None \/ (forall rs, srv_bulk (c_srv st') !! k = Some rs -> srv_bulk (c_srv st) !! k = Some rs);
  ab_frame : forall f, opening (c_prog st') = Some f -> of_handle f = k \/ opening (c_prog st) = Some f;
  ab_other : forall key, key.1 <> H -> own' !! key = own !! key;
  ab_live : forall rfd o p, own !! (H, rfd) = Some (o, p) -> match o with Closing _ => False | _ => True end ->
    own' !! (H, rfd) = Some (o, p);
  ab_closing : forall h i p, net' !! h = Some (H, RClose i) -> own !! (H, ci_fd i) = Some (Closing h, p) ->
    own' !! (H, ci_fd i) = Some (Closing h, p)
}.

Context (Hab : about).

Lemma server_alive : alive_still s s'.
Proof using Hab.
  intros H' [st1 Hs]. cbn in Hs. rewrite lookup_insert in Hs. cbn. case_decide; [|by eexists].
  subst. exists st. apply Hab.
Qed.

Lemma server_kept (P : owner -> Prop) : (forall h, ~ P (Closing h)) -> owners_kept P own own' s'.
Proof using Hab.
  intros HP H' rfd o p Ho _ Hown. destruct (decide (H' = H)) as [->|Hne].
  - apply (ab_live Hab); [done|]. by destruct o; [..|apply HP in Ho].
  - by rewrite (ab_other Hab).
Qed.

Lemma server_untouched h : h <> k -> untouched h s s'.
Proof using Hab.
  intros Hne. split; cbn.
  - apply (ab_net Hab).
  - intros d. rewrite elem_of_app. split; [|by left]. intros [Hd|Hd]; [done|]. by apply (ab_push Hab) in Hd.
  - intros d. rewrite elem_of_app. split; [|by left]. intros [Hd|Hd]; [done|]. by apply (ab_answer Hab) in Hd.
  - intros H' st1 rs Hs Hb. rewrite lookup_insert in Hs. case_decide; [|by exists st1]. simplify_eq.
    destruct (ab_bulk Hab h rs Hb); [done|]. exists st. split; [apply Hab|done].
  - intros H' st1 f Hs Hf Hh. rewrite lookup_insert in Hs. case_decide; [|by exists st1]. simplify_eq.
    destruct (ab_frame Hab f Hf); [done|]. exists st. split; [apply Hab|done].
Qed.

Lemma server_fresh : fresh_from nx s -> fresh_from nx s'.
Proof using Hab.
  intros [F1 F2 F3 F4 F5 F6]. pose proof (ab_server Hab) as Hst.
  assert (Hes : forall e, e ∈ es -> (k < nx)%nat).
  { intros e He. destruct (ab_fresh Hab) as [?|[-> _]]; [done|]. by apply not_elem_of_nil in He. }
  split; cbn in *.
  - intros h x Hx. by eapply F1, (ab_net Hab).
  - intros h d [Hd|Hd]%elem_of_app; [by eapply F2|]. apply (ab_push Hab) in Hd as E. subst. by eapply Hes.
  - intros h d [Hd|Hd]%elem_of_app; [by eapply F3|]. apply (ab_answer Hab) in Hd as E. subst. by eapply Hes.
  - intros H' st1 h rs Hs Hb. rewrite lookup_insert in Hs. case_decide; [|by eapply F4]. simplify_eq.
    destruct (ab_fresh Hab) as [Hk|(_ & _ & Eb)]; [|by eapply F4, Eb].
    destruct (ab_bulk Hab h rs Hb) as [->|]; [done|]. by eapply F4.
  - intros H' st1 f Hs Hf. rewrite lookup_insert in Hs. case_decide; [|by eapply F5]. simplify_eq.
    destruct (ab_fresh Hab) as [Hk|(_ & Eo & _)]; [|rewrite Eo in Hf; by eapply F5].
    destruct (ab_frame Hab f Hf) as [->|]; [done|]. by eapply F5.
  - exact F6.
Qed.

(** What remains to be shown about a step of a server: the server itself, and
    the conversation the step is about. *)
Lemma server_step_ok : cluster_ok own s -> srv_ok own' H st' ->
  (forall i a q, apps !! i = Some a -> ap_pending a = Some q -> pd_handle q = k ->
     pending_ok own' (<[H := st']> srv) net' (mail ++ es) i (ap_client a) q) ->
  cluster_ok own' s'.
Proof using Hab.
  intros [C1 C2 C3 C3' C4 C5] Hst Hk. split; cbn in *.
  - intros i a Hi. specialize (C1 i a Hi). split; try apply C1.
    + eapply redirected_frame; [exact server_alive|apply (server_kept (concerns i a)); by intros h []|apply C1].
    + intros q Hq. destruct (decide (pd_handle q = k)) as [E|Hne]; [by apply Hk|].
      eapply (pending_frame own own' s s'); [by apply server_untouched|exact server_alive| |by apply C1].
      apply server_kept. by intros h [=].
  - intros H' st1 Hs. rewrite lookup_insert in Hs. case_decide; [by simplify_eq|].
    eapply srv_frame; [|by apply C2]. intros rfd. by apply (ab_other Hab).
  - intros h [H' r] Hx. pose proof (ab_net Hab h _ Hx) as Hx0. destruct (C3 h _ Hx0) as [Hp Hr].
    split; [done|]. cbn in *. destruct r as [i|i|i|i]; try done. intros Hal.
    destruct Hr as [p Hown]; [by apply server_alive|]. exists p.
    destruct (decide (H' = H)) as [->|Hne]; [by apply (ab_closing Hab)|by rewrite (ab_other Hab)].
  - intros h x H' st1 Hx Hs. pose proof (ab_net Hab h _ Hx) as Hx0.
    rewrite lookup_insert in Hs. case_decide; [|by eapply C3']. simplify_eq.
    destruct (srv_bulk (c_srv st') !! h) as [rs|] eqn:Eb; [exfalso|done].
    destruct (ab_bulk Hab h rs Eb) as [->|Eo]; [|by rewrite (C3' _ _ _ _ Hx0 (ab_server Hab)) in Eo].
    destruct (ab_taken Hab) as [E|E]; [congruence|]. specialize (E rs Eb).
    by rewrite (C3' _ _ _ _ Hx0 (ab_server Hab)) in E.
  - by apply server_fresh.
  - exact C5.
Qed.

End ServerStep.

(** *** A request is taken *)

(** A close gives the descriptor up. *)
Definition accepted (own : owners) (H : Z) (r : rpc) : owners :=
  match r with RClose i => delete (H, ci_fd i) own | _ => own end.

Lemma accepted_sub own H r key v : accepted own H r !! key = Some v -> own !! key = Some v.
Proof. destruct r; try done. unfold accepted. by intros [_ ?]%lookup_delete_Some. Qed.

Lemma accept_srv_ok own srv H h call r st st' : srv_ok own H st -> net_ok own srv h (H, r) ->
  accept h call r st st' -> srv_ok (accepted own H r) H st'.
Proof.
  intros [(s0 & Hs0 & Hc) Hd Hs Hf] [Hp Hr] Ha. cbn in Hp, Hr. split.
  - exists s0. split; [done|]. eapply (step_cinv _ (nvme H)); [by eapply accept_step|done].
  - by destruct Ha.
  - intros rfd o p Hown. eapply accept_serving; [done| |by eapply Hs, accepted_sub].
    destruct r as [i|i|i|i]; try (by intros []). intros E. cbn in E. subst.
    unfold accepted in Hown. by rewrite lookup_delete_eq in Hown.
  - destruct (accept_says _ _ _ _ _ Ha Hp) as [_ Hf'|_ _ E _|i d _ _ _ _ E];
      [|by rewrite E|by rewrite E].
    intros f E. destruct (Hf' f E) as [_ ->]. exact Hr.
Qed.

Lemma accept_about own srv net nx H h call r st st' :
  net !! h = Some (H, r) -> srv !! H = Some st -> net_ok own srv h (H, r) -> (h < nx)%nat ->
  accept h call r st st' ->
  about own (accepted own H r) srv net (delete h net) (wire (c_srv st) (c_srv st')) nx H st st' h.
Proof.
  intros Hn Hst [Hp Hr] Hlt Ha. cbn in Hp, Hr.
  assert (Hidle : opening (c_prog st) = None) by by destruct Ha.
  assert (Hfr : forall f, opening (c_prog st') = Some f -> of_handle f = h).
  { intros f E. destruct (accept_says _ _ _ _ _ Ha Hp) as [_ Hf'|_ _ E' _|i d _ _ _ _ E'];
      [by destruct (Hf' f E)|congruence|congruence]. }
  split; try done; [|by left|..].
  - by intros h' x [_ ?]%lookup_delete_Some.
  - intros h' d Hd. destruct (accept_says _ _ _ _ _ Ha Hp) as [[Hw _] _|Hw _ _ _|i d' _ _ Hw _ _];
      rewrite (says_wire _ _ _ Hw) in Hd; set_solver.
  - intros h' d Hd. destruct (accept_says _ _ _ _ _ Ha Hp) as [[Hw _] _|Hw _ _ _|i d' _ _ Hw _ _];
      rewrite (says_wire _ _ _ Hw) in Hd; set_solver.
  - intros h' rs Hb. destruct (accept_says _ _ _ _ _ Ha Hp) as [[_ E] _|_ E _ _|i d' _ _ _ E _];
      rewrite E in Hb; [by right..|]. rewrite lookup_insert in Hb. case_decide; [by left|by right].
  - left. apply lookup_delete_eq.
  - intros f E. left. by apply Hfr.
  - intros key Hk. destruct r; try done. cbn. apply lookup_delete_ne. by intros <-.
  - intros rfd o p Hown Ho. destruct r as [i|i|i|i]; try done. cbn in *.
    destruct Hr as [q Hq]; [by eexists|]. rewrite lookup_delete_ne; [done|]. intros [= <-]. by simplify_eq.
  - intros h' i p [Hne Hx]%lookup_delete_Some Hown. destruct r as [j|j|j|j]; try done. cbn in *.
    destruct Hr as [q Hq]; [by eexists|]. rewrite lookup_delete_ne; [done|]. intros [= E].
    assert (own !! (H, ci_fd j) = Some (Closing h', p)) by (by rewrite E). simplify_eq.
Qed.

(** The request of a read from a descriptor of the host. *)
Definition asks_read (rfd fd count offset rank : Z) : rpc := RRead (mk_rpc_in (i32 count) rfd fd offset rank).

(** The answer to a read that is pending. *)
Lemma read_conv_accept own srv net mail i fd count offset rfd rank h host H call r st st' p d sl :
  read_conv srv net mail h host (asks_read rfd fd count offset rank) sl ->
  sl = zslice d offset (Z.min count MAX_RW_COUNT) -> 0 <= count < 2 ^ 31 -> 0 <= offset ->
  (is_Some (srv !! host) -> own !! (host, rfd) = Some (Live i fd, p)) -> shared p d ->
  net !! h = Some (H, r) -> srv !! H = Some st -> srv_ok own H st -> accept h call r st st' ->
  read_conv (<[H := st']> srv) (delete h net) (mail ++ wire (c_srv st) (c_srv st')) h
    host (asks_read rfd fd count offset rank) sl.
Proof.
  intros [R1 R2 R3 R4 R5] Esl Hcnt Hoff Hown Hsh Hn Hst [(s0 & Hs0 & Hcinv) Hdead Hserv _] Ha.
  specialize (R1 _ Hn). injection R1 as -> ->. specialize (Hown ltac:(by eexists)).
  specialize (Hserv _ _ _ Hown).
  assert (Hshort : Z.of_nat (length sl) < 2 ^ 31).
  { rewrite Esl, zslice_length by (unfold MAX_RW_COUNT; lia). unfold MAX_RW_COUNT. lia. }
  assert (Hother : forall H' st1, H' <> host -> (<[host:=st']> srv) !! H' = Some st1 -> srv !! H' = Some st1).
  { intros H' st1 Hne. by rewrite lookup_insert_ne by congruence. }
  assert (Hframe : forall f, opening (c_prog st') = Some f -> of_handle f <> h).
  { intros f E _. unfold asks_read in Ha. inversion Ha. by subst. }
  assert (Hfr : forall H' st1 f, (<[host:=st']> srv) !! H' = Some st1 -> opening (c_prog st1) = Some f -> of_handle f <> h).
  { intros H' st1 f Hs E. destruct (decide (H' = host)) as [->|Hne]; [|by eapply R5, E; apply Hother].
    rewrite lookup_insert_eq in Hs. simplify_eq. by apply Hframe. }
  assert (Hnet : forall x, delete h net !! h = Some x -> x = (host, asks_read rfd fd count offset rank))
    by (intros x Hx; by rewrite lookup_delete_eq in Hx).
  assert (Hbulk : forall H' st1 rs, (<[host:=st']> srv) !! H' = Some st1 -> srv_bulk (c_srv st1) !! h = Some rs ->
    (H' = host /\ st1 = st') \/ (rs_size rs = Z.of_nat (length sl) /\ EvPush h sl ∈ mail)).
  { intros H' st1 rs Hs Hb. destruct (decide (H' = host)) as [->|Hne].
    - rewrite lookup_insert_eq in Hs. simplify_eq. by left.
    - right. by eapply R4, Hb; apply Hother. }
  destruct (accept_says _ _ _ _ _ Ha) as [[Hw Eb] _|Hw Eb _ _|j d' Ej Hpr Hw Eb _]; [done|..];
    rewrite (says_wire _ _ _ Hw).
  - rewrite app_nil_r. split; try done. intros H' st1 rs Hs Hb.
    destruct (Hbulk H' st1 rs Hs Hb) as [[-> ->]|?]; [|done]. rewrite Eb in Hb. by eapply R4.
  - split; try done.
    + intros d'. rewrite elem_of_app. intros [Hd|Hd]; [by apply R2|set_solver].
    + intros out. rewrite elem_of_app. intros [Hd|Hd]; [|left; set_solver].
      destruct (R3 out Hd) as [?|[? ?]]; [by left|right]. split; [done|set_solver].
    + intros H' st1 rs Hs Hb. destruct (Hbulk H' st1 rs Hs Hb) as [[-> ->]|[? ?]]; [|set_solver].
      rewrite Eb in Hb. destruct (R4 host st rs Hst Hb). set_solver.
  - injection Ej as <-. cbn [ri_accessfd ri_input_val ri_offset] in Hpr.
    rewrite i32_id, u64_id in Hpr by (unfold in_i32; lia).
    pose proof (serving_reads _ _ _ _ _ _ _ _ Hcinv Hdead Hserv (Hsh _ _ Hs0) Hpr) as ->. rewrite <- Esl in *.
    split; try done.
    + intros d'. rewrite elem_of_app. intros [Hd|Hd]; [by apply R2|set_solver].
    + intros out. rewrite elem_of_app. intros [Hd|Hd]; [|set_solver].
      destruct (R3 out Hd) as [?|[? ?]]; [by left|right]. split; [done|set_solver].
    + intros H' st1 rs Hs Hb. destruct (Hbulk H' st1 rs Hs Hb) as [[-> ->]|[? ?]]; [|set_solver].
      rewrite Eb, lookup_insert_eq in Hb. injection Hb as <-. cbn. rewrite u64_id by lia. set_solver.
Qed.

(** The open that is pending is taken. *)
Lemma open_conv_accept own own' srv net mail h host p H call r st st' :
  open_conv own srv net mail h host p ->
  net !! h = Some (H, r) -> srv !! H = Some st -> accept h call r st st' ->
  own' = accepted own H r ->
  open_conv own' (<[H := st']> srv) (delete h net) (mail ++ wire (c_srv st) (c_srv st')) h host p.
Proof.
  intros [R1 R2 R3 R4 R5] Hn Hst Ha ->. destruct (R1 _ Hn) as (rank & fd & [= -> ->]).
  destruct (accept_says _ _ _ _ _ Ha) as [[Hw Eb] Hf|_ _ _ [j [=]]|j d' [=]]; [done|].
  rewrite (says_wire _ _ _ Hw), app_nil_r. split; cbn [accepted].
  - intros x Hx. by rewrite lookup_delete_eq in Hx.
  - exact R2.
  - intros out Hout Hs. by apply R3.
  - intros H' st1 Hs. rewrite lookup_insert in Hs. case_decide; [|by eapply R4]. simplify_eq.
    rewrite Eb. by eapply R4.
  - intros H' st1 f Hs E Eh. rewrite lookup_insert in Hs. case_decide; [|by eapply R5]. simplify_eq.
    destruct (Hf f E) as [_ Er]. by injection Er as <-.
Qed.

Lemma accept_ok own apps srv net mail nx H h call r st st' :
  net !! h = Some (H, r) -> srv !! H = Some st -> accept h call r st st' ->
  cluster_ok own (mk_cluster apps srv net mail nx) ->
  cluster_ok (accepted own H r)
    (mk_cluster apps (<[H := st']> srv) (delete h net) (mail ++ wire (c_srv st) (c_srv st')) nx).
Proof.
  intros Hn Hst Ha Hok. destruct Hok as [C1 C2 C3 C3' C4 C5] eqn:E. clear E.
  pose proof (C2 H st Hst) as Hs. pose proof (C3 h _ Hn) as Hmsg.
  apply (server_step_ok own _ apps srv net _ mail _ nx H st st' h); [|done|by eapply accept_srv_ok|].
  { eapply accept_about; try done. by eapply (fr_net _ _ C4). }
  intros i a q Hi Hq Eh. specialize (C1 i a Hi). destruct (ao_pending _ _ _ _ C1 q Hq) as (Hwf & msg & Hw & Hc).
  split; [done|]. exists msg. split; [done|]. cbn in Hw. subst h.
  destruct (pd_call q) as [path|fd count offset buf|fd] eqn:Ec; [| |done].
  - intros p Hp. eapply open_conv_accept; [by apply Hc|done..].
  - intros d Hd. destruct Hw as (p & Hfd & Hh & Hng & -> & _). destruct Hwf as [_ [Hcnt Hoff]].
    destruct (ao_files _ _ _ _ C1 fd p Hfd) as (d' & Hd' & Hsh). rewrite Hd in Hd'. injection Hd' as <-.
    specialize (Hc d Hd). rewrite Hh in Hc, Hng |- *.
    eapply (read_conv_accept own); try done. intros Hal.
    destruct (ao_redirected _ _ _ _ C1 fd p Hfd Hng Hal) as (rfd & Hr & Hown). cbn in Hr. by rewrite Hr.
Qed.

(** *** A server goes on *)

(** An open that is answered gives its descriptor to the answer. *)
Lemma opened_about own srv net nx H st st' f out es p :
  srv !! H = Some st -> srv_ok own H st -> (of_handle f < nx)%nat ->
  es = [EvRespond (of_handle f) out] -> srv_bulk (c_srv st') = srv_bulk (c_srv st) ->
  opening (c_prog st') = None -> os_fds (srv_os (c_srv st)) !! out = None ->
  about own (<[(H, out) := (Flight (of_handle f), p)]> own) srv net net es nx H st st' (of_handle f).
Proof.
  intros Hst Hs Hlt -> Hb Hf Hout.
  assert (Hfree : own !! (H, out) = None).
  { destruct (own !! (H, out)) as [[o q]|] eqn:Eo; [|done].
    destruct (so_serving _ _ _ Hs _ _ _ Eo) as [(_ & [g Hg] & _) _]. congruence. }
  split; try done; [by left|..].
  - set_solver.
  - set_solver.
  - intros h rs. rewrite Hb. by right.
  - right. by rewrite Hb.
  - intros g. by rewrite Hf.
  - intros key Hk. apply lookup_insert_ne. by intros <-.
  - intros rfd o q Ho _. rewrite lookup_insert_ne; [done|]. intros [= <-]. congruence.
  - intros h i q _ Ho. rewrite lookup_insert_ne; [done|]. intros [= E]. rewrite E in Hfree. congruence.
Qed.

(** A step that sends nothing, or the answer to a read. *)
Lemma work_about own srv net nx H st st' k es :
  srv !! H = Some st -> es = [] \/ (k < nx)%nat ->
  (forall e, e ∈ es -> exists out, e = EvRespond k out) ->
  (forall h rs, srv_bulk (c_srv st') !! h = Some rs -> srv_bulk (c_srv st) !! h = Some rs) ->
  opening (c_prog st') = opening (c_prog st) ->
  about own own srv net net es nx H st st' k.
Proof.
  intros Hst Hlt Hes Hb Hf. split; try done.
  - destruct Hlt as [->|?]; [by right|by left].
  - intros h d Hd. by destruct (Hes _ Hd) as [out [=]].
  - intros h out' Hd. by destruct (Hes _ Hd) as [out [= ->]].
  - intros h rs Hr. right. by apply Hb.
  - right. apply Hb.
  - intros f E. right. by rewrite <- Hf.
Qed.

Lemma work_srv_ok own H st st' : srv_ok own H st -> internal (nvme H) st st' ->
  opening (c_prog st') = opening (c_prog st) -> srv_ok own H st'.
Proof.
  intros [(s0 & Hs0 & Hc) Hd Hs Hf] Hi E. split.
  - exists s0. split; [done|]. eapply (step_cinv _ (nvme H)); [by apply internal_step|done].
  - destruct Hi as [|st1 st2 Hs'|st1 st2 Hs'|]; try done; [by destruct Hs'|by apply mover_step_prog in Hs' as (_ & ? & _)].
  - intros rfd o p Ho. eapply internal_serving; [done|by eapply Hs].
  - rewrite E. exact Hf.
Qed.

(** The transfer of a pending read is complete. *)
Lemma read_conv_complete srv net mail es h host msg sl H st st' rs :
  read_conv srv net mail h host msg sl -> Z.of_nat (length sl) < 2 ^ 31 ->
  srv !! H = Some st -> srv_bulk (c_srv st) !! h = Some rs ->
  srv_bulk (c_srv st') = delete h (srv_bulk (c_srv st)) -> opening (c_prog st') = opening (c_prog st) ->
  es = [] \/ es = [EvRespond h (i32 (rs_size rs))] ->
  read_conv (<[H := st']> srv) net (mail ++ es) h host msg sl.
Proof.
  intros [R1 R2 R3 R4 R5] Hl Hst Hb Hb' Hf Hes. destruct (R4 H st rs Hst Hb) as [Hsz Hin].
  rewrite Hsz, i32_id in Hes by (unfold in_i32; lia). split; try done.
  - intros d. rewrite elem_of_app. intros [Hd|Hd]; [by apply R2|]. destruct Hes as [-> | ->]; set_solver.
  - intros out. rewrite elem_of_app. intros [Hd|Hd].
    + destruct (R3 out Hd) as [?|[? ?]]; [by left|right]. split; [done|set_solver].
    + right. destruct Hes as [-> | ->]; set_solver.
  - intros H' st1 rs' Hs Hr. rewrite lookup_insert in Hs. case_decide.
    + simplify_eq. by rewrite Hb', lookup_delete_eq in Hr.
    + destruct (R4 H' st1 rs' Hs Hr). set_solver.
  - intros H' st1 f Hs E. rewrite lookup_insert in Hs. case_decide; [|by eapply R5].
    simplify_eq. rewrite Hf in E. by eapply R5.
Qed.

(** The open that is pending is answered. *)
Lemma open_conv_opened own srv net mail es host p H st st' f out :
  open_conv own srv net mail (of_handle f) host p ->
  srv !! H = Some st -> opening (c_prog st) = Some f -> own !! (H, out) = None ->
  srv_bulk (c_srv st') = srv_bulk (c_srv st) -> opening (c_prog st') = None ->
  es = [EvRespond (of_handle f) out] ->
  open_conv (<[(H, out) := (Flight (of_handle f), oi_path (of_in f))]> own) (<[H := st']> srv) net (mail ++ es)
    (of_handle f) host p.
Proof.
  intros [R1 R2 R3 R4 R5] Hst Hf Hfree Hb Ho ->. destruct (R5 H st f Hst Hf eq_refl) as [-> <-]. split; try done.
  - intros d Hd. apply (R2 d). set_solver.
  - intros out' Hd Hs. destruct (decide (out' = out)) as [->|Hne]; [by rewrite lookup_insert_eq|].
    rewrite lookup_insert_ne by congruence. apply R3; [set_solver|]. by eexists.
  - intros H' st1 Hs. rewrite lookup_insert in Hs. case_decide; [|by eapply R4]. simplify_eq.
    rewrite Hb. by eapply R4.
  - intros H' st1 g Hs E. rewrite lookup_insert in Hs. case_decide; [by simplify_eq|by eapply R5].
Qed.

Lemma zslice_short d off n : 0 <= off -> 0 <= n -> Z.of_nat (length (zslice d off (Z.min n MAX_RW_COUNT))) < 2 ^ 31.
Proof. intros. rewrite zslice_length by (unfold MAX_RW_COUNT; lia). unfold MAX_RW_COUNT. lia. Qed.

(** What a step of a server is about, with the conversation it belongs to. *)
Lemma work_converses own apps srv net mail nx H st st' :
  srv !! H = Some st -> internal (nvme H) st st' -> srv_ok own H st -> fresh_from nx (mk_cluster apps srv net mail nx) ->
  exists own' k, about own own' srv net net (wire (c_srv st) (c_srv st')) nx H st st' k /\ srv_ok own' H st' /\
    ((k < nx)%nat ->
      (forall host msg sl, Z.of_nat (length sl) < 2 ^ 31 -> read_conv srv net mail k host msg sl ->
        read_conv (<[H := st']> srv) net (mail ++ wire (c_srv st) (c_srv st')) k host msg sl) /\
      (forall host p, open_conv own srv net mail k host p ->
        open_conv own' (<[H := st']> srv) net (mail ++ wire (c_srv st) (c_srv st')) k host p)).
Proof.
  intros Hst Hi Hs Hfresh. pose proof Hs as [(s0 & Hs0 & Hc) Hd Hserv Hfr].
  destruct (internal_says _ _ _ _ Hi Hc Hd) as [[Hw Hb] Ho|h rs Hb Hb' Hw Ho|f out Hf Ho Hw Hb Hout].
  - exists own, nx. rewrite (says_wire _ _ _ Hw). split; [|split; [by eapply work_srv_ok|lia]].
    apply work_about; try done; [by left|set_solver|by rewrite Hb].
  - exists own, h. assert (Hes : wire (c_srv st) (c_srv st') = [] \/
      wire (c_srv st) (c_srv st') = [EvRespond h (i32 (rs_size rs))])
      by (destruct Hw as [Hw|Hw]; rewrite (says_wire _ _ _ Hw); auto).
    split; [|split; [by eapply work_srv_ok|intros _; split]].
    + apply work_about; try done.
      * right. by eapply (fr_bulk _ _ Hfresh).
      * intros e He. destruct Hes as [E|E]; rewrite E in He; [by apply not_elem_of_nil in He|].
        apply list_elem_of_singleton in He. by eexists.
      * intros h' rs'. rewrite Hb'. by intros [_ ?]%lookup_delete_Some.
    + intros host msg sl Hl Hcv. by eapply read_conv_complete.
    + intros host p Hcv. by rewrite (oc_bulk _ _ _ _ _ _ _ Hcv H st Hst) in Hb.
  - assert (Hfree : os_fds (srv_os (c_srv st)) !! out = None /\ serving out (oi_path (of_in f)) st').
    { apply Hout. destruct (Hfr f Hf) as [d Hsh]. exists d. by apply (Hsh H). }
    destruct Hfree as [Hfree Hnew]. pose proof (says_wire _ _ _ Hw) as Hes.
    assert (Hnone : own !! (H, out) = None).
    { destruct (own !! (H, out)) as [[o q]|] eqn:Eo; [|done].
      destruct (Hserv _ _ _ Eo) as [(_ & [g Hg] & _) _]. congruence. }
    exists (<[(H, out) := (Flight (of_handle f), oi_path (of_in f))]> own), (of_handle f).
    split; [|split; [split|intros _; split]].
    + eapply opened_about; try done. by eapply (fr_frame _ _ Hfresh).
    + exists s0. split; [done|]. eapply (step_cinv _ (nvme H)); [by apply internal_step|done].
    + destruct Hi as [|st1 st2 Hs'|st1 st2 Hs'|]; try done; [by destruct Hs'|by apply mover_step_prog in Hs' as (_ & ? & _)].
    + intros rfd o p [[[= <-] [= <- <-]]|[Hne Ho']]%lookup_insert_Some; [done|].
      eapply internal_serving; [done|by eapply Hserv].
    + by rewrite Ho.
    + intros host msg sl _ Hcv. exfalso. by eapply (rc_frame _ _ _ _ _ _ _ Hcv H st f).
    + intros host p Hcv. by eapply open_conv_opened.
Qed.

Lemma work_ok own apps srv net mail nx H st st' :
  srv !! H = Some st -> internal (nvme H) st st' ->
  cluster_ok own (mk_cluster apps srv net mail nx) ->
  exists own', cluster_ok own'
    (mk_cluster apps (<[H := st']> srv) net (mail ++ wire (c_srv st) (c_srv st')) nx).
Proof.
  intros Hst Hi Hok. pose proof (cu_fresh _ _ Hok) as Hfr.
  destruct (work_converses own apps srv net mail nx H st st' Hst Hi (cu_srv _ _ Hok H st Hst) Hfr)
    as (own' & k & Hab & Hs' & Hconv).
  exists own'. apply (server_step_ok own own' apps srv net net mail _ nx H st st' k); try done.
  intros i a q Hia Hq Eh. pose proof (fr_pending _ _ Hfr i a q Hia Hq) as Hlt. rewrite Eh in Hlt.
  destruct (Hconv Hlt) as [Hread Hopen].
  destruct (ao_pending _ _ _ _ (cu_app _ _ Hok i a Hia) q Hq) as (Hwf & msg & Hm & Hcv). split; [done|]. exists msg.
  split; [done|]. rewrite Eh in *. cbn in Hcv. destruct (pd_call q) as [path|fd count offset buf|fd]; [| |done].
  - intros p Hp. by apply Hopen, Hcv.
  - intros d Hd. destruct Hwf as [_ [Hcnt Hoff]]. apply Hread, Hcv; [apply zslice_short; lia|done].
Qed.

(** ** The steps of an application *)

(** What decides whether a path is tracked, and what a file holds. *)
Definition tree (o : os) : gmap string nat * gset string * gmap string string * gmap nat (list byte) * string :=
  (os_files o, os_dirs o, os_links o, os_nodes o, os_cwd o).

Lemma plain_call_tree x o : tree (plain_call x o).2 = tree o.
Proof.
  destruct x as [path|fd count offset buf|fd]; cbn.
  - rewrite posix_open_rdonly. by destruct (os_files o !! resolve o path).
  - by destruct (posix_pread fd count offset o).
  - unfold posix_close. by destruct (os_fds o !! fd).
Qed.

Lemma like_tree o o' : os_like o o' -> tree o' = tree o.
Proof. by intros [t ->]. Qed.

Lemma call_tree x c c' : after x (cl_os c) (cl_os c') -> tree (cl_os c') = tree (cl_os c).
Proof. intros (o1 & H1%like_tree & _ & H2%like_tree). by rewrite H2, plain_call_tree. Qed.

Lemma track_decision_tree c c' path : tree (cl_os c') = tree (cl_os c) -> ftc_data_dir c' = ftc_data_dir c ->
  track_decision c' path = track_decision c path.
Proof.
  intros [= E1 E2 E3 E4 E5] Ed. unfold track_decision, fs_canonical, resolve. by rewrite E1, E2, E3, E5, Ed.
Qed.

Lemma mounted_call c c' : tree (cl_os c') = tree (cl_os c) -> ftc_data_dir c' = ftc_data_dir c ->
  mounted c -> mounted c'.
Proof.
  intros Ht Hd Hm path p n Hp Hn. rewrite (track_decision_tree c c' path Ht Hd) in Hp. injection Ht as E1 E2 E3 E4 E5.
  rewrite E4. apply (Hm path); [done|by rewrite <- E1].
Qed.

(** The library's state after a call that leaves the files as they were. *)
Lemma lib_ok_same c c' : lib_ok c -> core_ok c' -> os_wf (cl_os c') -> tree (cl_os c') = tree (cl_os c) ->
  os_bad (cl_os c') = os_bad (cl_os c) -> fd_map c' = fd_map c ->
  (forall fd, readable (cl_os c') fd = readable (cl_os c) fd) -> lib_ok c'.
Proof.
  intros [L1 L2 L3 L4 L5] Hc Hw [= E1 E2 E3 E4 E5] Hb Hf Hr. split; try done; rewrite ?Hb, ?E1, ?Hf; try done.
  intros fd p Hp. rewrite Hr. by eapply L5.
Qed.

Lemma lib_ok_text c c' : lib_ok c -> core_ok c' -> os_like (cl_os c) (cl_os c') -> fd_map c' = fd_map c -> lib_ok c'.
Proof.
  intros Hl Hc [t Ho] Hf. apply (lib_ok_same c); try done; rewrite Ho; try done; [apply patched_wf, Hl|].
  intros fd. apply patched_readable.
Qed.

Lemma tracked_open c fd : lib_ok c -> os_fds (cl_os c) !! fd = None -> fd_map c !! fd = None.
Proof.
  intros Hl Hn. destruct (fd_map c !! fd) as [p|] eqn:E; [|done]. destruct (lo_tracked _ Hl fd p E) as [d Hd].
  unfold readable in Hd. by rewrite Hn in Hd.
Qed.

(** The table of tracked descriptors after a call. *)
Definition tracked_after (x : ro_call) (c c' : client) : Prop :=
  match x with
  | XOpen path => fd_map c' = fd_map c \/ exists p n, os_files (cl_os c) !! resolve (cl_os c) path = Some n /\
      track_decision c path = Some p /\ fd_map c' = <[opened_fd c := p]> (fd_map c)
  | XPread _ _ _ _ => fd_map c' = fd_map c
  | XClose fd => fd_map c' = delete fd (fd_map c)
  end.

Lemma same_files_call x c c' : lib_ok c -> mounted c -> same_files c ->
  after x (cl_os c) (cl_os c') -> tracked_after x c c' -> same_files c'.
Proof.
  intros Hl Hm Hf Ho Hx. unfold same_files.
  cut (forall fd p, fd_map c' !! fd = Some p ->
    exists d, readable (plain_call x (cl_os c)).2 fd = Some d /\ shared p d).
  { intros H fd p Hp. rewrite (after_readable _ _ _ fd Ho). by apply H. }
  destruct x as [path|fd count offset buf|fd]; cbn in *.
  - rewrite posix_open_rdonly.
    assert (Hold : forall i p f, fd_map c !! i = Some p ->
      readable (set_fds (<[lowest_fd (os_fds (cl_os c)) := f]> (os_fds (cl_os c))) (cl_os c)) i = readable (cl_os c) i).
    { intros i p f Hi. apply readable_insert. intros ->. destruct (Hf _ _ Hi) as (d & Hd & _).
      unfold readable in Hd. by rewrite (proj1 (lowest_fd_free _)) in Hd. }
    destruct Hx as [->|(p & n & Hn & Hd & ->)].
    + intros i p Hi. destruct (os_files (cl_os c) !! resolve (cl_os c) path); cbn; [|by apply Hf].
      rewrite (Hold i p) by done. by apply Hf.
    + rewrite Hn. cbn. intros i q [[<- <-]|[Hne Hi]]%lookup_insert_Some.
      * rewrite (track_decision_canon _ _ _ Hd) in Hd |- *. destruct (Hm _ _ _ Hd Hn) as (d & Hnode & Hsh).
        exists d. split; [|done]. unfold readable, opened_fd. cbn. rewrite lookup_insert_eq. cbn.
        by rewrite (lo_healthy _ Hl), bool_decide_true by set_solver.
      * rewrite (Hold i q) by done. by apply Hf.
  - rewrite Hx. by destruct (posix_pread fd count offset (cl_os c)).
  - rewrite Hx. intros i p [Hne Hi]%lookup_delete_Some. unfold posix_close.
    destruct (os_fds (cl_os c) !! fd); cbn; [|by apply Hf]. rewrite readable_delete by done. by apply Hf.
Qed.

(** The calls an application has completed. *)
Definition history (i : nat) (c : client) (l : list (ro_call * answer)) : Prop :=
  exists c0, apps0 !! i = Some c0 /\ plain_run (cl_os c0) l (cl_os c).

Lemma history_snoc i c c' l x : history i c l -> after x (cl_os c) (cl_os c') ->
  history i c' (l ++ [(x, (plain_call x (cl_os c)).1)]).
Proof. intros (c0 & H0 & H1) Ho. exists c0. split; [done|]. by eapply plain_run_snoc. Qed.

(** The owners a step of an application may change. *)
Definition mine (apps : gmap nat node) (i : nat) (o : owner) : Prop :=
  match o with
  | Live j _ => j = i
  | Flight h => forall j b q, apps !! j = Some b -> ap_pending b = Some q -> pd_handle q = h -> j = i
  | Closing _ => False
  end.

Record relabels (apps : gmap nat node) (i : nat) (own own' : owners) : Prop := {
  rl_kept : forall key o p, own !! key = Some (o, p) -> own' !! key = Some (o, p) \/ mine apps i o;
  rl_from : forall key o p, own' !! key = Some (o, p) -> exists o', own !! key = Some (o', p)
}.

Lemma relabels_refl apps i own : relabels apps i own own.
Proof. split; eauto. Qed.

Lemma relabels_insert apps i own key o o' p : own !! key = Some (o, p) -> mine apps i o ->
  relabels apps i own (<[key := (o', p)]> own).
Proof.
  intros Ho Hm. split.
  - intros key' o1 p1 H1. destruct (decide (key = key')) as [<-|Hne]; [right; by simplify_eq|left].
    by rewrite lookup_insert_ne.
  - intros key' o1 p1. rewrite lookup_insert_Some. intros [[<- [= <- <-]]|[_ ?]]; eauto.
Qed.

Lemma node_step_ok own own' apps srv net net' mail nx nx' i a a' :
  cluster_ok own (mk_cluster apps srv net mail nx) -> apps !! i = Some a -> relabels apps i own own' ->
  node_ok own' (mk_cluster (<[i := a']> apps) srv net' mail nx') i a' ->
  (nx <= nx')%nat ->
  (forall h x, net' !! h = Some x -> net !! h = Some x \/ (h = nx /\ (nx < nx')%nat /\ net_ok own' srv h x)) ->
  (forall q, ap_pending a' = Some q -> pd_handle q = nx /\ (nx < nx')%nat) ->
  cluster_ok own' (mk_cluster (<[i := a']> apps) srv net' mail nx').
Proof.
  intros Hok Hi [Hk Hfrom] Ha' Hle Hnet Hpend. destruct Hok as [C1 C2 C3 C3' C4 C5]. cbn in *.
  destruct C4 as [F1 F2 F3 F4 F5 F6]. cbn in *.
  assert (Hother : forall j b o, j <> i -> apps !! j = Some b -> concerns j b o -> ~ mine apps i o).
  { intros j b [k fd|h|h] Hne Hj; cbn; [congruence|..|done]. intros (q & Hq & <-) Hm.
    by apply Hne, (Hm j b q). }
  split; cbn.
  - intros j b. rewrite lookup_insert. case_decide as E; [intros [= <-]; subst; exact Ha'|]. intros Hj.
    apply (node_frame own own' (mk_cluster apps srv net mail nx)); [by intros H'| | |by apply C1].
    + intros H rfd o p Ho _ Hown. destruct (Hk _ _ _ Hown) as [?|Hm]; [done|].
      exfalso. by eapply Hother.
    + intros q Hq. apply untouched_servers; [done..|]. cbn. intros x Hx.
      destruct (Hnet _ _ Hx) as [?|[E' _]]; [done|]. specialize (F6 j b q Hj Hq). lia.
  - intros H st Hs. destruct (C2 H st Hs) as [S1 S2 S3 S4]. split; try done.
    intros rfd o p Ho. destruct (Hfrom _ _ _ Ho) as [o' Ho']. by eapply S3.
  - intros h x Hx. destruct (Hnet h x Hx) as [Hold|[_ [_ ?]]]; [|done].
    destruct (C3 h x Hold) as [Hp Hr]. split; [done|]. destruct x.2; try done. intros Hal.
    destruct (Hr Hal) as [p Hown]. exists p. by destruct (Hk _ _ _ Hown) as [?|[]].
  - intros h x H st Hx Hs. destruct (Hnet h x Hx) as [Hold|[-> _]]; [by eapply C3'|].
    destruct (srv_bulk (c_srv st) !! nx) as [rs|] eqn:Eb; [|done]. specialize (F4 _ _ _ _ Hs Eb). lia.
  - split; cbn.
    + intros h x Hx. destruct (Hnet h x Hx) as [?%F1|[-> [? _]]]; lia.
    + intros h d ?%F2. lia.
    + intros h d ?%F3. lia.
    + intros H st h rs Hs ?%(F4 _ _ _ _ Hs). lia.
    + intros H st f Hs ?%(F5 _ _ _ Hs). lia.
    + intros j b q. rewrite lookup_insert. case_decide.
      * intros [= <-] Hq. destruct (Hpend q Hq). lia.
      * intros Hj ?%(F6 _ _ _ Hj). lia.
  - intros j k b b' q r. rewrite !lookup_insert. intros Hj Hk' Hq Hr E.
    repeat case_decide; subst; try done; simplify_eq; [| |by eapply C5].
    + destruct (Hpend _ Hr) as [E' _]. specialize (F6 _ _ _ Hj Hq). lia.
    + destruct (Hpend _ Hq) as [E' _]. specialize (F6 _ _ _ Hk' Hr). lia.
Qed.

Context (Hse : forall i, printable (se_addr_buffer (se i))).

(** A call that is not pending. *)
Lemma call_now_result i c x e a c' : lib_ok c -> call_wf x e ->
  lib_call hash (se i) (with_wakes [] e) x c = Ret a c' ->
  a = (plain_call x (cl_os c)).1 /\ after x (cl_os c) (cl_os c') /\ lib_ok c' /\
  now_spec hash c x c'.
Proof using Hse.
  intros Hl [He Hx] Hr.
  destruct (lib_call_effect hash (se i) e c (Hse i) He x Hl) as [(a' & c1 & Hn & Hs & _)|(h & m & c1 & Hb & _)];
    [|congruence].
  rewrite Hn in Hr. injection Hr as -> ->.
  destruct (call_transparent hash (se i) (with_wakes deadline e) x c Hl (Hse i)) as (c2 & H2 & Ho & Hl2).
  { split; [by apply env_ok_wakes|]. pose proof deadline_silent as Hd.
    destruct x as [path|fd count offset buf|fd]; try done.
    - split; [by repeat split|]. by apply (silent_honest [] _ false).
    - destruct Hx as [_ Hoff]. split; [done|]. split; [by apply (silent_honest [] _ false)|].
      intros sl _. by apply silent_honest. }
  rewrite Hn in H2. injection H2 as -> ->. done.
Qed.

Lemma sent_app c c' l : cl_trace c' = cl_trace c ++ l -> sent c c' = l.
Proof. intros H. unfold sent. by rewrite H, drop_app_length. Qed.

Lemma now_tracked x c c' : now_spec hash c x c' -> tracked_after x c c'.
Proof.
  destruct x as [path|fd count offset buf|fd]; cbn; [|by intros (_ & _ & _ & H)|by intros (_ & H & _)].
  intros (_ & (_ & _ & _ & [H|(p & Hd & H & _)]) & Hn); [by left|].
  destruct Hn as [Hn|[n Hn]]; [by left|]. right. by exists p, n.
Qed.

(** The redirections after a call that sent nothing, and after a close. *)
Lemma redirected_kept own srv i c c' : kept c c' -> redirected own srv i c ->
  (forall fd p, fd_map c' !! fd = Some p -> ~ given_up c' (host_for hash c' p) ->
     fd_map c !! fd = Some p /\ forall r, fd_redir_map c !! fd = Some r -> fd_redir_map c' !! fd = Some r) ->
  redirected own srv i c'.
Proof.
  intros Hk Hr Hf fd p Hp Hng Hs. destruct (Hf fd p Hp Hng) as [Hp0 Hrd].
  rewrite (kept_host hash _ _ p Hk) in *. destruct (Hr fd p Hp0) as (rfd & H1 & H2); [|done|].
  - intros Hg. by apply Hng, Hk.
  - exists rfd. split; [by apply Hrd|done].
Qed.

Lemma redirected_now own srv i x c c' : now_spec hash c x c' -> sent c c' = [] ->
  redirected own srv i c -> redirected own srv i c'.
Proof.
  intros Hn Hs Hr. pose proof Hn as [Hk _]. apply (redirected_kept own srv i c c'); [done..|].
  intros fd p Hp Hng. destruct x as [path|fd0 count offset buf|fd0]; cbn in Hn.
  - destruct Hn as (_ & (_ & -> & _ & [E|(q & _ & E & Hg)]) & _); rewrite E in Hp; [by split|].
    apply lookup_insert_Some in Hp as [[<- <-]|[_ Hp]]; [done|by split].
  - destruct Hn as (_ & _ & -> & E). rewrite E in Hp. by split.
  - destruct Hn as (_ & E & [[_ ->]|(q & rank & _ & _ & E' & _)]).
    + rewrite E in Hp. apply lookup_delete_Some in Hp as [_ Hp]. by split.
    + by rewrite (sent_app _ _ _ E') in Hs.
Qed.

(** What a call that does not wait does to the owners. *)
Definition gives_up (i : nat) (x : ro_call) (own own' : owners) : Prop :=
  forall key o p, own !! key = Some (o, p) -> own' !! key = Some (o, p) \/ exists fd, x = XClose fd /\ o = Live i fd.

Lemma now_node_ok own apps srv net mail nx i c hist x c' :
  cluster_ok own (mk_cluster apps srv net mail nx) ->
  apps !! i = Some (mk_node c None hist) ->
  after x (cl_os c) (cl_os c') -> lib_ok c' -> now_spec hash c x c' ->
  exists own', gives_up i x own own' /\
    cluster_ok own' (mk_cluster (<[i := mk_node c' None (hist ++ [(x, (plain_call x (cl_os c)).1)])]> apps) srv
      (post nx (sent c c') net) mail (nx + length (sent c c'))).
Proof.
  intros Hok Hi Ho Hl Hnow. pose proof (cu_app _ _ Hok i _ Hi) as [A1 A2 A3 A4 A5 _]. cbn in A1, A2, A3, A4, A5.
  assert (Hnode : forall own' net' nx', redirected own' srv i c' ->
    node_ok own' (mk_cluster (<[i := mk_node c' None (hist ++ [(x, (plain_call x (cl_os c)).1)])]> apps) srv net' mail nx')
      i (mk_node c' None (hist ++ [(x, (plain_call x (cl_os c)).1)]))).
  { intros own' net' nx' Hred. pose proof Hnow as [Hk _]. split; cbn; try done.
    - apply (mounted_call c); [by eapply call_tree|apply Hk|done].
    - apply (same_files_call x c c'); try done. by apply now_tracked.
    - by apply history_snoc. }
  destruct (sent c c') as [|ev l] eqn:Es.
  - exists own. split; [by left|]. cbn. rewrite Nat.add_0_r. eapply node_step_ok; try done; [apply relabels_refl| |by left].
    apply Hnode. by eapply redirected_now.
  - pose proof Hnow as [Hk Hx].
    destruct x as [path|fd0 count offset buf|fd]; cbn in Hx;
      [destruct Hx as ((E & _) & _)|destruct Hx as (E & _)|destruct Hx as (Hm & [[E _]|Hx])];
      try (rewrite (sent_app c c' []) in Es by (by rewrite app_nil_r); done).
    destruct Hx as (p & rank & Hp & Hng & E & Hrd). rewrite (sent_app _ _ _ E) in Es. injection Es as <- <-.
    set (host := host_for hash c p) in *. cbn. set (rfd := default 0 (fd_redir_map c !! fd)) in *.
    assert (Hown : is_Some (srv !! host) -> own !! (host, rfd) = Some (Live i fd, p)).
    { intros Hs. destruct (A4 fd p Hp Hng Hs) as (r & H1 & H2). unfold rfd. by rewrite H1. }
    set (own' := if decide (is_Some (srv !! host)) then <[(host, rfd) := (Closing nx, p)]> own else own).
    assert (Hrel : relabels apps i own own').
    { unfold own'. case_decide; [|apply relabels_refl]. eapply relabels_insert; [by apply Hown|done]. }
    exists own'. split.
    { intros key o q Hk'. unfold own'. case_decide as Hal; [|by left]. destruct (decide (key = (host, rfd))) as [->|Hne].
      - right. rewrite (Hown Hal) in Hk'. injection Hk' as <- <-. by exists fd.
      - left. by rewrite lookup_insert_ne. }
    eapply node_step_ok; try done; [|lia|].
    + apply Hnode. intros fd' q Hq Hng' Hs. rewrite Hm in Hq. apply lookup_delete_Some in Hq as [Hne Hq].
      rewrite (kept_host hash _ _ q Hk) in *.
      destruct (A4 fd' q Hq) as (r & H1 & H2); [by intros Hg; apply Hng', Hk|done|]. exists r.
      rewrite Hrd, lookup_delete_ne by done. split; [done|].
      destruct (rl_kept _ _ _ _ Hrel _ _ _ H2) as [?|_]; [done|]. unfold own' in *. case_decide as Hal; [|done].
      rewrite lookup_insert_ne; [done|]. intros [= E1 E2]. rewrite <- E1, <- E2, (Hown Hal) in H2. congruence.
    + intros h y. rewrite lookup_insert. case_decide as Eh; [|by left]. intros [= <-]. right. subst h.
      split; [done|]. split; [lia|]. split; [done|]. cbn. intros Hs. exists p. unfold own'.
      rewrite decide_True by done. by rewrite lookup_insert_eq.
Qed.

Lemma now_ok own apps srv net mail nx i c hist x e a c' :
  cluster_ok own (mk_cluster apps srv net mail nx) ->
  apps !! i = Some (mk_node c None hist) -> call_wf x e ->
  lib_call hash (se i) (with_wakes [] e) x c = Ret a c' ->
  exists own', cluster_ok own' (mk_cluster (<[i := mk_node c' None (hist ++ [(x, a)])]> apps) srv
    (post nx (sent c c') net) mail (nx + length (sent c c'))).
Proof using Hse.
  intros Hok Hi Hwf Hr. pose proof (ao_lib _ _ _ _ (cu_app _ _ Hok i _ Hi)) as Hl.
  destruct (call_now_result i c x e a c' Hl Hwf Hr) as (-> & Ho & Hl' & Hnow).
  destruct (now_node_ok own apps srv net mail nx i c hist x c') as (own' & _ & H); try done. by exists own'.
Qed.

(** *** A call that waits *)

(** Nothing is known yet about a handle that is new. *)
Lemma fresh_read_conv own apps srv net mail nx host msg sl :
  fresh_from nx (mk_cluster apps srv net mail nx) -> cluster_ok own (mk_cluster apps srv net mail nx) ->
  read_conv srv (<[nx := (host, msg)]> net) mail nx host msg sl.
Proof.
  intros [F1 F2 F3 F4 F5 F6] Hok. cbn in *. split.
  - intros x. rewrite lookup_insert_eq. by intros [= <-].
  - intros d ?%F2. lia.
  - intros out ?%F3. lia.
  - intros H st rs Hs ?%(F4 _ _ _ _ Hs). lia.
  - intros H st f Hs Hf E. specialize (F5 _ _ _ Hs Hf). lia.
Qed.

Lemma fresh_open_conv own apps srv net mail nx host rank fd p :
  fresh_from nx (mk_cluster apps srv net mail nx) ->
  open_conv own srv (<[nx := (host, ROpen (mk_open_in p rank fd))]> net) mail nx host p.
Proof.
  intros [F1 F2 F3 F4 F5 F6]. cbn in *. split.
  - intros x. rewrite lookup_insert_eq. intros [= <-]. eauto.
  - intros d ?%F2. lia.
  - intros out ?%F3. lia.
  - intros H st Hs. destruct (srv_bulk (c_srv st) !! nx) eqn:E; [|done].
    specialize (F4 _ _ _ _ Hs E). lia.
  - intros H st f Hs Hf E. specialize (F5 _ _ _ Hs Hf). lia.
Qed.

(** The file of a tracked open is one of the servers' files. *)
Lemma tracked_shared c path p n : mounted c -> track_decision c path = Some p ->
  os_files (cl_os c) !! resolve (cl_os c) path = Some n -> exists d, shared p d.
Proof.
  intros Hm Hd Hn. pose proof (track_decision_canon _ _ _ Hd) as E. rewrite <- E in Hn.
  destruct (Hm _ _ _ Hd Hn) as (d & _ & Hs). by exists d.
Qed.

Lemma call_ok own apps srv net mail nx i c hist x e c1 host msg :
  cluster_ok own (mk_cluster apps srv net mail nx) ->
  apps !! i = Some (mk_node c None hist) -> call_wf x e ->
  lib_call hash (se i) (with_wakes [] e) x c = Blocked c1 -> sent c c1 = [CForward host msg] ->
  cluster_ok own (mk_cluster (<[i := mk_node c (Some (mk_pending e x nx host)) hist]> apps) srv
    (post nx (sent c c1) net) mail (nx + 1)).
Proof using Hse.
  intros Hok Hi Hwf Hr Hs. rewrite Hs. cbn. pose proof (cu_app _ _ Hok i _ Hi) as [A1 A2 A3 A4 A5 _].
  cbn in A1, A2, A3, A4, A5. pose proof Hwf as [He Hx].
  destruct (lib_call_effect hash (se i) e c (Hse i) He x A1) as [(a' & c2 & Hn & _)|(h & m & c2 & Hb & Ht & Hw)];
    [by rewrite Hn in Hr|].
  rewrite Hr in Hb. injection Hb as <-. rewrite (sent_app _ _ _ Ht) in Hs. injection Hs as -> ->.
  pose proof (cu_fresh _ _ Hok) as Hfr. cbn in Hfr.
  eapply node_step_ok; try done; [apply relabels_refl| |lia| |].
  - split; cbn; try done. intros q [= <-]. split; [done|]. exists msg. split; [exact Hw|]. cbn [pd_call pd_handle pd_host].
    destruct x as [path|fd count offset buf|fd]; [|intros d Hd; by eapply fresh_read_conv|done].
    intros p Hp. destruct Hw as (p' & rank & n & _ & Hd & _ & _ & -> & _). rewrite Hd in Hp. injection Hp as ->.
    by eapply fresh_open_conv.
  - intros h y. rewrite lookup_insert. case_decide as Eh; [|by left]. intros [= <-]. right. subst h.
    split; [done|]. split; [lia|]. destruct x as [path|fd count offset buf|fd]; [| |done].
    + destruct Hw as (p' & rank & n & Hn & Hd & _ & _ & -> & _). split; [done|]. cbn. by eapply tracked_shared.
    + destruct Hw as (p' & _ & _ & _ & -> & _). split; cbn; [apply Hx|]. rewrite i32_id; [apply Hx|]. unfold in_i32. lia.
  - intros q [= <-]. cbn. split; [done|lia].
Qed.

(** *** ... and returns *)

Lemma shows_honest srv net mail h host msg sl ws p : read_conv srv net mail h host msg sl ->
  shows h mail p ws -> honest sl p ws.
Proof.
  intros Hc. revert p. induction ws as [|w ws IH]; intros p; [done|]. cbn. intros [Hp Hr].
  assert (Hpush : wk_push w = None \/ wk_push w = Some sl).
  { destruct (wk_push w) as [d|]; [right|by left]. f_equal. apply (rc_push _ _ _ _ _ _ _ Hc), Hp. done. }
  split; [done|]. destruct (wk_reply w) as [r|]; [|by apply IH]. destruct Hr as (Hok & Hin & Hno). split; [done|].
  destruct (rc_answer _ _ _ _ _ _ _ Hc _ Hin) as [?|[E Hps]]; [by left|right]. split; [done|].
  destruct (p || _) eqn:Ep; [done|]. by destruct (Hno eq_refl sl).
Qed.

Lemma shows_open_honest own srv net mail h host q ws p : open_conv own srv net mail h host q ->
  shows h mail p ws -> open_honest ws.
Proof.
  intros Hc. revert p. induction ws as [|w ws IH]; intros p; [done|]. cbn. intros [Hp Hr]. split.
  - destruct (wk_push w) as [d|]; [|done]. destruct (oc_push _ _ _ _ _ _ _ Hc d). by apply Hp.
  - destruct (wk_reply w); [by destruct Hr|by eapply IH].
Qed.

Lemma shows_replied h mail ws p r : shows h mail p ws -> replied ws = Some r -> EvRespond h (rp_out r) ∈ mail.
Proof.
  revert p. induction ws as [|w ws IH]; intros p; [done|]. cbn. intros [_ Hr].
  destruct (wk_reply w) as [r'|]; [intros [= <-]; by destruct Hr as (_ & ? & _)|].
  destruct (wk_timedout w); [done|]. by eapply IH.
Qed.

(** A pending call returns what the plain call returns. *)
Lemma call_return_result own s i a q ws : node_ok own s i a -> ap_pending a = Some q ->
  arrives (cu_servers s) (cu_mail s) q ws ->
  exists c', lib_call hash (se i) (with_wakes ws (pd_env q)) (pd_call q) (ap_client a) =
      Ret (plain_call (pd_call q) (cl_os (ap_client a))).1 c' /\
    after (pd_call q) (cl_os (ap_client a)) (cl_os c') /\ lib_ok c' /\
    match pd_call q with
    | XOpen path => exists p n, os_files (cl_os (ap_client a)) !! resolve (cl_os (ap_client a)) path = Some n /\
        track_decision (ap_client a) path = Some p /\ pd_host q = host_for hash (ap_client a) p /\
        ~ given_up (ap_client a) (pd_host q) /\
        open_conv own (cu_servers s) (cu_net s) (cu_mail s) (pd_handle q) (pd_host q) p /\
        open_after (ap_client a) p (opened_fd (ap_client a)) ws c'
    | XPread _ _ _ _ => fd_map c' = fd_map (ap_client a) /\
        fd_redir_map (ap_client a) ⊆ fd_redir_map c' /\ kept (ap_client a) c'
    | XClose _ => False
    end.
Proof using Hse.
  intros [A1 A2 A3 A4 A5 A6] Hq (Hsh & Hen & Hop). destruct (A6 q Hq) as ([He Hx] & msg & Hw & Hc).
  set (c := ap_client a) in *.
  pose proof (call_transparent hash (se i) (with_wakes ws (pd_env q)) (pd_call q) c A1 (Hse i)) as Htr.
  destruct (pd_call q) as [path|fd count offset buf|fd]; [| |done].
  - destruct Hw as (p & rank & n & Hn & Hd & Hh & Hng & Hm & Hall). specialize (Hc p Hd).
    pose proof (shows_open_honest _ _ _ _ _ _ _ _ _ Hc Hsh) as Hon.
    destruct Htr as (c' & Hr & Ho & Hl). { split; [by apply env_ok_wakes|]. by split. }
    exists c'. split; [exact Hr|]. split; [exact Ho|]. split; [exact Hl|].
    destruct (Hall ws Hon Hen) as (a' & c2 & Hr2 & Haft & _). rewrite Hr in Hr2. injection Hr2 as <- <-.
    exists p, n. by split_and!.
  - destruct Hw as (p & Hp & Hh & Hng & Hm & Hall). destruct (A3 fd p Hp) as (d & Hd & Hshared).
    specialize (Hc d Hd). pose proof (shows_honest _ _ _ _ _ _ _ _ _ Hc Hsh) as Hon.
    destruct Htr as (c' & Hr & Ho & Hl).
    { split; [by apply env_ok_wakes|]. destruct Hx as [_ Hoff]. split; [done|]. split; [done|].
      intros sl Hsl. unfold posix_pread in Hsl. fold c in Hd. rewrite Hd in Hsl. cbn [mbind option_bind] in Hsl.
      rewrite (proj2 (Z.ltb_ge offset 0)) in Hsl by done. by injection Hsl as <-. }
    exists c'. split; [exact Hr|]. split; [exact Ho|]. split; [exact Hl|].
    destruct (Hall ws _ Hon Hen) as (a' & c2 & Hr2 & H2 & H3 & H4 & _). rewrite Hr in Hr2. by injection Hr2 as <- <-.
Qed.

(** The redirections after an open that waited. *)
Lemma redirected_opened apps own own' srv mail i c c' q p path ws :
  redirected own srv i c -> open_after c p (opened_fd c) ws c' ->
  pd_host q = host_for hash c p -> pd_call q = XOpen path -> arrives srv mail q ws ->
  relabels apps i own own' ->
  (forall r, replied ws = Some r -> is_Some (srv !! pd_host q) ->
     own' !! (pd_host q, rp_out r) = Some (Live i (opened_fd c), p) /\
     forall fd o, own !! (pd_host q, rp_out r) <> Some (Live i fd, o)) ->
  (forall key v, own !! key = Some v -> own' !! key = Some v \/
     exists r, replied ws = Some r /\ is_Some (srv !! pd_host q) /\ key = (pd_host q, rp_out r)) ->
  redirected own' srv i c'.
Proof.
  intros Hred (Hm & Hr & Hk) Hh Hcall (_ & _ & Harr) Hrel Hnew Hold. rewrite Hcall in Harr.
  intros fd p' Hp Hng Hs. rewrite (kept_host hash _ _ p' Hk) in *. rewrite Hm in Hp. rewrite Hr.
  apply lookup_insert_Some in Hp as [[<- <-]|[Hne Hp]].
  - rewrite <- Hh in *. unfold redir_after. destruct (replied ws) as [r|].
    + exists (rp_out r). rewrite lookup_insert_eq. split; [done|]. by apply Hnew.
    + rewrite Harr in Hs by done. by destruct Hs.
  - destruct (Hred fd p' Hp) as (rfd & H1 & H2); [by intros Hg; apply Hng, Hk|done|].
    exists rfd. split; [unfold redir_after; destruct (replied ws); [by rewrite lookup_insert_ne|done]|].
    destruct (Hold _ _ H2) as [?|(r & Er & Hal & E)]; [done|].
    destruct (Hnew r Er Hal) as [_ Hno]. rewrite E in H2. by destruct (Hno fd p').
Qed.

Lemma return_ok own apps srv net mail nx i c hist q ws a c' :
  cluster_ok own (mk_cluster apps srv net mail nx) ->
  apps !! i = Some (mk_node c (Some q) hist) -> arrives srv mail q ws ->
  lib_call hash (se i) (with_wakes ws (pd_env q)) (pd_call q) c = Ret a c' ->
  exists own', cluster_ok own'
    (mk_cluster (<[i := mk_node c' None (hist ++ [(pd_call q, a)])]> apps) srv net mail nx).
Proof using Hse.
  intros Hok Hi Harr Hr. pose proof (cu_app _ _ Hok i _ Hi) as Hn.
  destruct (call_return_result _ _ _ _ q ws Hn eq_refl Harr) as (c2 & Hr2 & Ho & Hl & Hx).
  cbn [ap_client] in *. rewrite Hr in Hr2. injection Hr2 as -> <-.
  pose proof Hn as [A1 A2 A3 A4 A5 _]. cbn in A1, A2, A3, A4, A5.
  assert (Hnode : forall own', redirected own' srv i c' -> kept c c' -> tracked_after (pd_call q) c c' ->
    node_ok own' (mk_cluster (<[i := mk_node c' None (hist ++ [(pd_call q, (plain_call (pd_call q) (cl_os c)).1)])]> apps)
      srv net mail nx) i (mk_node c' None (hist ++ [(pd_call q, (plain_call (pd_call q) (cl_os c)).1)]))).
  { intros own' Hred Hk Ht. split; cbn; try done.
    - apply (mounted_call c); [by eapply call_tree|apply Hk|done].
    - by apply (same_files_call (pd_call q) c c').
    - by apply history_snoc. }
  destruct (pd_call q) as [path|fd count offset buf|fd] eqn:Ec; [| |done].
  - destruct Hx as (p & n & Hfile & Hd & Hh & Hng & Hc & Haft).
    assert (Hflight : forall r, replied ws = Some r -> is_Some (srv !! pd_host q) ->
      own !! (pd_host q, rp_out r) = Some (Flight (pd_handle q), p)).
    { intros r Er Hs. apply (oc_answer _ _ _ _ _ _ _ Hc); [|done].
      by eapply shows_replied; [apply Harr|]. }
    set (own' := match replied ws with
      | Some r => if decide (is_Some (srv !! pd_host q))
                  then <[(pd_host q, rp_out r) := (Live i (opened_fd c), p)]> own else own
      | None => own end).
    assert (Hrel : relabels apps i own own').
    { unfold own'. destruct (replied ws) as [r|]; [|apply relabels_refl]. case_decide; [|apply relabels_refl].
      eapply relabels_insert; [by apply Hflight|]. intros j b q' Hj Hq E.
      by eapply (cu_distinct _ _ Hok j i b _ q' q). }
    exists own'. eapply node_step_ok; try done; [|by left].
    apply Hnode; [|apply Haft|right; exists p, n; by destruct Haft].
    apply (redirected_opened apps own own' srv mail i c c' q p path ws); try done.
    + intros r Er Hs. unfold own'. rewrite Er, decide_True, lookup_insert_eq by done. split; [done|].
      intros fd o. rewrite (Hflight r Er Hs). by intros [=].
    + intros key v Hv. unfold own'. destruct (replied ws) as [r|] eqn:Er; [|by left]. case_decide; [|by left].
      destruct (decide (key = (pd_host q, rp_out r))) as [->|Hne]; [right; by exists r|left].
      by rewrite lookup_insert_ne.
  - destruct Hx as (Hm & Hsub & Hk). exists own. eapply node_step_ok; try done; [apply relabels_refl| |by left].
    apply Hnode; [|done|done]. apply (redirected_kept own srv i c c'); [done..|].
    intros fd' p Hp _. rewrite Hm in Hp. split; [done|]. intros r Er. by eapply lookup_weaken.
Qed.

(** ** Losses and failures *)

Lemma lose_ok own apps srv net mail nx h :
  cluster_ok own (mk_cluster apps srv net mail nx) -> cluster_ok own (mk_cluster apps srv (delete h net) mail nx).
Proof.
  intros [C1 C2 C3 C3' C4 C5]. assert (Hnet : forall k x, delete h net !! k = Some x -> net !! k = Some x)
    by by intros k x [_ ?]%lookup_delete_Some.
  split; cbn in *; try done.
  - intros i a Hi. apply (node_frame own own (mk_cluster apps srv net mail nx)); [by intros k|by intros k| |by apply C1].
    intros q Hq. apply untouched_servers; [done..|]. apply Hnet.
  - intros k x Hx. by apply C3, Hnet.
  - intros k x H st Hx. by apply (C3' k x), Hnet.
  - destruct C4. split; cbn in *; try done. intros k x Hx. by eapply fr_net0, Hnet.
Qed.

Lemma fail_ok own apps srv net mail nx H :
  cluster_ok own (mk_cluster apps srv net mail nx) -> cluster_ok own (mk_cluster apps (delete H srv) net mail nx).
Proof.
  intros [C1 C2 C3 C3' C4 C5]. assert (Hsrv : forall k x, delete H srv !! k = Some x -> srv !! k = Some x)
    by by intros k x [_ ?]%lookup_delete_Some.
  split; cbn in *; try done.
  - intros i a Hi. apply (node_frame own own (mk_cluster apps srv net mail nx)); [|by intros k| |by apply C1].
    + intros k [st Hk]. exists st. by apply Hsrv.
    + intros q Hq. split; cbn; try done; eauto.
  - intros k st Hk. by apply C2, Hsrv.
  - intros k x Hx. destruct (C3 k x Hx) as [Hp Hr]. split; [done|]. destruct x.2; try done.
    intros [st Hs]. apply Hr. exists st. by apply Hsrv.
  - intros k x H' st Hx Hs. by eapply C3', Hsrv.
  - destruct C4. split; cbn in *; eauto.
Qed.

Lemma cstep_ok own s s' : cluster_ok own s -> cstep hash se nvme s s' -> exists own', cluster_ok own' s'.
Proof using Hse.
  intros Hok Hs. destruct Hs.
  - by eapply now_ok.
  - exists own. by eapply call_ok.
  - by eapply return_ok.
  - eexists. by eapply accept_ok.
  - by eapply work_ok.
  - exists own. by apply lose_ok.
  - exists own. by apply fail_ok.
Qed.

End Invariant.

End ClusterInv.
