(* ===== verification/ClusterProps.v ===== *)
(** * A cluster is transparent

    From the invariant of [ClusterInv]: what the applications of a cluster get,
    and what the servers are asked. *)

From S2P Require Import Prelude CString HexDump Address Posix LogInfo Server ServerSpec ServerProps.
From S2P Require Import DataMover ServerInv ServerThreads ServerWire.
From S2P Require Import Client Wrappers ClientSpec ClientInv ClientProps Transparency ClientWire Cluster ClusterRun ClusterInv.
Import Address Posix LogInfo ServerSpec ServerInv ServerThreads ServerWire.
Import Client Wrappers ClientSpec ClientInv ClientProps Transparency ClientWire Cluster ClusterRun ClusterInv.
Import Server(server, srv_os, srv_bulk, call_ok, addr_ok).

Module ClusterProps.

(** Every application has just started, and so have the servers. *)
Definition cluster_start (apps0 : gmap nat client) (servers0 : gmap Z server) : cluster :=
  mk_cluster ((fun c => mk_node c None []) <$> apps0) (cstart <$> servers0) ∅ [] 0.

Record start_ok (apps0 : gmap nat client) (servers0 : gmap Z server) : Prop := {
  sk_lib : forall i c, apps0 !! i = Some c -> lib_ok c;
  sk_none : forall i c, apps0 !! i = Some c -> fd_map c = ∅;
  sk_mounted : forall i c, apps0 !! i = Some c -> mounted servers0 c;
  sk_server : forall H s, servers0 !! H = Some s -> server_inv s;
  sk_bulk : forall H s, servers0 !! H = Some s -> srv_bulk s = ∅
}.

Section Reachable.
Context (hash : string -> Z) (se : nat -> self_env) (nvme : Z -> string).
Context (apps0 : gmap nat client) (servers0 : gmap Z server).
Context (Hstart : start_ok apps0 servers0) (Hse : forall i, printable (se_addr_buffer (se i))).

Lemma start_node i a : cu_apps (cluster_start apps0 servers0) !! i = Some a ->
  exists c, apps0 !! i = Some c /\ a = mk_node c None [].
Proof. cbn. rewrite lookup_fmap. intros (c & H1 & H2)%fmap_Some. by exists c. Qed.

Lemma start_server H st : cu_servers (cluster_start apps0 servers0) !! H = Some st ->
  exists s, servers0 !! H = Some s /\ st = cstart s.
Proof. cbn. rewrite lookup_fmap. intros (c & H1 & H2)%fmap_Some. by exists c. Qed.

Lemma start_cluster_ok : cluster_ok hash se apps0 servers0 ∅ (cluster_start apps0 servers0).
Proof using Hstart.
  destruct Hstart as [S1 S2 S3 S4 S5]. split.
  - intros i a (c & Hc & ->)%start_node. split; cbn; try by eauto.
    + intros fd p Hp. by rewrite (S2 i c Hc), lookup_empty in Hp.
    + intros fd p Hp. by rewrite (S2 i c Hc), lookup_empty in Hp.
    + exists c. split; [done|]. by apply pr_nil.
  - intros H st (s & Hs & ->)%start_server. split; try done.
    exists s. split; [done|]. by eapply cstart_cinv, S4.
  - intros h x Hx. by apply (lookup_empty_Some h x) in Hx.
  - intros h x H st Hx. by apply (lookup_empty_Some h x) in Hx.
  - split.
    + intros h x Hx. by apply (lookup_empty_Some h x) in Hx.
    + by intros h d Hd%not_elem_of_nil.
    + by intros h d Hd%not_elem_of_nil.
    + intros H st h rs (s & Hs & ->)%start_server. cbn. by rewrite (S5 H s Hs), lookup_empty.
    + by intros H st f (s & Hs & ->)%start_server.
    + by intros i a q (c & Hc & ->)%start_node.
  - by intros i j a b q r (c & Hc & ->)%start_node.
Qed.

Lemma reachable_ok s : rtc (cstep hash se nvme) (cluster_start apps0 servers0) s ->
  exists own, cluster_ok hash se apps0 servers0 own s.
Proof using Hstart Hse.
  intros Hr. assert (H0 : exists own, cluster_ok hash se apps0 servers0 own (cluster_start apps0 servers0))
    by (eexists; apply start_cluster_ok).
  revert H0. induction Hr as [s1|s1 s2 s3 Hs _ IH]; [done|]. intros [own Hok]. apply IH.
  by eapply cstep_ok.
Qed.

End Reachable.

End ClusterProps.
Import ClusterProps.

(** ** A cluster of one application and one server *)

Module ClusterExample.
Import ServerProps.ServerExample ClientExample TransparencyExample.

Definition cu0 : cluster := cluster_start {[0%nat := cl_t]} {[0 := srv0]}.
Definition se0 (i : nat) : self_env := se_t.
Definition nvme0 (H : Z) : string := "/nvme".
Definition buf3 : list byte := [Byte.x00; Byte.x00; Byte.x00].

(** The application opens the file and the server answers; the application asks
    for three bytes at offset 1, and the server pushes them. *)
Definition cu_run (l : list act) (s : cluster) : cluster := default s (exec_all hash0 se0 nvme0 l s).
Definition call_open : act := ACall 0 (XOpen "/pfs/f") (env []).
Definition return_open : act := AReturn 0 [mk_wake None (Some (ok_reply 0)) false].
Definition call_read : act := ACall 0 (XPread 3 3 1 buf3) (env []).
Definition serve_open : list act := [AAccept 0 call0; AHandler 0; AHandler 0; AHandler 0; AHandler 0].
Definition push_bytes : list act := [AAccept 1 call0; AComplete 0 1].

Definition cu1 : cluster := Eval vm_compute in cu_run [call_open] cu0.
Definition cu2 : cluster := Eval vm_compute in cu_run serve_open cu1.
Definition cu3 : cluster := Eval vm_compute in cu_run [return_open] cu2.
Definition cu4 : cluster := Eval vm_compute in cu_run [call_read] cu3.
Definition cu5 : cluster := Eval vm_compute in cu_run push_bytes cu4.

Lemma start_is_ok : start_ok {[0%nat := cl_t]} {[0 := srv0]}.
Proof.
  split.
  - intros i c [_ <-]%lookup_singleton_Some. exact cl_t_ok.
  - by intros i c [_ <-]%lookup_singleton_Some.
  - intros i c [_ <-]%lookup_singleton_Some. intros path p n Ht. cbn.
    rewrite lookup_insert_Some, lookup_singleton_Some. intros [[<- <-]|[_ [<- _]]].
    + exists data. split; [done|]. intros H s [_ <-]%lookup_singleton_Some. by vm_compute.
    + exfalso. unfold track_decision in Ht. apply bind_Some in Ht as (canon & _ & Ht). cbn [cl_t ftc_data_dir] in Ht.
      apply bind_Some in Ht as (t & Hd & Ht). vm_compute in Hd. injection Hd as <-.
      case_match eqn:Ef; [|done]. injection Ht as ->. by vm_compute in Ef.
  - intros H s [_ <-]%lookup_singleton_Some. exact srv0_inv.
  - by intros H s [_ <-]%lookup_singleton_Some.
Qed.

Lemma se0_printable i : printable (se_addr_buffer (se0 i)).
Proof. vm_compute. by eexists. Qed.

Lemma env_wf ws x : match x with XPread _ n o _ => 0 <= n < 2 ^ 31 /\ 0 <= o | _ => True end -> call_wf x (env ws).
Proof. intros Hx. split; [apply env_is_ok|done]. Qed.

Lemma cu1_reached : rtc (cstep hash0 se0 nvme0) cu0 cu1.
Proof. apply rtc_once. eapply (exec_sound _ _ _ call_open); [by apply env_wf|by vm_compute]. Qed.

Lemma cu2_reached : rtc (cstep hash0 se0 nvme0) cu0 cu2.
Proof. etrans; [apply cu1_reached|]. by apply (exec_free _ _ _ serve_open); vm_compute. Qed.

Lemma open_arrives : arrives (cu_servers cu2) (cu_mail cu2) (mk_pending (env []) (XOpen "/pfs/f") 0 0)
  [mk_wake None (Some (ok_reply 0)) false].
Proof.
  split; [|split; [|done]].
  - split; [done|]. split; [apply ok_reply_ok|]. split; [by left|]. by intros _ d [?|?%not_elem_of_nil]%elem_of_cons.
  - left. right. by eexists.
Qed.

Lemma cu4_reached : rtc (cstep hash0 se0 nvme0) cu0 cu4.
Proof.
  etrans; [apply cu2_reached|]. eapply (rtc_l _ _ cu3); [|apply rtc_once].
  - eapply (exec_sound _ _ _ return_open); [exact open_arrives|by vm_compute].
  - eapply (exec_sound _ _ _ call_read); [by apply env_wf|by vm_compute].
Qed.

Lemma cu5_reached : rtc (cstep hash0 se0 nvme0) cu0 cu5.
Proof. etrans; [apply cu4_reached|]. by apply (exec_free _ _ _ push_bytes); vm_compute. Qed.

(** The application that waits for its bytes, and what it gets. *)
Definition node5 : node := Eval vm_compute in default (mk_node cl_t None []) (cu_apps cu5 !! 0%nat).
Definition pending5 : pending := mk_pending (env []) (XPread 3 3 1 buf3) 1 0.
Definition wakes5 : list wake := [mk_wake (Some [Byte.x42; Byte.x43; Byte.x44]) (Some (ok_reply 3)) false].

Lemma node5_at : cu_apps cu5 !! 0%nat = Some node5.
Proof. by vm_compute. Qed.
Lemma node5_waits : ap_pending node5 = Some pending5.
Proof. by vm_compute. Qed.
Lemma plain5 : (plain_call (XPread 3 3 1 buf3) (cl_os (ap_client node5))).1 = (3, [Byte.x42; Byte.x43; Byte.x44]).
Proof. by vm_compute. Qed.

Lemma read_arrives : arrives (cu_servers cu5) (cu_mail cu5) pending5 wakes5.
Proof.
  split; [|split; [|done]].
  - split; [intros d [= <-]; by do 1 right; left|]. split; [apply ok_reply_ok|]. split; [by do 2 right; left|done].
  - left. right. by eexists.
Qed.

End ClusterExample.
Import ClusterExample ClientExample TransparencyExample ServerProps.ServerExample.

(** C1: a cluster is transparent as long as nothing comes too late.  Any number
    of applications open files for reading, read them at offsets and close them,
    with the library, against any number of servers that serve them concurrently,
    copy files to their NVMe meanwhile, and may fail at any moment for good; reads
    and closes may get lost anywhere, and a read may time out at any server.  Two
    events are excluded, because the code does not survive them: an open that
    gets no answer before its deadline from a server that lives, and an answer
    that comes after its call has returned.  In every state the cluster can reach
    without them, every application has got from each of its calls exactly what
    the same calls give on its node without the library, where a descriptor may
    be taken between two calls, as the library does and never gives it back; an
    application that is not waiting can make any further call, and one that waits
    gets the plain result as soon as the wait ends. *)
Theorem cluster_transparent hash se nvme apps0 servers0 s i a :
  start_ok apps0 servers0 -> (forall i, printable (se_addr_buffer (se i))) ->
  rtc (nstep hash se nvme) (cluster_start apps0 servers0, false) (s, false) ->
  cu_apps s !! i = Some a ->
  exists c0, apps0 !! i = Some c0 /\
    plain_run (cl_os c0) (ap_done a) (cl_os (ap_client a)) /\
    match ap_pending a with
    | None => forall x e, call_wf x e ->
        (exists r c', lib_call hash (se i) (with_wakes [] e) x (ap_client a) = Ret r c') \/
        (exists c1 host msg, lib_call hash (se i) (with_wakes [] e) x (ap_client a) = Blocked c1 /\
           sent (ap_client a) c1 = [CForward host msg])
    | Some q => forall ws, arrives (cu_servers s) (cu_mail s) q ws ->
        exists c', lib_call hash (se i) (with_wakes ws (pd_env q)) (pd_call q) (ap_client a) =
          Ret (plain_call (pd_call q) (cl_os (ap_client a))).1 c'
    end.
Proof.
  intros Hst Hse [_ Hr]%nsteps_timely Hi; [|done]. cbn in Hr. destruct (reachable_ok hash se nvme apps0 servers0 Hst Hse s Hr) as [own Hok].
  pose proof (cu_app _ _ _ _ _ _ Hok i a Hi) as Hn. pose proof Hn as [A1 _ _ _ (c0 & H0 & H1) _].
  exists c0. split_and!; [done..|]. destruct (ap_pending a) as [q|] eqn:Eq.
  - intros ws Ha. destruct (call_return_result _ _ _ _ Hse _ _ _ _ _ _ Hn Eq Ha) as (c' & Hc & _). by exists c'.
  - intros x e [He _]. destruct (lib_call_effect hash (se i) e (ap_client a) (Hse i) He x A1)
      as [(r & c' & Hc & _)|(h & m & c1 & Hb & Ht & _)]; [left; by exists r, c'|].
    right. exists c1, h, m. split; [done|]. by apply sent_app.
Qed.

(** C8: requests are well formed as long as nothing comes too late.  In every
    state the cluster can reach while no open misses its deadline at a server
    that lives and no answer comes after its call has returned, each request in
    flight to a server that lives has the types its handler relies on: a read has
    a count that fits [int32_t], an offset that is not the mark of a sequential
    read, and no transfer under way for its handle; a close names a descriptor
    that is open.  So its handler, run on the state of the server, returns: no
    client brings a server down.  (After an open that misses its deadline the
    client closes and reads descriptor 0 of the server.) *)
Theorem cluster_requests_typed hash se nvme apps0 servers0 s h H r st :
  start_ok apps0 servers0 -> (forall i, printable (se_addr_buffer (se i))) ->
  rtc (nstep hash se nvme) (cluster_start apps0 servers0, false) (s, false) ->
  cu_net s !! h = Some (H, r) -> cu_servers s !! H = Some st ->
  positioned r /\ request_ok h r (c_srv st) /\
  forall call, call_ok call -> addr_ok (c_srv st) -> exists s', serve h call r (c_srv st) = Ret 0 s'.
Proof.
  intros Hst Hse [_ Hr]%nsteps_timely Hn Hs; [|done]. cbn in Hr. destruct (reachable_ok hash se nvme apps0 servers0 Hst Hse s Hr) as [own Hok].
  destruct (cu_msg _ _ _ _ _ _ Hok h _ Hn) as [Hp Hm]. cbn in Hp, Hm.
  assert (Hrq : request_ok h r (c_srv st)).
  { destruct r as [i|i|i|i]; try done; cbn.
    - split; [done|]. by eapply (cu_idle _ _ _ _ _ _ Hok).
    - destruct Hm as [p Hown]; [by eexists|].
      by destruct (so_serving _ _ _ _ (cu_srv _ _ _ _ _ _ Hok H st Hs) _ _ _ Hown) as [(_ & ? & _) _]. }
  split; [done|]. split; [done|]. intros call Hc Ha.
  assert (exists s1, serve_spec h r (c_srv st) = Some s1) as [s1 Hspec].
  { destruct r as [i|i|i|i]; cbn; [by eexists| |by eexists|rewrite bool_decide_true by done; by eexists].
    unfold read_spec. rewrite (proj2 (Z.eqb_neq (Server.ri_offset i) (-1))) by (cbn in Hp; lia). case_match; by eexists. }
  destruct (serve_run h call r (c_srv st) s1 Hc Ha Hrq Hspec) as (s2 & H2 & _). by exists s2.
Qed.

(** ** Witnesses *)

(** The open has returned descriptor 3 of the plain run, and the read gets the
    bytes "BCD" of the file. *)
Lemma cluster_transparent_witness :
  rtc (cstep hash0 se0 nvme0) cu0 cu5 /\
  exists c', lib_call hash0 se_t (with_wakes wakes5 (env [])) (XPread 3 3 1 buf3) (ap_client node5) =
    Ret (3, [Byte.x42; Byte.x43; Byte.x44]) c'.
Proof.
  split; [exact cu5_reached|].
  destruct (cluster_transparent hash0 se0 nvme0 _ _ cu5 0 _ start_is_ok se0_printable
    (timely_nsteps _ _ _ _ _ _ cu5_reached) node5_at) as (c0 & _ & _ & H).
  rewrite node5_waits in H. destruct (H _ read_arrives) as (c' & Hc).
  exists c'. cbn [pd_call pending5] in Hc. rewrite plain5 in Hc. exact Hc.
Defined.

(** The read in flight: its handler starts a transfer. *)
Lemma cluster_requests_typed_witness :
  rtc (cstep hash0 se0 nvme0) cu0 cu4 /\
  exists r st s', cu_net cu4 !! 1%nat = Some (0, r) /\ cu_servers cu4 !! 0 = Some st /\
    serve 1 call0 r (c_srv st) = Ret 0 s'.
Proof.
  split; [exact cu4_reached|].
  destruct (cluster_requests_typed hash0 se0 nvme0 _ _ cu4 1 0 _ _ start_is_ok se0_printable
    (timely_nsteps _ _ _ _ _ _ cu4_reached)
    eq_refl eq_refl) as (_ & _ & H).
  destruct (H call0 call0_ok) as [s' Hs]; [by vm_compute; eexists|].
  do 3 eexists. split; [reflexivity|]. split; [reflexivity|exact Hs].
Defined.
