(* ===== verification/Session.v ===== *)
(** * Sessions: sequential reads and seeks

    Applications that also read sequentially and seek ([read], [lseek]), each
    with its client, and the servers they share.  The offset of a tracked file
    is then a state of the server: the client's own descriptor stays where it
    was.  A call is one exchange: the client sends what it sends, the server of
    the path serves it at once and its answer arrives before the deadline; the
    data movers run in between.  [Cluster] has the lost, late and interleaved
    messages, for calls that do not depend on an offset. *)

From S2P Require Import Prelude CString HexDump Address Posix LogInfo Server ServerSpec DataMover.
From S2P Require Import Client Wrappers ClientSpec ClientInv ClientProps Transparency ClientWire Cluster.
Import Address Posix LogInfo ServerSpec DataMover.
Import Client Wrappers ClientSpec ClientInv ClientProps Transparency ClientWire Cluster.
Import Server(event, EvPush, EvRespond, server, hg_call, call_ok).

Module Session.

(** ** The calls, with the library and without *)

Inductive app_call : Type :=
  | SCall (x : ro_call)
  | SRead (fd count : Z) (buf : list byte)
  | SSeek (fd offset whence : Z).

Definition lib_app (hash : string -> Z) (se : self_env) (e : cl_env) (x : app_call) : C answer :=
  match x with
  | SCall x => lib_call hash se e x
  | SRead fd count buf => wrap_read hash fd count buf e
  | SSeek fd offset whence => let* r := wrap_lseek hash fd offset whence e in mret (r, [])
  end.

Definition plain_app (x : app_call) (o : os) : answer * os :=
  match x with
  | SCall x => plain_call x o
  | SRead fd count buf =>
      match posix_read fd count o with
      | (Some d, o') => ((Z.of_nat (length d), write_front d buf), o')
      | (None, o') => ((-1, buf), o')
      end
  | SSeek fd offset whence => let (r, o') := posix_lseek fd offset whence o in ((r, []), o')
  end.

(** The same without the library, on a node where descriptors are taken. *)
Abbreviation after_app := (after_by plain_app).
Abbreviation app_run := (run_by plain_app).

(** Counts and offsets that the requests' 32-bit fields have room for, and an
    offset of the file that fits the answer's. *)
Definition fits (x : app_call) (o : os) : Prop :=
  match x with
  | SCall (XPread _ count offset _) => 0 <= count < 2 ^ 31 /\ 0 <= offset
  | SCall _ => True
  | SRead _ count _ => 0 <= count < 2 ^ 31
  | SSeek fd offset whence => in_i32 offset /\ in_i32 whence /\ in_i32 (posix_lseek fd offset whence o).1
  end.

(** ** One exchange *)

(** What Mercury does on both sides, the spurious wake-ups before the answer and
    the address it names as the answer's sender. *)
Record delivery : Type := mk_delivery {
  dl_env : cl_env; dl_call : hg_call; dl_before : list wake; dl_peer : cbuf
}.

Definition spurious_wake (w : wake) : Prop :=
  wk_push w = None /\ wk_reply w = None /\ wk_timedout w = false.

Record delivery_ok (d : delivery) : Prop := {
  dk_env : env_ok (dl_env d);
  dk_call : call_ok (dl_call d);
  dk_before : Forall spurious_wake (dl_before d);
  dk_peer : printable (dl_peer d)
}.

(** The bytes a server pushed for a request, and the wake-up with its answer. *)
Definition push_of (h : nat) (es : list event) : option (list byte) :=
  head (es ≫= fun e => match e with EvPush h' d => if decide (h = h') then [d] else [] | _ => [] end).

Definition wake_of (peer : cbuf) (h : nat) (es : list event) : option wake :=
  v ← head (responses h es);
  Some (mk_wake (push_of h es) (Some (mk_reply 0 0 v (Some peer) 0 0 0)) false).

(** A server serves one request. *)
Definition serve_at (h : nat) (call : hg_call) (m : cl_event) (srv : gmap Z server)
    : option (gmap Z server * list event) :=
  match m with
  | CForward host msg =>
      s ← srv !! host;
      match serve h call msg s with
      | Ret _ s' => Some (<[host := s']> srv, new_events s s')
      | _ => None
      end
  end.

(** The requests nobody waits for: those of a close. *)
Fixpoint serve_each (h : nat) (call : hg_call) (l : list cl_event) (srv : gmap Z server)
    : option (gmap Z server) :=
  match l with
  | [] => Some srv
  | m :: l' => r ← serve_at h call m srv; serve_each (S h) call l' r.1
  end.

Section Exchange.
Context (hash : string -> Z).

(** The call [x] of a client, from the state [c], on the servers [srv]; [h] is
    the next handle. *)
Definition exchange (d : delivery) (se : self_env) (x : app_call) (c : client) (h : nat)
    (srv : gmap Z server) : option (answer * client * gmap Z server * nat) :=
  match lib_app hash se (with_wakes [] (dl_env d)) x c with
  | Ret a c' =>
      srv' ← serve_each h (dl_call d) (sent c c') srv;
      Some (a, c', srv', (h + length (sent c c'))%nat)
  | Blocked c1 =>
      match sent c c1 with
      | [m] =>
          r ← serve_at h (dl_call d) m srv;
          w ← wake_of (dl_peer d) h r.2;
          match lib_app hash se (with_wakes (dl_before d ++ [w]) (dl_env d)) x c with
          | Ret a c' => Some (a, c', r.1, S h)
          | _ => None
          end
      | _ => None
      end
  | Dies _ _ => None
  end.

(** ** The steps *)

(** The applications, each with its client, the node it would have without the
    library and the calls it has completed; the servers, and the next handle. *)
Record session : Type := mk_session {
  ss_apps : gmap nat (client * os * list (app_call * answer)); ss_servers : gmap Z server; ss_next : nat
}.

Context (se : nat -> self_env) (nvme : Z -> string).

Inductive sstep : session -> session -> Prop :=
  (** an application calls; on the plain node as many descriptors are taken as
      the library takes *)
  | ss_call i c l o x d a c' o' apps srv srv' n n' :
      apps !! i = Some (c, o, l) -> fits x o -> delivery_ok d ->
      exchange d (se i) x c n srv = Some (a, c', srv', n') ->
      after_app x o o' -> dom (os_fds o') = dom (os_fds (cl_os c')) ->
      sstep (mk_session apps srv n) (mk_session (<[i := (c', o', l ++ [(x, a)])]> apps) srv' n')
  (** a data mover copies what is queued *)
  | ss_mover H s s' apps srv n :
      srv !! H = Some s -> mover_round (nvme H) s = Ret tt s' ->
      sstep (mk_session apps srv n) (mk_session apps (<[H := s']> srv) n).

End Exchange.

End Session.
