(* ===== verification/SessionServer.v ===== *)
(** * A server in a session

    What the requests do to the descriptors a server has open for its clients:
    each request touches the descriptor it names, reads and seeks as the calls
    of [Posix] do on the same bytes from the same offset, and leaves the other
    descriptors where they are; the data mover leaves all of them. *)

From S2P Require Import Prelude CString HexDump Address Posix LogInfo Server ServerSpec ServerProps.
From S2P Require Import DataMover ServerInv.
From S2P Require Import Session ClusterInv.
Import Address Posix LogInfo Server ServerSpec DataMover ServerInv Session.
Import ClusterInv(shared, mounted).

Module SessionServer.

(** ** Reading and seeking, as functions of the bytes and the offset *)

Definition read_at (d : list byte) (off count : Z) : list byte := zslice d off (Z.min count MAX_RW_COUNT).

(** The result of a seek, and the offset it leaves. *)
Definition seek_to (d : list byte) (off offset whence : Z) : Z * Z :=
  let base := if whence =? SEEK_SET then Some 0
              else if whence =? SEEK_CUR then Some off
              else if whence =? SEEK_END then Some (Z.of_nat (length d))
              else None in
  match base with
  | Some b => if b + offset <? 0 then (-1, off) else (b + offset, b + offset)
  | None => (-1, off)
  end.

Lemma posix_read_at fd count f d o : os_fds o !! fd = Some f -> readable o fd = Some d ->
  posix_read fd count o = (Some (read_at d (of_off f) count),
    set_fds (<[fd := set_off (of_off f + Z.of_nat (length (read_at d (of_off f) count))) f]> (os_fds o)) o).
Proof. intros Hf Hd. unfold posix_read. by rewrite Hf, Hd. Qed.

Lemma set_off_same f : set_off (of_off f) f = f.
Proof. by destruct f. Qed.

Lemma set_fds_same o : set_fds (os_fds o) o = o.
Proof. by destruct o. Qed.

Lemma posix_lseek_to fd offset whence f d o : os_fds o !! fd = Some f -> readable o fd = Some d ->
  posix_lseek fd offset whence o = ((seek_to d (of_off f) offset whence).1,
    set_fds (<[fd := set_off (seek_to d (of_off f) offset whence).2 f]> (os_fds o)) o).
Proof.
  intros Hf Hd. unfold readable in Hd. rewrite Hf in Hd. cbn [mbind option_bind] in Hd.
  assert (Hn : os_nodes o !! of_node f = Some d) by (by case_match).
  unfold posix_lseek, seek_base, seek_to. rewrite Hf, Hn.
  assert (Hsame : o = set_fds (<[fd := set_off (of_off f) f]> (os_fds o)) o)
    by (by rewrite set_off_same, insert_id, set_fds_same).
  destruct (whence =? SEEK_SET); [|destruct (whence =? SEEK_CUR); [|destruct (whence =? SEEK_END)]];
    cbn [fmap option_fmap option_map];
    try match goal with |- context [?b <? 0] => destruct (b <? 0) end; cbn [fst snd]; by rewrite <- ?Hsame.
Qed.

(** ** The descriptors of a server *)

(** Descriptor [rfd] is open for the file [p], at [off]. *)
Definition holds (s : server) (rfd : Z) (p : string) (off : Z) : Prop :=
  fd_to_path s !! rfd = Some p /\ exists f, os_fds (srv_os s) !! rfd = Some f /\ of_off f = off.

(** The other descriptors are as they were. *)
Definition touches (rfd : Z) (s s' : server) : Prop :=
  forall r q off, r <> rfd -> holds s r q off -> holds s' r q off.

Lemma holds_offset s rfd p off off' : holds s rfd p off -> holds s rfd p off' -> off = off'.
Proof. intros [_ (f & Hf & <-)] [_ (g & Hg & <-)]. congruence. Qed.

(** A state whose descriptors and paths are those of another. *)
Record same_open (s s' : server) : Prop := {
  sm_fds : os_fds (srv_os s') = os_fds (srv_os s);
  sm_paths : fd_to_path s' = fd_to_path s;
  sm_addr : server_addr_str s' = server_addr_str s;
  sm_bulk : srv_bulk s' = srv_bulk s
}.

Lemma holds_same s s' rfd p off : same_open s s' -> holds s rfd p off -> holds s' rfd p off.
Proof. intros [H1 H2 _ _]. unfold holds. by rewrite H1, H2. Qed.

Section Good.
Context (servers0 : gmap Z server).
#[local] Abbreviation shared := (shared servers0).

(** A server between two requests. *)
Record srv_good (H : Z) (s : server) : Prop := {
  sg_from : exists s0, servers0 !! H = Some s0 /\ os_bad (srv_os s0) = ∅ /\ inv_from (srv_os s0) [] s;
  sg_addr : addr_ok s;
  sg_bulk : srv_bulk s = ∅
}.

Lemma good_file H s p d : srv_good H s -> shared p d -> file_at (srv_os s) p = Some d.
Proof. intros [(s0 & H0 & _ & [_ He _]) _ _] Hs. by eapply ext_file_at, Hs. Qed.

Lemma good_bad H s : srv_good H s -> os_bad (srv_os s) = ∅.
Proof. intros [(s0 & _ & Hb & [_ [_ _ _ E] _]) _ _]. by rewrite E. Qed.

Lemma holds_readable H s rfd p off d : srv_good H s -> shared p d -> holds s rfd p off ->
  readable (srv_os s) rfd = Some d.
Proof.
  intros Hg Hs [Hp (f & Hf & _)]. pose proof Hg as [(s0 & _ & _ & [[_ _ Hfd] _ _]) _ _].
  destruct (Hfd rfd p f Hp Hf) as [Hn Hr]. unfold readable. rewrite Hf. cbn [mbind option_bind].
  rewrite Hr, (good_bad _ _ Hg), bool_decide_true by set_solver. cbn. by rewrite Hn, (good_file _ _ _ _ Hg Hs).
Qed.

(** A request leaves a good server when the fields of no interest stay. *)
Lemma served_good H s h call r v s' : srv_good H s -> serve h call r s = Ret v s' ->
  server_addr_str s' = server_addr_str s -> srv_bulk s' = ∅ -> srv_good H s'.
Proof.
  intros [(s0 & H0 & Hb & Hi) Ha _] Hs Ea Eb. split; [|by unfold addr_ok; rewrite Ea|done].
  exists s0. split_and!; try done. by eapply inv_serve.
Qed.

(** ** Opens *)

Lemma serve_open_holds H s h call p rank fd d : srv_good H s -> call_ok call -> shared p d ->
  exists s' rfd, serve h call (ROpen (mk_open_in p rank fd)) s = Ret 0 s' /\
    new_events s s' = [EvRespond h rfd] /\ srv_good H s' /\
    (forall q off, ~ holds s rfd q off) /\ holds s' rfd p 0 /\ touches rfd s s'.
Proof.
  intros Hg Hc Hs. destruct (open_events h call (mk_open_in p rank fd) s Hc (sg_addr _ _ Hg))
    as (s' & Hrun & Hl & Hev). cbn [oi_path] in Hev.
  assert (Hfile : exists n, os_files (srv_os s) !! resolve (srv_os s) (served_path s p) = Some n).
  { assert (exists d', file_at (srv_os s) (served_path s p) = Some d') as [d' Hd].
    { unfold served_path. destruct (path_cache_map s !! p) as [q|] eqn:E; cbn [default].
      - destruct Hg as [(s0 & _ & _ & [[_ Hc' _] _ _]) _ _]. destruct (Hc' _ _ E) as (d' & _ & ?). by exists d'.
      - exists d. by eapply good_file. }
    unfold file_at, content in Hd. apply bind_Some in Hd as (n & Hn & _). by exists n. }
  destruct Hfile as [n Hn]. destruct Hl as [t ->]. rewrite posix_open_rdonly, Hn in Hev. cbn [fst] in Hev.
  set (rfd := lowest_fd (os_fds (srv_os s))) in *.
  destruct (lowest_fd_free (os_fds (srv_os s))) as [Hfree _]. fold rfd in Hfree.
  set (s' := set_os _ _) in *.
  assert (Hfds : os_fds (srv_os s') = <[rfd := OFile n 0 true false false]> (os_fds (srv_os s))).
  { unfold s', open_spec. cbn. by rewrite posix_open_rdonly, Hn. }
  assert (Hpaths : fd_to_path s' = <[rfd := p]> (fd_to_path s)).
  { unfold s', open_spec. cbn. by rewrite posix_open_rdonly, Hn. }
  exists s', rfd. split_and!; try done.
  - eapply served_good; [exact Hg|exact Hrun|done|]. exact (sg_bulk _ _ Hg).
  - intros q off [_ (f & Hf & _)]. congruence.
  - split; [by rewrite Hpaths, lookup_insert_eq|]. eexists. by rewrite Hfds, lookup_insert_eq.
  - intros r q off Hne [H1 H2]. unfold holds. by rewrite Hpaths, Hfds, !lookup_insert_ne.
Qed.

(** ** Reads and seeks *)

Lemma set_off_touches rfd off f s s' : os_fds (srv_os s) !! rfd = Some f -> fd_to_path s' = fd_to_path s ->
  os_fds (srv_os s') = <[rfd := set_off off f]> (os_fds (srv_os s)) ->
  touches rfd s s' /\ forall p o, holds s rfd p o -> holds s' rfd p off.
Proof.
  intros Hf Hp Hfds. split.
  - intros r q o Hne [H1 H2]. unfold holds. by rewrite Hp, Hfds, lookup_insert_ne.
  - intros p o [H1 _]. split; [by rewrite Hp|]. eexists. by rewrite Hfds, lookup_insert_eq.
Qed.

Lemma set_off_readable rfd off f o : os_fds o !! rfd = Some f ->
  forall r, readable (set_fds (<[rfd := set_off off f]> (os_fds o)) o) r = readable o r.
Proof.
  intros Hf r. unfold readable. cbn. destruct (decide (r = rfd)) as [->|Hne].
  - by rewrite lookup_insert_eq, Hf.
  - by rewrite lookup_insert_ne.
Qed.

Definition read_events (h : nat) (sl : list byte) : list event :=
  [EvAlloc h RState; EvAlloc h RBuffer; EvAlloc h RBulk; EvPush h sl; EvRespond h (Z.of_nat (length sl));
   EvFree h RBulk; EvFree h RHandle; EvFree h RBuffer; EvFree h RState].

Lemma delivered_good H s h call i sl o s' : srv_good H s -> serve h call (RRead i) s = Ret 0 s' ->
  logs_only (delivered h sl o s) s' ->
  new_events s s' = read_events h sl /\ srv_good H s' /\ fd_to_path s' = fd_to_path s /\ os_fds (srv_os s') = os_fds o.
Proof.
  intros Hg Hrun [t ->]. split_and!; try done.
  - by apply new_events_app.
  - eapply served_good; [done..|]. cbn. by rewrite (sg_bulk _ _ Hg), delete_empty.
Qed.

Lemma serve_sread_holds H s h call rfd p off d count lfd rank : srv_good H s -> call_ok call -> shared p d ->
  holds s rfd p off -> 0 <= count < 2 ^ 31 ->
  let sl := read_at d off count in
  exists s', serve h call (RRead (mk_rpc_in count rfd lfd (-1) rank)) s = Ret 0 s' /\
    new_events s s' = read_events h sl /\ srv_good H s' /\
    holds s' rfd p (off + Z.of_nat (length sl)) /\ touches rfd s s'.
Proof.
  intros Hg Hc Hs Hh Hcount sl. pose proof (holds_readable _ _ _ _ _ _ Hg Hs Hh) as Hd.
  destruct Hh as [Hp (f & Hf & Ho)] eqn:E. clear E. subst off.
  destruct (read_delivers h call (mk_rpc_in count rfd lfd (-1) rank) s d f) as (s' & Hrun & _ & Hl);
    try done; [apply Hg|by rewrite (sg_bulk _ _ Hg)|]. cbn [ri_accessfd ri_input_val] in Hl.
  destruct (delivered_good _ _ _ _ _ _ _ _ Hg Hrun Hl) as (Hev & Hg' & Hpaths & Hfds).
  destruct (set_off_touches rfd _ f s s' Hf Hpaths Hfds) as [Ht Hh'].
  exists s'. split_and!; try done. eapply Hh'. by split; [|exists f].
Qed.

Lemma serve_pread_holds H s h call rfd p off d count offset lfd rank : srv_good H s -> call_ok call -> shared p d ->
  holds s rfd p off -> 0 <= count < 2 ^ 31 -> 0 <= offset ->
  exists s', serve h call (RRead (mk_rpc_in count rfd lfd offset rank)) s = Ret 0 s' /\
    new_events s s' = read_events h (read_at d offset count) /\ srv_good H s' /\
    holds s' rfd p off /\ touches rfd s s'.
Proof.
  intros Hg Hc Hs Hh Hcount Hoff. pose proof (holds_readable _ _ _ _ _ _ Hg Hs Hh) as Hd.
  destruct (pread_delivers h call (mk_rpc_in count rfd lfd offset rank) s d) as (s' & Hrun & _ & _ & Hl);
    try done; [apply Hg|by rewrite (sg_bulk _ _ Hg)|]. cbn [ri_offset ri_input_val] in Hl.
  destruct (delivered_good _ _ _ _ _ _ _ _ Hg Hrun Hl) as (Hev & Hg' & Hpaths & Hfds).
  assert (Hsame : forall r q o, holds s r q o -> holds s' r q o)
    by (intros r q o; unfold holds; by rewrite Hpaths, Hfds).
  exists s'. split_and!; try done; [by apply Hsame|]. intros r q o _. apply Hsame.
Qed.

Lemma serve_seek_holds H s h call rfd p off d offset whence : srv_good H s -> call_ok call -> shared p d ->
  holds s rfd p off ->
  exists s', serve h call (RSeek (mk_seek_in rfd offset whence)) s = Ret 0 s' /\
    new_events s s' = [EvRespond h (i32 (seek_to d off offset whence).1)] /\ srv_good H s' /\
    holds s' rfd p (seek_to d off offset whence).2 /\ touches rfd s s'.
Proof.
  intros Hg Hc Hs Hh. pose proof (holds_readable _ _ _ _ _ _ Hg Hs Hh) as Hd.
  destruct Hh as [Hp (f & Hf & Ho)] eqn:E. clear E. subst off.
  pose proof (seek_run h call (mk_seek_in rfd offset whence) s Hc) as Hrun.
  unfold seek_spec in Hrun. cbn [si_fd si_offset si_whence] in Hrun.
  rewrite (posix_lseek_to _ _ _ _ _ _ Hf Hd) in Hrun. cbn [fst snd] in Hrun.
  set (s' := emit_event _ _) in Hrun. change (serve h call (RSeek (mk_seek_in rfd offset whence)) s = Ret 0 s') in Hrun.
  destruct (set_off_touches rfd (seek_to d (of_off f) offset whence).2 f s s' Hf) as [Ht Hh']; [done..|].
  exists s'. split_and!; try done.
  - by apply new_events_app.
  - eapply served_good; [done|exact Hrun|done|]. exact (sg_bulk _ _ Hg).
  - eapply Hh'. by split; [|exists f].
Qed.

(** ** Closes *)

Lemma serve_close_holds H s h call rfd p off rank : srv_good H s -> call_ok call -> holds s rfd p off ->
  exists s', serve h call (RClose (mk_close_in rfd rank)) s = Ret 0 s' /\ srv_good H s' /\ touches rfd s s'.
Proof.
  intros Hg Hc [Hp (f & Hf & _)].
  destruct (close_run h call (mk_close_in rfd rank) s Hc (sg_addr _ _ Hg)) as (s' & Hrun & Hl); [by exists f|].
  change (serve h call (RClose (mk_close_in rfd rank)) s = Ret 0 s') in Hrun.
  apply logs_only_fields in Hl as (_ & Hpaths & _ & _ & Hbulk & Haddr & Hfds & _).
  assert (Hspec : fd_to_path (close_spec (mk_close_in rfd rank) s) = delete rfd (fd_to_path s) /\
    srv_bulk (close_spec (mk_close_in rfd rank) s) = srv_bulk s /\
    server_addr_str (close_spec (mk_close_in rfd rank) s) = server_addr_str s /\
    os_fds (srv_os (close_spec (mk_close_in rfd rank) s)) = delete rfd (os_fds (srv_os s)))
    by (unfold close_spec; by case_match).
  destruct Hspec as (P1 & P2 & P3 & P4). exists s'. split_and!; try done.
  - eapply served_good; [done|exact Hrun|congruence|]. rewrite Hbulk, P2. apply Hg.
  - intros r q o Hne [H1 H2]. unfold holds. by rewrite Hpaths, P1, Hfds, P4, !lookup_delete_ne.
Qed.

(** ** The data mover *)

#[local] Lemma same_open_os s0 s o : os_fds o = os_fds (srv_os s) -> same_open s0 s -> same_open s0 (set_os o s).
Proof. intros Ho [H1 H2 H3 H4]. by split; [rewrite <- H1|..]. Qed.

Lemma mover_file_same s0 nvme p : preserves (same_open s0) (mover_file nvme p).
Proof.
  intros s u s' Hs Hr. unfold mover_file in Hr. apply bind_inv in Hr as (r & s1 & H1 & Hr).
  destruct (mover_copy_run nvme p s) as (r' & o & H1' & _ & Ho & _). rewrite H1 in H1'. simplify_eq.
  pose proof (same_open_os s0 s o Ho Hs) as Hs1. destruct r' as [f|]; unfold mover_publish in Hr; mred_in Hr; simplify_eq.
  - by destruct Hs1.
  - done.
Qed.

Lemma mover_files_same s0 nvme l : preserves (same_open s0) (mover_files nvme l).
Proof.
  induction l as [|p l IH]; simpl; [apply preserves_ret|]. by apply preserves_bind; [apply mover_file_same|].
Qed.

Lemma mover_round_same nvme s s' : mover_round nvme s = Ret tt s' -> same_open s s'.
Proof.
  unfold mover_round, mover_drain. intros Hr. mred_in Hr. destruct (data_queue s) eqn:Eq; [done|]. cbn [app] in Hr.
  eapply (mover_files_same s); [|exact Hr]. by split.
Qed.

Lemma mover_good H nvme s s' : srv_good H s -> mover_round nvme s = Ret tt s' ->
  srv_good H s' /\ forall rfd p off, holds s rfd p off -> holds s' rfd p off.
Proof.
  intros Hg Hr. pose proof (mover_round_same _ _ _ Hr) as Hs. split; [|intros rfd p off; by apply holds_same].
  destruct Hg as [(s0 & H0 & Hb & Hi) Ha Hk]. pose proof Hs as [_ _ E1 E2]. split.
  - exists s0. split_and!; try done. by eapply inv_mover_round.
  - unfold addr_ok. by rewrite E1.
  - by rewrite E2.
Qed.

End Good.

End SessionServer.
