(* ===== verification/SessionInv.v ===== *)
(** * The invariant of a session

    The node of an application and the node it would have without the library
    differ in the offsets of the tracked descriptors only ([moved]); the offset
    of a tracked file is that of the descriptor the server keeps for it
    ([bound]).  Every call keeps this, and returns what the plain call returns. *)

From S2P Require Import Prelude CString HexDump Address Posix LogInfo Server ServerSpec ServerProps.
From S2P Require Import DataMover ServerInv.
From S2P Require Import Client Wrappers ClientSpec ClientInv ClientProps Transparency ClientWire Cluster ClusterInv.
From S2P Require Import Session SessionServer.
Import Address Posix LogInfo Client Wrappers ClientSpec ClientInv ClientProps Transparency ClientWire.
Import Cluster(sent).
Import ClusterInv(lib_ok_same, lib_ok_text, tracked_open, shared, mounted, mounted_call, tree, like_tree,
  plain_call_tree, track_decision_tree, tracked_shared, sent_app).
Import ServerSpec(rpc, ROpen, RRead, RSeek, RClose, serve, new_events, responses, posix_read_short).
Import Server(event, EvPush, EvRespond, server, srv_os, call_ok, mk_open_in, mk_rpc_in, mk_seek_in, mk_close_in).
Import Session SessionServer.

Module SessionInv.

(** ** Two nodes that differ in offsets *)

(** [o'] is [o] but for the text files and the offsets of tracked descriptors. *)
Definition moved (T : gmap Z string) (o o' : os) : Prop :=
  exists t fds, o' = set_text t (set_fds fds o) /\
    forall fd, fds !! fd = os_fds o !! fd \/
      (is_Some (T !! fd) /\ exists f off, os_fds o !! fd = Some f /\ fds !! fd = Some (set_off off f)).

Lemma moved_refl T o : moved T o o.
Proof. exists (os_text o), (os_fds o). split; [by destruct o|]. by left. Qed.

Lemma moved_text T t t' o o' : moved T o o' -> moved T (set_text t o) (set_text t' o').
Proof. intros (t0 & fds & -> & H). by exists t', fds. Qed.

Lemma moved_untracked T o o' fd : moved T o o' -> T !! fd = None -> os_fds o' !! fd = os_fds o !! fd.
Proof. intros (t & fds & -> & H) Hn. cbn. destruct (H fd) as [E|[[q E] _]]; congruence. Qed.

Lemma moved_none T o o' fd : moved T o o' -> os_fds o' !! fd = None <-> os_fds o !! fd = None.
Proof.
  intros (t & fds & -> & H). cbn. destruct (H fd) as [->|(_ & f & off & -> & ->)]; [done|]. naive_solver.
Qed.

Lemma moved_readable T o o' fd : moved T o o' -> readable o' fd = readable o fd.
Proof.
  intros (t & fds & -> & H). unfold readable. cbn.
  by destruct (H fd) as [->|(_ & f & off & -> & ->)].
Qed.

Lemma moved_lowest T o o' : moved T o o' -> lowest_fd (os_fds o') = lowest_fd (os_fds o).
Proof. intros H. apply lowest_fd_same. intros fd. by eapply moved_none. Qed.

Lemma moved_tree T o o' : moved T o o' -> tree o' = tree o /\ os_bad o' = os_bad o.
Proof. by intros (t & fds & -> & _). Qed.

(** The same change of one descriptor on both nodes. *)
Lemma moved_insert T T' o o' fd f : moved T o o' -> (forall i, i <> fd -> T' !! i = T !! i) ->
  moved T' (set_fds (<[fd := f]> (os_fds o)) o) (set_fds (<[fd := f]> (os_fds o')) o').
Proof.
  intros (t & fds & -> & H) HT. exists t, (<[fd := f]> fds). split; [done|]. intros i. cbn.
  destruct (decide (i = fd)) as [->|Hne]; [left; by rewrite !lookup_insert_eq|].
  rewrite !lookup_insert_ne, HT by done. apply H.
Qed.

(** The library takes descriptors on one node; somebody takes as many on the
    other. *)
Lemma moved_patched T p q o o' : moved T o o' -> p.2 = q.2 -> moved T (patched p o) (patched q o').
Proof.
  intros Hm E. unfold patched. rewrite E. apply moved_text. clear E. revert o o' Hm.
  induction q.2 as [|n IH]; intros o o' Hm; [by destruct o, o'|]. rewrite !taken_fds_S. unfold take_fd.
  pose proof (IH _ _ Hm) as H. pose proof (moved_lowest _ _ _ H) as E. cbn [set_fds os_fds] in E. rewrite E.
  apply (moved_insert T T _ _ (lowest_fd (taken_fds n (os_fds o))) stream H). done.
Qed.

Lemma moved_delete T o o' fd : moved T o o' ->
  moved (delete fd T) (set_fds (delete fd (os_fds o)) o) (set_fds (delete fd (os_fds o')) o').
Proof.
  intros (t & fds & -> & H). exists t, (delete fd fds). split; [done|]. intros i. cbn.
  destruct (decide (i = fd)) as [->|Hne]; [left; by rewrite !lookup_delete_eq|].
  rewrite !lookup_delete_ne by done. apply H.
Qed.

(** The offset of a tracked descriptor moves on the plain node only. *)
Lemma moved_offset T o o' fd f off : moved T o o' -> is_Some (T !! fd) -> os_fds o !! fd = Some f ->
  moved T (set_fds (<[fd := set_off off f]> (os_fds o)) o) o'.
Proof.
  intros (t & fds & -> & H) Ht Hf. exists t, fds. split; [done|]. intros i. cbn.
  destruct (decide (i = fd)) as [->|Hne]; [|by rewrite !lookup_insert_ne].
  right. split; [done|]. rewrite lookup_insert_eq. exists (set_off off f).
  destruct (H fd) as [E|(_ & g & off' & Hg & E)].
  - exists (of_off f). split; [done|]. rewrite E, Hf. by destruct f.
  - exists off'. split; [done|]. rewrite E. rewrite Hf in Hg. by injection Hg as <-.
Qed.

(** What a call makes of the table of tracked descriptors. *)
Definition tracks (x : ro_call) (T T' : gmap Z string) (o : os) : Prop :=
  match x with
  | XOpen path => T' = T \/
      exists p n, os_files o !! resolve o path = Some n /\ T' = <[lowest_fd (os_fds o) := p]> T
  | XPread _ _ _ _ => T' = T
  | XClose fd => T' = delete fd T
  end.

Lemma plain_call_moved x T T' o o' : moved T o o' -> tracks x T T' o ->
  (forall fd, os_fds o !! fd = None -> T !! fd = None) ->
  (plain_call x o').1 = (plain_call x o).1 /\ moved T' (plain_call x o).2 (plain_call x o').2.
Proof.
  intros Hm Ht Hn. destruct (moved_tree _ _ _ Hm) as [[= E1 E2 E3 E4 E5] _].
  destruct x as [path|fd count offset buf|fd]; cbn in *.
  - rewrite !posix_open_rdonly. unfold resolve in *. rewrite E3, E1.
    destruct (os_files o !! default path (os_links o !! path)) as [n|]; cbn.
    + rewrite (moved_lowest _ _ _ Hm). split; [done|]. eapply moved_insert; [exact Hm|]. intros i Hi.
      destruct Ht as [->|(p & n' & _ & ->)]; [done|by apply lookup_insert_ne].
    + by destruct Ht as [->|(p & n' & ? & _)].
  - subst T'. unfold posix_pread. rewrite (moved_readable _ _ _ fd Hm).
    by destruct (readable o fd); cbn; [case_match|].
  - subst T'. unfold posix_close. pose proof (moved_none _ _ _ fd Hm) as Hnone.
    destruct (os_fds o !! fd) as [f|] eqn:Ef.
    + destruct (os_fds o' !! fd) as [f'|] eqn:Ef'; [|naive_solver]. split; [done|]. by apply moved_delete.
    + rewrite (proj2 Hnone) by done. split; [done|]. cbn. by rewrite delete_id by (by apply Hn).
Qed.

(** The same while the library takes descriptors. *)
Lemma after_moved x T T' o o' q' : moved T o o' -> tracks x T T' o ->
  (forall fd, os_fds o !! fd = None -> T !! fd = None) -> after x o' q' ->
  (plain_call x o').1 = (plain_call x o).1 /\ exists q, after x o q /\ moved T' q q'.
Proof.
  intros Hm Ht Hn (_ & [p ->] & Hr & [r ->]). destruct (plain_call_moved x T T' o o' Hm Ht Hn) as [Ha _].
  split; [done|]. set (o1 := patched (os_text o, p.2) o).
  pose proof (moved_patched T (os_text o, p.2) p o o' Hm eq_refl) as Hm1. fold o1 in Hm1.
  assert (Hn1 : forall fd, os_fds o1 !! fd = None -> T !! fd = None).
  { intros fd H1. apply Hn. destruct (os_fds o !! fd) as [f|] eqn:E; [|done].
    change (taken_fds p.2 (os_fds o) !! fd = None) in H1. by rewrite (taken_fds_lookup p.2 _ _ _ E) in H1. }
  assert (Ht1 : tracks x T T' o1).
  { destruct x as [path| |]; [|done..]. destruct Ht as [?|(q & n & Hq & HT)]; [by left|right].
    exists q, n. split; [exact Hq|]. rewrite HT. f_equal.
    pose proof (moved_tree _ _ _ Hm) as [[= E1 E2 E3 E4 E5] _]. cbn [plain_call] in Hr.
    rewrite !posix_open_rdonly in Hr. unfold resolve in Hq, Hr. cbn [patched set_text set_fds os_files os_links] in Hr.
    rewrite E3, E1, Hq in Hr. cbn in Hr. injection Hr as Hr. rewrite <- (moved_lowest _ _ _ Hm), <- Hr.
    exact (moved_lowest _ _ _ Hm1). }
  destruct (plain_call_moved x T T' o1 (patched p o') Hm1 Ht1 Hn1) as [Ha1 Hm2].
  exists (patched (os_text o, r.2) (plain_call x o1).2). split; [|by apply moved_patched].
  exists o1. split; [apply os_like_patched|]. split; [congruence|apply os_like_patched].
Qed.

(** Reads and seeks of a descriptor that is not tracked. *)
Lemma posix_read_moved T o o' fd count : moved T o o' -> T !! fd = None ->
  (posix_read fd count o').1 = (posix_read fd count o).1 /\ moved T (posix_read fd count o).2 (posix_read fd count o').2.
Proof.
  intros Hm Hn. unfold posix_read. rewrite (moved_untracked _ _ _ _ Hm Hn), (moved_readable _ _ _ fd Hm).
  destruct (os_fds o !! fd) as [f|], (readable o fd) as [d|]; try done. split; [done|]. by eapply moved_insert.
Qed.

Lemma posix_lseek_moved T o o' fd offset whence : moved T o o' -> T !! fd = None ->
  (posix_lseek fd offset whence o').1 = (posix_lseek fd offset whence o).1 /\
  moved T (posix_lseek fd offset whence o).2 (posix_lseek fd offset whence o').2.
Proof.
  intros Hm Hn. destruct (moved_tree _ _ _ Hm) as [[= _ _ _ E4 _] _].
  unfold posix_lseek, seek_base. rewrite (moved_untracked _ _ _ _ Hm Hn), E4.
  destruct (os_fds o !! fd) as [f|]; [|done]. destruct (if whence =? SEEK_SET then _ else _) as [b|]; [|done].
  case_match; [done|]. split; [done|]. by eapply moved_insert.
Qed.

(** *** The plain node after a call is determined by its descriptors *)

(** What was open stays, and what is new is a stream. *)
Definition grown (o o' : os) : Prop :=
  exists t fds, o' = set_text t (set_fds fds o) /\
    (forall fd f, os_fds o !! fd = Some f -> fds !! fd = Some f) /\
    (forall fd f, fds !! fd = Some f -> os_fds o !! fd = Some f \/ f = stream).

#[export] Instance grown_preorder : PreOrder grown.
Proof.
  split.
  - intros o. exists (os_text o), (os_fds o). split_and!; [by destruct o|done|by left].
  - intros o _ _ (t1 & fds1 & -> & K1 & N1) (t2 & fds2 & -> & K2 & N2). cbn in *. exists t2, fds2. split_and!; [done|auto|].
    intros fd f [H|H]%N2; auto.
Qed.

Lemma like_grown o o' : os_like o o' -> grown o o'.
Proof.
  intros [p ->]. exists p.1, (taken_fds p.2 (os_fds o)). split_and!; [by destruct p|intros fd f; apply taken_fds_lookup|].
  intros fd f [H|(_ & -> & _)]%taken_fds_new; auto.
Qed.

Lemma grown_insert o o' fd f : grown o o' ->
  grown (set_fds (<[fd := f]> (os_fds o)) o) (set_fds (<[fd := f]> (os_fds o')) o').
Proof.
  intros (t & fds & -> & K & N). exists t, (<[fd := f]> fds). cbn. split_and!; [done|..];
    intros i g; rewrite !lookup_insert; case_decide; auto.
Qed.

Lemma grown_delete o o' fd : grown o o' ->
  grown (set_fds (delete fd (os_fds o)) o) (set_fds (delete fd (os_fds o')) o').
Proof.
  intros (t & fds & -> & K & N). exists t, (delete fd fds). cbn. split_and!; [done|..];
    intros i g; rewrite !lookup_delete; case_decide; auto; done.
Qed.

Lemma grown_readable o o' fd : grown o o' -> readable o' fd = readable o fd.
Proof.
  intros (t & fds & -> & K & N). unfold readable. cbn. destruct (os_fds o !! fd) as [f|] eqn:E; [by rewrite (K _ _ E)|].
  destruct (fds !! fd) as [f|] eqn:E'; [|done]. destruct (N _ _ E') as [?| ->]; [congruence|done].
Qed.

Lemma grown_fd o o' fd f : grown o o' -> os_fds o !! fd = Some f -> os_fds o' !! fd = Some f.
Proof. intros (t & fds & -> & K & N). apply K. Qed.

Lemma grown_same o o1 o2 : grown o o1 -> grown o o2 -> dom (os_fds o1) = dom (os_fds o2) ->
  exists t, o2 = set_text t o1.
Proof.
  intros (t1 & fds1 & -> & K1 & N1) (t2 & fds2 & -> & K2 & N2) Hd. cbn in Hd. exists t2.
  assert (fds2 = fds1) as ->; [|done]. apply map_eq. intros fd.
  destruct (os_fds o !! fd) as [f|] eqn:E; [by rewrite (K1 _ _ E), (K2 _ _ E)|].
  assert (Hiff : is_Some (fds1 !! fd) <-> is_Some (fds2 !! fd)) by (by rewrite <- !elem_of_dom, Hd).
  destruct (fds1 !! fd) as [f1|] eqn:E1, (fds2 !! fd) as [f2|] eqn:E2.
  - destruct (N1 _ _ E1) as [?| ->]; [congruence|]. destruct (N2 _ _ E2) as [?| ->]; [congruence|done].
  - destruct (proj1 Hiff) as [? [=]]. by eexists.
  - destruct (proj2 Hiff) as [? [=]]. by eexists.
  - done.
Qed.

(** A call with the same result on a node with more descriptors. *)
Lemma plain_app_grown x p o : (plain_app x (patched p o)).1 = (plain_app x o).1 ->
  grown (plain_app x o).2 (plain_app x (patched p o)).2.
Proof.
  intros Hr. assert (Hg : grown o (patched p o)) by apply like_grown, os_like_patched.
  destruct x as [[path|fd count offset buf|fd]|fd count buf|fd offset whence]; cbn in Hr |- *.
  - rewrite !posix_open_rdonly in *. change (resolve (patched p o) path) with (resolve o path) in *.
    change (os_files (patched p o)) with (os_files o) in *.
    destruct (os_files o !! resolve o path) as [n|]; cbn in Hr |- *; [|done].
    injection Hr as Hr. cbn [patched set_text set_fds os_fds] in *. rewrite Hr. exact (grown_insert _ _ _ _ Hg).
  - rewrite patched_pread. by destruct (posix_pread fd count offset o).
  - unfold posix_close in *. destruct (os_fds o !! fd) as [f|] eqn:E.
    + rewrite (grown_fd _ _ _ _ Hg E). exact (grown_delete _ _ _ Hg).
    + destruct (os_fds (patched p o) !! fd) as [f|]; [done|exact Hg].
  - unfold posix_read in *. rewrite patched_readable in *. destruct (os_fds o !! fd) as [f|] eqn:E.
    + rewrite (grown_fd _ _ _ _ Hg E) in *. destruct (readable o fd); [exact (grown_insert _ _ _ _ Hg)|exact Hg].
    + assert (readable o fd = None) as -> by (unfold readable; by rewrite E).
      destruct (os_fds (patched p o) !! fd); exact Hg.
  - unfold posix_lseek in *. destruct (os_fds o !! fd) as [f|] eqn:E.
    + rewrite (grown_fd _ _ _ _ Hg E) in *. change (seek_base f whence (patched p o)) with (seek_base f whence o) in *.
      destruct (seek_base f whence o) as [b|]; [|exact Hg].
      destruct (b + offset <? 0); [exact Hg|exact (grown_insert _ _ _ _ Hg)].
    + destruct (os_fds (patched p o) !! fd) as [f|]; [|exact Hg]. destruct (seek_base f whence (patched p o)) as [b|]; [|exact Hg].
      destruct (b + offset <? 0) eqn:El; [exact Hg|]. zbool. cbn in Hr. injection Hr as Hr. lia.
Qed.

Lemma after_grown x o o' : after_app x o o' -> grown (plain_app x o).2 o'.
Proof.
  intros (_ & [p ->] & Hr & Hl). etrans; [by apply plain_app_grown|]. by apply like_grown.
Qed.

(** ** The invariant *)

(** To whom a descriptor of a server belongs. *)
Abbreviation holders := (gmap (Z * Z) (nat * Z)).

Section Invariant.
Context (hash : string -> Z) (apps0 : gmap nat client) (servers0 : gmap Z server).

(** No host has been given up, nor is about to be. *)
Definition healthy (c : client) : Prop := forall h, ~ given_up c h.

(** A tracked descriptor and the server's descriptor for it. *)
Definition bound (own : holders) (srv : gmap Z server) (i : nat) (c : client) (o : os) (fd : Z) (p : string) : Prop :=
  exists rfd s f d, fd_redir_map c !! fd = Some rfd /\ own !! (host_for hash c p, rfd) = Some (i, fd) /\
    srv !! host_for hash c p = Some s /\ holds s rfd p (of_off f) /\
    os_fds o !! fd = Some f /\ readable o fd = Some d /\ shared servers0 p d.

Record client_inv (c : client) : Prop := {
  ci_lib : lib_ok c;
  ci_healthy : healthy c;
  ci_mounted : mounted servers0 c;
  ci_served : forall H, 0 <= H < g_ftc_server_count c -> is_Some (servers0 !! H)
}.

Record app_inv (own : holders) (srv : gmap Z server) (i : nat) (c : client) (o : os)
    (l : list (app_call * answer)) : Prop := {
  ai_client : client_inv c;
  ai_done : exists c0, apps0 !! i = Some c0 /\ app_run (cl_os c0) l o;
  ai_moved : moved (fd_map c) o (cl_os c);
  ai_bound : forall fd p, fd_map c !! fd = Some p -> bound own srv i c o fd p
}.

Record session_inv (own : holders) (s : session) : Prop := {
  si_apps : forall i c o l, ss_apps s !! i = Some (c, o, l) -> app_inv own (ss_servers s) i c o l;
  si_good : forall H s', ss_servers s !! H = Some s' -> srv_good servers0 H s';
  si_alive : forall H, is_Some (servers0 !! H) -> is_Some (ss_servers s !! H)
}.

(** ** What a step leaves alone *)

(** The descriptors of the servers that belong to [P] are where they were. *)
Definition keeps_open (P : nat * Z -> Prop) (own own' : holders) (srv srv' : gmap Z server) : Prop :=
  forall H rfd v s q off, own !! (H, rfd) = Some v -> P v -> srv !! H = Some s -> holds s rfd q off ->
    own' !! (H, rfd) = Some v /\ exists s', srv' !! H = Some s' /\ holds s' rfd q off.

Lemma keeps_open_refl P own srv : keeps_open P own own srv srv.
Proof. intros H rfd v s q off Ho _ Hs Hh. split; [done|]. by exists s. Qed.

(** A request about descriptor [rfd] of the server [H]. *)
Lemma keeps_open_insert P own own' srv H s s' rfd : srv !! H = Some s -> touches rfd s s' ->
  (forall key v, own !! key = Some v -> P v -> key <> (H, rfd) -> own' !! key = Some v) ->
  (forall v q off, own !! (H, rfd) = Some v -> P v -> ~ holds s rfd q off) ->
  keeps_open P own own' srv (<[H := s']> srv).
Proof.
  intros Hs Ht Hother Hown H' r v s1 q off Ho HP Hs1 Hh. rewrite lookup_insert. case_decide as E; [subst H'|].
  - rewrite Hs in Hs1. injection Hs1 as <-.
    destruct (decide (r = rfd)) as [->|Hne]; [by destruct (Hown v q off Ho HP)|].
    split; [apply Hother; [done..|congruence]|]. exists s'. split; [done|]. by apply Ht.
  - split; [apply Hother; [done..|congruence]|]. by exists s1.
Qed.

Lemma bound_keeps P own own' srv srv' i c c' o o' fd p : keeps_open P own own' srv srv' -> P (i, fd) ->
  g_ftc_server_count c' = g_ftc_server_count c -> fd_redir_map c' !! fd = fd_redir_map c !! fd ->
  os_fds o' !! fd = os_fds o !! fd -> readable o' fd = readable o fd ->
  bound own srv i c o fd p -> bound own' srv' i c' o' fd p.
Proof.
  intros Hk HP Hn Hr Hf Hd (rfd & s & f & d & B1 & B2 & B3 & B4 & B5 & B6 & B7).
  destruct (Hk _ _ _ _ _ _ B2 HP B3 B4) as [Ho' (s' & Hs' & Hh')].
  exists rfd, s', f, d. unfold host_for in *. rewrite Hn, Hr, Hf, Hd. by split_and!.
Qed.

Lemma app_inv_keeps own own' srv srv' i c o l : keeps_open (fun v => v.1 = i) own own' srv srv' ->
  app_inv own srv i c o l -> app_inv own' srv' i c o l.
Proof.
  intros Hk [A1 A2 A4 A5]. split; try done.
  intros fd p Hp. by eapply (bound_keeps _ own own' srv srv'), A5.
Qed.

Lemma bound_grown own srv i c o o' fd p : grown o o' -> bound own srv i c o fd p -> bound own srv i c o' fd p.
Proof.
  intros Hg (rfd & s & f & d & B1 & B2 & B3 & B4 & B5 & B6 & B7). exists rfd, s, f, d.
  rewrite (grown_readable _ _ fd Hg). split_and!; try done. by eapply grown_fd.
Qed.

(** ** The next call of an application *)

(** The client after a call that was answered. *)
Record called (x : app_call) (o : os) (c c' : client) : Prop := {
  cd_lib : lib_ok c';
  cd_counters : timeout_counters c' = timeout_counters c;
  cd_kept : kept c c';
  cd_tree : tree (cl_os c') = tree (cl_os c);
  cd_moved : exists o', after_app x o o' /\ moved (fd_map c') o' (cl_os c')
}.

(** The plain node on which the descriptors are taken that the library takes. *)
Definition plain_next (x : app_call) (o : os) (c' : client) (o' : os) : Prop :=
  after_app x o o' /\ dom (os_fds o') = dom (os_fds (cl_os c')).

Lemma moved_dom T o o' : moved T o o' -> dom (os_fds o) = dom (os_fds o').
Proof.
  intros Hm. apply set_eq. intros fd. rewrite !elem_of_dom, <- !not_eq_None_Some. by rewrite (moved_none _ _ _ fd Hm).
Qed.

Lemma called_next x o c c' : called x o c c' -> exists o', plain_next x o c' o'.
Proof. intros [_ _ _ _ (o' & Ha & Hm)]. exists o'. split; [done|by eapply moved_dom]. Qed.

Lemma called_moved x o c c' o' : called x o c c' -> plain_next x o c' o' -> moved (fd_map c') o' (cl_os c').
Proof.
  intros [_ _ _ _ (o1 & Ha & Hm)] [Ha' Hd]. pose proof (moved_dom _ _ _ Hm) as Hd1.
  destruct (grown_same (plain_app x o).2 o1 o') as [t ->]; [by apply after_grown..|congruence|].
  destruct Hm as (t1 & fds & -> & Hf). by exists t1, fds.
Qed.

Lemma called_inv x o c c' : called x o c c' -> client_inv c -> client_inv c'.
Proof.
  intros [D1 D2 [K1 K2 K3] D4 D5] [C1 C2 C3 C4]. split; [done| |by eapply mounted_call|by rewrite K1].
  intros h Hg. apply (C2 h). unfold given_up in *. by rewrite D2 in Hg.
Qed.

Lemma session_call own own' apps srv srv' n n' i c l x c' o o' : session_inv own (mk_session apps srv n) ->
  apps !! i = Some (c, o, l) -> called x o c c' -> plain_next x o c' o' ->
  (forall H s', srv' !! H = Some s' -> srv_good servers0 H s') ->
  (forall H, is_Some (srv !! H) -> is_Some (srv' !! H)) ->
  keeps_open (fun v => v.1 <> i) own own' srv srv' ->
  (forall fd p, fd_map c' !! fd = Some p -> bound own' srv' i c' (plain_app x o).2 fd p) ->
  session_inv own' (mk_session (<[i := (c', o', l ++ [(x, (plain_app x o).1)])]> apps) srv' n').
Proof.
  intros [S1 S2 S3] Hi Hc Hn Hg Hal Hk Hb. cbn in *. split; cbn; [|done|by intros H HH; apply Hal, S3].
  intros j cj oj lj. rewrite lookup_insert. case_decide as E.
  - intros [= <- <- <-]. subst j. destruct (S1 _ _ _ _ Hi) as [A1 (c0 & H0 & Hl) _ _]. split.
    + by eapply called_inv.
    + exists c0. split; [done|]. apply (plain_run_snoc plain_app _ _ _ _ _ Hl), Hn.
    + by eapply called_moved.
    + intros fd p Hp. eapply bound_grown; [apply after_grown, Hn|by apply Hb].
  - intros Hj. eapply app_inv_keeps; [|by apply S1]. intros H rfd v s q off Hv <-. by apply Hk.
Qed.

(** A data mover copies. *)
Lemma session_mover own apps srv n H s s' nvme : session_inv own (mk_session apps srv n) -> srv !! H = Some s ->
  DataMover.mover_round nvme s = Ret tt s' -> session_inv own (mk_session apps (<[H := s']> srv) n).
Proof.
  intros [S1 S2 S3] Hs Hr. cbn in *. destruct (mover_good _ _ _ _ _ (S2 _ _ Hs) Hr) as [Hg Hh].
  split; cbn.
  - intros i c o l Hi. eapply app_inv_keeps; [|by apply S1].
    intros H' rfd v s1 q off Hv _ Hs1 Hh1. split; [done|]. rewrite lookup_insert. case_decide; [subst H'|by exists s1].
    rewrite Hs in Hs1. injection Hs1 as <-. exists s'. split; [done|]. by apply Hh.
  - intros H' s1. rewrite lookup_insert. case_decide; [intros [= <-]; by subst|by apply S2].
  - intros H' HH. destruct (S3 H' HH) as [s1 H1]. rewrite lookup_insert. case_decide; by eexists.
Qed.

End Invariant.

End SessionInv.
