(* ===== verification/SessionCalls.v ===== *)
(** * The calls of a session

    One lemma per call: its exchange with the servers succeeds, returns what the
    plain call returns and keeps the invariant of [SessionInv]. *)

From S2P Require Import Prelude CString HexDump Address Posix LogInfo Server ServerSpec ServerProps.
From S2P Require Import DataMover ServerInv.
From S2P Require Import Client Wrappers ClientSpec ClientInv ClientProps Transparency ClientWire Cluster ClusterInv.
From S2P Require Import Session SessionServer SessionInv.
Import Address Posix LogInfo Client Wrappers ClientSpec ClientInv ClientProps Transparency ClientWire.
Import Cluster(sent, call_wf).
Import ClusterInv(lib_ok_same, lib_ok_text, tracked_open, shared, mounted, tree, like_tree, call_tree, tracked_shared, sent_app, call_now_result).
Import ServerSpec(rpc, ROpen, RRead, RSeek, RClose, serve, new_events, responses, posix_read_short, posix_pread_short).
Import Server(event, EvPush, EvRespond, server, srv_os, call_ok, mk_open_in, mk_rpc_in, mk_seek_in, mk_close_in).
Import Session SessionServer SessionInv.

Module SessionCalls.

(** ** The wait for an answer that arrives in time *)

Lemma answer_wakes pre w r : Forall spurious_wake pre -> wk_reply w = Some r -> wk_timedout w = false ->
  prompt (pre ++ [w]) = Some r /\ replied (pre ++ [w]) = Some r /\ ends (pre ++ [w]).
Proof.
  intros Hp Hr Ht. induction Hp as [|v pre (H1 & H2 & H3) _ IH]; cbn [app prompt replied].
  - rewrite Hr, Ht. split_and!; try done. left. right. by rewrite Hr.
  - rewrite H2, H3. destruct IH as (I1 & I2 & I3). split_and!; try done. by right.
Qed.

Lemma answer_wakes_open pre w r : Forall spurious_wake pre -> wk_reply w = Some r -> wk_timedout w = false ->
  wk_push w = None -> reply_ok r -> open_honest (pre ++ [w]) /\ answered r (pre ++ [w]).
Proof.
  intros Hp Hr Ht Hn Hk. induction Hp as [|v pre (H1 & H2 & H3) _ [I1 I2]]; cbn [app open_honest].
  - rewrite Hr. split; [by split|]. by apply answered_now.
  - rewrite H2. split; [by split|]. by apply answered_later.
Qed.

Lemma answer_wakes_read pre w r sl : Forall spurious_wake pre -> wk_reply w = Some r ->
  wk_push w = Some sl -> reply_ok r -> rp_out r = Z.of_nat (length sl) -> honest sl false (pre ++ [w]).
Proof.
  intros Hp Hr Hs Hk Ho. induction Hp as [|v pre (H1 & H2 & H3) _ IH]; cbn [app honest].
  - rewrite Hr, Hs. split; [by right|]. split; [done|]. by right.
  - rewrite H1, H2. split; [by left|]. exact IH.
Qed.

(** What the events of a request show. *)
Lemma wake_of_open peer h v : wake_of peer h [EvRespond h v] =
  Some (mk_wake None (Some (mk_reply 0 0 v (Some peer) 0 0 0)) false).
Proof. unfold wake_of, responses, push_of. cbn. by rewrite decide_True. Qed.

Lemma wake_of_read peer h sl : wake_of peer h (read_events h sl) =
  Some (mk_wake (Some sl) (Some (mk_reply 0 0 (Z.of_nat (length sl)) (Some peer) 0 0 0)) false).
Proof. unfold wake_of, responses, push_of. cbn. by rewrite !decide_True. Qed.

Definition answer_of (d : delivery) (v : Z) : reply := mk_reply 0 0 v (Some (dl_peer d)) 0 0 0.

Lemma answer_of_ok d v : delivery_ok d -> reply_ok (answer_of d v).
Proof. intros [_ _ _ Hp]. split; try done. by exists (dl_peer d). Qed.

(** ** One exchange *)

Section Calls.
Context (hash : string -> Z) (se : nat -> self_env) (apps0 : gmap nat client) (servers0 : gmap Z server).
Context (Hse : forall i, printable (se_addr_buffer (se i))).

Lemma exchange_now d i x c a c' h srv : lib_app hash (se i) (with_wakes [] (dl_env d)) x c = Ret a c' ->
  cl_trace c' = cl_trace c -> exchange hash d (se i) x c h srv = Some (a, c', srv, (h + 0)%nat).
Proof.
  intros Hr Ht. unfold exchange. rewrite Hr, (sent_app c c' []) by (by rewrite app_nil_r). done.
Qed.

Lemma exchange_waits d i x c c1 host msg h srv s s' w a c' :
  lib_app hash (se i) (with_wakes [] (dl_env d)) x c = Blocked c1 -> cl_trace c1 = cl_trace c ++ [CForward host msg] ->
  srv !! host = Some s -> serve h (dl_call d) msg s = Ret 0 s' -> wake_of (dl_peer d) h (new_events s s') = Some w ->
  lib_app hash (se i) (with_wakes (dl_before d ++ [w]) (dl_env d)) x c = Ret a c' ->
  exchange hash d (se i) x c h srv = Some (a, c', <[host := s']> srv, S h).
Proof.
  intros Hb Ht Hs Hr Hw Ha. unfold exchange. rewrite Hb, (sent_app _ _ _ Ht). unfold serve_at. rewrite Hs. cbn.
  rewrite Hr. cbn. rewrite Hw. cbn. by rewrite Ha.
Qed.

Context (own : holders) (apps : gmap nat (client * os * list (app_call * answer))) (srv : gmap Z server) (n i : nat).
Context (c : client) (l : list (app_call * answer)) (o : os) (d : delivery).
Context (Hinv : session_inv hash apps0 servers0 own (mk_session apps srv n)) (Hi : apps !! i = Some (c, o, l)).
Context (Hd : delivery_ok d).

(** The call is answered as it would be without the library. *)
Definition answered_app (x : app_call) : Prop :=
  exists c' srv' n' own', exchange hash d (se i) x c n srv = Some ((plain_app x o).1, c', srv', n') /\
    (exists o', plain_next x o c' o') /\
    forall o', plain_next x o c' o' ->
      session_inv hash apps0 servers0 own' (mk_session (<[i := (c', o', l ++ [(x, (plain_app x o).1)])]> apps) srv' n').

(** The state of the calling application. *)
Lemma caller : client_inv servers0 c /\ moved (fd_map c) o (cl_os c) /\
  forall fd p, fd_map c !! fd = Some p -> bound hash servers0 own srv i c o fd p.
Proof using Hinv Hi.
  by destruct (si_apps _ _ _ _ _ Hinv i c o l Hi) as [A1 _ A3 A4].
Qed.

Lemma caller_open fd : os_fds o !! fd = None -> fd_map c !! fd = None.
Proof using Hinv Hi.
  destruct caller as (Hc & Hm & _). intros Hn. apply tracked_open; [apply Hc|]. by eapply moved_none.
Qed.

Lemma caller_server p : exists s, srv !! host_for hash c p = Some s /\ srv_good servers0 (host_for hash c p) s.
Proof using Hinv Hi.
  destruct caller as ([Hl _ _ Hserved] & _ & _).
  destruct (si_alive _ _ _ _ _ Hinv (host_for hash c p)) as [s Hs].
  { apply Hserved, host_for_range, Hl. }
  exists s. split; [done|]. by apply (si_good _ _ _ _ _ Hinv).
Qed.

(** A tracked descriptor that a call left alone. *)
Definition left_alone (x : app_call) (c' : client) (fd : Z) (p : string) : Prop :=
  fd_map c !! fd = Some p /\ fd_redir_map c' !! fd = fd_redir_map c !! fd /\
  os_fds (plain_app x o).2 !! fd = os_fds o !! fd /\ readable (plain_app x o).2 fd = readable o fd.

(** A call that needs no server. *)
Lemma now_answered x c' :
  lib_app hash (se i) (with_wakes [] (dl_env d)) x c = Ret (plain_app x o).1 c' -> cl_trace c' = cl_trace c ->
  called x o c c' -> (forall fd p, fd_map c' !! fd = Some p -> left_alone x c' fd p) -> answered_app x.
Proof using Hinv Hi.
  intros Hr Ht Hc Hall. exists c', srv, (n + 0)%nat, own. split; [by apply exchange_now|].
  split; [by eapply called_next|]. intros o' Hnx.
  destruct caller as (_ & _ & Hb). eapply session_call; try done; [apply Hinv|by apply keeps_open_refl|].
  intros fd p Hp. destruct (Hall fd p Hp) as (E1 & E2 & E3 & E4).
  apply (bound_keeps hash servers0 (fun _ => True) own own srv srv i c c' o _ fd p); try done;
    [by apply keeps_open_refl|apply Hc|by apply Hb].
Qed.

(** A call that asks the server [host] about its descriptor [rfd], which is or
    becomes that of [fd]. *)
Lemma served_inv x c' host s s' rfd fd own' n' : srv !! host = Some s -> srv_good servers0 host s' -> touches rfd s s' ->
  (forall key v, own !! key = Some v -> key <> (host, rfd) -> own' !! key = Some v) ->
  (forall v q off, own !! (host, rfd) = Some v -> holds s rfd q off -> v = (i, fd)) ->
  called x o c c' -> (forall fd' p, fd' <> fd -> fd_map c' !! fd' = Some p -> left_alone x c' fd' p) ->
  (forall p, fd_map c' !! fd = Some p -> bound hash servers0 own' (<[host := s']> srv) i c' (plain_app x o).2 fd p) ->
  (exists o', plain_next x o c' o') /\
  forall o', plain_next x o c' o' -> session_inv hash apps0 servers0 own'
    (mk_session (<[i := (c', o', l ++ [(x, (plain_app x o).1)])]> apps) (<[host := s']> srv) n').
Proof using Hinv Hi.
  intros Hs Hg Ht Hother Hmine Hc Hall Hfd. split; [by eapply called_next|]. intros o' Hnx.
  destruct caller as (_ & _ & Hb).
  assert (Hk : forall P : nat * Z -> Prop, ~ P (i, fd) -> keeps_open P own own' srv (<[host := s']> srv)).
  { intros P HP. eapply keeps_open_insert; try done; [by intros; apply Hother|].
    intros v q off Hv HPv Hh. apply HP. by rewrite <- (Hmine v q off Hv Hh). }
  eapply session_call; try done.
  - intros H s1. rewrite lookup_insert. case_decide; [intros [= <-]; by subst|apply (si_good _ _ _ _ _ Hinv)].
  - intros H [s1 H1]. rewrite lookup_insert. case_decide; by eexists.
  - apply Hk. by intros [].
  - intros fd' p Hp. destruct (decide (fd' = fd)) as [->|Hne]; [by apply Hfd|].
    destruct (Hall fd' p Hne Hp) as (E1 & E2 & E3 & E4).
    apply (bound_keeps hash servers0 (fun v => v <> (i, fd)) own own' srv (<[host := s']> srv) i c c' o _ fd' p); try done;
      [by apply Hk; intros []|congruence|apply Hc|by apply Hb].
Qed.

(** What the library's own transparency says of it. *)
Lemma called_call x c' : after x (cl_os c) (cl_os c') -> lib_ok c' ->
  timeout_counters c' = timeout_counters c -> kept c c' -> tracks x (fd_map c) (fd_map c') o ->
  (plain_call x (cl_os c)).1 = (plain_call x o).1 /\ called (SCall x) o c c'.
Proof using Hinv Hi.
  intros Hlike Hl Hcnt Hk Ht. destruct caller as (_ & Hm & _).
  destruct (after_moved x (fd_map c) (fd_map c') o (cl_os c) _ Hm Ht caller_open Hlike) as [Ha Hm'].
  split; [done|]. split; try done. by eapply call_tree.
Qed.

(** ** Opens *)

Lemma opened_fd_plain : opened_fd c = lowest_fd (os_fds o).
Proof using Hinv Hi. destruct caller as (_ & Hm & _). unfold opened_fd. by eapply moved_lowest. Qed.

(** An open leaves the descriptors that are open alone. *)
Lemma left_alone_open path c' fd p : fd_map c !! fd = Some p -> fd_redir_map c' !! fd = fd_redir_map c !! fd ->
  left_alone (SCall (XOpen path)) c' fd p.
Proof using Hinv Hi.
  intros Hp Hr. split_and!; try done; cbn; rewrite posix_open_rdonly;
    (destruct (os_files o !! resolve o path); [|done]); cbn.
  all: assert (Hne : fd <> lowest_fd (os_fds o))
    by (intros ->; by rewrite (caller_open _ (proj1 (lowest_fd_free (os_fds o)))) in Hp).
  - by apply lookup_insert_ne.
  - by apply readable_insert.
Qed.

Lemma same_answer x c' : (plain_call x (cl_os c)).1 = (plain_call x o).1 ->
  forall e, lib_call hash (se i) e x c = Ret (plain_call x (cl_os c)).1 c' ->
  lib_app hash (se i) e (SCall x) c = Ret (plain_app (SCall x) o).1 c'.
Proof. intros E e Hr. cbn. by rewrite <- E. Qed.

Lemma open_now_answered path a c' : (forall ws, lib_call hash (se i) (with_wakes ws (dl_env d)) (XOpen path) c = Ret a c') ->
  now_spec hash c (XOpen path) c' -> timeout_counters c' = timeout_counters c -> answered_app (SCall (XOpen path)).
Proof using Hinv Hi Hse Hd.
  intros Hrun Hn Hcnt. destruct caller as ([Hl Hh _ _] & Hm & _).
  destruct (call_now_result hash se Hse i c (XOpen path) (dl_env d) a c' Hl) as (Ha & Hlike & Hl' & _);
    [by split; [apply Hd|]|by apply Hrun|]. subst a.
  destruct Hn as (_ & (Ht & Hr & Hk & Hf) & _).
  assert (Hmap : fd_map c' = fd_map c).
  { destruct Hf as [?|(p & _ & _ & Hg)]; [done|]. exfalso. apply (Hh (host_for hash c' p)).
    unfold given_up in *. by rewrite Hcnt in Hg. }
  destruct (called_call (XOpen path) c' Hlike Hl' Hcnt Hk (or_introl Hmap)) as [Ea Hc].
  apply (now_answered _ c'); [by apply same_answer|done..|].
  intros fd p Hp. apply left_alone_open; [by rewrite <- Hmap|by rewrite Hr].
Qed.

Lemma open_wait_answered path host msg c1 :
  lib_call hash (se i) (with_wakes [] (dl_env d)) (XOpen path) c = Blocked c1 ->
  cl_trace c1 = cl_trace c ++ [CForward host msg] -> wait_spec hash (se i) (dl_env d) c (XOpen path) host msg ->
  answered_app (SCall (XOpen path)).
Proof using Hinv Hi Hse Hd.
  intros Hb Ht (p & rank & nn & Hn & Hdec & -> & Hng & -> & Hall). destruct caller as ([Hl Hh Hmt _] & Hm & _).
  destruct (moved_tree _ _ _ Hm) as [[= E1 E2 E3 E4 E5] E6].
  pose proof (track_decision_canon _ _ _ Hdec) as Hcanon.
  destruct (Hmt path p nn Hdec) as (dd & Hnode & Hsh); [by rewrite Hcanon|].
  destruct (caller_server p) as (s & Hs & Hg).
  destruct (serve_open_holds servers0 _ s n (dl_call d) p rank (opened_fd c) dd Hg (dk_call _ Hd) Hsh)
    as (s' & rfd & Hrun & Hev & Hg' & Hfree & Hholds & Htouch).
  set (w := mk_wake None (Some (answer_of d rfd)) false).
  set (ws := dl_before d ++ [w]).
  destruct (answer_wakes (dl_before d) w (answer_of d rfd) (dk_before _ Hd)) as (P1 & P2 & P3); [done..|].
  destruct (answer_wakes_open (dl_before d) w (answer_of d rfd) (dk_before _ Hd)) as [P4 _];
    [done..|by apply answer_of_ok|]. fold ws in P1, P2, P3, P4.
  destruct (Hall ws P4 P3) as (a & c' & Hret & (Hmap & Hred & Hk) & Hcnt).
  destruct (call_transparent hash (se i) (with_wakes ws (dl_env d)) (XOpen path) c Hl (Hse i)) as (c2 & Hret2 & Hlike & Hl').
  { split; [apply env_ok_wakes, Hd|by split]. }
  rewrite Hret in Hret2. injection Hret2 as -> <-. specialize (Hcnt (ex_intro _ _ P1)).
  rewrite opened_fd_plain in *. set (fd := lowest_fd (os_fds o)) in *.
  assert (Hfile : os_files o !! resolve o path = Some nn) by (unfold resolve in *; by rewrite <- E3, <- E1).
  destruct (called_call (XOpen path) c' Hlike Hl' Hcnt Hk) as [Ea Hc].
  { right. exists p, nn. by split. }
  assert (Hr' : fd_redir_map c' = <[fd := rfd]> (fd_redir_map c)) by (rewrite Hred; unfold redir_after; by rewrite P2).
  exists c', (<[host_for hash c p := s']> srv), (S n), (<[(host_for hash c p, rfd) := (i, fd)]> own). split.
  - eapply exchange_waits; [exact Hb|exact Ht|exact Hs|exact Hrun|by rewrite Hev, wake_of_open|by apply same_answer].
  - eapply (served_inv _ c' _ s s' rfd fd); try done.
    + intros key v Hv Hne. by rewrite lookup_insert_ne.
    + intros v q off _ Hq. by destruct (Hfree q off).
    + intros fd' q Hne Hq. rewrite Hmap, lookup_insert_ne in Hq by done.
      apply left_alone_open; [done|]. by rewrite Hr', lookup_insert_ne.
    + intros q. rewrite Hmap, lookup_insert_eq. intros [= <-].
      exists rfd, s', (OFile nn 0 true false false), dd.
      rewrite (kept_host hash _ _ p Hk), Hr', !lookup_insert_eq. cbn. rewrite posix_open_rdonly, Hfile. cbn.
      unfold readable. cbn. rewrite lookup_insert_eq. cbn.
      rewrite <- E6, (lo_healthy _ Hl), bool_decide_true, <- E4 by set_solver. by split_and!.
Qed.

Lemma open_answered path : answered_app (SCall (XOpen path)).
Proof using Hinv Hi Hse Hd.
  destruct caller as ([Hl _ _ _] & _ & _).
  destruct (lib_call_effect hash (se i) (dl_env d) c (Hse i) (dk_env _ Hd) (XOpen path) Hl)
    as [(a & c' & Hr & Hn & Hcnt)|(host & msg & c1 & Hb & Ht & Hw)].
  - by eapply open_now_answered.
  - by eapply open_wait_answered.
Qed.

(** ** Positioned reads *)

(** The request for a read of a descriptor that is bound. *)
Lemma read_msg_bound fd count offset rfd : fd_redir_map c !! fd = Some rfd -> 0 <= count < 2 ^ 31 ->
  read_msg c fd count offset = RRead (mk_rpc_in count rfd fd offset (cl_client_rank c)).
Proof. intros Hr Hc. unfold read_msg. rewrite Hr, i32_id by (unfold in_i32; lia). done. Qed.

Lemma pread_answered fd count offset buf : 0 <= count < 2 ^ 31 -> 0 <= offset ->
  answered_app (SCall (XPread fd count offset buf)).
Proof using Hinv Hi Hse Hd.
  intros Hcount Hoff. destruct caller as ([Hl _ _ _] & Hm & Hb).
  assert (Hsame : (plain_app (SCall (XPread fd count offset buf)) o).2 = o)
    by (cbn; by destruct (posix_pread fd count offset o)).
  assert (Hleft : forall c' fd' p, fd_map c' = fd_map c -> fd_map c' !! fd' = Some p ->
    (forall fd r, fd_redir_map c !! fd = Some r -> fd_redir_map c' !! fd = Some r) ->
    left_alone (SCall (XPread fd count offset buf)) c' fd' p).
  { intros c' fd' p Hf Hp Hr. unfold left_alone. rewrite Hsame. rewrite Hf in Hp. split_and!; try done.
    destruct (Hb fd' p Hp) as (r & _ & _ & _ & Hr0 & _). by rewrite Hr0, (Hr _ _ Hr0). }
  destruct (lib_call_effect hash (se i) (dl_env d) c (Hse i) (dk_env _ Hd) (XPread fd count offset buf) Hl)
    as [(a & c' & Hr & Hn & Hcnt)|(host & msg & c1 & Hbl & Ht & Hw)].
  - destruct (call_now_result hash se Hse i c (XPread fd count offset buf) (dl_env d) a c' Hl) as (-> & Hlike & Hl' & _);
      [by split; [apply Hd|]|by apply Hr|]. destruct Hn as (Hk & Ht & Hred & Hf).
    destruct (called_call (XPread fd count offset buf) c' Hlike Hl' Hcnt Hk Hf) as [Ea Hc].
    apply (now_answered _ c'); [by apply same_answer|done..|]. intros fd' p Hp. apply Hleft; try done. by rewrite Hred.
  - destruct Hw as (p & Ep & -> & _ & -> & Hall).
    destruct (Hb fd p Ep) as (rfd & s & f & dd & B1 & B2 & B3 & B4 & B5 & B6 & B7).
    pose proof (si_good _ _ _ _ _ Hinv _ _ B3) as Hg.
    destruct (serve_pread_holds servers0 _ s n (dl_call d) rfd p _ dd count offset fd (cl_client_rank c) Hg (dk_call _ Hd) B7 B4 Hcount Hoff)
      as (s' & Hrun & Hev & Hg' & Hholds & Htouch). rewrite <- (read_msg_bound fd count offset rfd B1 Hcount) in Hrun.
    set (sl := read_at dd offset count) in *. set (w := mk_wake (Some sl) (Some (answer_of d (Z.of_nat (length sl)))) false).
    set (ws := dl_before d ++ [w]).
    destruct (answer_wakes (dl_before d) w (answer_of d (Z.of_nat (length sl))) (dk_before _ Hd)) as (P1 & _ & P3); [done..|].
    assert (P4 : honest sl false ws) by (eapply answer_wakes_read; [apply Hd|done..|by apply answer_of_ok|done]).
    destruct (Hall ws sl P4 P3) as (a & c' & Hret & Hf & Hgrow & Hk & Hcnt).
    destruct (call_transparent hash (se i) (with_wakes ws (dl_env d)) (XPread fd count offset buf) c Hl (Hse i)) as (c2 & Hret2 & Hlike & Hl').
    { split; [apply env_ok_wakes, Hd|]. split_and!; try done. intros sl' Hsl. unfold posix_pread in Hsl.
      rewrite (moved_readable _ _ _ fd Hm), B6 in Hsl. cbn in Hsl. rewrite (proj2 (Z.ltb_ge offset 0)) in Hsl by done.
      by injection Hsl as <-. }
    rewrite Hret in Hret2. injection Hret2 as -> <-. specialize (Hcnt (ex_intro _ _ P1)).
    destruct (called_call (XPread fd count offset buf) c' Hlike Hl' Hcnt Hk Hf) as [Ea Hc].
    exists c', (<[host_for hash c p := s']> srv), (S n), own. split.
    + eapply exchange_waits; [exact Hbl|exact Ht|exact B3|exact Hrun|by rewrite Hev, wake_of_read|by apply same_answer].
    + eapply (served_inv _ c' _ s s' rfd fd); try done.
      * intros v q off Hv _. congruence.
      * intros fd' q _ Hq. apply Hleft; [done..|]. intros fd0 r Hr. by eapply lookup_weaken.
      * intros q. rewrite Hf, Ep. intros [= <-]. rewrite Hsame. exists rfd, s', f, dd.
        rewrite (kept_host hash _ _ p Hk), lookup_insert_eq, (lookup_weaken _ _ _ _ B1 Hgrow). by split_and!.
Qed.

(** ** Closes *)

Lemma left_alone_close fd c' fd' p : fd' <> fd -> fd_map c !! fd' = Some p ->
  fd_redir_map c' !! fd' = fd_redir_map c !! fd' -> left_alone (SCall (XClose fd)) c' fd' p.
Proof.
  intros Hne Hp Hr. split_and!; try done; cbn; unfold posix_close; (destruct (os_fds o !! fd); [|done]); cbn.
  - by apply lookup_delete_ne.
  - by apply readable_delete.
Qed.

Lemma close_answered fd : answered_app (SCall (XClose fd)).
Proof using Hinv Hi Hse Hd.
  destruct caller as ([Hl _ _ _] & Hm & Hb).
  destruct (lib_call_effect hash (se i) (dl_env d) c (Hse i) (dk_env _ Hd) (XClose fd) Hl)
    as [(a & c' & Hr & Hn & Hcnt)|(host & msg & c1 & _ & _ & [])].
  destruct (call_now_result hash se Hse i c (XClose fd) (dl_env d) a c' Hl) as (-> & Hlike & Hl' & _);
    [by split; [apply Hd|]|by apply Hr|]. destruct Hn as (Hk & Hf & Hcase).
  destruct (called_call (XClose fd) c' Hlike Hl' Hcnt Hk Hf) as [Ea Hc].
  assert (Hmap : forall fd' p, fd_map c' !! fd' = Some p -> fd' <> fd /\ fd_map c !! fd' = Some p)
    by (intros fd' p; rewrite Hf; by intros [? ?]%lookup_delete_Some).
  destruct Hcase as [[Ht Hred]|(p & rank & Ep & _ & Ht & Hred)].
  - apply (now_answered _ c'); [by apply same_answer|done..|]. intros fd' p Hp. destruct (Hmap fd' p Hp) as [Hne Hp'].
    apply left_alone_close; [done..|by rewrite Hred].
  - destruct (Hb fd p Ep) as (rfd & s & f & dd & B1 & B2 & B3 & B4 & B5 & B6 & B7).
    pose proof (si_good _ _ _ _ _ Hinv _ _ B3) as Hg. rewrite B1 in Ht. cbn [default] in Ht.
    destruct (serve_close_holds servers0 _ s n (dl_call d) rfd p _ rank Hg (dk_call _ Hd) B4) as (s' & Hrun & Hg' & Htouch).
    exists c', (<[host_for hash c p := s']> srv), (n + 1)%nat, own. split.
    + unfold exchange. rewrite (same_answer _ _ Ea _ (Hr [])), (sent_app _ _ _ Ht). cbn [serve_each serve_at].
      rewrite B3. cbn. change (Server.ftc_close_rpc_handler n (dl_call d) (mk_close_in rfd rank) s) with
        (serve n (dl_call d) (RClose (mk_close_in rfd rank)) s). by rewrite Hrun.
    + eapply (served_inv _ c' _ s s' rfd fd); try done.
      * intros v q off Hv _. congruence.
      * intros fd' q Hne Hq. destruct (Hmap fd' q Hq) as [_ Hq']. apply left_alone_close; [done..|].
        by rewrite Hred, lookup_delete_ne.
      * intros q Hq. by destruct (Hmap fd q Hq).
Qed.

(** ** Sequential reads and seeks *)

(** The descriptor whose offset a call moves. *)
Definition moves (x : app_call) (fd : Z) : Prop :=
  match x with SCall _ => False | SRead fd' _ _ | SSeek fd' _ _ => fd' = fd end.

Lemma moves_step x fd o0 : moves x fd -> os_wf o0 ->
  os_wf (plain_app x o0).2 /\ (exists fds, (plain_app x o0).2 = set_fds fds o0) /\
  (forall i, readable (plain_app x o0).2 i = readable o0 i) /\
  (forall i, i <> fd -> os_fds (plain_app x o0).2 !! i = os_fds o0 !! i).
Proof.
  intros Hx Hw. assert (Hsame : exists fds, o0 = set_fds fds o0) by (exists (os_fds o0); by destruct o0).
  destruct x as [x|fd' count buf|fd' offset whence]; cbn in Hx; [done|subst fd'..]; cbn.
  - pose proof (wf_read fd count o0 Hw) as Hw'. unfold posix_read in *.
    destruct (os_fds o0 !! fd) as [f|] eqn:Ef, (readable o0 fd) as [dd|]; cbn in *; split_and!; try done.
    + by eexists.
    + by apply set_off_readable.
    + intros j Hj. by apply lookup_insert_ne.
  - pose proof (wf_lseek fd offset whence o0 Hw) as Hw'. unfold posix_lseek in *.
    destruct (os_fds o0 !! fd) as [f|] eqn:Ef; [|done]. destruct (seek_base f whence o0) as [b|]; [|done].
    case_match; cbn in *; split_and!; try done.
    + by eexists.
    + by apply set_off_readable.
    + intros j Hj. by apply lookup_insert_ne.
Qed.

Lemma plain_app_moved T x fd o1 o2 : moves x fd -> T !! fd = None -> moved T o1 o2 ->
  (plain_app x o2).1 = (plain_app x o1).1 /\ moved T (plain_app x o1).2 (plain_app x o2).2.
Proof.
  intros Hx Hn Hm. destruct x as [x|fd' count buf|fd' offset whence]; cbn in Hx; [done|subst fd'..]; cbn.
  - destruct (posix_read_moved T o1 o2 fd count Hm Hn) as [E Hm'].
    destruct (posix_read fd count o1) as [r1 q1], (posix_read fd count o2) as [r2 q2]. cbn in *. subst r2. by destruct r1.
  - destruct (posix_lseek_moved T o1 o2 fd offset whence Hm Hn) as [E Hm'].
    destruct (posix_lseek fd offset whence o1) as [r1 q1], (posix_lseek fd offset whence o2) as [r2 q2].
    cbn in *. by subst r2.
Qed.

Lemma left_alone_offset x c' fd off f fd' p : (plain_app x o).2 = set_fds (<[fd := set_off off f]> (os_fds o)) o ->
  os_fds o !! fd = Some f -> fd' <> fd -> fd_map c !! fd' = Some p ->
  fd_redir_map c' !! fd' = fd_redir_map c !! fd' -> left_alone x c' fd' p.
Proof.
  intros E Hf Hne Hp Hr. unfold left_alone. rewrite E. split_and!; try done; cbn; [by apply lookup_insert_ne|].
  by apply set_off_readable.
Qed.

(** On a descriptor that is not tracked the system call of the node is made. *)
Lemma real_answered x fd : moves x fd -> fd_map c !! fd = None ->
  lib_app hash (se i) (with_wakes [] (dl_env d)) x c =
    Ret (plain_app x (cl_os c)).1 (upd_os (plain_app x (cl_os c)).2 c) -> answered_app x.
Proof using Hinv Hi.
  intros Hx Hn Hr. destruct caller as ([Hl _ _ _] & Hm & _).
  destruct (plain_app_moved _ x fd o (cl_os c) Hx Hn Hm) as [Ha Hm'].
  destruct (moves_step x fd (cl_os c) Hx (lo_wf _ Hl)) as (Hw & [fds Hfds] & Hread & _).
  assert (Hwo : os_wf o).
  { destruct (lo_wf _ Hl) as [W1 W2 W3]. destruct Hm as (t & fds0 & E & Hf). rewrite E in W1, W2, W3. cbn in *.
    split; [done|..]; intros j f Hj; (destruct (Hf j) as [Ej|(_ & g & off & Hg & Ej)];
      [rewrite <- Ej in Hj; by eauto|rewrite Hg in Hj; injection Hj as <-]).
    - exact (W2 j _ Ej).
    - exact (W3 j _ Ej). }
  destruct (moves_step x fd o Hx Hwo) as (_ & _ & Hread0 & Hother).
  rewrite Ha in Hr. apply (now_answered x (upd_os (plain_app x (cl_os c)).2 c)); [exact Hr|done|..].
  - split; try done; cbn.
    + apply (lib_ok_same c); cbn; try done; rewrite Hfds; try done. by apply core_ok_fds, Hl.
    + by rewrite Hfds.
    + exists (plain_app x o).2. split; [by apply after_now|done].
  - intros fd' p Hp. cbn in Hp. split_and!; try done. apply Hother. intros ->. congruence.
Qed.

(** On a tracked descriptor the server's descriptor moves, and the plain node's. *)
Lemma moved_answered x fd p rfd s s' f dd off msg w c1 c' : moves x fd ->
  fd_map c !! fd = Some p -> fd_redir_map c !! fd = Some rfd ->
  own !! (host_for hash c p, rfd) = Some (i, fd) -> srv !! host_for hash c p = Some s ->
  os_fds o !! fd = Some f -> readable o fd = Some dd -> shared servers0 p dd ->
  (plain_app x o).2 = set_fds (<[fd := set_off off f]> (os_fds o)) o ->
  lib_app hash (se i) (with_wakes [] (dl_env d)) x c = Blocked c1 ->
  cl_trace c1 = cl_trace c ++ [CForward (host_for hash c p) msg] ->
  serve n (dl_call d) msg s = Ret 0 s' -> wake_of (dl_peer d) n (new_events s s') = Some w ->
  srv_good servers0 (host_for hash c p) s' -> holds s' rfd p off -> touches rfd s s' ->
  lib_app hash (se i) (with_wakes (dl_before d ++ [w]) (dl_env d)) x c = Ret (plain_app x o).1 c' ->
  core_ok c' -> os_like (cl_os c) (cl_os c') -> fd_map c' = fd_map c -> fd_redir_map c ⊆ fd_redir_map c' ->
  timeout_counters c' = timeout_counters c -> kept c c' -> answered_app x.
Proof using Hinv Hi.
  intros Hx Ep B1 B2 B3 B5 B6 B7 Hplain Hb Ht Hrun Hw Hg Hh Htouch Hret Hcore Hlike Hf Hgrow Hcnt Hk.
  destruct caller as ([Hl _ _ _] & Hm & Hbound).
  exists c', (<[host_for hash c p := s']> srv), (S n), own. split; [by eapply exchange_waits|].
  eapply (served_inv x c' _ s s' rfd fd); try done.
  - intros v q off' Hv _. congruence.
  - split; try done.
    + by apply (lib_ok_text c).
    + by apply like_tree.
    + destruct Hlike as [p' Hp']. exists (patched p' (plain_app x o).2). split; [by apply after_now, os_like_patched|].
      rewrite Hf, Hp', Hplain. apply moved_patched; [|done]. apply moved_offset; [done|by eexists|done].
  - intros fd' q Hne Hq. rewrite Hf in Hq. apply (left_alone_offset x c' fd off f); try done.
    destruct (Hbound fd' q Hq) as (r & _ & _ & _ & Hr & _). rewrite Hr. by eapply lookup_weaken.
  - intros q. rewrite Hf, Ep. intros [= <-]. exists rfd, s', (set_off off f), dd.
    rewrite (kept_host hash _ _ p Hk), lookup_insert_eq, (lookup_weaken _ _ _ _ B1 Hgrow), Hplain.
    cbn. rewrite lookup_insert_eq, (set_off_readable fd off f) by done. by split_and!.
Qed.

Lemma sread_answered fd count buf : 0 <= count < 2 ^ 31 -> answered_app (SRead fd count buf).
Proof using Hinv Hi Hse Hd.
  intros Hcount. destruct caller as ([Hl Hh _ _] & Hm & Hb). pose proof (lo_core _ Hl) as Hc.
  destruct (transfer_effect hash (dl_env d) c (dk_env _ Hd) fd count (-1) buf Hc)
    as [[Hnone Hr]|(p & c1 & Ep & _ & Hbl & Ht & Hwait)].
  - assert (Hn : fd_map c !! fd = None) by (destruct Hnone as [?|(p & _ & Hg)]; [done|by destruct (Hh _ Hg)]).
    apply (real_answered _ fd); [done..|]. cbn [lib_app plain_app]. unfold wrap_read, ftc_remote_read. mred.
    rewrite Hr. cbn [fst snd]. change (i32 (-1) <? 0) with true. unfold real_read, sys, on_os. mred.
    destruct (posix_read fd count (cl_os c)) as [[dd|] q] eqn:Er; cbn [fst snd].
    + rewrite i32_id; [done|]. pose proof (posix_read_short _ _ _ _ _ Er). unfold in_i32. lia.
    + done.
  - destruct (Hb fd p Ep) as (rfd & s & f & dd & B1 & B2 & B3 & B4 & B5 & B6 & B7).
    pose proof (si_good _ _ _ _ _ Hinv _ _ B3) as Hg.
    destruct (serve_sread_holds servers0 _ s n (dl_call d) rfd p _ dd count fd (cl_client_rank c) Hg (dk_call _ Hd) B7 B4 Hcount)
      as (s' & Hrun & Hev & Hg' & Hholds & Htouch). rewrite <- (read_msg_bound fd count (-1) rfd B1 Hcount) in Hrun.
    set (sl := read_at dd (of_off f) count) in *.
    set (w := mk_wake (Some sl) (Some (answer_of d (Z.of_nat (length sl)))) false).
    destruct (answer_wakes (dl_before d) w (answer_of d (Z.of_nat (length sl))) (dk_before _ Hd)) as (P1 & _ & P3); [done..|].
    assert (P4 : honest sl false (dl_before d ++ [w])) by (eapply answer_wakes_read; [apply Hd|done..|by apply answer_of_ok|done]).
    destruct (Hwait _ sl P4 P3) as (v & b & c' & Hret & Hout & Hgrow & Hk & Hpr).
    destruct (Hpr _ P1) as [-> Hcnt]. cbn [answer_of rp_out] in *.
    pose proof (posix_read_at fd count f dd o B5 B6) as Hplain. fold sl in Hplain.
    assert (Hshort : Z.of_nat (length sl) < 2 ^ 31) by (by eapply posix_read_short).
    assert (b = write_front sl buf) as -> by (destruct (ro_value _ _ _ _ _ _ _ _ _ _ _ Hout) as [[? _]|[_ ->]]; [lia|done]).
    apply (moved_answered (SRead fd count buf) fd p rfd s s' f dd (of_off f + Z.of_nat (length sl)) (read_msg c fd count (-1)) w c1 c'); try done.
    + cbn. by rewrite Hplain.
    + cbn. unfold wrap_read, ftc_remote_read. mred. by rewrite Hbl.
    + by rewrite Hev, wake_of_read.
    + cbn. rewrite Hplain. unfold wrap_read, ftc_remote_read. mred. fold w. rewrite Hret. cbn [fst snd].
      rewrite i32_id by (unfold in_i32; lia). by rewrite (proj2 (Z.ltb_ge _ 0)) by lia.
    + by eapply transfer_core.
    + apply Hout.
    + apply Hout.
Qed.

Lemma sseek_answered fd offset whence : fits (SSeek fd offset whence) o -> answered_app (SSeek fd offset whence).
Proof using Hinv Hi Hse Hd.
  intros (F1 & F2 & F3). destruct caller as ([Hl _ _ _] & Hm & Hb). pose proof (lo_core _ Hl) as Hc.
  assert (Hlib : forall ws, lib_app hash (se i) (with_wakes ws (dl_env d)) (SSeek fd offset whence) c =
    (let* r := (if bool_decide (is_Some (fd_map c !! fd))
                then ftc_remote_lseek hash fd offset whence (with_wakes ws (dl_env d))
                else real_lseek fd offset whence) in mret (r, [])) c).
  { intros ws. cbn. unfold wrap_lseek, redirect_off, ftc_file_tracked. mred. destruct (co_redirect _ Hc) as [-> ->].
    cbn [orb]. rewrite !i32_id by done. by case_bool_decide. }
  destruct (fd_map c !! fd) as [p|] eqn:Ep.
  2: { apply (real_answered _ fd); [done..|]. rewrite Hlib, bool_decide_false by (by intros []).
       unfold real_lseek, sys, on_os. mred. cbn. by destruct (posix_lseek fd offset whence (cl_os c)). }
  rewrite bool_decide_true in Hlib by (by eexists).
  destruct (Hb fd p Ep) as (rfd & s & f & dd & B1 & B2 & B3 & B4 & B5 & B6 & B7).
  pose proof (si_good _ _ _ _ _ Hinv _ _ B3) as Hg.
  destruct (remote_lseek_effect hash (dl_env d) c (dk_env _ Hd) fd offset whence p Hc Ep) as (c1 & Hbl & Ht & Hwait).
  rewrite B1 in Ht. cbn [default] in Ht.
  destruct (serve_seek_holds servers0 _ s n (dl_call d) rfd p _ dd offset whence Hg (dk_call _ Hd) B7 B4)
    as (s' & Hrun & Hev & Hg' & Hholds & Htouch).
  pose proof (posix_lseek_to fd offset whence f dd o B5 B6) as Hplain. rewrite Hplain in F3. cbn [fst] in F3.
  set (v := seek_to dd (of_off f) offset whence) in *. rewrite (i32_id _ F3) in Hev.
  set (w := mk_wake None (Some (answer_of d v.1)) false).
  destruct (answer_wakes_open (dl_before d) w (answer_of d v.1) (dk_before _ Hd)) as [_ Hans]; [done..|by apply answer_of_ok|].
  destruct (Hwait _ _ Hans eq_refl) as (c' & Hret & Hos & Hf & Hgrow & Hcnt & Hcfg & Hcore).
  apply (moved_answered (SSeek fd offset whence) fd p rfd s s' f dd v.2 (RSeek (mk_seek_in rfd offset whence)) w c1 c'); try done.
  - cbn. by rewrite Hplain.
  - rewrite Hlib. mred. by rewrite Hbl.
  - by rewrite Hev, wake_of_open.
  - rewrite Hlib. mred. fold w. rewrite Hret. cbn. by rewrite Hplain.
  - injection Hcfg as E1 E2 _ _ _ _. by apply (kept_counters false 0).
Qed.

(** ** Any call *)

Lemma app_answered x : fits x o -> answered_app x.
Proof using Hinv Hi Hse Hd.
  destruct x as [[path|fd count offset buf|fd]|fd count buf|fd offset whence]; intros Hf.
  - by apply open_answered.
  - by apply pread_answered; apply Hf.
  - by apply close_answered.
  - by apply sread_answered.
  - by apply sseek_answered.
Qed.

End Calls.

End SessionCalls.
