(* ===== verification/SessionProps.v ===== *)
(** * The library is transparent to sessions

    The theorem about [Session], and a session of one application and one
    server. *)

From S2P Require Import Prelude CString HexDump Address Posix LogInfo Server ServerSpec ServerProps.
From S2P Require Import DataMover ServerInv ServerThreads.
From S2P Require Import Client Wrappers ClientSpec ClientInv ClientProps Transparency ClientWire Cluster ClusterInv ClusterProps.
From S2P Require Import Session SessionServer SessionInv SessionCalls.
Import Address Posix LogInfo Client Wrappers ClientSpec ClientInv ClientProps Transparency ClientWire.
Import ClusterInv(shared, mounted).
Import Server(server, srv_os, addr_ok, srv_bulk) ServerInv(server_inv, inv_from).
Import Session SessionServer SessionInv SessionCalls.

Module SessionProps.

(** Every application starts with no tracked descriptor, on a healthy node, its
    own node as the plain one; the
    servers of all the ranks run, on healthy storage, and have the files it will
    hand to them. *)
Definition session_start (apps0 : gmap nat client) (servers0 : gmap Z server) : session :=
  mk_session ((fun c => (c, cl_os c, [])) <$> apps0) servers0 0.

Record session_ok (apps0 : gmap nat client) (servers0 : gmap Z server) : Prop := {
  st_lib : forall i c, apps0 !! i = Some c -> lib_ok c;
  st_untracked : forall i c, apps0 !! i = Some c -> fd_map c = ∅;
  st_healthy : forall i c, apps0 !! i = Some c -> Forall (fun k => k < TIMEOUT_LIMIT) (timeout_counters c);
  st_mounted : forall i c, apps0 !! i = Some c -> mounted servers0 c;
  st_served : forall i c H, apps0 !! i = Some c -> 0 <= H < g_ftc_server_count c -> is_Some (servers0 !! H);
  st_server : forall H s, servers0 !! H = Some s -> server_inv s /\ addr_ok s /\ srv_bulk s = ∅ /\ os_bad (srv_os s) = ∅
}.

Section Reachable.
Context (hash : string -> Z) (se : nat -> self_env) (nvme : Z -> string).
Context (apps0 : gmap nat client) (servers0 : gmap Z server).
Context (Hse : forall i, printable (se_addr_buffer (se i))) (Hok : session_ok apps0 servers0).

Lemma start_session_inv : session_inv hash apps0 servers0 ∅ (session_start apps0 servers0).
Proof using Hok.
  destruct Hok as [O1 O2 O3 O4 O5 O6]. split; cbn; [|intros H s Hs|done].
  - intros i c o l Hc. apply lookup_fmap_Some in Hc as (c' & [= <- <- <-] & Hc). split.
    + split; [by eapply O1| |by eapply O4|by eauto]. intros h (k & Hk & Hl).
      pose proof (O3 _ _ Hc) as Hall. rewrite Forall_forall in Hall.
      specialize (Hall k (list_elem_of_lookup_2 _ _ _ Hk)). lia.
    + exists c'. split; [done|]. by apply pr_nil.
    + apply moved_refl.
    + intros fd p. by rewrite (O2 _ _ Hc), lookup_empty.
  - destruct (O6 H s Hs) as (S1 & S2 & S3 & S4). split; [|done..]. exists s. by split_and!.
Qed.

Lemma sstep_inv own s s' : session_inv hash apps0 servers0 own s -> sstep hash se nvme s s' ->
  exists own', session_inv hash apps0 servers0 own' s'.
Proof using Hse.
  intros Hinv Hst. revert Hinv.
  destruct Hst as [i c l o x d a c' o' apps srv srv' n n' Hi Hf Hd He Ha Hdom|H s1 s2 apps srv n Hs Hr]; intros Hinv.
  - destruct (app_answered hash se apps0 servers0 Hse own apps srv n i c l o d Hinv Hi Hd x Hf)
      as (c2 & srv2 & n2 & own' & He2 & _ & Hinv'). rewrite He in He2. injection He2 as -> -> -> ->.
    exists own'. by apply Hinv'.
  - exists own. by eapply session_mover.
Qed.

Lemma session_reachable s : rtc (sstep hash se nvme) (session_start apps0 servers0) s ->
  exists own, session_inv hash apps0 servers0 own s.
Proof using Hse Hok.
  intros Hr. assert (exists own, session_inv hash apps0 servers0 own (session_start apps0 servers0)) as Hs
    by (eexists; apply start_session_inv).
  induction Hr as [s|s1 s2 s3 H12 _ IH]; [done|]. apply IH. destruct Hs as [own Hs]. by eapply sstep_inv.
Qed.

End Reachable.

End SessionProps.
Import SessionProps.

(** C2: the library is transparent to sessions.  Applications open files for
    reading, read them sequentially and at offsets, seek and close, each through
    its client, on servers they share, while the data movers copy and publish
    files; every request of every application is served and answered in time, and
    every count, offset and position of a call fits the 32-bit field the request
    or the answer has for it.  Then their calls have returned what they would
    have returned without the library, on nodes where as many descriptors are
    taken between the calls as the library takes; and the exchange of every
    further call that fits succeeds and returns what the call would return
    without the library: a read goes on where the last read or seek of its
    descriptor left off, on the server as it would on the node. *)
Theorem session_transparent hash se nvme apps0 servers0 s i c o l :
  session_ok apps0 servers0 -> (forall j, printable (se_addr_buffer (se j))) ->
  rtc (sstep hash se nvme) (session_start apps0 servers0) s -> ss_apps s !! i = Some (c, o, l) ->
  (exists c0, apps0 !! i = Some c0 /\ app_run (cl_os c0) l o) /\
  forall x d, fits x o -> delivery_ok d -> exists c' o' srv' n',
    exchange hash d (se i) x c (ss_next s) (ss_servers s) = Some ((plain_app x o).1, c', srv', n') /\
    after_app x o o' /\ dom (os_fds o') = dom (os_fds (cl_os c')).
Proof.
  intros Hok Hse Hr Hi. destruct (session_reachable hash se nvme apps0 servers0 Hse Hok s Hr) as [own Hinv].
  split; [by apply (si_apps _ _ _ _ _ Hinv i c o l Hi)|].
  intros x d Hf Hd. destruct s as [apps srv n].
  destruct (app_answered hash se apps0 servers0 Hse own apps srv n i c l o d Hinv Hi Hd x Hf)
    as (c' & srv' & n' & own' & He & (o' & Ha & Hdom) & _). by exists c', o', srv', n'.
Qed.

(** ** A session of one application *)

Module SessionExample.
Import ServerProps.ServerExample ClientExample TransparencyExample ClusterExample.

Definition delivery0 : delivery := mk_delivery (env []) call0 [mk_wake None None false] addr_s.

(** The plain node takes what the library's node has more of. *)
Definition taken_like (c : client) (o : os) : os :=
  patched (os_text o, (size (dom (os_fds (cl_os c))) - size (dom (os_fds o)))%nat) o.

Definition ss_run (x : app_call) (s : session) : option session :=
  '(c, o, l) ← ss_apps s !! 0%nat;
  '(a, c', srv', n') ← exchange hash0 delivery0 (se0 0) x c (ss_next s) (ss_servers s);
  let o' := taken_like c' (plain_app x o).2 in
  if decide (dom (os_fds o') = dom (os_fds (cl_os c'))) then
    Some (mk_session (<[0%nat := (c', o', l ++ [(x, a)])]> (ss_apps s)) srv' n')
  else None.

Definition ss0 : session := session_start {[0%nat := cl_t]} {[0 := srv0]}.
Definition ss1 : session := Eval vm_compute in default ss0 (ss_run (SCall (XOpen "/pfs/f")) ss0).
Definition ss2 : session := Eval vm_compute in default ss0 (ss_run (SRead 3 2 buf3) ss1).
Definition ss3 : session := Eval vm_compute in default ss0 (ss_run (SSeek 3 (-1) SEEK_CUR) ss2).
Definition app3 : client * os * list (app_call * answer) := Eval vm_compute in default (cl_t, os_t, []) (ss_apps ss3 !! 0%nat).

Lemma delivery0_ok : delivery_ok delivery0.
Proof. split; [apply env_is_ok|exact call0_ok|by repeat constructor|vm_compute; by eexists]. Qed.

Lemma session0_ok : session_ok {[0%nat := cl_t]} {[0 := srv0]}.
Proof.
  destruct start_is_ok as [A1 A2 A3 A4 A5]. split; try done.
  - intros i c [_ <-]%lookup_singleton_Some. by repeat constructor.
  - intros i c H [_ <-]%lookup_singleton_Some. cbn. intros ?. assert (H = 0) as -> by lia. by eexists.
  - intros H s [_ <-]%lookup_singleton_Some. split_and!; [exact srv0_inv|exact srv0_addr|done..].
Qed.

Lemma ss_run_sound x s s' c o l : ss_apps s !! 0%nat = Some (c, o, l) ->
  fits x o -> ss_run x s = Some s' -> sstep hash0 se0 nvme0 s s'.
Proof.
  intros Hi Hf Hr. destruct s as [apps srv n]. unfold ss_run in Hr. rewrite Hi in Hr. cbn [mbind option_bind ss_apps] in Hr.
  apply bind_Some in Hr as ([[[a c'] srv'] n'] & He & Hr). case_decide as Hd; [|done]. injection Hr as <-.
  eapply ss_call; [exact Hi|exact Hf|exact delivery0_ok|exact He| |exact Hd]. apply after_now, os_like_patched.
Qed.

Lemma ss3_reached : rtc (sstep hash0 se0 nvme0) ss0 ss3.
Proof.
  eapply (rtc_l _ _ ss1); [|eapply (rtc_l _ _ ss2); [|apply rtc_once]].
  - by eapply (ss_run_sound (SCall (XOpen "/pfs/f"))); [by vm_compute| |by vm_compute].
  - by eapply (ss_run_sound (SRead 3 2 buf3)); [by vm_compute|by vm_compute|by vm_compute].
  - by eapply (ss_run_sound (SSeek 3 (-1) SEEK_CUR)); [by vm_compute|by vm_compute|by vm_compute].
Qed.

End SessionExample.
Import SessionExample ServerProps.ServerExample ClientExample TransparencyExample ClusterExample.

(** The application has read "AB" and gone back one byte; the next read of two
    bytes gives "BC". *)
Lemma session_transparent_witness :
  exists c' srv' n', exchange hash0 delivery0 (se0 0) (SRead 3 2 buf3) app3.1.1 (ss_next ss3) (ss_servers ss3) =
    Some ((2, [Byte.x42; Byte.x43; Byte.x00]), c', srv', n').
Proof.
  destruct (session_transparent hash0 se0 nvme0 {[0%nat := cl_t]} {[0 := srv0]} ss3 0%nat app3.1.1 app3.1.2 app3.2)
    as [_ Hx].
  - exact session0_ok.
  - exact se0_printable.
  - exact ss3_reached.
  - by vm_compute.
  - destruct (Hx (SRead 3 2 buf3) delivery0) as (c' & o' & srv' & n' & E & _); [by vm_compute|exact delivery0_ok|].
    exists c', srv', n'. rewrite E. by vm_compute.
Defined.
