(* ===== verification/ClientThreads.v ===== *)
(** * Many threads in one client

    The application's threads call the library at the same time, and Mercury's
    progress thread runs the callbacks.  A call is cut where the code lets go:
    the look at the host's counter is one critical section of [timeout_mutex],
    the sending that follows is not in it, and the wait ends in another.  Each
    step of the relation is one piece, so every interleaving is a path.  The
    [std::map]s of the library have no lock; their accesses are taken to be
    atomic here, and [warm_threads_share_nothing] says when no thread writes
    them.  Bytes and answers are steps while their call waits; those that come
    later are the business of [ClientFrames.tlate]. *)

From S2P Require Import Prelude CString HexDump Address Posix LogInfo Server ServerSpec.
From S2P Require Import Client Wrappers ClientSpec ClientInv ClientProps.
Import Address Posix LogInfo Client Wrappers ClientSpec ClientInv.
Import ServerSpec(rpc, ROpen, RRead, RSeek, RClose).

Module ClientThreads.

(** ** The pieces of the calls *)

Section Pieces.
Context (hash : string -> Z).

(** [ftc_track_file]: the decision, the entry in the table and the start of
    Mercury; is the file tracked? *)
Definition open_track (path : string) (flags fd : Z) (se : self_env) : C bool :=
  match find_sub (of_string ".ports.cfg.") (of_string path) with
  | Some _ => mret false
  | None =>
  if Z.land flags O_ACCMODE =? O_WRONLY then mret false
  else if has_flag flags O_APPEND then mret false
  else
  let* d := gets (fun c => track_decision c path) in
  match d with
  | None => mret false
  | Some canon =>
      modify (fun c => upd_fd_map (<[fd := canon]> (fd_map c)) c);;
      start_mercury se;;
      mret true
  end
  end.

(** ... then the host and its counter, up to the end of the first critical
    section: the host to ask, if there is one. *)
Definition open_test (fd : Z) : C (option Z) :=
  let* host := host_of hash fd in
  let* skip := skip_host host in
  mret (if skip : bool then None else Some host).

Definition open_send (fd host : Z) (e : cl_env) : C nat :=
  let* id := push_frame [] in
  let* p := fd_map_at fd in
  ftc_client_comm_gen_open_rpc host p fd id e;;
  mret id.

(** [ftc_remote_read] and [ftc_remote_pread], in the same way. *)
Definition read_check (fd : Z) : C (option Z) :=
  let* tracked := ftc_file_tracked fd in
  if negb tracked then mret None
  else
    let* host := host_of hash fd in
    let* skip := skip_host host in
    mret (if skip : bool then None else Some host).

Definition read_send (fd count offset : Z) (buf : list byte) (host : Z) (e : cl_env) : C nat :=
  let* id := push_frame buf in
  ftc_client_comm_gen_read_rpc host fd count offset id e;;
  mret id.

(** [ftc_remote_lseek] up to its wait: has it sent? *)
Definition seek_send (fd offset whence : Z) (e : cl_env) : C bool :=
  let* tracked := ftc_file_tracked fd in
  if negb tracked then mret false
  else
    let* host := host_of hash fd in
    ftc_client_comm_gen_seek_rpc host fd offset whence e;;
    mret true.

(** The end of a wait: the flag is set, or the deadline has passed. *)
Definition wait_done (id : nat) : C frame :=
  let* f := frame_of id in
  if fr_done f then pop_frame id;; mret f else block.

Definition wait_timeout (host : Z) (id : nat) : C frame :=
  inc_counter host;;
  let* f := frame_of id in
  pop_frame id;;
  mret f.

(** The calls of [Client] are these pieces in sequence. *)
Lemma track_file_pieces path flags fd se e :
  ftc_track_file hash path flags fd se e ≡
  (let* tracked := open_track path flags fd se in
   if tracked : bool then
     let* h := open_test fd in
     match h with
     | None => mret false
     | Some host =>
         let* id := open_send fd host e in
         ftc_client_block host id (ce_wakes e);;
         pop_frame id;;
         mret true
     end
   else mret false).
Proof.
  unfold ftc_track_file, open_track, open_test, open_send, C. destruct (find_sub _ _); [by rewrite ret_bind|].
  do 2 (case_match; [by rewrite ret_bind|]).
  rewrite bind_assoc. f_equiv. intros [canon|]; [|by rewrite ret_bind].
  do 2 (rewrite bind_assoc; f_equiv; intros ?). rewrite ret_bind.
  repeat (rewrite bind_assoc; f_equiv; intros ?). rewrite ret_bind. case_match; [done|].
  repeat (rewrite bind_assoc; f_equiv; intros ?). by rewrite ret_bind.
Qed.

Lemma transfer_pieces fd count offset buf e :
  remote_transfer hash fd count offset buf e ≡
  (let* h := read_check fd in
   match h with
   | None => mret (-1, buf)
   | Some host =>
       let* id := read_send fd count offset buf host e in
       let* n := ftc_read_block host id (ce_wakes e) in
       let* f := frame_of id in
       pop_frame id;;
       mret (n, fr_buf f)
   end).
Proof.
  unfold remote_transfer, read_check, read_send, C. rewrite bind_assoc. f_equiv. intros tr.
  destruct (negb tr); [by rewrite ret_bind|].
  repeat (rewrite bind_assoc; f_equiv; intros ?). rewrite ret_bind. case_match; [done|].
  repeat (rewrite bind_assoc; f_equiv; intros ?). by rewrite ret_bind.
Qed.

Lemma lseek_pieces fd offset whence e :
  ftc_remote_lseek hash fd offset whence e ≡
  (let* s := seek_send fd offset whence e in
   if s : bool then ftc_seek_block (ce_wakes e) else mret (-1)).
Proof.
  unfold ftc_remote_lseek, seek_send, C. rewrite bind_assoc. f_equiv. intros tr.
  destruct (negb tr); [by rewrite ret_bind|].
  repeat (rewrite bind_assoc; f_equiv; intros ?). by rewrite ret_bind.
Qed.

End Pieces.

(** ** The steps *)

(** Where a thread is: an open that has entered its file in the table, a call
    that has passed the test and not sent yet, a call that waits with its frame,
    or a seek that waits. *)
Inductive tstate : Type :=
  | TIdle
  | TTracked (fd : Z)
  | TOpening (fd host : Z)
  | TOpenWait (host : Z) (id : nat)
  | TReading (fd count offset : Z) (buf : list byte) (host : Z)
  | TReadWait (host : Z) (id : nat)
  | TSeeking.

(** What has happened: a call was sent, bytes arrived in its buffer, it was
    answered, and it returned; a seek returned. *)
Inductive tevent : Type :=
  | ESent (t id : nat) (buf : list byte)
  | EPushed (id : nat) (d : list byte)
  | EAnswered (id : nat) (r : reply)
  | EReturned (t id : nat) (n : Z) (buf : list byte)
  | ESeekReturned (t : nat) (n : Z).

Record threads : Type := mk_threads {
  tn_client : client; tn_threads : list tstate;
  tn_seeks : nat;                                  (* seeks in flight *)
  tn_hist : list tevent
}.

(** To which call a step belongs. *)
Inductive label : Type := LOpen | LRead | LSeekSend | LSeekWait | LClose.

Definition after_open (fd : Z) (r : option Z) : tstate :=
  match r with Some host => TOpening fd host | None => TIdle end.
Definition after_read (fd count offset : Z) (buf : list byte) (r : option Z) : tstate :=
  match r with Some host => TReading fd count offset buf host | None => TIdle end.

Section Steps.
Context (hash : string -> Z).

Inductive tstep : label -> threads -> threads -> Prop :=
  | t_open_track t path flags fd se c (b : bool) c' ts n h :
      ts !! t = Some TIdle -> open_track path flags fd se c = Ret b c' ->
      tstep LOpen (mk_threads c ts n h) (mk_threads c' (<[t := if b then TTracked fd else TIdle]> ts) n h)
  | t_open_test t fd c r c' ts n h :
      ts !! t = Some (TTracked fd) -> open_test hash fd c = Ret r c' ->
      tstep LOpen (mk_threads c ts n h) (mk_threads c' (<[t := after_open fd r]> ts) n h)
  | t_open_send t fd host e c id c' ts n h :
      ts !! t = Some (TOpening fd host) -> open_send fd host e c = Ret id c' ->
      tstep LOpen (mk_threads c ts n h) (mk_threads c' (<[t := TOpenWait host id]> ts) n (h ++ [ESent t id []]))
  | t_open_answer t host id r c c' ts n h :
      ts !! t = Some (TOpenWait host id) -> ftc_open_cb id r c = Ret tt c' ->
      tstep LOpen (mk_threads c ts n h) (mk_threads c' ts n h)
  | t_open_return t host id c f c' ts n h :
      ts !! t = Some (TOpenWait host id) -> wait_done id c = Ret f c' ->
      tstep LOpen (mk_threads c ts n h) (mk_threads c' (<[t := TIdle]> ts) n h)
  | t_open_timeout t host id c f c' ts n h :
      ts !! t = Some (TOpenWait host id) -> wait_timeout host id c = Ret f c' ->
      tstep LOpen (mk_threads c ts n h) (mk_threads c' (<[t := TIdle]> ts) n h)
  | t_read_check t fd count offset buf c r c' ts n h :
      ts !! t = Some TIdle -> read_check hash fd c = Ret r c' ->
      tstep LRead (mk_threads c ts n h) (mk_threads c' (<[t := after_read fd count offset buf r]> ts) n h)
  | t_read_send t fd count offset buf host e c id c' ts n h :
      ts !! t = Some (TReading fd count offset buf host) ->
      read_send fd count offset buf host e c = Ret id c' ->
      tstep LRead (mk_threads c ts n h) (mk_threads c' (<[t := TReadWait host id]> ts) n (h ++ [ESent t id buf]))
  | t_read_push t host id d c c' ts n h :
      ts !! t = Some (TReadWait host id) -> write_frame id (set_buf d) c = Ret tt c' ->
      tstep LRead (mk_threads c ts n h) (mk_threads c' ts n (h ++ [EPushed id d]))
  | t_read_answer t host id r c c' ts n h :
      ts !! t = Some (TReadWait host id) -> ftc_read_cb id r c = Ret tt c' ->
      tstep LRead (mk_threads c ts n h) (mk_threads c' ts n (h ++ [EAnswered id r]))
  | t_read_return t host id c f c' ts n h :
      ts !! t = Some (TReadWait host id) -> wait_done id c = Ret f c' ->
      tstep LRead (mk_threads c ts n h)
        (mk_threads c' (<[t := TIdle]> ts) n (h ++ [EReturned t id (fr_bytes f) (fr_buf f)]))
  | t_read_timeout t host id c f c' ts n h :
      ts !! t = Some (TReadWait host id) -> wait_timeout host id c = Ret f c' ->
      tstep LRead (mk_threads c ts n h)
        (mk_threads c' (<[t := TIdle]> ts) n (h ++ [EReturned t id (-1) (fr_buf f)]))
  | t_seek_send t fd offset whence e c (b : bool) c' ts n h :
      ts !! t = Some TIdle -> seek_send hash fd offset whence e c = Ret b c' ->
      tstep LSeekSend (mk_threads c ts n h)
        (mk_threads c' (<[t := if b then TSeeking else TIdle]> ts) (if b then S n else n) h)
  | t_seek_answer r c c' ts n h :
      ftc_seek_cb r c = Ret tt c' ->
      tstep LSeekWait (mk_threads c ts (S n) h) (mk_threads c' ts n h)
  | t_seek_return t c ts n h :
      ts !! t = Some TSeeking -> seek_done c = HG_TRUE ->
      tstep LSeekWait (mk_threads c ts n h)
        (mk_threads c (<[t := TIdle]> ts) n (h ++ [ESeekReturned t (read_ret c)]))
  | t_close t fd e c b c' ts n h :
      ts !! t = Some TIdle -> ftc_remove_fd hash fd e c = Ret b c' ->
      tstep LClose (mk_threads c ts n h) (mk_threads c' ts n h).

(** A step of some call, and of the calls a test allows. *)
Definition tsteps (allowed : label -> Prop) (s s' : threads) : Prop :=
  exists l, allowed l /\ tstep l s s'.
Definition any (l : label) : Prop := True.

(** Threads that have not called yet. *)
Definition tstart (c : client) (n : nat) : threads := mk_threads c (replicate n TIdle) 0 [].

(** ** The counters *)

(** A thread that may still add a timeout to the counter of [h]. *)
Definition pends (h : Z) (x : tstate) : nat :=
  match x with
  | TOpening _ host | TOpenWait host _ | TReading _ _ _ _ host | TReadWait host _ =>
      if decide (Z.to_nat host = Z.to_nat h) then 1 else 0
  | TIdle | TTracked _ | TSeeking => 0
  end.

Fixpoint pending (h : Z) (ts : list tstate) : nat :=
  match ts with [] => 0 | x :: ts' => pends h x + pending h ts' end.

Lemma pends_le h x : (pends h x <= 1)%nat.
Proof. destruct x; cbn; repeat case_decide; lia. Qed.

Lemma pending_le h ts : (pending h ts <= length ts)%nat.
Proof. induction ts as [|x ts IH]; cbn; [lia|]. pose proof (pends_le h x). lia. Qed.

Lemma pending_insert h ts t x y : ts !! t = Some x ->
  (pending h (<[t := y]> ts) + pends h x = pending h ts + pends h y)%nat.
Proof.
  revert t. induction ts as [|z ts IH]; intros [|t] Ht; try done.
  - injection Ht as ->. cbn. lia.
  - specialize (IH t Ht). change (<[S t := y]> (z :: ts)) with (z :: <[t := y]> ts). cbn [pending]. lia.
Qed.

Lemma pending_idle h n : pending h (replicate n TIdle) = 0%nat.
Proof. by induction n. Qed.

(** The sum of a counter and the calls that may add to it. *)
Definition room (ts : list tstate) (l : list Z) : Prop :=
  forall h k, l !! Z.to_nat h = Some k ->
    0 <= k /\ k + Z.of_nat (pending h ts) <= TIMEOUT_LIMIT - 1 + Z.of_nat (length ts).

Lemma room_resize ts m l : room ts l -> room ts (resize m 0 l).
Proof.
  intros Hr h k Hk. set (i := Z.to_nat h) in *. destruct (decide (i < m)%nat).
  - destruct (decide (i < length l)%nat).
    + rewrite lookup_resize in Hk by done. by apply Hr.
    + rewrite lookup_resize_new in Hk by lia. injection Hk as <-.
      pose proof (pending_le h ts). unfold TIMEOUT_LIMIT. lia.
  - by rewrite lookup_resize_old in Hk by lia.
Qed.

(** A call passes the test. *)
Lemma room_enter ts l t x y host k :
  room ts l -> ts !! t = Some x -> (forall h, pends h x = 0%nat) -> l !! Z.to_nat host = Some k -> k < TIMEOUT_LIMIT ->
  (forall h, Z.to_nat h <> Z.to_nat host -> pends h y = 0%nat) -> room (<[t := y]> ts) l.
Proof.
  intros Hr Ht Hx Hk Hlt Hy h k' Hk'. rewrite length_insert.
  pose proof (pending_insert h ts t x y Ht) as Hp. rewrite (Hx h) in Hp.
  destruct (Hr h k' Hk') as [H0 Hle]. split; [done|].
  destruct (decide (Z.to_nat h = Z.to_nat host)) as [E|Hne].
  - rewrite E, Hk in Hk'. injection Hk' as <-.
    pose proof (pending_le h (<[t := y]> ts)) as Hq. rewrite length_insert in Hq. lia.
  - rewrite (Hy h Hne) in Hp. lia.
Qed.

(** A call goes on, or ends. *)
Lemma room_move ts l t x y :
  room ts l -> ts !! t = Some x -> (forall h, (pends h y <= pends h x)%nat) -> room (<[t := y]> ts) l.
Proof.
  intros Hr Ht Hy h k Hk. rewrite length_insert.
  pose proof (pending_insert h ts t x y Ht). specialize (Hy h).
  destruct (Hr h k Hk) as [H0 Hle]. split; [done|]. lia.
Qed.

(** A call ends with a timeout. *)
Lemma room_timeout ts l t x host k :
  room ts l -> ts !! t = Some x -> pends host x = 1%nat -> l !! Z.to_nat host = Some k ->
  room (<[t := TIdle]> ts) (<[Z.to_nat host := k + 1]> l).
Proof.
  intros Hr Ht Hx Hk h k' Hk'. rewrite length_insert.
  pose proof (pending_insert h ts t x TIdle Ht) as Hp. cbn [pends] in Hp.
  destruct (decide (Z.to_nat h = Z.to_nat host)) as [E|Hne].
  - rewrite E, list_lookup_insert_eq in Hk' by (by eapply lookup_lt_Some). injection Hk' as <-.
    destruct (Hr h k) as [H0 Hle]; [by rewrite E|].
    assert (Hx' : pends h x = 1%nat) by (destruct x; cbn in *; try done; rewrite E; exact Hx).
    split; lia.
  - rewrite list_lookup_insert_ne in Hk' by done. destruct (Hr h k' Hk') as [H0 Hle]. split; [done|]. lia.
Qed.

(** A test that lets a call pass has seen the counter below the limit. *)
Definition passed (r : option Z) (c : client) : Prop :=
  match r with
  | Some host => exists k, timeout_counters c !! Z.to_nat host = Some k /\ k < TIMEOUT_LIMIT
  | None => True
  end.

Lemma skip_host_passed host c r c' :
  (let* skip := skip_host host in mret (if skip : bool then None else Some host)) c = Ret r c' ->
  c' = c /\ passed r c.
Proof.
  intros H. apply bind_inv in H as (b & c1 & H1 & H). unfold skip_host, counter in H1. mred_in H1.
  destruct (host <? 0); [done|]. destruct (timeout_counters c !! Z.to_nat host) as [n|] eqn:En; [|done].
  simplify_eq. mred_in H. simplify_eq. split; [done|].
  destruct (TIMEOUT_LIMIT <=? n) eqn:E; [done|]. zbool. by exists n.
Qed.

Section Checks.
Context (P : list Z -> Prop).

Lemma host_test_counters fd :
  triple (on_counters P)
    (let* host := host_of hash fd in
     let* skip := skip_host host in mret (if skip : bool then None else Some host))
    (fun r c' => on_counters P c' /\ passed r c').
Proof.
  eapply triple_bind; [apply keeps_host_of, _|]. intros host c r c' Hc H.
  destruct (skip_host_passed _ _ _ _ H) as [-> Hp]. by split.
Qed.

Lemma read_check_counters fd :
  triple (on_counters P) (read_check hash fd) (fun r c' => on_counters P c' /\ passed r c').
Proof.
  unfold read_check. eapply triple_bind; [apply preserves_gets|]. intros tr.
  destruct (negb tr); [by intros c r c' Hc [= <- <-]|]. apply host_test_counters.
Qed.

Lemma open_test_counters fd :
  triple (on_counters P) (open_test hash fd) (fun r c' => on_counters P c' /\ passed r c').
Proof. apply host_test_counters. Qed.

Lemma open_track_counters path flags fd se : (forall m l, P l -> P (resize m 0 l)) ->
  preserves (on_counters P) (open_track path flags fd se).
Proof.
  intros HP. unfold open_track. destruct (find_sub _ _); [apply preserves_ret|]. do 2 (case_match; [apply preserves_ret|]).
  apply preserves_bind; [apply preserves_gets|]. intros [canon|]; [|apply preserves_ret].
  apply preserves_bind; [apply preserves_modify; intros c Hc; exact Hc|]. intros ?.
  apply preserves_bind; [by apply start_mercury_on_counters|]. intros ?. apply preserves_ret.
Qed.

End Checks.

(** *** What the other pieces keep *)

Section KeepsPieces.
Context (J : client -> Prop) `{!Stable J}.

Lemma keeps_open_send fd host e : preserves J (open_send fd host e).
Proof.
  pose proof (keeps_push_frame J). pose proof (keeps_fd_map_at J). pose proof (keeps_gen_open J).
  unfold open_send. keep.
Qed.

Lemma keeps_read_send fd count off buf host e : preserves J (read_send fd count off buf host e).
Proof. pose proof (keeps_push_frame J). pose proof (keeps_gen_read J). unfold read_send. keep. Qed.

Lemma keeps_seek_send fd off wh e : preserves J (seek_send hash fd off wh e).
Proof.
  unfold seek_send. apply preserves_bind; [apply preserves_gets|]. intros tr.
  destruct (negb tr); [apply preserves_ret|]. apply preserves_bind; [apply keeps_host_of, _|]. intros host.
  apply preserves_bind; [apply keeps_gen_seek, _|]. intros _. apply preserves_ret.
Qed.

Lemma keeps_wait_done id : preserves J (wait_done id).
Proof. pose proof (keeps_frame_of J). pose proof (keeps_pop_frame J). unfold wait_done. keep. Qed.

End KeepsPieces.

Lemma wait_timeout_counters host id c f c' : wait_timeout host id c = Ret f c' ->
  exists k, timeout_counters c !! Z.to_nat host = Some k /\
    timeout_counters c' = <[Z.to_nat host := k + 1]> (timeout_counters c).
Proof.
  intros H. unfold wait_timeout in H. apply bind_inv in H as (u & c1 & H1 & H).
  unfold inc_counter, counter in H1. mred_in H1. destruct (host <? 0); [done|].
  destruct (timeout_counters c !! Z.to_nat host) as [k|] eqn:Ek; [|done].
  destruct (k =? 2 ^ 31 - 1); [done|]. injection H1 as _ <-. exists k. split; [done|].
  set (l := <[Z.to_nat host := k + 1]> (timeout_counters c)) in *.
  assert (Hl : on_counters (eq l) (upd_counters l c)) by done.
  apply bind_inv in H as (f' & c2 & H2 & H). apply (keeps_frame_of (on_counters (eq l))) in H2; [|done].
  apply bind_inv in H as (u' & c3 & H3 & H). apply (keeps_pop_frame (on_counters (eq l))) in H3; [|done].
  mred_in H. injection H as _ <-. by rewrite H3.
Qed.

Definition counters_room (s : threads) : Prop := room (tn_threads s) (timeout_counters (tn_client s)).

(** A piece that does not touch the counters. *)
Lemma room_kept {A} (m : C A) ts c a c' :
  (forall P, preserves (on_counters P) m) -> m c = Ret a c' ->
  room ts (timeout_counters c) -> room ts (timeout_counters c').
Proof. intros Hm H Hr. exact (Hm (room ts) _ _ _ Hr H). Qed.

Lemma pends_other host y h : (y = TIdle \/ exists fd, y = TOpening fd host) \/
    (exists fd n o b, y = TReading fd n o b host) ->
  Z.to_nat h <> Z.to_nat host -> pends h y = 0%nat.
Proof.
  intros [[->|[fd ->]]|(fd & n & o & b & ->)] Hh; cbn; [done|..]; by rewrite decide_False by congruence.
Qed.

Lemma room_test ts t c r x y :
  room ts (timeout_counters c) -> passed r c -> ts !! t = Some x -> (forall h, pends h x = 0%nat) ->
  match r with
  | Some host => (exists fd, y = TOpening fd host) \/ (exists fd n o b, y = TReading fd n o b host)
  | None => y = TIdle
  end -> room (<[t := y]> ts) (timeout_counters c).
Proof.
  intros Hr Hp Ht Hx Hy. destruct r as [host|].
  - destruct Hp as (k & Hk & Hlt). eapply room_enter; try done. intros h. apply pends_other. tauto.
  - subst y. eapply room_move; [done..|]. intros h. cbn. lia.
Qed.

Lemma tstep_room l s s' : tstep l s s' -> counters_room s -> counters_room s'.
Proof.
  unfold counters_room. intros []; cbn [tn_threads tn_client]; intros Hr.
  - eapply room_move; [|done|by destruct b]. exact (open_track_counters (room ts) path flags fd se (room_resize ts) _ _ _ Hr H0).
  - destruct (open_test_counters (room ts) fd _ _ _ Hr H0) as [Hr' Hp].
    eapply room_test; [done..|]. destruct r; [by left; exists fd|done].
  - eapply room_move; [|done|done]. eapply room_kept; [|done..]. intros P. apply keeps_open_send, _.
  - eapply room_kept; [|done..]. intros P. apply keeps_open_cb, _.
  - eapply room_move; [|done|]; [|intros ?; cbn; lia]. eapply room_kept; [|done..]. intros P. apply keeps_wait_done, _.
  - destruct (wait_timeout_counters _ _ _ _ _ H0) as (k & Hk & ->).
    eapply room_timeout; try done. cbn. by rewrite decide_True.
  - destruct (read_check_counters (room ts) fd _ _ _ Hr H0) as [Hr' Hp].
    eapply room_test; [done..|]. destruct r; [right; by repeat eexists|done].
  - eapply room_move; [|done|done]. eapply room_kept; [|done..]. intros P. apply keeps_read_send, _.
  - eapply room_kept; [|done..]. intros P. apply keeps_write_frame, _.
  - eapply room_kept; [|done..]. intros P. apply keeps_read_cb, _.
  - eapply room_move; [|done|]; [|intros ?; cbn; lia]. eapply room_kept; [|done..]. intros P. apply keeps_wait_done, _.
  - destruct (wait_timeout_counters _ _ _ _ _ H0) as (k & Hk & ->).
    eapply room_timeout; try done. cbn. by rewrite decide_True.
  - eapply room_move; [|done|by destruct b]. eapply room_kept; [|done..]. intros P. apply keeps_seek_send, _.
  - eapply room_kept; [|done..]. intros P. apply keeps_seek_cb, _.
  - eapply room_move; [done..|]. done.
  - eapply room_kept; [|done..]. intros P. apply keeps_remove_fd, _.
Qed.

(** An invariant of the steps holds in every reachable state. *)
Lemma tsteps_invariant (I : threads -> Prop) allowed s s' :
  (forall l s1 s2, allowed l -> tstep l s1 s2 -> I s1 -> I s2) -> rtc (tsteps allowed) s s' -> I s -> I s'.
Proof. intros HI Hr. induction Hr as [|s1 s2 s3 (l & Hl & Hs) _ IH]; [done|]. eauto. Qed.

(** No thread starts or ends. *)
Lemma tsteps_length c n s : rtc (tsteps any) (tstart c n) s -> length (tn_threads s) = n.
Proof.
  intros Hr. apply (tsteps_invariant (fun s => length (tn_threads s) = n) any) in Hr; [done| |].
  - intros l s1 s2 _ [] E; cbn in *; by rewrite ?length_insert.
  - cbn. by rewrite length_replicate.
Qed.

(** A path grows at its front. *)
Lemma tsteps_one l s1 s2 s3 : tstep l s1 s2 -> rtc (tsteps any) s2 s3 -> rtc (tsteps any) s1 s3.
Proof. intros H. apply rtc_l. by exists l. Qed.

End Steps.

End ClientThreads.
