(* ===== verification/ClientFrames.v ===== *)
(** * The frames of concurrent calls

    Every call has its own locals, which the callbacks reach through pointers.
    The history of a client says what happened to each call; the frame of a read
    that waits is what its own events make of it, whatever the other threads do
    ([frames_ok], kept by every step).  A thread that runs alone makes the calls
    of [Client] ([open_steps], [read_steps]). *)

From S2P Require Import Prelude CString HexDump Address Posix LogInfo Server ServerSpec.
From S2P Require Import Client Wrappers ClientSpec ClientInv ClientProps ClientThreads.
Import Address Posix LogInfo Client Wrappers ClientSpec ClientInv ClientThreads.
Import ServerSpec(rpc, ROpen, RRead, RSeek, RClose).

Module ClientFrames.

Section Steps.
Context (hash : string -> Z).
#[local] Abbreviation tstep := (ClientThreads.tstep hash).
#[local] Abbreviation tsteps := (ClientThreads.tsteps hash).

(** ** The frames *)

(** A property of the frames. *)
Definition on_frames (P : gmap nat frame -> nat -> Prop) (c : client) : Prop := P (cl_frames c) (cl_next c).

#[local] Instance on_frames_quiet P : Quiet (on_frames P).
Proof.
  split; try done.
  - intros i c a c' Hc H. unfold log, on_os in H. by destruct (logging_info _ _ _); simplify_eq.
  - intros h c a c' Hc H. unfold lookup_addr in H. mred_in H.
    destruct (ftc_client_comm_lookup_addr _ h _) as [[r m] b]. by destruct r; simplify_eq.
  - intros fd. by apply redir_at_stable.
Qed.

Lemma frames_on_os P {A} (m : M os A) : preserves (on_frames P) (on_os m).
Proof. intros c a c' Hc H. unfold on_os in H. destruct (m (cl_os c)); simplify_eq. exact Hc. Qed.

(** The frames a piece leaves are those it found. *)
Definition frameless {A} (m : C A) : Prop := forall P, preserves (on_frames P) m.

Lemma frameless_frames {A} (m : C A) c a c' : frameless m -> m c = Ret a c' ->
  cl_frames c' = cl_frames c /\ cl_next c' = cl_next c.
Proof.
  intros Hm H. assert (Hc : on_frames (fun F n => F = cl_frames c /\ n = cl_next c) c) by done.
  exact (Hm _ _ _ _ Hc H).
Qed.

Lemma start_mercury_frameless se : frameless (start_mercury se).
Proof.
  intros P. unfold start_mercury, initialize_timeout_counters, ftc_get_addr.
  repeat first
    [ progress intros | apply frames_on_os | solve [eauto 3 with ftc]
    | solve [apply preserves_modify; intros c Hc; exact Hc]
    | apply preserves_bind | apply preserves_if
    | match goal with |- preserves _ (match ?x with _ => _ end) => destruct x end ].
Qed.

Lemma host_test_frameless fd :
  frameless (let* host := host_of hash fd in
             let* skip := skip_host host in mret (if skip : bool then None else Some host)).
Proof.
  intros P. apply preserves_bind; [apply keeps_host_of, _|]. intros host. unfold skip_host, counter. keep.
Qed.

Lemma read_check_frameless fd : frameless (read_check hash fd).
Proof.
  intros P. unfold read_check. apply preserves_bind; [apply preserves_gets|]. intros tr.
  destruct (negb tr); [apply preserves_ret|]. apply host_test_frameless.
Qed.

Lemma open_test_frameless fd : frameless (open_test hash fd).
Proof. apply host_test_frameless. Qed.

Lemma open_track_frameless path flags fd se : frameless (open_track path flags fd se).
Proof.
  intros P. unfold open_track. destruct (find_sub _ _); [apply preserves_ret|].
  do 2 (case_match; [apply preserves_ret|]). apply preserves_bind; [apply preserves_gets|].
  intros [canon|]; [|apply preserves_ret].
  apply preserves_bind; [apply preserves_modify; intros c Hc; exact Hc|]. intros _.
  apply preserves_bind; [apply start_mercury_frameless|]. intros _. apply preserves_ret.
Qed.

Lemma seek_send_frameless fd off wh e : frameless (seek_send hash fd off wh e).
Proof.
  intros P. unfold seek_send. apply preserves_bind; [apply preserves_gets|]. intros tr.
  destruct (negb tr); [apply preserves_ret|]. apply preserves_bind; [apply keeps_host_of, _|]. intros host.
  apply preserves_bind; [apply keeps_gen_seek, _|]. intros _. apply preserves_ret.
Qed.

Lemma seek_cb_frameless r : frameless (ftc_seek_cb r).
Proof. intros P. apply keeps_seek_cb, _. Qed.

Lemma remove_fd_frameless fd e : frameless (ftc_remove_fd hash fd e).
Proof.
  intros P. unfold ftc_remove_fd, ftc_remote_close, ftc_client_comm_gen_close_rpc, ftc_comm_create_handle, ftc_comm_free_addr, skip_host, counter, ftc_file_tracked.
  pose proof (keeps_host_of (on_frames P)). pose proof (keeps_log_request (on_frames P)).
  pose proof (keeps_forward (on_frames P)). pose proof (qt_lookup (J := on_frames P)).
  pose proof (qt_redir_at (J := on_frames P)).
  repeat first
    [ progress intros | solve [eauto 3 with ftc]
    | solve [apply preserves_modify; intros c Hc; exact Hc]
    | apply preserves_bind | apply preserves_if
    | match goal with |- preserves _ (match ?x with _ => _ end) => destruct x end ].
Qed.

Lemma push_frame_run buf c : push_frame buf c =
  Ret (cl_next c) (upd_frames (<[cl_next c := mk_frame false (-1) buf]> (cl_frames c)) (cl_requests c)
    (S (cl_next c)) c).
Proof. done. Qed.

(** Sending opens one fresh frame. *)
Definition sent_frame (buf : list byte) (c : client) (id : nat) (c' : client) : Prop :=
  id = cl_next c /\ cl_next c' = S id /\ cl_frames c' = <[id := mk_frame false (-1) buf]> (cl_frames c).

Lemma open_send_frame fd host e c id c' : open_send fd host e c = Ret id c' -> sent_frame [] c id c'.
Proof.
  intros H. unfold open_send in H. rewrite (bind_Ret _ _ _ _ _ (push_frame_run [] c)) in H.
  apply bind_inv in H as (p & c1 & H1 & H). apply bind_inv in H as (u & c2 & H2 & H). mred_in H. simplify_eq.
  apply frameless_frames in H1 as [F1 N1]; [|intros P; apply keeps_fd_map_at, _].
  apply frameless_frames in H2 as [F2 N2]; [|intros P; apply keeps_gen_open, _].
  unfold sent_frame. by rewrite F2, N2, F1, N1.
Qed.

Lemma read_send_frame fd count off buf host e c id c' :
  read_send fd count off buf host e c = Ret id c' -> sent_frame buf c id c'.
Proof.
  intros H. unfold read_send in H. rewrite (bind_Ret _ _ _ _ _ (push_frame_run buf c)) in H.
  apply bind_inv in H as (u & c2 & H2 & H). mred_in H. simplify_eq.
  apply frameless_frames in H2 as [F2 N2]; [|intros P; apply keeps_gen_read, _].
  unfold sent_frame. by rewrite F2, N2.
Qed.

(** A callback, or arriving bytes, change one frame. *)
Definition wrote_frame (id : nat) (g : frame -> frame) (c c' : client) : Prop :=
  cl_next c' = cl_next c /\ exists f, cl_frames c !! id = Some f /\ cl_frames c' = <[id := g f]> (cl_frames c).

Lemma write_frame_wrote id g c u c' : write_frame id g c = Ret u c' -> wrote_frame id g c c'.
Proof.
  intros H. unfold write_frame, frame_of in H. mred_in H.
  destruct (cl_frames c !! id) as [f|] eqn:E; [|done]. unfold put_frame in H. mred_in H. simplify_eq.
  split; [done|]. by exists f.
Qed.

Definition answer_frame (r : reply) (f : frame) : frame :=
  set_done (if rp_get r =? 0 then set_bytes (rp_out r) f else f).

(** Peel a piece without frames off a computation that returned. *)
Lemma bind_frameless {A B} (m : C A) (k : A -> C B) c b c' : frameless m -> (m ≫= k) c = Ret b c' ->
  exists a c1, k a c1 = Ret b c' /\ cl_frames c1 = cl_frames c /\ cl_next c1 = cl_next c.
Proof.
  intros Hm (a & c1 & H1 & H2)%bind_inv. exists a, c1. split; [done|]. by eapply frameless_frames.
Qed.

Lemma free_request_frames id c u c' : free_request id c = Ret u c' ->
  cl_frames c' = cl_frames c /\ cl_next c' = cl_next c.
Proof. intros H. unfold free_request in H. mred_in H. by simplify_eq. Qed.

Lemma open_cb_frame id r c u c' : ftc_open_cb id r c = Ret u c' -> wrote_frame id set_done c c'.
Proof.
  unfold ftc_open_cb. intros H.
  apply bind_frameless in H as (st & c1 & H & F1 & N1); [|intros P; apply keeps_request_of].
  apply bind_frameless in H as (u1 & c2 & H & F2 & N2); [|intros P; apply preserves_assertM].
  apply bind_frameless in H as (out & c3 & H & F3 & N3); [|intros P; apply preserves_defined].
  apply bind_frameless in H as (u2 & c4 & H & F4 & N4); [|intros P; by apply preserves_modify].
  apply bind_frameless in H as (path & c5 & H & F5 & N5); [|intros P; apply preserves_defined].
  apply bind_frameless in H as (u3 & c6 & H & F6 & N6); [|intros P; apply keeps_log_answer, _].
  apply bind_inv in H as (u4 & c7 & H7 & H). apply write_frame_wrote in H7 as (N7 & f & Hf & F7).
  apply free_request_frames in H as [F8 N8].
  split; [by rewrite N8, N7, N6, N5, N4, N3, N2|]. exists f.
  rewrite F8, F7, <- F1, <- F2, <- F3, <- F4, <- F5, <- F6. by split.
Qed.

(** The result of a read is written before the flag. *)
Lemma read_result_frame id r c u c' :
  (if rp_get r =? 0 then write_frame id (set_bytes (rp_out r));; assertM (rp_free r =? 0) else mret tt) c =
    Ret u c' ->
  cl_next c' = cl_next c /\
  ((rp_get r =? 0) = false /\ cl_frames c' = cl_frames c \/
   (rp_get r =? 0) = true /\ exists f, cl_frames c !! id = Some f /\
     cl_frames c' = <[id := set_bytes (rp_out r) f]> (cl_frames c)).
Proof.
  destruct (rp_get r =? 0) eqn:E; [|intros [= _ <-]; split; [done|by left]].
  intros (u1 & c1 & H1 & H2)%bind_inv. apply write_frame_wrote in H1 as (N1 & f & Hf & F1).
  apply frameless_frames in H2 as [F2 N2]; [|intros P; apply preserves_assertM].
  split; [by rewrite N2|]. right. split; [done|]. exists f. by rewrite F2.
Qed.

Lemma read_cb_frame id r c u c' : ftc_read_cb id r c = Ret u c' -> wrote_frame id (answer_frame r) c c'.
Proof.
  unfold ftc_read_cb. intros H.
  apply bind_frameless in H as (st & c1 & H & F1 & N1); [|intros P; apply keeps_request_of].
  apply bind_frameless in H as (u1 & c2 & H & F2 & N2); [|intros P; apply preserves_assertM].
  apply bind_inv in H as (u2 & c3 & H3 & H). apply read_result_frame in H3 as [N3 Hres].
  apply bind_frameless in H as (u3 & c4 & H & F4 & N4); [|intros P; apply keeps_log_answer, _].
  apply bind_frameless in H as (u4 & c5 & H & F5 & N5); [|intros P; apply preserves_assertM].
  apply bind_frameless in H as (u5 & c6 & H & F6 & N6); [|intros P; apply preserves_assertM].
  apply bind_inv in H as (u7 & c7 & H7 & H). apply write_frame_wrote in H7 as (N7 & f & Hf & F7).
  apply free_request_frames in H as [F8 N8].
  split; [by rewrite N8, N7, N6, N5, N4, N3, N2|].
  rewrite F6, F5, F4 in Hf, F7. rewrite <- F1, <- F2. unfold answer_frame.
  destruct Hres as [[-> Hres]|[-> (f0 & Hf0 & Hres)]].
  - exists f. by rewrite F8, F7, <- Hres.
  - rewrite Hres in Hf, F7. rewrite lookup_insert_eq in Hf. injection Hf as <-.
    exists f0. by rewrite F8, F7, insert_insert_eq.
Qed.

(** A wait that ends takes its frame away. *)
Definition took_frame (id : nat) (f : frame) (c c' : client) : Prop :=
  cl_frames c !! id = Some f /\ cl_frames c' = delete id (cl_frames c) /\ cl_next c' = cl_next c.

Lemma wait_done_frame id c f c' : wait_done id c = Ret f c' -> fr_done f = true /\ took_frame id f c c'.
Proof.
  intros H. unfold wait_done, frame_of in H. mred_in H. destruct (cl_frames c !! id) as [g|] eqn:E; [|done].
  destruct (fr_done g) eqn:Ed; [|done]. unfold pop_frame in H. mred_in H. by simplify_eq.
Qed.

Lemma wait_timeout_frame host id c f c' : wait_timeout host id c = Ret f c' -> took_frame id f c c'.
Proof.
  intros H. unfold wait_timeout in H. apply bind_frameless in H as (u & c1 & H & F1 & N1).
  - unfold frame_of in H. mred_in H. destruct (cl_frames c1 !! id) as [g|] eqn:E; [|done].
    unfold pop_frame in H. mred_in H. simplify_eq. unfold took_frame. by rewrite <- F1, <- N1.
  - intros P. unfold inc_counter, counter. keep. apply preserves_modify. intros c0 Hc0. exact Hc0.
Qed.

(** ** The history *)

(** The frame of a call, by what happened to it. *)
Definition view_step (id : nat) (o : option frame) (e : tevent) : option frame :=
  match e with
  | ESent _ i buf => if decide (i = id) then Some (mk_frame false (-1) buf) else o
  | EPushed i d => if decide (i = id) then set_buf d <$> o else o
  | EAnswered i r => if decide (i = id) then answer_frame r <$> o else o
  | EReturned _ i _ _ => if decide (i = id) then None else o
  | ESeekReturned _ _ => o
  end.
Definition view (id : nat) (h : list tevent) : option frame := foldl (view_step id) None h.

Lemma view_snoc id h e : view id (h ++ [e]) = view_step id (view id h) e.
Proof. unfold view. by rewrite foldl_app. Qed.

(** Events of other calls do not matter. *)
Definition about (id : nat) (e : tevent) : bool :=
  match e with
  | ESent _ i _ | EPushed i _ | EAnswered i _ | EReturned _ i _ _ => bool_decide (i = id)
  | ESeekReturned _ _ => false
  end.

Lemma view_about id h : view id h = view id (filter (fun e => about id e = true) h).
Proof.
  induction h as [|e h IH] using rev_ind; [done|]. rewrite filter_app, view_snoc, IH. clear IH.
  rewrite filter_cons. destruct (about id e) eqn:Ea.
  - by rewrite decide_True, filter_nil, view_snoc by done.
  - rewrite decide_False, filter_nil, app_nil_r by done.
    by destruct e; cbn in *; try (apply bool_decide_eq_false in Ea; rewrite decide_False by done).
Qed.

(** What a read may return with: the frame its own events make, and a negative
    result or the one it was answered. *)
Definition own_result (h : list tevent) (id : nat) (n : Z) (buf : list byte) : Prop :=
  exists f, view id h = Some f /\ buf = fr_buf f /\ (n = -1 \/ (fr_done f = true /\ n = fr_bytes f)).

Definition hist_ok (h : list tevent) : Prop :=
  forall h1 t id n buf h2, h = h1 ++ EReturned t id n buf :: h2 ->
    (exists b, ESent t id b ∈ h1) /\ own_result h1 id n buf.

Lemma hist_snoc h e : hist_ok h ->
  (forall t id n buf, e = EReturned t id n buf -> (exists b, ESent t id b ∈ h) /\ own_result h id n buf) ->
  hist_ok (h ++ [e]).
Proof.
  intros Hh He h1 t id n buf h2 E. destruct h2 as [|x h2] using rev_ind.
  - apply app_inj_tail in E as [-> ->]. by eapply He.
  - clear IHh2. rewrite app_comm_cons, app_assoc in E. apply app_inj_tail in E as [-> _]. by eapply Hh.
Qed.

Definition waits (x : tstate) : option nat :=
  match x with TOpenWait _ id | TReadWait _ id => Some id | _ => None end.

Record frames_ok (s : threads) : Prop := {
  fo_read : forall t host id, tn_threads s !! t = Some (TReadWait host id) ->
    (exists b, ESent t id b ∈ tn_hist s) /\ cl_frames (tn_client s) !! id = view id (tn_hist s);
  fo_next : forall t x id, tn_threads s !! t = Some x -> waits x = Some id -> (id < cl_next (tn_client s))%nat;
  fo_own : forall t1 t2 x1 x2 id, tn_threads s !! t1 = Some x1 -> tn_threads s !! t2 = Some x2 ->
    waits x1 = Some id -> waits x2 = Some id -> t1 = t2;
  fo_hist : hist_ok (tn_hist s)
}.

(** The piece touches no frame, and the thread does not wait after it. *)
Lemma frames_ok_quiet c c' ts t x n m h : frames_ok (mk_threads c ts n h) ->
  cl_frames c' = cl_frames c -> cl_next c' = cl_next c -> waits x = None ->
  frames_ok (mk_threads c' (<[t := x]> ts) m h).
Proof.
  intros [H1 H2 H3 H4] F N Hx. split; cbn [tn_threads tn_client tn_hist] in *; rewrite ?F, ?N; try done.
  - intros t' host id [[-> [-> _]]|[_ H]]%list_lookup_insert_Some; [done|]. by eapply H1.
  - intros t' y id [[-> [-> _]]|[_ H]]%list_lookup_insert_Some Hy; [congruence|]. by eapply H2.
  - intros t1 t2 x1 x2 id [[-> [-> _]]|[_ Ha]]%list_lookup_insert_Some
      [[-> [-> _]]|[_ Hb]]%list_lookup_insert_Some Hy1 Hy2; try congruence. by eapply H3.
Qed.

(** A thread sends. *)
Lemma frames_ok_sent c c' ts t x n h id buf : frames_ok (mk_threads c ts n h) ->
  sent_frame buf c id c' -> waits x = Some id ->
  frames_ok (mk_threads c' (<[t := x]> ts) n (h ++ [ESent t id buf])).
Proof.
  intros [H1 H2 H3 H4] (-> & N & F) Hx. cbn [tn_threads tn_client tn_hist] in *.
  assert (Hfresh : forall t' y i, ts !! t' = Some y -> waits y = Some i -> i <> cl_next c).
  { intros t' y i Ht Hy ->. specialize (H2 _ _ _ Ht Hy). lia. }
  split; cbn [tn_threads tn_client tn_hist].
  - intros t' host i [[-> [-> Hlt]]|[Hne H]]%list_lookup_insert_Some.
    + cbn in Hx. injection Hx as ->. split; [exists buf; apply elem_of_app; right; by left|].
      rewrite F, lookup_insert_eq, view_snoc. cbn. by rewrite decide_True.
    + destruct (H1 _ _ _ H) as [[b Hb] Hv]. pose proof (Hfresh _ _ _ H eq_refl).
      split; [exists b; apply elem_of_app; by left|].
      rewrite F, lookup_insert_ne, view_snoc by done. cbn. by rewrite decide_False by done.
  - intros t' y i [[-> [-> _]]|[_ H]]%list_lookup_insert_Some Hy; [rewrite Hx in Hy; injection Hy as <-; lia|].
    specialize (H2 _ _ _ H Hy). lia.
  - intros t1 t2 x1 x2 i [[-> [-> _]]|[_ Ha]]%list_lookup_insert_Some
      [[-> [-> _]]|[_ Hb]]%list_lookup_insert_Some Hy1 Hy2; try done.
    + rewrite Hx in Hy1. injection Hy1 as <-. by destruct (Hfresh _ _ _ Hb Hy2).
    + rewrite Hx in Hy2. injection Hy2 as <-. by destruct (Hfresh _ _ _ Ha Hy1).
    + by eapply H3.
  - by apply hist_snoc.
Qed.

(** Something is written into the frame of a read, and recorded. *)
Lemma frames_ok_wrote c c' ts n h id g e : frames_ok (mk_threads c ts n h) ->
  wrote_frame id g c c' -> (forall i o, view_step i o e = if decide (id = i) then g <$> o else o) ->
  (forall t i v b, e <> EReturned t i v b) ->
  frames_ok (mk_threads c' ts n (h ++ [e])).
Proof.
  intros [H1 H2 H3 H4] (N & f & Hf & F) Hv He. split; cbn [tn_threads tn_client tn_hist] in *; rewrite ?N; try done.
  - intros t host i Ht. destruct (H1 _ _ _ Ht) as [[b Hb] Hi].
    split; [exists b; apply elem_of_app; by left|]. rewrite F, view_snoc, Hv, <- Hi.
    destruct (decide (id = i)) as [->|Hne]; [by rewrite lookup_insert_eq, Hf|by rewrite lookup_insert_ne].
  - apply hist_snoc; [done|]. intros t i v b E. by destruct (He t i v b).
Qed.

(** ... or of an open. *)
Lemma frames_ok_opened c c' ts t host n h id g : frames_ok (mk_threads c ts n h) ->
  wrote_frame id g c c' -> ts !! t = Some (TOpenWait host id) -> frames_ok (mk_threads c' ts n h).
Proof.
  intros [H1 H2 H3 H4] (N & f & Hf & F) Ht. split; cbn [tn_threads tn_client tn_hist] in *; rewrite ?N; try done.
  intros t' host' i Ht'. destruct (H1 _ _ _ Ht') as [Hb Hi]. split; [done|].
  rewrite F, lookup_insert_ne; [done|]. intros ->.
  assert (t = t') as -> by by eapply (H3 t t' _ _ i). congruence.
Qed.

(** A wait ends. *)
Lemma frames_ok_took c c' ts t x n h id f es : frames_ok (mk_threads c ts n h) ->
  took_frame id f c c' -> ts !! t = Some x -> waits x = Some id ->
  hist_ok (h ++ es) -> (forall i, i <> id -> view i (h ++ es) = view i h) ->
  frames_ok (mk_threads c' (<[t := TIdle]> ts) n (h ++ es)).
Proof.
  intros [H1 H2 H3 H4] (Hf & F & N) Ht Hx Hh Hv. split; cbn [tn_threads tn_client tn_hist] in *; rewrite ?N; try done.
  - intros t' host' i [[-> [? _]]|[Hne H]]%list_lookup_insert_Some; [done|].
    destruct (H1 _ _ _ H) as [[b Hb] Hi]. split; [exists b; apply elem_of_app; by left|].
    assert (Hid : i <> id) by (intros ->; by destruct (Hne (H3 _ _ _ _ _ Ht H Hx eq_refl))).
    by rewrite F, lookup_delete_ne, Hv, Hi.
  - intros t' y i [[-> [<- _]]|[_ H]]%list_lookup_insert_Some Hy; [done|]. by eapply H2.
  - intros t1 t2 x1 x2 i [[-> [<- _]]|[_ Ha]]%list_lookup_insert_Some
      [[-> [<- _]]|[_ Hb]]%list_lookup_insert_Some Hy1 Hy2; try done. by eapply H3.
Qed.

(** A read that returns has its own frame. *)
Lemma frames_ok_returned c c' ts t host n h id f v : frames_ok (mk_threads c ts n h) ->
  took_frame id f c c' -> ts !! t = Some (TReadWait host id) ->
  v = -1 \/ (fr_done f = true /\ v = fr_bytes f) ->
  frames_ok (mk_threads c' (<[t := TIdle]> ts) n (h ++ [EReturned t id v (fr_buf f)])).
Proof.
  intros Hok Htook Ht Hv. eapply frames_ok_took; [done..| |].
  - apply hist_snoc; [by apply (fo_hist _ Hok)|]. intros t' i v' b [= <- <- <- <-].
    destruct (fo_read _ Hok t host id Ht) as [Hb Hi]. split; [exact Hb|].
    exists f. split; [|by split]. cbn [tn_threads tn_client tn_hist] in Hi. rewrite <- Hi. apply Htook.
  - intros i Hi. rewrite view_snoc. cbn. by rewrite decide_False by congruence.
Qed.

Lemma tstep_frames l s s' : tstep l s s' -> frames_ok s -> frames_ok s'.
Proof.
  intros []; intros Hok.
  - destruct (frameless_frames _ _ _ _ (open_track_frameless _ _ _ _) H0) as [F N].
    eapply frames_ok_quiet; try done. by destruct b.
  - destruct (frameless_frames _ _ _ _ (open_test_frameless _) H0) as [F N].
    eapply frames_ok_quiet; try done. by destruct r.
  - eapply frames_ok_sent; [done|by eapply open_send_frame|done].
  - eapply frames_ok_opened; [done|by eapply open_cb_frame|done].
  - destruct (wait_done_frame _ _ _ _ H0) as [_ Ht]. rewrite <- (app_nil_r h).
    eapply frames_ok_took; try done; rewrite app_nil_r; [apply (fo_hist _ Hok)|done].
  - apply wait_timeout_frame in H0. rewrite <- (app_nil_r h).
    eapply frames_ok_took; try done; rewrite app_nil_r; [apply (fo_hist _ Hok)|done].
  - destruct (frameless_frames _ _ _ _ (read_check_frameless _) H0) as [F N].
    eapply frames_ok_quiet; try done. by destruct r.
  - eapply frames_ok_sent; [done|by eapply read_send_frame|done].
  - eapply frames_ok_wrote; [done|by eapply write_frame_wrote|done|done].
  - eapply frames_ok_wrote; [done|by eapply read_cb_frame|done|done].
  - destruct (wait_done_frame _ _ _ _ H0) as [Hd Ht]. eapply frames_ok_returned; try done. by right.
  - apply wait_timeout_frame in H0. eapply frames_ok_returned; try done. by left.
  - destruct (frameless_frames _ _ _ _ (seek_send_frameless _ _ _ _) H0) as [F N].
    eapply frames_ok_quiet; try done. by destruct b.
  - destruct (frameless_frames _ _ _ _ (seek_cb_frameless _) H) as [F N].
    destruct Hok as [H1 H2 H3 H4]. split; cbn [tn_threads tn_client tn_hist] in *; rewrite ?F, ?N; done.
  - assert (Hok' : frames_ok (mk_threads c (<[t := TIdle]> ts) n h)) by by eapply frames_ok_quiet.
    destruct Hok' as [H1 H2 H3 H4]. split; cbn [tn_threads tn_client tn_hist] in *; try done.
    + intros t' host id Ht'. destruct (H1 _ _ _ Ht') as [[b Hb] Hi].
      split; [exists b; apply elem_of_app; by left|]. by rewrite view_snoc.
    + by apply hist_snoc.
  - destruct (frameless_frames _ _ _ _ (remove_fd_frameless _ _) H0) as [F N].
    destruct Hok as [H1 H2 H3 H4]. split; cbn [tn_threads tn_client tn_hist] in *; rewrite ?F, ?N; done.
Qed.

Lemma tstart_frames c n : frames_ok (tstart c n).
Proof.
  split; cbn.
  - intros t host id H. apply lookup_replicate in H as [H _]. done.
  - intros t x id H. apply lookup_replicate in H as [-> _]. done.
  - intros t1 t2 x1 x2 id H. apply lookup_replicate in H as [-> _]. done.
  - intros [|] ? ? ? ? ? H; done.
Qed.

(** ** One call after the other *)

(** The atomic calls of [Client] are paths of the relation: a thread that is
    scheduled alone. *)
Lemma deliver_read_steps id w c c' ts t host n h :
  deliver ftc_read_cb id w c = Ret tt c' -> ts !! t = Some (TReadWait host id) ->
  exists h', rtc (tsteps any) (mk_threads c ts n h) (mk_threads c' ts n h').
Proof.
  intros (u & c1 & H1 & H2)%bind_inv Ht. destruct u.
  assert (exists h1, rtc (tsteps any) (mk_threads c ts n h) (mk_threads c1 ts n h1)) as [h1 Hr1].
  { destruct (wk_push w) as [d|]; [|injection H1 as <-; by exists h]. eexists.
    eapply tsteps_one; [by eapply t_read_push|done]. }
  destruct (wk_reply w) as [r|].
  - eexists. etrans; [exact Hr1|]. eapply tsteps_one; [by eapply t_read_answer|done].
  - injection H2 as <-. by exists h1.
Qed.

Lemma deliver_open_steps id w c c' ts t host n h :
  wk_push w = None -> deliver ftc_open_cb id w c = Ret tt c' -> ts !! t = Some (TOpenWait host id) ->
  rtc (tsteps any) (mk_threads c ts n h) (mk_threads c' ts n h).
Proof.
  intros Hp (u & c1 & H1 & H2)%bind_inv Ht. rewrite Hp in H1. injection H1 as <- <-.
  destruct (wk_reply w) as [r|]; [|by injection H2 as <-].
  eapply tsteps_one; [by eapply t_open_answer|done].
Qed.

Definition has_frame (id : nat) (c : client) : Prop := is_Some (cl_frames c !! id).

Lemma wrote_has_frame id g c c' : wrote_frame id g c c' -> has_frame id c'.
Proof. intros (_ & f & _ & F). unfold has_frame. rewrite F, lookup_insert_eq. by eexists. Qed.

Lemma deliver_has_frame cb id w c u c' :
  (forall r c u c', cb id r c = Ret u c' -> has_frame id c') ->
  deliver cb id w c = Ret u c' -> has_frame id c -> has_frame id c'.
Proof.
  intros Hcb (u1 & c1 & H1 & H2)%bind_inv Hc.
  assert (has_frame id c1).
  { destruct (wk_push w); [by eapply wrote_has_frame, write_frame_wrote|by injection H1 as _ <-]. }
  destruct (wk_reply w); [by eapply Hcb|by injection H2 as _ <-].
Qed.

Lemma inc_counter_frames host c u c' : inc_counter host c = Ret u c' -> cl_frames c' = cl_frames c.
Proof.
  intros H. eapply (frameless_frames (inc_counter host)); [|exact H].
  intros P. unfold inc_counter, counter. keep. apply preserves_modify. intros c0 Hc0. exact Hc0.
Qed.

(** A wait whose wakes are steps is a path, up to its end. *)
Lemma wait_steps cb host id ts n ws :
  (forall w c c' h, w ∈ ws -> deliver cb id w c = Ret tt c' ->
     exists h', rtc (tsteps any) (mk_threads c ts n h) (mk_threads c' ts n h')) ->
  (forall r c u c', cb id r c = Ret u c' -> has_frame id c') ->
  forall c tm c' h, wait_loop cb host id ws c = Ret tm c' ->
  exists c1 h1, rtc (tsteps any) (mk_threads c ts n h) (mk_threads c1 ts n h1) /\
    if tm : bool then inc_counter host c1 = Ret tt c' /\ has_frame id c'
    else c1 = c' /\ exists f, cl_frames c' !! id = Some f /\ fr_done f = true.
Proof.
  induction ws as [|w ws IH]; intros Hd Hcb c tm c' h H; cbn [wait_loop] in H;
    apply bind_inv in H as (f & c0 & H0 & H); unfold frame_of in H0; mred_in H0;
    (destruct (cl_frames c !! id) as [f0|] eqn:Ef; [|done]); simplify_eq;
    (destruct (fr_done f) eqn:Ed; [mred_in H; simplify_eq; exists c', h; split; [done|]; split; [done|by exists f]|]).
  - done.
  - apply bind_inv in H as ([] & c2 & H2 & H).
    destruct (Hd w _ _ h ltac:(by left) H2) as [h1 Hr].
    destruct (wk_timedout w).
    + apply bind_inv in H as ([] & c3 & H3 & H). mred_in H. simplify_eq. exists c2, h1. split; [done|].
      split; [done|]. unfold has_frame. rewrite (inc_counter_frames _ _ _ _ H3).
      eapply deliver_has_frame; [done|exact H2|by exists f].
    + destruct (IH ltac:(intros; apply (Hd w0); [by right|done]) Hcb _ _ _ h1 H) as (c3 & h3 & Hr3 & Hend).
      exists c3, h3. split; [by etrans|done].
Qed.

(** A thread that goes to a state and on to another is back where it was. *)
Lemma there_and_back (ts : list tstate) (t : nat) (x y : tstate) : ts !! t = Some TIdle ->
  let ts1 := <[t := x]> ts in let ts2 := <[t := y]> ts1 in
  ts1 !! t = Some x /\ ts2 !! t = Some y /\ <[t := TIdle]> ts2 = ts.
Proof.
  intros Ht ts1 ts2. assert (Hlt : (t < length ts)%nat) by by eapply lookup_lt_Some.
  unfold ts2, ts1. split_and!.
  - by apply list_lookup_insert_eq.
  - apply list_lookup_insert_eq. by rewrite length_insert.
  - rewrite !list_insert_insert_eq. by apply list_insert_id.
Qed.

Lemma read_steps fd count off buf e c v b c' ts t n h :
  remote_transfer hash fd count off buf e c = Ret (v, b) c' -> ts !! t = Some TIdle ->
  exists h' id, (h' = h /\ v = -1 /\ b = buf \/ h' !! (length h' - 1)%nat = Some (EReturned t id v b)) /\
    rtc (tsteps any) (mk_threads c ts n h) (mk_threads c' ts n h').
Proof.
  intros H Ht. rewrite (equiv_run _ _ c (transfer_pieces hash fd count off buf e)) in H.
  apply bind_inv in H as (r & c1 & H1 & H). destruct r as [host|].
  2: { mred_in H. simplify_eq. exists h, 0%nat. split; [by left|]. eapply tsteps_one.
       - eapply (t_read_check hash t fd count off b); [done|exact H1].
       - cbn. by rewrite list_insert_id. }
  apply bind_inv in H as (id & c2 & H2 & H).
  destruct (there_and_back ts t (TReading fd count off buf host) (TReadWait host id) Ht) as (Ht1 & Ht2 & Hback).
  set (ts1 := <[t := _]> ts) in *. set (ts2 := <[t := _]> ts1) in *.
  apply bind_inv in H as (m & c3 & H3 & H). unfold ftc_read_block in H3.
  apply bind_inv in H3 as (tm & c4 & H4 & H3).
  destruct (wait_steps ftc_read_cb host id ts2 n (ce_wakes e)) with (c := c2) (tm := tm) (c' := c4)
    (h := h ++ [ESent t id buf]) as (c5 & h5 & Hr & Hend); [| |done|].
  { intros w ? ? h0 _ Hw. by eapply deliver_read_steps. }
  { intros ? ? ? ? Hcb. by eapply wrote_has_frame, read_cb_frame. }
  assert (Hpre : rtc (tsteps any) (mk_threads c ts n h) (mk_threads c5 ts2 n h5)).
  { eapply tsteps_one; [by eapply (t_read_check hash t fd count off buf)|].
    eapply tsteps_one; [by eapply t_read_send|exact Hr]. }
  assert (Hlast : forall x : tevent, (h5 ++ [x]) !! (length (h5 ++ [x]) - 1)%nat = Some x).
  { intros x. apply list_lookup_middle. rewrite length_app. cbn. lia. }
  destruct tm.
  - mred_in H3. simplify_eq. apply bind_inv in H as (f & c6 & H6 & H). apply bind_inv in H as (u & c7 & H7 & H).
    mred_in H. simplify_eq. exists (h5 ++ [EReturned t id (-1) (fr_buf f)]), id. split; [by right|].
    etrans; [exact Hpre|]. apply rtc_once. exists LRead. split; [done|].
    pose proof (t_read_timeout hash t host id c5 f c' ts2 n h5 Ht2) as Hs. rewrite Hback in Hs. apply Hs.
    unfold wait_timeout. rewrite (bind_Ret _ _ _ _ _ (proj1 Hend)), (bind_Ret _ _ _ _ _ H6). by rewrite (bind_Ret _ _ _ _ _ H7).
  - destruct Hend as (-> & f & Hf & Hd). unfold frame_of in H3, H. mred_in H3. rewrite Hf in H3. simplify_eq.
    mred_in H. rewrite Hf in H. unfold pop_frame in H. mred_in H. simplify_eq.
    exists (h5 ++ [EReturned t id (fr_bytes f) (fr_buf f)]), id. split; [by right|].
    etrans; [exact Hpre|]. apply rtc_once. exists LRead. split; [done|].
    match goal with |- tstep _ (mk_threads ?c0 _ _ _) (mk_threads ?c1 _ _ _) =>
      pose proof (t_read_return hash t host id c0 f c1 ts2 n h5 Ht2) as Hs end.
    rewrite Hback in Hs. apply Hs. unfold wait_done, frame_of. mred. by rewrite Hf, Hd.
Qed.

Lemma open_steps path flags fd se e c b c' ts t n h :
  ftc_track_file hash path flags fd se e c = Ret b c' -> Forall (fun w => wk_push w = None) (ce_wakes e) ->
  ts !! t = Some TIdle ->
  exists h', rtc (tsteps any) (mk_threads c ts n h) (mk_threads c' ts n h').
Proof.
  intros H Hp Ht. rewrite (equiv_run _ _ c (track_file_pieces hash path flags fd se e)) in H.
  apply bind_inv in H as (tr & c0 & H0 & H).
  pose proof (t_open_track hash t path flags fd se c tr c0 ts n h Ht H0) as Htrack. destruct tr.
  2: { mred_in H. simplify_eq. exists h. eapply tsteps_one; [exact Htrack|]. by rewrite list_insert_id. }
  assert (Htr : <[t := TTracked fd]> ts !! t = Some (TTracked fd))
    by (apply list_lookup_insert_eq; by eapply lookup_lt_Some).
  apply bind_inv in H as (r & c1 & H1 & H).
  pose proof (t_open_test hash t fd c0 r c1 _ n h Htr H1) as Htest. rewrite list_insert_insert_eq in Htest.
  destruct r as [host|].
  2: { mred_in H. simplify_eq. exists h. eapply tsteps_one; [exact Htrack|]. eapply tsteps_one; [exact Htest|].
       cbn. by rewrite list_insert_id. }
  apply bind_inv in H as (id & c2 & H2 & H).
  destruct (there_and_back ts t (TOpening fd host) (TOpenWait host id) Ht) as (Ht1 & Ht2 & Hback).
  set (ts1 := <[t := TOpening fd host]> ts) in *. set (ts2 := <[t := TOpenWait host id]> ts1) in *.
  apply bind_inv in H as (u & c3 & H3 & H). unfold ftc_client_block in H3.
  apply bind_inv in H3 as (tm & c4 & H4 & H3). mred_in H3. simplify_eq.
  destruct (wait_steps ftc_open_cb host id ts2 n (ce_wakes e)) with (c := c2) (tm := tm) (c' := c3)
    (h := h ++ [ESent t id []]) as (c5 & h5 & Hr & Hend); [| |done|].
  { intros w ? ? h0 Hw Hd. exists h0. rewrite Forall_forall in Hp. eapply deliver_open_steps; [by apply Hp|done..]. }
  { intros ? ? ? ? Hcb. by eapply wrote_has_frame, open_cb_frame. }
  assert (Hpre : rtc (tsteps any) (mk_threads c ts n h) (mk_threads c5 ts2 n h5)).
  { eapply tsteps_one; [exact Htrack|]. eapply tsteps_one; [exact Htest|].
    eapply tsteps_one; [by eapply t_open_send|exact Hr]. }
  apply bind_inv in H as (u' & c6 & H6 & H). mred_in H. simplify_eq.
  exists h5. etrans; [exact Hpre|]. apply rtc_once. exists LOpen. split; [done|].
  destruct tm.
  - destruct Hend as (Hend & f & Ef).
    pose proof (t_open_timeout hash t host id c5 f c' ts2 n h5 Ht2) as Hs. rewrite Hback in Hs. apply Hs.
    unfold wait_timeout. rewrite (bind_Ret _ _ _ _ _ Hend). unfold frame_of, pop_frame in *. mred. mred_in H6. rewrite Ef. by simplify_eq.
  - destruct Hend as (-> & f & Hf & Hd).
    pose proof (t_open_return hash t host id c3 f c' ts2 n h5 Ht2) as Hs. rewrite Hback in Hs. apply Hs.
    unfold wait_done, frame_of, pop_frame in *. mred. mred_in H6. rewrite Hf, Hd. by simplify_eq.
Qed.

(** ** Answers that come too late *)

(** The steps, and one more: bytes or an answer come for a call whose wait is
    over.  They are written into a buffer that the application has back, or into
    the locals of a call that has returned, where another call may have its own
    by now; nothing is known of the process from then on.  The flag says whether
    this has happened. *)
Inductive tlate : threads * bool -> threads * bool -> Prop :=
  | tl_step l s s' late : tstep l s s' -> tlate (s, late) (s', late)
  | tl_late t id buf s s' late :
      ESent t id buf ∈ tn_hist s -> (forall u x, tn_threads s !! u = Some x -> waits x <> Some id) ->
      tlate (s, late) (s', true).

Lemma tlate_timely x y : rtc tlate x y -> y.2 = false -> x.2 = false /\ rtc (tsteps any) x.1 y.1.
Proof.
  intros Hr Hy. induction Hr as [x|x y z Hs _ IH]; [done|]. destruct (IH Hy) as [Hf Hc].
  destruct Hs; cbn in *; [|done]. split; [done|]. by eapply tsteps_one.
Qed.

Lemma timely_tlate s s' late : rtc (tsteps any) s s' -> rtc tlate (s, late) (s', late).
Proof. induction 1 as [s|s1 s2 s3 (l & _ & Hs) _ IH]; [done|]. eapply rtc_l; [by eapply tl_step|done]. Qed.

End Steps.

End ClientFrames.
