(* ===== verification/ClientWaits.v ===== *)
(** * The waits of a client end

    Every thread that waits for an open or a read has a frame, and a host whose
    counter it can add to: so the deadline, which always comes, ends its wait,
    whatever the other threads and the servers do. *)

From S2P Require Import Prelude CString HexDump Address Posix LogInfo Server ServerSpec.
From S2P Require Import Client Wrappers ClientSpec ClientInv ClientProps ClientThreads ClientFrames.
Import Address Posix LogInfo Client Wrappers ClientSpec ClientInv ClientThreads ClientFrames.

Module ClientWaits.

(** ** The number of servers and of counters *)

Definition sized (N : Z) (c : client) : Prop :=
  g_ftc_server_count c = N /\ length (timeout_counters c) = Z.to_nat (i32 N).

#[export] Instance sized_stable N : Stable (sized N).
Proof.
  split; try done. split; try done.
  - intros i c a c' Hc H. unfold log, on_os in H. by destruct (logging_info _ _ _); simplify_eq.
  - intros h c a c' Hc H. unfold lookup_addr in H. mred_in H.
    destruct (ftc_client_comm_lookup_addr _ h _) as [[r m] b]. by destruct r; simplify_eq.
  - intros fd. by apply redir_at_stable.
Qed.

Lemma sized_initialize N c u c' : sized N c ->
  initialize_timeout_counters (i32 (g_ftc_server_count c)) c = Ret u c' -> sized N c'.
Proof.
  intros [Hn Hl] H. unfold initialize_timeout_counters in H. destruct (_ <? 0); [done|]. mred_in H. simplify_eq.
  split; [done|]. cbn. by rewrite length_resize.
Qed.

Lemma sized_start_mercury N se : preserves (sized N) (start_mercury se).
Proof.
  apply start_mercury_stable; [apply _|apply sized_initialize|].
  intros r c a c' Hc H. unfold on_os in H. by destruct (initialize_log _ _ _); simplify_eq.
Qed.

Lemma sized_timeout N host id : preserves (sized N) (wait_timeout host id).
Proof.
  unfold wait_timeout. apply preserves_bind.
  - intros c u c' [Hn Hl] H. unfold inc_counter, counter in H. mred_in H. destruct (host <? 0); [done|].
    destruct (_ !! _); [|done]. destruct (_ =? _); [done|]. simplify_eq. split; [done|]. cbn. by rewrite length_insert.
  - pose proof (keeps_frame_of (sized N)). pose proof (keeps_pop_frame (sized N)). keep.
Qed.

(** ** The hosts the calls ask *)

Section Waits.
Context (hash : string -> Z).

(** A host with a counter. *)
Definition counted (c : client) (host : Z) : Prop :=
  0 <= host /\ is_Some (timeout_counters c !! Z.to_nat host).

Lemma skip_host_counted host c r c' :
  (let* skip := skip_host host in mret (if skip : bool then None else Some host)) c = Ret r c' ->
  forall h, r = Some h -> counted c' h.
Proof.
  intros H. apply bind_inv in H as (b & c1 & H1 & H). unfold skip_host, counter in H1. mred_in H1.
  destruct (host <? 0) eqn:E0; [done|]. destruct (timeout_counters c !! Z.to_nat host) as [k|] eqn:Ek; [|done].
  simplify_eq. mred_in H. simplify_eq. intros h Hh. destruct (TIMEOUT_LIMIT <=? k); simplify_eq. zbool.
  split; [done|]. by eexists.
Qed.

Lemma read_check_counted fd c r c' : read_check hash fd c = Ret r c' -> forall h, r = Some h -> counted c' h.
Proof.
  intros H. unfold read_check in H. apply bind_inv in H as (tr & c1 & _ & H).
  destruct (negb tr); [by mred_in H; simplify_eq|]. apply bind_inv in H as (host & c2 & _ & H).
  by eapply skip_host_counted.
Qed.

Lemma open_test_counted fd c r c' : open_test hash fd c = Ret r c' -> forall h, r = Some h -> counted c' h.
Proof.
  intros H. unfold open_test in H. apply bind_inv in H as (host & c1 & _ & H). by eapply skip_host_counted.
Qed.

(** ** The invariant *)

(** The host of a call that is under way. *)
Definition asked (x : tstate) : option Z :=
  match x with
  | TOpening _ host | TOpenWait host _ | TReading _ _ _ _ host | TReadWait host _ => Some host
  | TIdle | TTracked _ | TSeeking => None
  end.

Record waits_ok (N : Z) (s : threads) : Prop := {
  wo_frames : frames_ok s;
  wo_room : counters_room s;
  wo_sized : sized N (tn_client s);
  wo_frame : forall t x id, tn_threads s !! t = Some x -> waits x = Some id -> has_frame id (tn_client s);
  wo_host : forall t x host, tn_threads s !! t = Some x -> asked x = Some host -> counted (tn_client s) host
}.

Lemma counted_sized N c c' host : sized N c -> sized N c' -> counted c host -> counted c' host.
Proof.
  intros [_ L1] [_ L2] [H0 Hs]. split; [done|]. apply lookup_lt_is_Some_2. apply lookup_lt_is_Some_1 in Hs. lia.
Qed.

(** A piece moves a thread from [x] to [y]. *)
Lemma waits_ok_move N s s' t y : waits_ok N s -> frames_ok s' -> counters_room s' -> sized N (tn_client s') ->
  tn_threads s' = <[t := y]> (tn_threads s) ->
  (forall id, waits y = Some id -> has_frame id (tn_client s')) ->
  (forall t' x id, t' <> t -> tn_threads s !! t' = Some x -> waits x = Some id -> has_frame id (tn_client s')) ->
  (forall host, asked y = Some host -> counted (tn_client s') host) -> waits_ok N s'.
Proof.
  intros [W1 W2 W3 W4 W5] Hf Hr Hs Ht Hy Hother Hc. split; try done; rewrite Ht.
  - intros t' x id [[-> [<- _]]|[Hne H]]%list_lookup_insert_Some Hx; [by apply Hy|by eapply Hother].
  - intros t' x host [[-> [<- _]]|[_ H]]%list_lookup_insert_Some Hx; [by apply Hc|].
    by eapply counted_sized, W5.
Qed.

(** No thread moves. *)
Lemma waits_ok_stay N s s' : waits_ok N s -> frames_ok s' -> counters_room s' -> sized N (tn_client s') ->
  tn_threads s' = tn_threads s -> (forall id, has_frame id (tn_client s) -> has_frame id (tn_client s')) ->
  waits_ok N s'.
Proof.
  intros [W1 W2 W3 W4 W5] Hf Hr Hs Ht Hh. split; try done; rewrite Ht; [by eauto|].
  intros t x host Hx Ha. by eapply counted_sized, W5.
Qed.

(** ** The steps *)

Lemma sized_host_test N fd : preserves (sized N)
  (let* host := host_of hash fd in
   let* skip := skip_host host in mret (if skip : bool then None else Some host)).
Proof.
  apply preserves_bind; [apply keeps_host_of, _|]. intros host. unfold skip_host, counter. keep.
Qed.

Lemma sized_open_track N path flags fd se : preserves (sized N) (open_track path flags fd se).
Proof.
  unfold open_track. destruct (find_sub _ _); [apply preserves_ret|]. do 2 (case_match; [apply preserves_ret|]).
  apply preserves_bind; [apply preserves_gets|]. intros [p|]; [|apply preserves_ret].
  apply preserves_bind; [apply preserves_modify; by intros c []|]. intros _.
  apply preserves_bind; [apply sized_start_mercury|]. intros _. apply preserves_ret.
Qed.

Lemma sized_read_check N fd : preserves (sized N) (read_check hash fd).
Proof.
  unfold read_check. apply preserves_bind; [apply preserves_gets|]. intros tr.
  destruct (negb tr); [apply preserves_ret|]. apply sized_host_test.
Qed.

Lemma tstep_sized N l s s' : tstep hash l s s' -> sized N (tn_client s) -> sized N (tn_client s').
Proof.
  intros []; cbn [tn_client]; intros Hs; [..|done|]; revert H0 || revert H; revert Hs.
  - apply sized_open_track.
  - apply sized_host_test.
  - apply keeps_open_send, _.
  - apply keeps_open_cb, _.
  - apply keeps_wait_done, _.
  - apply sized_timeout.
  - apply sized_read_check.
  - apply keeps_read_send, _.
  - apply keeps_write_frame, _.
  - apply keeps_read_cb, _.
  - apply keeps_wait_done, _.
  - apply sized_timeout.
  - apply keeps_seek_send, _.
  - apply keeps_seek_cb, _.
  - apply keeps_remove_fd, _.
Qed.

Lemma has_frame_same c c' id : cl_frames c' = cl_frames c -> has_frame id c -> has_frame id c'.
Proof. unfold has_frame. by intros ->. Qed.

Lemma has_frame_sent buf c i c' id : sent_frame buf c i c' -> id = i \/ has_frame id c -> has_frame id c'.
Proof.
  intros (_ & _ & F) H. unfold has_frame in *. rewrite F. destruct (decide (id = i)) as [->|Hne].
  - rewrite lookup_insert_eq. by eexists.
  - rewrite lookup_insert_ne by done. by destruct H.
Qed.

Lemma has_frame_wrote i g c c' id : wrote_frame i g c c' -> has_frame id c -> has_frame id c'.
Proof.
  intros (_ & f & _ & F) H. unfold has_frame in *. rewrite F, lookup_insert. case_decide; [by eexists|done].
Qed.

(** A wait that ends takes its own frame only. *)
Lemma has_frame_took N s t x i f c' : waits_ok N s -> tn_threads s !! t = Some x -> waits x = Some i ->
  took_frame i f (tn_client s) c' ->
  forall t' y id, t' <> t -> tn_threads s !! t' = Some y -> waits y = Some id -> has_frame id c'.
Proof.
  intros Hok Ht Hx (_ & F & _) t' y id Hne Hy Hid. unfold has_frame. rewrite F, lookup_delete_ne.
  - by apply (wo_frame _ _ Hok t' y).
  - intros ->. apply Hne. by eapply (fo_own _ (wo_frames _ _ Hok)).
Qed.

Lemma tstep_waits N l s s' : tstep hash l s s' -> waits_ok N s -> waits_ok N s'.
Proof.
  intros Hst Hok. pose proof (tstep_frames hash l s s' Hst (wo_frames _ _ Hok)) as Hf.
  pose proof (tstep_room hash l s s' Hst (wo_room _ _ Hok)) as Hr.
  pose proof (tstep_sized N l s s' Hst (wo_sized _ _ Hok)) as Hs.
  assert (Hold : forall t x host, tn_threads s !! t = Some x -> asked x = Some host -> counted (tn_client s') host)
    by (intros t x host Hx Ha; eapply counted_sized; [apply Hok|done|by eapply wo_host]).
  pose proof (fun t x id => wo_frame _ _ Hok t x id) as Hfr.
  destruct Hst; cbn [tn_threads tn_client] in *.
  - destruct (frameless_frames _ _ _ _ (open_track_frameless _ _ _ _) H0) as [F _].
    eapply (waits_ok_move N _ _ t); try done; cbn; [by destruct b| |by destruct b].
    intros t' x id _ Hx Hw. eapply has_frame_same; [done|by eapply Hfr].
  - destruct (frameless_frames _ _ _ _ (open_test_frameless _ _) H0) as [F _].
    eapply (waits_ok_move N _ _ t); try done; cbn; [by destruct r| |].
    + intros t' x id _ Hx Hw. eapply has_frame_same; [done|by eapply Hfr].
    + intros host Ha. eapply open_test_counted; [exact H0|]. destruct r; [by injection Ha as ->|done].
  - pose proof (open_send_frame _ _ _ _ _ _ H0) as F.
    eapply (waits_ok_move N _ _ t); try done; cbn.
    + intros i [= <-]. eapply has_frame_sent; [done|by left].
    + intros t' x i _ Hx Hw. eapply has_frame_sent; [done|right; by eapply Hfr].
    + intros i [= <-]. by eapply Hold.
  - eapply waits_ok_stay; try done; cbn. intros i. eapply has_frame_wrote. by eapply open_cb_frame.
  - destruct (wait_done_frame _ _ _ _ H0) as [_ F]. eapply (waits_ok_move N _ _ t); try done; cbn.
    by eapply (has_frame_took N (mk_threads c ts n h)).
  - apply wait_timeout_frame in H0. eapply (waits_ok_move N _ _ t); try done; cbn.
    by eapply (has_frame_took N (mk_threads c ts n h)).
  - destruct (frameless_frames _ _ _ _ (read_check_frameless _ _) H0) as [F _].
    eapply (waits_ok_move N _ _ t); try done; cbn; [by destruct r| |].
    + intros t' x id _ Hx Hw. eapply has_frame_same; [done|by eapply Hfr].
    + intros host Ha. eapply read_check_counted; [exact H0|]. destruct r; [by injection Ha as ->|done].
  - pose proof (read_send_frame _ _ _ _ _ _ _ _ _ H0) as F.
    eapply (waits_ok_move N _ _ t); try done; cbn.
    + intros i [= <-]. eapply has_frame_sent; [done|by left].
    + intros t' x i _ Hx Hw. eapply has_frame_sent; [done|right; by eapply Hfr].
    + intros i [= <-]. by eapply Hold.
  - eapply waits_ok_stay; try done; cbn. intros i. eapply has_frame_wrote. by eapply write_frame_wrote.
  - eapply waits_ok_stay; try done; cbn. intros i. eapply has_frame_wrote. by eapply read_cb_frame.
  - destruct (wait_done_frame _ _ _ _ H0) as [_ F]. eapply (waits_ok_move N _ _ t); try done; cbn.
    by eapply (has_frame_took N (mk_threads c ts n h)).
  - apply wait_timeout_frame in H0. eapply (waits_ok_move N _ _ t); try done; cbn.
    by eapply (has_frame_took N (mk_threads c ts n h)).
  - destruct (frameless_frames _ _ _ _ (seek_send_frameless _ _ _ _ _) H0) as [F _].
    eapply (waits_ok_move N _ _ t); try done; cbn; [by destruct b| |by destruct b].
    intros t' x id _ Hx Hw. eapply has_frame_same; [done|by eapply Hfr].
  - destruct (frameless_frames _ _ _ _ (seek_cb_frameless _) H) as [F _].
    eapply waits_ok_stay; try done; cbn. intros i. by apply has_frame_same.
  - eapply (waits_ok_move N _ _ t); try done; cbn. intros t' x id _. apply Hfr.
  - destruct (frameless_frames _ _ _ _ (remove_fd_frameless _ _ _) H0) as [F _].
    eapply waits_ok_stay; try done; cbn. intros i. by apply has_frame_same.
Qed.

Lemma tstart_waits c k : in_limit (timeout_counters c) ->
  length (timeout_counters c) = Z.to_nat (i32 (g_ftc_server_count c)) ->
  (0 < k)%nat -> waits_ok (g_ftc_server_count c) (tstart c k).
Proof.
  intros Hl Hn Hk. split; try done.
  - apply tstart_frames.
  - intros i j Hj. cbn in *. rewrite pending_idle, length_replicate. unfold in_limit, within in Hl. rewrite Forall_lookup in Hl.
    specialize (Hl _ _ Hj). unfold TIMEOUT_LIMIT in *. lia.
  - intros t x id H. by apply lookup_replicate in H as [-> _].
  - intros t x host H. by apply lookup_replicate in H as [-> _].
Qed.

(** ** The deadline *)

(** When the deadline of a wait passes, nothing is missing: the host has a
    counter that is not about to overflow, and the frame is there. *)
Lemma deadline_run N s t x id host : waits_ok N s -> Z.of_nat (length (tn_threads s)) < 2 ^ 31 - TIMEOUT_LIMIT ->
  tn_threads s !! t = Some x -> waits x = Some id -> asked x = Some host ->
  exists f c', wait_timeout host id (tn_client s) = Ret f c'.
Proof.
  intros Hok Hlen Ht Hw Ha. destruct (wo_host _ _ Hok t x host Ht Ha) as [H0 [k Hk]].
  destruct (wo_room _ _ Hok host k Hk) as [_ Hle]. destruct (wo_frame _ _ Hok t x id Ht Hw) as [f Hf].
  do 2 eexists. unfold wait_timeout. rewrite (bind_Ret _ _ _ _ _ (inc_counter_run host _ k H0 Hk ltac:(lia))).
  unfold frame_of, pop_frame. mred. cbn. by rewrite Hf.
Qed.

Lemma deadline_step s t x id host f c' : tn_threads s !! t = Some x -> waits x = Some id -> asked x = Some host ->
  wait_timeout host id (tn_client s) = Ret f c' ->
  exists s', (tstep hash LOpen s s' \/ tstep hash LRead s s') /\ tn_threads s' = <[t := TIdle]> (tn_threads s).
Proof.
  destruct s as [c ts n h]. cbn [tn_threads tn_client]. intros Ht Hw Ha Hrun.
  destruct x; cbn in Hw, Ha; try done; injection Hw as ->; injection Ha as ->.
  - eexists. split; [left; by eapply t_open_timeout|done].
  - eexists. split; [right; by eapply t_read_timeout|done].
Qed.

(** The threads that wait. *)
Definition waiting (ts : list tstate) : nat := length (filter (fun x => is_Some (waits x)) ts).

Lemma waiting_insert ts t x : ts !! t = Some x -> is_Some (waits x) ->
  waiting ts = S (waiting (<[t := TIdle]> ts)).
Proof.
  unfold waiting. revert t. induction ts as [|z ts IH]; intros [|t] Ht Hx; try done.
  - injection Ht as ->. change (<[0%nat := TIdle]> (x :: ts)) with (TIdle :: ts).
    rewrite !filter_cons, decide_True, decide_False by (done || by intros []). done.
  - specialize (IH t Ht Hx). change (<[S t := TIdle]> (z :: ts)) with (z :: <[t := TIdle]> ts).
    rewrite !filter_cons. case_decide; cbn; lia.
Qed.

Lemma waits_can_end N s : waits_ok N s -> Z.of_nat (length (tn_threads s)) < 2 ^ 31 - TIMEOUT_LIMIT ->
  exists s', nsteps (tsteps hash (fun l => l = LOpen \/ l = LRead)) (waiting (tn_threads s)) s s' /\
    forall t x, tn_threads s !! t = Some x ->
      tn_threads s' !! t = Some (match waits x with Some _ => TIdle | None => x end).
Proof.
  remember (waiting (tn_threads s)) as m eqn:Em. revert s Em. induction m as [|m IH]; intros s Em Hok Hlen.
  - exists s. split; [constructor|]. intros t x Hx. destruct (waits x) as [id|] eqn:Ew; [|done]. exfalso.
    symmetry in Em. by rewrite (waiting_insert _ t x Hx) in Em by (by rewrite Ew).
  - assert (exists t x, tn_threads s !! t = Some x /\ is_Some (waits x)) as (t & x & Hx & [id Hw]).
    { unfold waiting in Em. destruct (filter _ (tn_threads s)) as [|x l] eqn:Ef; [done|].
      assert (x ∈ filter (fun x => is_Some (waits x)) (tn_threads s)) as Hin by (rewrite Ef; by left).
      apply list_elem_of_filter in Hin as [Hw [t Ht]%list_elem_of_lookup]. by exists t, x. }
    assert (exists host, asked x = Some host) as [host Ha] by (destruct x; try done; by eexists).
    destruct (deadline_run N s t x id host Hok Hlen Hx Hw Ha) as (f & c' & Hrun).
    destruct (deadline_step s t x id host f c' Hx Hw Ha Hrun) as (s1 & Hst & Ht1).
    assert (Hok1 : waits_ok N s1) by (destruct Hst as [Hst|Hst]; by eapply tstep_waits).
    destruct (IH s1) as (s' & Hr & Hend); [|done|by rewrite Ht1, length_insert|].
    { rewrite Ht1. rewrite (waiting_insert _ t x Hx) in Em by (by rewrite Hw). by injection Em. }
    exists s'. split.
    + eapply nsteps_l; [|exact Hr]. destruct Hst as [Hst|Hst]; eexists; (split; [|exact Hst]); auto.
    + intros t' y Hy. destruct (decide (t' = t)) as [->|Hne].
      * rewrite (Hend t TIdle). { rewrite Hx in Hy. injection Hy as <-. by rewrite Hw. }
        rewrite Ht1. apply list_lookup_insert_eq. by eapply lookup_lt_Some.
      * apply Hend. by rewrite Ht1, list_lookup_insert_ne.
Qed.

End Waits.

End ClientWaits.
