(* ===== verification/ClientShared.v ===== *)
(** * What concurrent calls share

    The maps without a lock: once descriptors and addresses are known, reads and
    seeks only look them up ([tstep_warm]).  The globals of the seeks: a count of
    answers that has passed the value the waits look for ([tstep_hung]). *)

From S2P Require Import Prelude CString HexDump Address Posix LogInfo Server ServerSpec.
From S2P Require Import Client Wrappers ClientSpec ClientInv ClientProps ClientThreads ClientFrames.
Import Address Posix LogInfo Client Wrappers ClientSpec ClientInv ClientThreads ClientFrames.
Import ServerSpec(rpc, ROpen, RRead, RSeek, RClose).

Module ClientShared.

Section Steps.
Context (hash : string -> Z).
#[local] Abbreviation tstep := (ClientThreads.tstep hash).
#[local] Abbreviation tsteps := (ClientThreads.tsteps hash).

(** ** The shared maps *)

(** The maps without a lock, and the number the hash is reduced by. *)
Definition maps (c : client) : gmap Z string * gmap Z Z * gmap Z string * Z :=
  (fd_map c, fd_redir_map c, address_cache c, g_ftc_server_count c).

(** The piece leaves a part of the state as it was. *)
Definition unmoved {X A} (f : client -> X) (m : C A) : Prop := forall c a c', m c = Ret a c' -> f c' = f c.

Section Unmoved.
Context {X : Type} (f : client -> X).

Lemma unmoved_ret {A} (a : A) : unmoved f (mret a).
Proof. by intros c a' c' [= _ <-]. Qed.
Lemma unmoved_gets {A} (g : client -> A) : unmoved f (gets g).
Proof. by intros c a' c' [= _ <-]. Qed.
Lemma unmoved_die {A} w : unmoved f (A := A) (die w).
Proof. done. Qed.
Lemma unmoved_block {A} : unmoved f (A := A) block.
Proof. done. Qed.
Lemma unmoved_modify g : (forall c, f (g c) = f c) -> unmoved f (modify g).
Proof. by intros Hf c a' c' [= _ <-]. Qed.
Lemma unmoved_bind {A B} (m : C A) (k : A -> C B) :
  unmoved f m -> (forall a, unmoved f (k a)) -> unmoved f (m ≫= k).
Proof. intros Hm Hk c b c' (a & c1 & H1 & H2)%bind_inv. by rewrite (Hk _ _ _ _ H2), (Hm _ _ _ H1). Qed.
Lemma unmoved_on_os {A} (m : M os A) : (forall o c, f (upd_os o c) = f c) -> unmoved f (on_os m).
Proof. intros Hf c a c' H. unfold on_os in H. by destruct (m (cl_os c)); simplify_eq. Qed.

End Unmoved.

Create HintDb unmoved.

Ltac stay :=
  repeat first
    [ progress intros
    | solve [eauto 1 with unmoved]
    | apply unmoved_ret | apply unmoved_gets | apply unmoved_die | apply unmoved_block
    | apply unmoved_on_os; intros; reflexivity
    | apply unmoved_modify; intros; reflexivity
    | apply unmoved_bind
    | match goal with |- unmoved _ (match ?x with _ => _ end) => destruct x end ].

(** The maps are not written. *)
#[local] Abbreviation reads_maps := (unmoved maps).

Lemma log_request_maps a b d f e : reads_maps (log_request a b d f e).
Proof. unfold log_request, same_node, defined, log. stay. Qed.
#[local] Hint Resolve log_request_maps : unmoved.
Lemma read_cb_maps id r : reads_maps (ftc_read_cb id r).
Proof.
  unfold ftc_read_cb, log_answer, same_node, request_of, write_frame, frame_of, put_frame, free_request,
    assertM, defined, log. stay.
Qed.
Lemma seek_cb_maps r : reads_maps (ftc_seek_cb r).
Proof. unfold ftc_seek_cb, defined. stay. Qed.
Lemma write_frame_maps id g : reads_maps (write_frame id g).
Proof. unfold write_frame, frame_of, put_frame, defined. stay. Qed.
Lemma wait_done_maps id : reads_maps (wait_done id).
Proof. unfold wait_done, frame_of, pop_frame, defined. stay. Qed.
Lemma wait_timeout_maps host id : reads_maps (wait_timeout host id).
Proof. unfold wait_timeout, inc_counter, counter, frame_of, pop_frame, defined. stay. Qed.

(** Every tracked descriptor has its server descriptor, and the address of its
    host is known: [operator[]] and the cache only look up. *)
Record warm (c : client) : Prop := {
  wm_redir : forall fd p, fd_map c !! fd = Some p -> is_Some (fd_redir_map c !! fd);
  wm_cache : forall fd p, fd_map c !! fd = Some p ->
    is_Some (address_cache c !! i32 (hash p mod g_ftc_server_count c))
}.

Lemma warm_maps c c' : maps c' = maps c -> warm c -> warm c'.
Proof. intros [= E1 E2 E3 E4] [H1 H2]. split; by rewrite E1, ?E2, ?E3, ?E4. Qed.

(** The host of a descriptor that a call is about to ask. *)
Definition asks (c : client) (fd host : Z) : Prop :=
  exists p, fd_map c !! fd = Some p /\ host = i32 (hash p mod g_ftc_server_count c).

Lemma host_of_maps fd c host c' : is_Some (fd_map c !! fd) -> host_of hash fd c = Ret host c' ->
  maps c' = maps c /\ asks c fd host.
Proof.
  intros [p Hp] H. unfold host_of, fd_map_at in H. mred_in H. rewrite Hp in H.
  destruct (g_ftc_server_count c =? 0); simplify_eq. split; [done|]. by exists p.
Qed.

Lemma read_check_maps fd c r c' : read_check hash fd c = Ret r c' ->
  maps c' = maps c /\ match r with Some host => asks c fd host | None => True end.
Proof.
  intros H. unfold read_check, ftc_file_tracked in H. mred_in H.
  destruct (bool_decide _) eqn:Eb; [|cbn in H; by simplify_eq]. apply bool_decide_eq_true in Eb. cbn [negb] in H.
  apply bind_inv in H as (host & c1 & H1 & H). destruct (host_of_maps _ _ _ _ Eb H1) as [E Ha].
  destruct (skip_host_passed _ _ _ _ H) as [-> _]. split; [done|].
  destruct r as [h|]; [|done]. apply bind_inv in H as (b & c2 & H2 & H). destruct b; mred_in H; by simplify_eq.
Qed.

Lemma lookup_addr_warm host c a c' : is_Some (address_cache c !! host) -> lookup_addr host c = Ret a c' ->
  maps c' = maps c.
Proof.
  intros [b Hb] H. unfold lookup_addr, ftc_client_comm_lookup_addr in H. mred_in H. rewrite Hb in H. by simplify_eq.
Qed.

Lemma fd_redir_at_warm fd c a c' : is_Some (fd_redir_map c !! fd) -> fd_redir_at fd c = Ret a c' -> c' = c.
Proof. intros [b Hb] H. unfold fd_redir_at in H. mred_in H. rewrite Hb in H. by simplify_eq. Qed.

(** Peel a piece that only reads the maps off a computation that returned. *)
Lemma bind_maps {A B} (m : C A) (k : A -> C B) c b c' : reads_maps m -> (m ≫= k) c = Ret b c' ->
  exists a c1, k a c1 = Ret b c' /\ maps c1 = maps c.
Proof. intros Hm (a & c1 & H1 & H2)%bind_inv. exists a, c1. split; [done|]. by eapply Hm. Qed.

(** The whole computation is one that only reads the maps. *)
Ltac only_reads H :=
  match type of H with ?m ?c = Ret _ ?c' =>
    assert (maps c' = maps c) by (refine ((_ : reads_maps m) _ _ _ H);
      unfold put_request, forward, assertM; stay) end.

Lemma gen_read_maps fd count off host id e c u c' : warm c -> asks c fd host ->
  ftc_client_comm_gen_read_rpc host fd count off id e c = Ret u c' -> maps c' = maps c.
Proof.
  intros Hw (p & Hp & ->) H. unfold ftc_client_comm_gen_read_rpc, ftc_comm_create_handle, ftc_comm_free_addr in H.
  apply bind_inv in H as (a & c1 & H1 & H). apply lookup_addr_warm in H1; [|by eapply (wm_cache c)].
  do 4 (apply bind_maps in H as (? & ? & H & E); [|unfold assertM; stay];
        rewrite H1 in E; clear H1; rename E into H1).
  apply bind_inv in H as (rfd & c3 & H3 & H). apply fd_redir_at_warm in H3 as ->.
  - only_reads H. congruence.
  - injection H1 as E1 E2 E3 E4. rewrite E2. by eapply (wm_redir c).
Qed.

Lemma read_send_maps fd count off buf host e c id c' : warm c -> asks c fd host ->
  read_send fd count off buf host e c = Ret id c' -> maps c' = maps c.
Proof.
  intros Hw Ha H. unfold read_send in H. rewrite (bind_Ret _ _ _ _ _ (push_frame_run buf c)) in H.
  set (c0 := upd_frames _ _ _ c) in H. apply bind_inv in H as (u & c1 & H1 & H). mred_in H. simplify_eq.
  apply gen_read_maps in H1; [exact H1|by apply (warm_maps c c0)|exact Ha].
Qed.

Lemma seek_send_maps fd off wh e c b c' : warm c ->
  seek_send hash fd off wh e c = Ret b c' -> maps c' = maps c.
Proof.
  intros Hw H. unfold seek_send, ftc_file_tracked in H. mred_in H.
  destruct (bool_decide _) eqn:Eb; [|cbn in H; by simplify_eq]. apply bool_decide_eq_true in Eb. cbn [negb] in H.
  apply bind_inv in H as (host & c1 & H1 & H). destruct (host_of_maps _ _ _ _ Eb H1) as [E1 (p & Hp & ->)].
  apply bind_inv in H as (u & c2 & H2 & H). mred_in H. injection H as _ <-.
  unfold ftc_client_comm_gen_seek_rpc, ftc_comm_create_handle, ftc_comm_free_addr in H2. rewrite <- E1. assert (Hw1 : warm c1) by by apply (warm_maps c c1).
  apply bind_maps in H2 as (? & c3 & H2 & E3); [|by apply unmoved_modify].
  assert (Hw3 : warm c3) by by apply (warm_maps c1 c3). rewrite <- E3. injection E1 as F1 F2 F3 F4.
  injection E3 as G1 G2 G3 G4. rewrite <- F1, <- G1 in Hp. rewrite <- F4, <- G4 in H2.
  apply bind_inv in H2 as (a & c4 & H4 & H2). apply lookup_addr_warm in H4; [|by eapply (wm_cache c3)].
  apply bind_maps in H2 as (? & c5 & H2 & E5); [|unfold assertM; stay]. rewrite H4 in E5. rewrite <- E5.
  apply bind_inv in H2 as (rfd & c6 & H6 & H2). apply fd_redir_at_warm in H6 as ->.
  - by only_reads H2.
  - injection E5 as K1 K2 K3 K4. rewrite K2. by eapply (wm_redir c3).
Qed.

(** Only reads and seeks. *)
Definition no_open_close (l : label) : Prop := l <> LOpen /\ l <> LClose.

Record warm_ok (c0 : client) (s : threads) : Prop := {
  wo_maps : maps (tn_client s) = maps c0;
  wo_asks : forall t fd n off b host, tn_threads s !! t = Some (TReading fd n off b host) ->
    asks (tn_client s) fd host
}.

Lemma asks_maps c c' fd host : maps c' = maps c -> asks c fd host -> asks c' fd host.
Proof. intros [= E1 E2 E3 E4] (p & Hp & ->). exists p. by rewrite E1, E4. Qed.

Lemma warm_ok_step c0 c c' ts ts' n m h h' : warm_ok c0 (mk_threads c ts n h) -> maps c' = maps c ->
  (forall t fd k off b host, ts' !! t = Some (TReading fd k off b host) ->
     ts !! t = Some (TReading fd k off b host) \/ asks c fd host) ->
  warm_ok c0 (mk_threads c' ts' m h').
Proof.
  intros [H1 H2] E Hts. split; cbn in *; [congruence|]. intros t fd k off b host Ht.
  apply (asks_maps c); [done|]. destruct (Hts _ _ _ _ _ _ Ht) as [Ht'|]; [by eapply H2|done].
Qed.

Lemma insert_not_reading (ts : list tstate) t x t' y : <[t := x]> ts !! t' = Some y -> x <> y -> ts !! t' = Some y.
Proof. intros [(-> & E & _)|[_ H]]%list_lookup_insert_Some Hx; [by rewrite E in Hx|done]. Qed.

Lemma tstep_warm c0 l s s' : warm c0 -> no_open_close l -> tstep l s s' -> warm_ok c0 s -> warm_ok c0 s'.
Proof.
  intros Hw Hl Hs. revert Hl. destruct Hs; intros [Hl1 Hl2] Hok; try congruence; pose proof (wo_maps _ _ Hok) as E0; cbn [tn_client] in E0;
    assert (Hwc : warm c) by by eapply warm_maps.
  - apply read_check_maps in H0 as [E Hr]. eapply warm_ok_step; [done..|].
    intros t' fd' k off' b' host [(-> & Hx & _)|[_ Hx]]%list_lookup_insert_Some; [|by left].
    right. destruct r; [|done]. by injection Hx as <- <- <- <- <-.
  - apply read_send_maps in H0; [|done|by eapply (wo_asks _ _ Hok)]. eapply warm_ok_step; [done..|].
    intros; left. by eapply insert_not_reading.
  - apply write_frame_maps in H0. eapply warm_ok_step; [done..|]. by intros; left.
  - apply read_cb_maps in H0. eapply warm_ok_step; [done..|]. by intros; left.
  - apply wait_done_maps in H0. eapply warm_ok_step; [done..|]. intros; left. by eapply insert_not_reading.
  - apply wait_timeout_maps in H0. eapply warm_ok_step; [done..|]. intros; left. by eapply insert_not_reading.
  - apply seek_send_maps in H0; [|done]. eapply warm_ok_step; [done..|]. intros; left.
    eapply insert_not_reading; [done|]. by destruct b.
  - apply seek_cb_maps in H. eapply warm_ok_step; [done..|]. by intros; left.
  - eapply warm_ok_step; [done..|]. intros; left. by eapply insert_not_reading.
Qed.

(** ** Two seeks at once *)

(** A seek of a tracked descriptor can be sent. *)
Record seekable (c : client) : Prop := {
  sk_count : 0 < g_ftc_server_count c < 2 ^ 31;
  sk_addressed : addressed c
}.

Lemma gen_seek_run host fd off wh e c : env_ok e -> host_known c host ->
  exists c', ftc_client_comm_gen_seek_rpc host fd off wh e c = Ret tt c' /\
    fd_map c' = fd_map c /\ g_ftc_server_count c' = g_ftc_server_count c /\ seek_done c' = HG_FALSE.
Proof.
  intros [E1 E2 E3 E4 E5 E6 E7] Hk. unfold ftc_client_comm_gen_seek_rpc, ftc_comm_create_handle, ftc_comm_free_addr. mred.
  set (c1 := upd_seek _ _ c). destruct (lookup_addr_run host c1) as (a & m & n & -> & _); [exact Hk|].
  rewrite E1, E6, E7. change (0 =? 0) with true. mred.
  destruct (fd_redir_at_run fd (upd_cache m (upd_os (patched (os_text (cl_os c1), n) (cl_os c1)) c1))) as (rm & -> & _). unfold forward. mred. by eexists.
Qed.

Lemma seek_send_run c fd off wh e : seekable c -> env_ok e -> is_Some (fd_map c !! fd) ->
  exists c', seek_send hash fd off wh e c = Ret true c' /\ seekable c' /\ fd_map c' = fd_map c /\
    seek_done c' = HG_FALSE.
Proof.
  intros [Hn Ha] He [p Hp].
  set (host := hash p mod g_ftc_server_count c).
  assert (Hh : 0 <= host < g_ftc_server_count c) by (apply Z.mod_pos_bound; lia).
  assert (Hhost : host_of hash fd c = Ret host c).
  { unfold host_of, fd_map_at. mred. rewrite Hp, (proj2 (Z.eqb_neq _ 0)) by lia.
    by rewrite i32_id by (unfold in_i32, host in *; lia). }
  destruct (gen_seek_run host fd off wh e c He (ad_known c Ha host Hh)) as (c' & Hg & F1 & F2 & F3).
  exists c'. split; [|split_and!; try done].
  - unfold seek_send, ftc_file_tracked. mred. rewrite Hp, bool_decide_true by (by eexists). cbn [negb].
    by rewrite Hhost, Hg.
  - split; [by rewrite F2|]. by apply (keeps_gen_seek addressed) in Hg.
Qed.

(** *** The seeks of a single thread *)

Lemma gen_seek_done host fd off wh e c u c' :
  ftc_client_comm_gen_seek_rpc host fd off wh e c = Ret u c' -> seek_done c' = HG_FALSE.
Proof.
  intros H. unfold ftc_client_comm_gen_seek_rpc, ftc_comm_create_handle, ftc_comm_free_addr in H. apply bind_inv in H as (u1 & c1 & H1 & H). mred_in H1. simplify_eq.
  assert (Hrest : unmoved seek_done (let* svr_addr := lookup_addr host in
    ftc_comm_create_handle e;;
    let* rfd := fd_redir_at fd in
    forward host (RSeek (Server.mk_seek_in rfd off wh));;
    assertM (ce_forward e =? 0);;
    ftc_comm_free_addr e)).
  { unfold lookup_addr, ftc_comm_create_handle, ftc_comm_free_addr, fd_redir_at, forward, assertM. stay. }
  exact (Hrest _ _ _ H).
Qed.

(** The wait of a lone seek takes the first answer that comes. *)
Lemma seek_block_one ws c v c' : seek_done c = HG_FALSE -> ftc_seek_block ws c = Ret v c' ->
  exists r, ftc_seek_cb r c = Ret tt c' /\ seek_done c' = HG_TRUE /\ v = read_ret c'.
Proof.
  intros Hd. induction ws as [|w ws IH]; cbn [ftc_seek_block]; intros H; mred_in H; rewrite Hd in H;
    change (HG_FALSE =? HG_TRUE) with false in H; cbv iota in H; [done|].
  destruct (wk_reply w) as [r|]; [|by apply IH]. apply bind_inv in H as (u & c1 & H1 & H). destruct u. exists r.
  unfold ftc_seek_cb in H1 |- *. destruct (rp_get r =? 0); mred_in H1; [|done]. rewrite Hd in H1. simplify_eq.
  mred. rewrite Hd. by destruct ws; injection H as <- <-.
Qed.

Lemma seek_steps fd off wh e c v c' ts t n h : ftc_remote_lseek hash fd off wh e c = Ret v c' ->
  ts !! t = Some TIdle ->
  exists h', rtc (tsteps any) (mk_threads c ts n h) (mk_threads c' ts n h') /\
    (h' = h /\ v = -1 \/ h' = h ++ [ESeekReturned t v]).
Proof.
  intros H Ht. rewrite (equiv_run _ _ c (lseek_pieces hash fd off wh e)) in H. apply bind_inv in H as (b & c1 & H1 & H).
  pose proof (t_seek_send hash t fd off wh e c b c1 ts n h Ht H1) as Hsend. destruct b.
  - assert (Hd : seek_done c1 = HG_FALSE).
    { unfold seek_send in H1. apply bind_inv in H1 as (tr & c2 & _ & H1). destruct (negb tr); [by mred_in H1; simplify_eq|].
      apply bind_inv in H1 as (host & c3 & _ & H1). apply bind_inv in H1 as (u & c4 & H4 & H1).
      mred_in H1. simplify_eq. by eapply gen_seek_done. }
    destruct (seek_block_one _ _ _ _ Hd H) as (r & Hr & Hd' & ->).
    exists (h ++ [ESeekReturned t (read_ret c')]). split; [|by right].
    eapply tsteps_one; [exact Hsend|]. eapply tsteps_one; [by apply (t_seek_answer hash r c1 c')|].
    eapply tsteps_one; [apply (t_seek_return hash t c'); [|done]|].
    + apply list_lookup_insert_eq. by eapply lookup_lt_Some.
    + by rewrite list_insert_insert_eq, list_insert_id.
  - mred_in H. simplify_eq. exists h. split; [|by left]. eapply tsteps_one; [exact Hsend|].
    by rewrite list_insert_id.
Qed.

(** A byte that was counted up to two is not the value the waits look for. *)
Record hung (t1 t2 : nat) (s : threads) : Prop := {
  hg_first : tn_threads s !! t1 = Some TSeeking;
  hg_second : tn_threads s !! t2 = Some TSeeking;
  hg_done : seek_done (tn_client s) = 2;
  hg_none : tn_seeks s = 0%nat
}.

Lemma same_node_done a : unmoved seek_done (same_node a).
Proof. unfold same_node, defined. stay. Qed.
Lemma lookup_addr_done h : unmoved seek_done (lookup_addr h).
Proof. unfold lookup_addr. stay. Qed.
Lemma host_of_done fd : unmoved seek_done (host_of hash fd).
Proof. unfold host_of, fd_map_at. stay. Qed.
#[local] Hint Resolve same_node_done lookup_addr_done host_of_done : unmoved.

Lemma log_request_done a b d f e : unmoved seek_done (log_request a b d f e).
Proof. unfold log_request, log. stay. Qed.
Lemma log_answer_done a b d f e : unmoved seek_done (log_answer a b d f e).
Proof. unfold log_answer, log. stay. Qed.
Lemma write_frame_done id g : unmoved seek_done (write_frame id g).
Proof. unfold write_frame, frame_of, put_frame, defined. stay. Qed.
Lemma skip_host_done h : unmoved seek_done (skip_host h).
Proof. unfold skip_host, counter, defined. stay. Qed.
Lemma start_mercury_done se : unmoved seek_done (start_mercury se).
Proof. unfold start_mercury, initialize_timeout_counters, ftc_get_addr, defined. stay. Qed.
#[local] Hint Resolve log_request_done log_answer_done write_frame_done skip_host_done start_mercury_done : unmoved.

Lemma open_track_done path flags fd se : unmoved seek_done (open_track path flags fd se).
Proof. unfold open_track. stay. Qed.
Lemma open_test_done fd : unmoved seek_done (open_test hash fd).
Proof. unfold open_test. stay. Qed.
Lemma open_send_done fd host e : unmoved seek_done (open_send fd host e).
Proof.
  unfold open_send, push_frame, fd_map_at, ftc_client_comm_gen_open_rpc, ftc_comm_create_handle, ftc_comm_free_addr, put_request, forward, assertM. stay.
Qed.
Lemma open_cb_done id r : unmoved seek_done (ftc_open_cb id r).
Proof. unfold ftc_open_cb, request_of, free_request, assertM, defined. stay. Qed.
Lemma read_check_done fd : unmoved seek_done (read_check hash fd).
Proof. unfold read_check, ftc_file_tracked. stay. Qed.
Lemma read_send_done fd count off buf host e : unmoved seek_done (read_send fd count off buf host e).
Proof.
  unfold read_send, push_frame, ftc_client_comm_gen_read_rpc, ftc_comm_create_handle, ftc_comm_free_addr, fd_redir_at, put_request, forward, assertM. stay.
Qed.
Lemma read_cb_done id r : unmoved seek_done (ftc_read_cb id r).
Proof. unfold ftc_read_cb, request_of, free_request, assertM, defined. stay. Qed.
Lemma wait_done_done id : unmoved seek_done (wait_done id).
Proof. unfold wait_done, frame_of, pop_frame, defined. stay. Qed.
Lemma wait_timeout_done host id : unmoved seek_done (wait_timeout host id).
Proof. unfold wait_timeout, inc_counter, counter, frame_of, pop_frame, defined. stay. Qed.
Lemma remove_fd_done fd e : unmoved seek_done (ftc_remove_fd hash fd e).
Proof.
  unfold ftc_remove_fd, ftc_remote_close, ftc_file_tracked, ftc_client_comm_gen_close_rpc, ftc_comm_create_handle, ftc_comm_free_addr, fd_redir_at, forward, assertM.
  stay.
Qed.

Lemma insert_seeking (ts : list tstate) t x y t' : ts !! t = Some x -> x <> TSeeking ->
  ts !! t' = Some TSeeking -> <[t := y]> ts !! t' = Some TSeeking.
Proof. intros Ht Hx Ht'. rewrite list_lookup_insert_ne; [done|]. intros ->. congruence. Qed.

(** Nothing but a new seek gets them out of it. *)
Lemma tstep_hung t1 t2 l s s' : l <> LSeekSend -> tstep l s s' -> hung t1 t2 s -> hung t1 t2 s'.
Proof.
  intros Hl Hs. revert Hl. destruct Hs; intros Hl [G1 G2 G3 G4]; cbn [tn_threads tn_client tn_seeks] in *;
    try congruence;
    try (split; cbn [tn_threads tn_client tn_seeks]; [by eapply insert_seeking..| |done]; rewrite <- G3).
  - by eapply open_track_done.
  - by eapply open_test_done.
  - by eapply open_send_done.
  - split; [exact G1|exact G2| |exact G4]. cbn [tn_client]. rewrite <- G3. by eapply open_cb_done.
  - by eapply wait_done_done.
  - by eapply wait_timeout_done.
  - by eapply read_check_done.
  - by eapply read_send_done.
  - split; [exact G1|exact G2| |exact G4]. cbn [tn_client]. rewrite <- G3. by eapply write_frame_done.
  - split; [exact G1|exact G2| |exact G4]. cbn [tn_client]. rewrite <- G3. by eapply read_cb_done.
  - by eapply wait_done_done.
  - by eapply wait_timeout_done.
  - by rewrite G3 in H0.
  - split; [exact G1|exact G2| |exact G4]. cbn [tn_client]. rewrite <- G3. by eapply remove_fd_done.
Qed.

(** Two threads have sent their seeks. *)
Lemma two_seeks c ts h t1 t2 (fd1 fd2 off1 off2 wh1 wh2 : Z) e1 e2 : t1 <> t2 ->
  ts !! t1 = Some TIdle -> ts !! t2 = Some TIdle -> seekable c -> env_ok e1 -> env_ok e2 ->
  is_Some (fd_map c !! fd1) -> is_Some (fd_map c !! fd2) ->
  exists c2, seek_done c2 = 0 /\
    rtc (tsteps any) (mk_threads c ts 0 h) (mk_threads c2 (<[t2 := TSeeking]> (<[t1 := TSeeking]> ts)) 2 h).
Proof.
  intros Ht H1 H2 Hs He1 He2 Hf1 Hf2.
  destruct (seek_send_run c fd1 off1 wh1 e1 Hs He1 Hf1) as (c1 & R1 & Hs1 & F1 & _).
  destruct (seek_send_run c1 fd2 off2 wh2 e2 Hs1 He2) as (c2 & R2 & _ & _ & D2); [by rewrite F1|].
  exists c2. split; [exact D2|].
  eapply tsteps_one; [exact (t_seek_send hash t1 fd1 off1 wh1 e1 c true c1 ts 0 h H1 R1)|].
  eapply tsteps_one; [|done]. apply (t_seek_send hash t2 fd2 off2 wh2 e2 c1 true c2 _ 1 h); [|exact R2].
  by rewrite list_lookup_insert_ne.
Qed.

End Steps.

End ClientShared.
