(* ===== verification/ClientThreadsProps.v ===== *)
(** * What many threads of one client can rely on

    Bounds, isolation and sequential behaviour of the reads, and what goes wrong
    with seeks. *)

From S2P Require Import Prelude CString HexDump Address Posix LogInfo Server ServerSpec.
From S2P Require Import Client Wrappers ClientSpec ClientInv ClientProps ClientThreads ClientFrames ClientWaits ClientShared.
Import Address Posix LogInfo Client Wrappers ClientSpec ClientInv ClientThreads ClientFrames ClientWaits ClientShared.
Import ServerSpec(rpc, ROpen, RRead, RSeek, RClose).
Import ClientProps.ClientExample.

(** C9: with many threads a host costs a little more.  Each call looks at its
    host's counter before it sends and adds to it when the deadline passes, and
    the two are different critical sections.  With [n] threads, however they
    interleave and whatever the servers do, no counter passes the limit by more
    than [n - 1]; for one thread this is the limit itself. *)
Theorem threads_timeouts_bounded hash c n s h k :
  in_limit (timeout_counters c) -> (0 < n)%nat -> rtc (tsteps hash any) (tstart c n) s ->
  timeout_counters (tn_client s) !! h = Some k ->
  0 <= k <= TIMEOUT_LIMIT - 1 + Z.of_nat n.
Proof.
  intros Hl Hn Hr Hk.
  assert (H0 : counters_room (tstart c n)).
  { intros i j Hj. cbn. rewrite pending_idle, length_replicate. unfold in_limit, within in Hl. rewrite Forall_lookup in Hl.
    specialize (Hl _ _ Hj). lia. }
  pose proof (tsteps_length _ _ _ _ Hr) as Hlen.
  apply (tsteps_invariant hash counters_room any) in Hr; [|intros l s1 s2 _; apply tstep_room|exact H0].
  destruct (Hr (Z.of_nat h) k) as [Hk0 Hk1]; [by rewrite Nat2Z.id|]. rewrite Hlen in Hk1. lia.
Qed.

(** C10: concurrent reads do not disturb each other, as long as nothing comes too
    late.  Take any interleaving of the pieces of any calls in which no bytes and
    no answer come for a call whose wait is over (such bytes and answers go to
    memory that other calls use by then).  When a read returns, its result and its
    buffer are those of the frame that its own events make: the bytes that were
    pushed for it and the answer it was given, or a timeout.  The thread that gets
    them is the one that sent the read. *)
Theorem reads_isolated hash c n s h1 t id v b h2 :
  rtc (tlate hash) (tstart c n, false) (s, false) -> tn_hist s = h1 ++ EReturned t id v b :: h2 ->
  (exists buf, ESent t id buf ∈ h1) /\
  exists f, view id (filter (fun e => about id e = true) h1) = Some f /\ b = fr_buf f /\
    (v = -1 \/ (fr_done f = true /\ v = fr_bytes f)).
Proof.
  intros [_ Hr]%tlate_timely Hh; [|done]. apply (tsteps_invariant hash frames_ok any) in Hr;
    [|intros l s1 s2 _; apply tstep_frames|apply tstart_frames].
  destruct (fo_hist _ Hr _ _ _ _ _ _ Hh) as [Hs (f & Hf & Hb & Hv)]. split; [done|].
  exists f. by rewrite <- view_about.
Qed.

(** C20: no wait is for ever.  In every state that [n] threads of a client can
    reach, whatever the servers did or did not answer, the deadline of every
    thread that waits for an open or a read can pass without undefined
    behaviour: its frame is there, its host has a counter, and the counter does
    not overflow.  So one step for each waiting thread ends all these waits, and
    no other thread is moved. *)
Theorem waits_end hash c n s :
  in_limit (timeout_counters c) -> length (timeout_counters c) = Z.to_nat (i32 (g_ftc_server_count c)) ->
  (0 < n)%nat -> Z.of_nat n < 2 ^ 31 - TIMEOUT_LIMIT -> rtc (tsteps hash any) (tstart c n) s ->
  (forall t x id host, tn_threads s !! t = Some x -> waits x = Some id -> asked x = Some host ->
     exists f c', wait_timeout host id (tn_client s) = Ret f c') /\
  exists s', nsteps (tsteps hash (fun l => l = LOpen \/ l = LRead)) (waiting (tn_threads s)) s s' /\
    forall t x, tn_threads s !! t = Some x ->
      tn_threads s' !! t = Some (match waits x with Some _ => TIdle | None => x end).
Proof.
  intros Hl Hc Hn Hb Hr. rewrite <- (tsteps_length _ _ _ _ Hr) in Hb.
  apply (tsteps_invariant hash (waits_ok (g_ftc_server_count c)) any) in Hr;
    [|intros l s1 s2 _; apply tstep_waits|by apply tstart_waits].
  split; [intros t x id host; by eapply deadline_run|by eapply waits_can_end].
Qed.

(** A read of a single thread is one of the schedules.  Whatever
    [ftc_remote_read] and [ftc_remote_pread] do as a whole, the pieces of the
    concurrent client can do too, in the same state: the thread ends where it
    was, the client in the state the whole call leaves, and the history ends
    with its result. *)
Lemma read_is_a_schedule hash fd count off buf e c v b c' ts t n h :
  remote_transfer hash fd count off buf e c = Ret (v, b) c' -> ts !! t = Some TIdle ->
  exists h', rtc (tsteps hash any) (mk_threads c ts n h) (mk_threads c' ts n h') /\
    (h' = h /\ v = -1 /\ b = buf \/ exists id, last h' = Some (EReturned t id v b)).
Proof.
  intros H Ht. destruct (read_steps hash fd count off buf e c v b c' ts t n h H Ht) as (h' & id & Hh & Hr).
  exists h'. split; [exact Hr|]. destruct Hh as [Hh|Hh]; [by left|right]. exists id.
  rewrite last_lookup. by replace (pred (length h')) with (length h' - 1)%nat by lia.
Qed.

(** The calls of a single thread are schedules.  Whatever an open, a read, a
    seek or a close does as a whole, the pieces of the concurrent client can do too, from
    the same state: the thread ends where it was, the client in the state the
    whole call leaves, and a read or a seek leaves its result in the history.  So what
    holds of every schedule holds of the calls one after the other. *)
Lemma calls_are_schedules hash c c' ts t n h :
  ts !! t = Some TIdle ->
  (forall path flags fd se e b,
     ftc_track_file hash path flags fd se e c = Ret b c' -> Forall (fun w => wk_push w = None) (ce_wakes e) ->
     exists h', rtc (tsteps hash any) (mk_threads c ts n h) (mk_threads c' ts n h')) /\
  (forall fd count off buf e v b, remote_transfer hash fd count off buf e c = Ret (v, b) c' ->
     exists h', rtc (tsteps hash any) (mk_threads c ts n h) (mk_threads c' ts n h') /\
       (h' = h /\ v = -1 /\ b = buf \/ exists id, last h' = Some (EReturned t id v b))) /\
  (forall fd off wh e v, ftc_remote_lseek hash fd off wh e c = Ret v c' ->
     exists h', rtc (tsteps hash any) (mk_threads c ts n h) (mk_threads c' ts n h') /\
       (h' = h /\ v = -1 \/ h' = h ++ [ESeekReturned t v])) /\
  (forall fd e b, ftc_remove_fd hash fd e c = Ret b c' ->
     rtc (tsteps hash any) (mk_threads c ts n h) (mk_threads c' ts n h)).
Proof.
  intros Ht. split_and!.
  - intros path flags fd se e b H Hp. by eapply open_steps.
  - intros fd count off buf e v b H. by eapply read_is_a_schedule.
  - intros fd off wh e v H. by eapply seek_steps.
  - intros fd e b H. eapply tsteps_one; [by eapply t_close|done].
Qed.

(** C19: once every tracked descriptor has its server descriptor and the address of
    its host is known, any number of threads can read and seek without writing
    the library's maps, which have no lock: the maps are only looked up. *)
Theorem warm_threads_share_nothing hash c n s :
  warm hash c -> rtc (tsteps hash no_open_close) (tstart c n) s -> maps (tn_client s) = maps c.
Proof.
  intros Hw Hr. apply (tsteps_invariant hash (warm_ok hash c) no_open_close) in Hr.
  - apply Hr.
  - intros l s1 s2. by apply tstep_warm.
  - split; [done|]. intros t fd k off b host H. by apply lookup_replicate in H as [H _].
Qed.

(** C18: two seeks at the same time hang.  Two threads seek on tracked
    descriptors; both requests are answered before a thread looks at the
    global count of answers, which is then two, while the waits look for one.
    No deadline ends the wait: until some thread seeks again, both wait, for
    ever.  And if a thread looks after the first answer, both get that answer,
    although the two seeks may have been for different files. *)
Theorem concurrent_seeks_hang hash c ts h t1 t2 (fd1 fd2 off1 off2 wh1 wh2 : Z) e1 e2 r1 r2 :
  t1 <> t2 -> ts !! t1 = Some TIdle -> ts !! t2 = Some TIdle -> seekable c -> env_ok e1 -> env_ok e2 ->
  is_Some (fd_map c !! fd1) -> is_Some (fd_map c !! fd2) -> rp_get r1 = 0 -> rp_get r2 = 0 ->
  (exists s, rtc (tsteps hash any) (mk_threads c ts 0 h) s /\ hung t1 t2 s /\
     forall s', rtc (tsteps hash (fun l => l <> LSeekSend)) s s' -> hung t1 t2 s') /\
  (exists s, rtc (tsteps hash any) (mk_threads c ts 0 h) s /\
     tn_hist s = h ++ [ESeekReturned t1 (rp_out r1); ESeekReturned t2 (rp_out r1)]).
Proof.
  intros Ht H1 H2 Hs He1 He2 Hf1 Hf2 Hr1 Hr2.
  destruct (two_seeks hash c ts h t1 t2 fd1 fd2 off1 off2 wh1 wh2 e1 e2) as (c2 & D2 & Hrun); try done.
  set (ts2 := <[t2 := TSeeking]> (<[t1 := TSeeking]> ts)) in *.
  assert (L1 : ts2 !! t1 = Some TSeeking).
  { unfold ts2. rewrite list_lookup_insert_ne by done. apply list_lookup_insert_eq. by eapply lookup_lt_Some. }
  assert (L2 : ts2 !! t2 = Some TSeeking).
  { apply list_lookup_insert_eq. rewrite length_insert. by eapply lookup_lt_Some. }
  pose proof (t_seek_answer hash r1 c2 _ ts2 1 h (seek_cb_run r1 c2 Hr1)) as A1. rewrite D2 in A1.
  set (c3 := upd_seek _ _ c2) in A1. split.
  - pose proof (t_seek_answer hash r2 c3 _ ts2 0 h (seek_cb_run r2 c3 Hr2)) as A2.
    eexists. split; [etrans; [exact Hrun|]; eapply tsteps_one; [exact A1|]; eapply tsteps_one; [exact A2|done]|].
    assert (Hh : hung t1 t2 (mk_threads (upd_seek ((seek_done c3 + 1) mod 256) (rp_out r2) c3) ts2 0 h)) by done.
    split; [exact Hh|]. intros s' Hr'.
    by apply (tsteps_invariant hash (hung t1 t2) _ _ s'
      (fun l s1 s2 Hl => tstep_hung hash t1 t2 l s1 s2 Hl)) in Hr'.
  - eexists. split; [etrans; [exact Hrun|]; eapply tsteps_one; [exact A1|]|].
    + eapply tsteps_one; [by apply (t_seek_return hash t1 c3 ts2 1 h)|].
      eapply tsteps_one; [apply (t_seek_return hash t2 c3 _ 1 _); [by rewrite list_lookup_insert_ne|done]|done].
    + cbn. by rewrite <- app_assoc.
Qed.

(** ** Witnesses *)

Module ThreadsExample.

Definition state_of {A} (m : C A) (c : client) : client := match m c with Ret _ c' => c' | _ => c end.
Definition buf2 : list byte := [Byte.x00; Byte.x00].

(** Two threads pass the test with the host's counter at two, send, and both
    time out. *)
Definition k0 : client := cl 2.
Definition k1 : client := Eval vm_compute in state_of (read_send 3 2 0 buf2 0 (env [])) k0.
Definition k2 : client := Eval vm_compute in state_of (read_send 3 2 2 buf2 0 (env [])) k1.
Definition k3 : client := Eval vm_compute in state_of (wait_timeout 0 0) k2.
Definition k4 : client := Eval vm_compute in state_of (wait_timeout 0 1) k3.

Definition sent2 : list tevent := [ESent 0 0 buf2; ESent 1 1 buf2].

(** Up to the two waits. *)
Lemma waiting_reached :
  rtc (tsteps hash0 any) (tstart k0 2) (mk_threads k2 [TReadWait 0 0; TReadWait 0 1] 0 sent2).
Proof.
  eapply tsteps_one; [apply (t_read_check hash0 0 3 2 0 buf2 k0 (Some 0) k0); vm_compute; reflexivity|].
  eapply tsteps_one; [apply (t_read_check hash0 1 3 2 2 buf2 k0 (Some 0) k0); vm_compute; reflexivity|].
  eapply tsteps_one; [apply (t_read_send hash0 0 3 2 0 buf2 0 (env []) k0 0%nat k1); vm_compute; reflexivity|].
  eapply tsteps_one; [apply (t_read_send hash0 1 3 2 2 buf2 0 (env []) k1 1%nat k2); vm_compute; reflexivity|].
  done.
Qed.

(** Bytes and answers for the two reads, the second one's first. *)
Definition k5 : client := Eval vm_compute in state_of (write_frame 1 (set_buf [Byte.x43; Byte.x44])) k2.
Definition k6 : client := Eval vm_compute in state_of (write_frame 0 (set_buf [Byte.x41; Byte.x42])) k5.
Definition k7 : client := Eval vm_compute in state_of (ftc_read_cb 1 (ok_reply 2)) k6.
Definition k8 : client := Eval vm_compute in state_of (ftc_read_cb 0 (ok_reply 2)) k7.
Definition k9 : client := Eval vm_compute in state_of (wait_done 0) k8.
Definition answered2 : list tevent :=
  sent2 ++ [EPushed 1 [Byte.x43; Byte.x44]; EPushed 0 [Byte.x41; Byte.x42]; EAnswered 1 (ok_reply 2);
            EAnswered 0 (ok_reply 2)].

Lemma answered_reached :
  rtc (tsteps hash0 any) (tstart k0 2)
    (mk_threads k9 [TIdle; TReadWait 0 1] 0 (answered2 ++ [EReturned 0 0 2 [Byte.x41; Byte.x42]])).
Proof.
  etrans; [exact waiting_reached|].
  eapply tsteps_one; [apply (t_read_push hash0 1 0 1 [Byte.x43; Byte.x44] k2 k5); vm_compute; reflexivity|].
  eapply tsteps_one; [apply (t_read_push hash0 0 0 0 [Byte.x41; Byte.x42] k5 k6); vm_compute; reflexivity|].
  eapply tsteps_one; [apply (t_read_answer hash0 1 0 1 (ok_reply 2) k6 k7); vm_compute; reflexivity|].
  eapply tsteps_one; [apply (t_read_answer hash0 0 0 0 (ok_reply 2) k7 k8); vm_compute; reflexivity|].
  eapply tsteps_one; [|done].
  apply (t_read_return hash0 0 0 0 k8 (mk_frame true 2 [Byte.x41; Byte.x42]) k9); vm_compute; reflexivity.
Qed.

End ThreadsExample.
Import ThreadsExample.

Lemma threads_timeouts_bounded_witness :
  exists s, rtc (tsteps hash0 any) (tstart k0 2) s /\ timeout_counters (tn_client s) !! 0%nat = Some 4 /\
    0 <= 4 <= TIMEOUT_LIMIT - 1 + Z.of_nat 2.
Proof.
  assert (Hr : rtc (tsteps hash0 any) (tstart k0 2) (mk_threads k4 [TIdle; TIdle] 0
    (sent2 ++ [EReturned 0 0 (-1) buf2; EReturned 1 1 (-1) buf2]))).
  { etrans; [exact waiting_reached|].
    eapply tsteps_one; [apply (t_read_timeout hash0 0 0 0 k2 (mk_frame false (-1) buf2) k3); vm_compute; reflexivity|].
    eapply tsteps_one; [|done].
    apply (t_read_timeout hash0 1 0 1 k3 (mk_frame false (-1) buf2) k4); vm_compute; reflexivity. }
  eexists. split; [exact Hr|]. split; [vm_compute; reflexivity|].
  apply (threads_timeouts_bounded hash0 k0 2 _ 0 4) in Hr; [exact Hr| |lia|vm_compute; reflexivity].
  apply Forall_singleton. vm_compute. split; discriminate.
Defined.

(** Two reads wait, and nobody answers: two deadlines end both. *)
Lemma waits_end_witness :
  exists s', nsteps (tsteps hash0 (fun l => l = LOpen \/ l = LRead)) 2
      (mk_threads k2 [TReadWait 0 0; TReadWait 0 1] 0 sent2) s' /\
    tn_threads s' !! 0%nat = Some TIdle /\ tn_threads s' !! 1%nat = Some TIdle.
Proof.
  destruct (waits_end hash0 k0 2 (mk_threads k2 [TReadWait 0 0; TReadWait 0 1] 0 sent2)) as [_ (s' & Hr & Hend)].
  - apply Forall_singleton. vm_compute. split; discriminate.
  - reflexivity.
  - lia.
  - vm_compute. reflexivity.
  - exact waiting_reached.
  - exists s'. split; [exact Hr|]. split; [apply (Hend 0%nat (TReadWait 0 0)); reflexivity|].
    apply (Hend 1%nat (TReadWait 0 1)); reflexivity.
Defined.

(** The first read got the bytes and the answer that came for it, second. *)
Lemma reads_isolated_witness :
  exists f, view 0 (filter (fun e => about 0 e = true) answered2) = Some f /\ fr_buf f = [Byte.x41; Byte.x42] /\
    fr_bytes f = 2.
Proof.
  destruct (reads_isolated hash0 k0 2 _ answered2 0 0 2 [Byte.x41; Byte.x42] []
    (timely_tlate _ _ _ _ answered_reached) eq_refl)
    as (_ & f & Hf & Hb & [Hv|[_ Hv]]); [discriminate Hv|].
  exists f. split; [exact Hf|]. split; [symmetry; exact Hb|symmetry; exact Hv].
Defined.

Lemma read_is_a_schedule_witness :
  exists c' h', rtc (tsteps hash0 any) (mk_threads (cl 0) [TIdle; TSeeking] 1 []) (mk_threads c' [TIdle; TSeeking] 1 h') /\
    exists id, last h' = Some (EReturned 0 id 2 [Byte.x42; Byte.x43; Byte.x00]).
Proof.
  destruct (remote_transfer hash0 3 2 1 [Byte.x00; Byte.x00; Byte.x00] (env good_wakes) (cl 0)) as [[v b] c'|w c'|c'] eqn:E;
    vm_compute in E; try discriminate E.
  injection E as <- <- Hc. 
  destruct (read_is_a_schedule hash0 3 2 1 [Byte.x00; Byte.x00; Byte.x00] (env good_wakes) (cl 0) 2
    [Byte.x42; Byte.x43; Byte.x00] c' [TIdle; TSeeking] 0 1 []) as (h' & Hr & [(_ & Hv & _)|Hh]).
  - rewrite <- Hc. vm_compute. reflexivity.
  - reflexivity.
  - discriminate Hv.
  - exists c', h'. split; [exact Hr|exact Hh].
Defined.

Definition se1 : self_env := mk_self addr_s true.
Definition answer_wakes : list wake := [mk_wake None None false; mk_wake None (Some (ok_reply 0)) false].

(** An open that is answered, while another thread seeks. *)
Lemma calls_are_schedules_witness :
  exists c' h', ftc_track_file hash0 "/pfs/f" O_RDONLY 4 se1 (env answer_wakes) (cl 0) = Ret true c' /\
    fd_redir_map c' !! 4 = Some 0 /\
    rtc (tsteps hash0 any) (mk_threads (cl 0) [TIdle; TSeeking] 1 []) (mk_threads c' [TIdle; TSeeking] 1 h').
Proof.
  destruct (ftc_track_file hash0 "/pfs/f" O_RDONLY 4 se1 (env answer_wakes) (cl 0)) as [b c'|w c'|c'] eqn:E;
    vm_compute in E; try discriminate E.
  injection E as <- Hc.
  destruct (calls_are_schedules hash0 (cl 0) c' [TIdle; TSeeking] 0 1 [] eq_refl) as [H _].
  destruct (H "/pfs/f"%string O_RDONLY 4 se1 (env answer_wakes) true) as [h' Hr].
  - rewrite <- Hc. vm_compute. reflexivity.
  - repeat constructor.
  - exists c', h'. split; [rewrite <- Hc; reflexivity|]. split; [rewrite <- Hc; vm_compute; reflexivity|exact Hr].
Defined.

(** The address of the host is cached, descriptor 3 has its server descriptor. *)
Lemma warm_threads_share_nothing_witness :
  warm hash0 k0 /\ maps k1 = maps k0.
Proof.
  assert (Hw : warm hash0 k0).
  { split; intros fd p H; change (({[3 := "/pfs/f"%string]} : gmap Z string) !! fd = Some p) in H;
      apply lookup_singleton_Some in H as [<- <-]; vm_compute; by eexists. }
  split; [exact Hw|].
  apply (warm_threads_share_nothing hash0 k0 1 (mk_threads k1 [TReadWait 0 0] 0 [ESent 0 0 buf2]) Hw).
  eapply rtc_l; [exists LRead; split; [by split|]; apply (t_read_check hash0 0 3 2 0 buf2 k0 (Some 0) k0); vm_compute; reflexivity|].
  eapply rtc_l; [exists LRead; split; [by split|]|done].
  apply (t_read_send hash0 0 3 2 0 buf2 0 (env []) k0 0%nat k1); vm_compute; reflexivity.
Defined.

Lemma concurrent_seeks_hang_witness :
  exists s, rtc (tsteps hash0 any) (mk_threads k0 [TIdle; TIdle] 0 []) s /\ hung 0 1 s /\
    forall s', rtc (tsteps hash0 (fun l => l <> LSeekSend)) s s' -> hung 0 1 s'.
Proof.
  assert (Hk : seekable k0).
  { split; [vm_compute; split; reflexivity|]. split.
    - intros r. vm_compute. discriminate.
    - intros h Hh. change (g_ftc_server_count k0) with 1 in Hh. replace h with 0 by lia. vm_compute. by eexists. }
  apply (concurrent_seeks_hang hash0 k0 [TIdle; TIdle] [] 0 1 3 3 0 2 0 0 (env []) (env []) (ok_reply 0) (ok_reply 2)
    ltac:(discriminate) eq_refl eq_refl Hk (env_is_ok []) (env_is_ok [])); (vm_compute; by eexists) || reflexivity.
Defined.
