(* ===== verification/Crowd.v ===== *)
(** * A cluster whose clients have many threads

    Every application has many threads that open files, read them at offsets and
    close them, as the loaders of a training job do.  The calls are cut into the
    pieces of [ClientThreads], the system calls of the wrappers included, and the
    pieces of all the threads of all the clients, the two threads of every server,
    the losses and the failures interleave.  An open is cut at its system call, at
    the entry of its file in the table and at the test of the counter. *)

From S2P Require Import Prelude CString HexDump Address Posix LogInfo Server ServerSpec ServerThreads.
From S2P Require Import Client Wrappers ClientSpec ClientInv ClientProps Transparency ClientThreads ClientFrames ClientWaits.
From S2P Require Import ClientWire Cluster.
Import Address Posix LogInfo ServerSpec ServerThreads.
Import Client Wrappers ClientSpec ClientInv Transparency ClientThreads ClientFrames ClientWaits Cluster.
Import Server(event, EvPush, EvRespond, server).

Module Crowd.

(** ** The calls of the wrappers, in pieces *)

Section Wrapped.
Context (hash : string -> Z).

(** [wrap_open] up to the end of its system call: the descriptor, and whether the
    file is to be tracked. *)
Definition wrap_open_call (pathname : string) (flags : Z) : C (Z * bool) :=
  let* off := redirect_off in
  if off : bool then let* ret := real_open pathname flags in mret (ret, false)
  else
    let* ret := real_open pathname flags in
    mret (ret, negb (ret =? -1)).

(** What the wrapper of [pread] makes of what a read gave it: the end of
    [wrap_pread]. *)
Definition or_plain (fd count offset : Z) (r : Z * list byte) : C (Z * list byte) :=
  if r.1 <? 0 then real_pread fd count offset r.2 else mret r.

Lemma wrap_open_pieces pathname flags se e :
  wrap_open hash pathname flags se e ≡
  (let* r := wrap_open_call pathname flags in
   if (r : Z * bool).2 then
     let* tracked := open_track pathname flags r.1 se in
     if tracked : bool then
       let* h := open_test hash r.1 in
       match h with
       | None => mret r.1
       | Some host =>
           let* id := open_send r.1 host e in
           ftc_client_block host id (ce_wakes e);;
           pop_frame id;;
           mret r.1
       end
     else mret r.1
   else mret r.1).
Proof.
  unfold wrap_open, wrap_open_call, C. rewrite bind_assoc. f_equiv. intros [|].
  - rewrite bind_assoc. transitivity (let* ret := real_open pathname flags in mret ret).
    + split. intros c. unfold real_open. unfold mbind, M_bind. by destruct (sys _ c).
    + by f_equiv.
  - rewrite bind_assoc. f_equiv. intros ret. rewrite ret_bind. destruct (ret =? -1); [by rewrite !ret_bind|]. cbn [negb fst snd].
    rewrite track_file_pieces, !bind_assoc. f_equiv. intros [|]; [|by split].
    rewrite !bind_assoc. f_equiv. intros [host|]; [|by split].
    transitivity (let* id := open_send ret host e in ftc_client_block host id (ce_wakes e);; pop_frame id;; mret ret);
      [|by split].
    by repeat (rewrite bind_assoc; f_equiv; intros ?).
Qed.

Lemma wrap_pread_pieces fd count offset buf e :
  wrap_pread hash fd count offset buf e ≡
  (let* h := read_check hash fd in
   match h with
   | None => or_plain fd count offset (-1, buf)
   | Some host =>
       let* id := read_send fd count offset buf host e in
       let* n := ftc_read_block host id (ce_wakes e) in
       let* f := frame_of id in
       pop_frame id;;
       or_plain fd count offset (n, fr_buf f)
   end).
Proof.
  transitivity (let* r := remote_transfer hash fd count offset buf e in or_plain fd count offset r).
  - split. intros c. unfold wrap_pread, ftc_get_path, ftc_remote_pread. mred. destruct (fd_map c !! fd) as [p|] eqn:Ep; [done|].
    unfold remote_transfer, ftc_file_tracked. mred. by rewrite Ep, bool_decide_false by (by intros []).
  - rewrite transfer_pieces. unfold C. rewrite bind_assoc. f_equiv. intros [host|]; [|by split].
    by repeat (rewrite bind_assoc; f_equiv; intros ?).
Qed.

End Wrapped.

(** ** The state *)

(** Where a thread is: an open after its system call, after the entry of its file
    in the table, after the test of the counter; a read after that test; and a
    call that waits, with its frame [id] and the handle [h] of its request. *)
Inductive cthread : Type :=
  | CIdle
  | COpened (path : string) (fd : Z)
  | CTracked (fd : Z)
  | COpening (fd host : Z)
  | COpenWait (fd host : Z) (id h : nat)
  | CReading (fd count offset : Z) (buf : list byte) (host : Z)
  | CReadWait (fd count offset : Z) (buf : list byte) (host : Z) (id h : nat).

(** The same thread in [ClientThreads]. *)
Definition erase (x : cthread) : tstate :=
  match x with
  | CIdle | COpened _ _ => TIdle
  | CTracked fd => TTracked fd
  | COpening fd host => TOpening fd host
  | COpenWait fd host id h => TOpenWait host id
  | CReading fd count offset buf host => TReading fd count offset buf host
  | CReadWait fd count offset buf host id h => TReadWait host id
  end.

(** The descriptor a thread is opening, or is busy with in any way. *)
Definition opens (x : cthread) : option Z :=
  match x with COpened _ fd | CTracked fd | COpening fd _ | COpenWait fd _ _ _ => Some fd | _ => None end.
Definition uses (x : cthread) : option Z :=
  match x with
  | CIdle => None
  | COpened _ fd | CTracked fd | COpening fd _ | COpenWait fd _ _ _ | CReading fd _ _ _ _ | CReadWait fd _ _ _ _ _ _ => Some fd
  end.

(** The frame and the handle of a call that waits. *)
Definition frame_at (x : cthread) : option nat :=
  match x with COpenWait _ _ id _ | CReadWait _ _ _ _ _ id _ => Some id | _ => None end.
Definition handle_at (x : cthread) : option nat :=
  match x with COpenWait _ _ _ h | CReadWait _ _ _ _ _ _ h => Some h | _ => None end.

(** A client with its threads, what has happened in it, and the calls of the
    application with what they gave, in the order in which they took effect. *)
Record member : Type := mk_member {
  mb_client : client; mb_threads : list cthread; mb_hist : list tevent; mb_done : list (ro_call * answer)
}.

Record crowd : Type := mk_crowd {
  cw_members : gmap nat member; cw_servers : gmap Z cstate; cw_net : gmap nat (Z * rpc);
  cw_mail : list event; cw_next : nat
}.

(** The threads of a client alone. *)
Definition as_threads (m : member) : threads := mk_threads (mb_client m) (erase <$> mb_threads m) 0 (mb_hist m).

(** Programs with [k] threads and servers that have just started. *)
Definition crowd_start (k : nat -> nat) (apps0 : gmap nat client) (servers0 : gmap Z server) : crowd :=
  mk_crowd (map_imap (fun i c => Some (mk_member c (replicate (k i) CIdle) [] [])) apps0)
    (cstart <$> servers0) ∅ [] 0.

(** ** The steps *)

Section Steps.
Context (hash : string -> Z).

Definition begun (fd : Z) (host : option Z) : cthread :=
  match host with Some host => COpening fd host | None => CIdle end.

(** The steps of the threads of one client, with the state of the servers, the
    messages from them, and the handle that the next request gets. *)
Section Member.
Context (se : self_env) (srv : gmap Z cstate) (mail : list event) (nx : nat).

Inductive mstep : member -> member -> Prop :=
  (** A thread opens a file: the system call, the entry in the table, the test of
      the counter. *)
  | ms_open t path c fd b c' ts h d :
      ts !! t = Some CIdle -> wrap_open_call path O_RDONLY c = Ret (fd, b) c' ->
      mstep (mk_member c ts h d)
        (mk_member c' (<[t := if b then COpened path fd else CIdle]> ts) h (d ++ [(XOpen path, (fd, []))]))
  | ms_open_track t path fd c (b : bool) c' ts h d :
      ts !! t = Some (COpened path fd) -> open_track path O_RDONLY fd se c = Ret b c' ->
      mstep (mk_member c ts h d) (mk_member c' (<[t := if b then CTracked fd else CIdle]> ts) h d)
  | ms_open_test t fd c host c' ts h d :
      ts !! t = Some (CTracked fd) -> open_test hash fd c = Ret host c' ->
      mstep (mk_member c ts h d) (mk_member c' (<[t := begun fd host]> ts) h d)
  | ms_open_send t fd host e c id c' ts h d :
      ts !! t = Some (COpening fd host) -> env_ok e -> open_send fd host e c = Ret id c' ->
      mstep (mk_member c ts h d) (mk_member c' (<[t := COpenWait fd host id nx]> ts) (h ++ [ESent t id []]) d)
  | ms_open_answer t fd host id hd r c c' ts h d :
      ts !! t = Some (COpenWait fd host id hd) -> reply_ok r -> EvRespond hd (rp_out r) ∈ mail ->
      ftc_open_cb id r c = Ret tt c' -> mstep (mk_member c ts h d) (mk_member c' ts h d)
  | ms_open_return t fd host id hd f c c' ts h d :
      ts !! t = Some (COpenWait fd host id hd) -> wait_done id c = Ret f c' ->
      mstep (mk_member c ts h d) (mk_member c' (<[t := CIdle]> ts) h d)
  (** ... or its deadline passes: a server that lives has answered by then. *)
  | ms_open_timeout t fd host id hd f c c' ts h d :
      ts !! t = Some (COpenWait fd host id hd) ->
      (is_Some (srv !! host) -> exists g, cl_frames c !! id = Some g /\ fr_done g = true) ->
      wait_timeout host id c = Ret f c' -> mstep (mk_member c ts h d) (mk_member c' (<[t := CIdle]> ts) h d)
  (** It closes a descriptor that no thread is busy with. *)
  | ms_close t fd e r c c' ts h d :
      ts !! t = Some CIdle -> (forall u x, ts !! u = Some x -> uses x <> Some fd) -> env_ok e ->
      wrap_close hash fd e c = Ret r c' ->
      mstep (mk_member c ts h d) (mk_member c' ts h (d ++ [(XClose fd, (r, []))]))
  (** It reads from a descriptor whose open has returned. *)
  | ms_read t fd count offset buf host c c' ts h d :
      ts !! t = Some CIdle -> (forall u x, ts !! u = Some x -> opens x <> Some fd) ->
      0 <= count < 2 ^ 31 -> 0 <= offset -> read_check hash fd c = Ret (Some host) c' ->
      mstep (mk_member c ts h d) (mk_member c' (<[t := CReading fd count offset buf host]> ts) h d)
  | ms_read_local t fd count offset buf a c c1 c' ts h d :
      ts !! t = Some CIdle -> (forall u x, ts !! u = Some x -> opens x <> Some fd) ->
      0 <= count < 2 ^ 31 -> 0 <= offset -> read_check hash fd c = Ret None c1 ->
      or_plain fd count offset (-1, buf) c1 = Ret a c' ->
      mstep (mk_member c ts h d) (mk_member c' ts h (d ++ [(XPread fd count offset buf, a)]))
  | ms_read_send t fd count offset buf host e c id c' ts h d :
      ts !! t = Some (CReading fd count offset buf host) -> env_ok e ->
      read_send fd count offset buf host e c = Ret id c' ->
      mstep (mk_member c ts h d)
        (mk_member c' (<[t := CReadWait fd count offset buf host id nx]> ts) (h ++ [ESent t id buf]) d)
  (** bytes that a server pushed arrive in its buffer *)
  | ms_read_push t fd count offset buf host id hd g c c' ts h d :
      ts !! t = Some (CReadWait fd count offset buf host id hd) -> EvPush hd g ∈ mail ->
      write_frame id (set_buf g) c = Ret tt c' ->
      mstep (mk_member c ts h d) (mk_member c' ts (h ++ [EPushed id g]) d)
  (** the answer arrives, after the bytes that were pushed before it *)
  | ms_read_answer t fd count offset buf host id hd r c c' ts h d :
      ts !! t = Some (CReadWait fd count offset buf host id hd) -> reply_ok r -> EvRespond hd (rp_out r) ∈ mail ->
      (forall g, EvPush hd g ∈ mail -> EPushed id g ∈ h) -> ftc_read_cb id r c = Ret tt c' ->
      mstep (mk_member c ts h d) (mk_member c' ts (h ++ [EAnswered id r]) d)
  (** it has been answered *)
  | ms_read_return t fd count offset buf host id hd f a c c1 c' ts h d :
      ts !! t = Some (CReadWait fd count offset buf host id hd) -> wait_done id c = Ret f c1 ->
      or_plain fd count offset (fr_bytes f, fr_buf f) c1 = Ret a c' ->
      mstep (mk_member c ts h d)
        (mk_member c' (<[t := CIdle]> ts) (h ++ [EReturned t id (fr_bytes f) (fr_buf f)])
           (d ++ [(XPread fd count offset buf, a)]))
  (** its deadline has passed *)
  | ms_read_timeout t fd count offset buf host id hd f a c c1 c' ts h d :
      ts !! t = Some (CReadWait fd count offset buf host id hd) -> wait_timeout host id c = Ret f c1 ->
      or_plain fd count offset (-1, fr_buf f) c1 = Ret a c' ->
      mstep (mk_member c ts h d)
        (mk_member c' (<[t := CIdle]> ts) (h ++ [EReturned t id (-1) (fr_buf f)])
           (d ++ [(XPread fd count offset buf, a)])).

End Member.

Context (se : nat -> self_env) (nvme : Z -> string).

Inductive wstep : crowd -> crowd -> Prop :=
  (** a thread of a client goes on, and what it sends goes on the wire *)
  | w_member i m m' ms srv net mail nx :
      ms !! i = Some m -> mstep (se i) srv mail nx m m' ->
      let out := sent (mb_client m) (mb_client m') in
      wstep (mk_crowd ms srv net mail nx)
        (mk_crowd (<[i := m']> ms) srv (post nx out net) mail (nx + length out))
  (** the servers and the network go on, as in a cluster *)
  | w_world ms srv net mail nx srv' net' mail' nx' :
      cstep hash se nvme (mk_cluster ∅ srv net mail nx) (mk_cluster ∅ srv' net' mail' nx') ->
      wstep (mk_crowd ms srv net mail nx) (mk_crowd ms srv' net' mail' nx').

(** *** Deadlines that are missed

    As in [Cluster.nstep]: what the code does not survive, and a flag that says
    whether it has happened. *)
Inductive wnstep : crowd * bool -> crowd * bool -> Prop :=
  | wn_step s s' late : wstep s s' -> wnstep (s, late) (s', late)
  (** an open is lost on its way to a server that lives *)
  | wn_lose_open H h i ms srv net mail nx late :
      net !! h = Some (H, ROpen i) ->
      wnstep (mk_crowd ms srv net mail nx, late) (mk_crowd ms srv (delete h net) mail nx, true)
  (** the deadline of an open passes before the answer of its server comes *)
  | wn_miss_open i t fd host id hd f c c' ts h d ms srv net mail nx late :
      ms !! i = Some (mk_member c ts h d) -> ts !! t = Some (COpenWait fd host id hd) ->
      wait_timeout host id c = Ret f c' ->
      wnstep (mk_crowd ms srv net mail nx, late)
        (mk_crowd (<[i := mk_member c' (<[t := CIdle]> ts) h d]> ms) srv net mail nx, true)
  (** bytes or an answer come for a call whose wait is over *)
  | wn_late i m m' hd ms srv net mail nx late :
      ms !! i = Some m -> ((exists out, EvRespond hd out ∈ mail) \/ exists g, EvPush hd g ∈ mail) ->
      (forall t x, mb_threads m !! t = Some x -> handle_at x <> Some hd) ->
      wnstep (mk_crowd ms srv net mail nx, late) (mk_crowd (<[i := m']> ms) srv net mail nx, true).

Lemma wnsteps_timely x y : rtc wnstep x y -> y.2 = false -> x.2 = false /\ rtc wstep x.1 y.1.
Proof.
  intros Hr Hy. induction Hr as [x|x y z Hs _ IH]; [done|]. destruct (IH Hy) as [Hf Hc].
  destruct Hs; cbn in *; try done. split; [done|]. by eapply rtc_l.
Qed.

Lemma timely_wnsteps s s' late : rtc wstep s s' -> rtc wnstep (s, late) (s', late).
Proof. induction 1 as [s|s1 s2 s3 Hs _ IH]; [done|]. eapply rtc_l; [by apply wn_step|done]. Qed.

(** ** As threads of one client *)

(** [waits_ok] says nothing about the node of the client. *)
Lemma waits_ok_os N c ts h o : waits_ok N (mk_threads c ts 0 h) -> waits_ok N (mk_threads (upd_os o c) ts 0 h).
Proof. intros [[] W2 W3 W4 W5]. split; [by split|done..]. Qed.

Lemma or_plain_same fd count offset r c a c' : or_plain fd count offset r c = Ret a c' -> c' = c.
Proof.
  unfold or_plain, real_pread. intros H. destruct (r.1 <? 0); [|mred_in H; by simplify_eq].
  mred_in H. destruct (posix_pread _ _ _ _); by simplify_eq.
Qed.

Lemma wrap_open_call_inv path flags c fd b c' : wrap_open_call path flags c = Ret (fd, b) c' ->
  fd = (posix_open path flags (cl_os c)).1 /\ c' = upd_os (posix_open path flags (cl_os c)).2 c.
Proof.
  unfold wrap_open_call, redirect_off. intros H. mred_in H. unfold real_open, sys, on_os in H.
  destruct (g_disable_redirect c || tl_disable_redirect c); cbv beta in H;
    destruct (posix_open path flags (cl_os c)) as [r o]; cbn [fst snd] in *; by simplify_eq.
Qed.

(** Every step keeps what the waits of a client can count on. *)
Lemma mstep_waits N s srv mail nx m m' : mstep s srv mail nx m m' -> waits_ok N (as_threads m) -> waits_ok N (as_threads m').
Proof.
  assert (Hlook : forall ts t x, ts !! t = Some x -> (erase <$> ts) !! t = Some (erase x))
    by (intros ts t x H; by rewrite list_lookup_fmap, H).
  intros Hst Hw. unfold as_threads in *. destruct Hst as
    [t path c fd b c' ts h d Ht H|t path fd c b c' ts h d Ht H|t fd c host c' ts h d Ht H|t fd host e c id c' ts h d Ht _ H|t fd host id hd r c c' ts h d Ht _ _ H
    |t fd host id hd f c c' ts h d Ht H|t fd host id hd f c c' ts h d Ht _ H|t fd e r c c' ts h d Ht _ _ H
    |t fd count off buf host c c' ts h d Ht _ _ _ H|t fd count off buf a c c1 c' ts h d Ht _ _ _ H Ha
    |t fd count off buf host e c id c' ts h d Ht _ H|t fd count off buf host id hd g c c' ts h d Ht _ H
    |t fd count off buf host id hd r c c' ts h d Ht _ _ _ H|t fd count off buf host id hd f a c c1 c' ts h d Ht H Ha
    |t fd count off buf host id hd f a c c1 c' ts h d Ht H Ha];
    cbn [mb_client mb_threads mb_hist] in *; pose proof (Hlook _ _ _ Ht) as Ht'; cbn [erase] in Ht';
    rewrite ?list_fmap_insert; try apply or_plain_same in Ha as ->;
    try (eapply (tstep_waits hash); [|exact Hw]; by econstructor).
  - destruct (wrap_open_call_inv _ _ _ _ _ _ H) as [-> ->]. apply (waits_ok_os _ _ _ _ (posix_open path O_RDONLY (cl_os c)).2) in Hw.
    replace (erase (if b then _ else _)) with TIdle by by destruct b. by rewrite (list_insert_id _ t TIdle).
  - replace (erase (if b then _ else _)) with (if b then TTracked fd else TIdle) by by destruct b.
    eapply (tstep_waits hash); [by eapply t_open_track|exact Hw].
  - replace (erase (begun fd host)) with (after_open fd host) by by destruct host.
    eapply (tstep_waits hash); [by eapply t_open_test|exact Hw].
  - unfold wrap_close, redirect_off, ftc_get_path in H. mred_in H.
    assert (Hclose : forall c0, real_close fd c0 = Ret r c' -> waits_ok N (mk_threads c0 (erase <$> ts) 0 h) ->
      waits_ok N (mk_threads c' (erase <$> ts) 0 h)).
    { intros c0 H0 Hw0. unfold real_close, sys, on_os in H0. destruct (posix_close fd (cl_os c0)). simplify_eq.
      by apply waits_ok_os. }
    destruct (g_disable_redirect c || tl_disable_redirect c); [by eapply Hclose|]. destruct (fd_map c !! fd); [|by eapply Hclose].
    destruct (ftc_remove_fd hash fd e c) as [b c1|w c1|c1] eqn:Hr; simplify_eq.
    eapply Hclose; [exact H|]. eapply (tstep_waits hash); [by eapply t_close|exact Hw].
  - eapply (tstep_waits hash); [by apply (t_read_check hash t fd count off buf c (Some host))|exact Hw].
  - rewrite <- (list_insert_id (erase <$> ts) t TIdle) by done.
    eapply (tstep_waits hash); [by apply (t_read_check hash t fd count off buf c None)|exact Hw].
Qed.

End Steps.

End Crowd.
