(* ===== verification/CrowdPieces.v ===== *)
(** * What the pieces of the calls do to their client

    Each piece of an open and of a read, with the state it leaves.  They change
    nothing that matters to the other threads: only the frame, the request and
    the redirection of their own call, and the counter of a host ([moves]). *)

From S2P Require Import Prelude CString HexDump Address Posix LogInfo Server ServerSpec ServerThreads.
From S2P Require Import Client Wrappers ClientSpec ClientInv ClientProps Transparency ClientWire Cluster ClusterInv.
From S2P Require Import ClientThreads ClientFrames ClientWaits Crowd.
Import Address Posix LogInfo Client Wrappers ClientSpec ClientInv ClientProps Transparency ClientWire Cluster.
Import ServerSpec(rpc, ROpen, RRead, RClose).
Import ClientThreads ClientFrames Crowd.

Module CrowdPieces.

(** ** The requests of other calls *)

Definition on_requests (P : gmap nat request -> Prop) (c : client) : Prop := P (cl_requests c).

Lemma requests_on_os P {A} (m : M os A) : preserves (on_requests P) (on_os m).
Proof. intros c a c' Hc H. unfold on_os in H. destruct (m (cl_os c)); simplify_eq. exact Hc. Qed.

Lemma requests_lookup P h : preserves (on_requests P) (lookup_addr h).
Proof.
  intros c a c' Hc H. unfold lookup_addr in H. mred_in H.
  destruct (ftc_client_comm_lookup_addr _ h _) as [[r m] b]. by destruct r; simplify_eq.
Qed.

Lemma requests_redir_at P fd : preserves (on_requests P) (fd_redir_at fd).
Proof. by apply redir_at_stable. Qed.

(** Go through a computation that touches no request. *)
Ltac no_requests :=
  repeat first
    [ progress intros | apply requests_on_os | apply requests_lookup | apply requests_redir_at
    | solve [eauto 3 with ftc] | solve [apply preserves_modify; intros ? Hc; exact Hc]
    | apply preserves_bind | apply preserves_if | apply preserves_ret | apply preserves_gets
    | apply preserves_assertM | apply preserves_die | apply preserves_defined
    | match goal with |- preserves _ (match ?x with _ => _ end) => destruct x end ].

Lemma start_mercury_requests P se : preserves (on_requests P) (start_mercury se).
Proof. unfold start_mercury, initialize_timeout_counters, ftc_get_addr. no_requests. Qed.

Lemma remove_fd_requests P hash fd e : preserves (on_requests P) (ftc_remove_fd hash fd e).
Proof.
  unfold ftc_remove_fd, ftc_remote_close, ftc_client_comm_gen_close_rpc, ftc_comm_create_handle, ftc_comm_free_addr,
    skip_host, counter, ftc_file_tracked, host_of, fd_map_at, log_request, log, forward.
  no_requests.
Qed.

Section Pieces.
Context (hash : string -> Z).

(** ** The change *)

(** A piece of the call with the frame [id], about the descriptor [fd] if it is
    an open, that sends [es]. *)
Record moves (fd : option Z) (id : nat) (es : list cl_event) (c c' : client) : Prop := {
  mv_fd_map : fd_map c' = fd_map c;
  mv_config : config c' = config c;
  mv_os : os_like (cl_os c) (cl_os c');
  mv_redir : forall fd' r, fd <> Some fd' -> fd_redir_map c !! fd' = Some r -> fd_redir_map c' !! fd' = Some r;
  mv_trace : cl_trace c' = cl_trace c ++ es;
  mv_addressed : addressed c -> addressed c';
  mv_fresh : (forall j, (cl_next c <= j)%nat -> cl_frames c !! j = None) ->
    forall j, (cl_next c' <= j)%nat -> cl_frames c' !! j = None;
  mv_next : (cl_next c <= cl_next c')%nat;
  mv_frames : forall j, j <> id -> cl_frames c' !! j = cl_frames c !! j;
  mv_requests : forall j, j <> id -> cl_requests c' !! j = cl_requests c !! j;
  mv_counters : Forall2 Z.le (timeout_counters c) (timeout_counters c')
}.

Lemma counters_same l : Forall2 Z.le l l.
Proof. induction l; by constructor. Qed.

Lemma moves_given fd id es c c' h : moves fd id es c c' -> given_up c h -> given_up c' h.
Proof.
  intros Hm (k & Hk & Hl). destruct (Forall2_lookup_l _ _ _ _ _ (mv_counters _ _ _ _ _ Hm) Hk) as (k' & Hk' & ?).
  exists k'. split; [done|lia].
Qed.

Lemma moves_kept fd id es c c' : moves fd id es c c' -> kept c c'.
Proof.
  intros Hm. pose proof (mv_config _ _ _ _ _ Hm) as [= En Ed _ _ _ _]. split; [done..|].
  intros h. by eapply moves_given.
Qed.

(** ** The looks at a counter *)

Lemma read_check_run fd c : client_ok c ->
  exists r, read_check hash fd c = Ret r c /\
    match r with
    | Some host => exists p, fd_map c !! fd = Some p /\ host = host_for hash c p /\ ~ given_up c host
    | None => True
    end.
Proof.
  intros Hok. unfold read_check, ftc_file_tracked. mred. destruct (fd_map c !! fd) as [p|] eqn:Hp.
  2: { rewrite bool_decide_false by (by intros [? ?]). by exists None. }
  rewrite bool_decide_true by (by eexists). cbn [negb]. rewrite (host_of_run hash c fd p Hok Hp).
  pose proof (host_for_range hash c p Hok) as Hh. destruct (counter_run c _ Hok Hh) as (k & Hk & Hcnt & _).
  unfold skip_host. mred. rewrite Hcnt. mred. eexists. split; [reflexivity|].
  destruct (TIMEOUT_LIMIT <=? k) eqn:E; [done|]. zbool. exists p. split_and!; try done.
  intros (k' & Hk' & ?). simplify_eq. lia.
Qed.

(** The entry of an open in the table. *)
Lemma open_track_requests P path flags fd s : preserves (on_requests P) (open_track path flags fd s).
Proof. unfold open_track. pose proof (start_mercury_requests P s). no_requests. Qed.

Lemma open_track_run path fd s c : core_ok c -> printable (se_addr_buffer s) ->
  exists b c', open_track path O_RDONLY fd s c = Ret b c' /\ core_ok c' /\ os_like (cl_os c) (cl_os c') /\
    fd_redir_map c' = fd_redir_map c /\ cl_trace c' = cl_trace c /\ kept c c' /\
    (cl_frames c' = cl_frames c /\ cl_next c' = cl_next c /\ cl_requests c' = cl_requests c) /\
    if b : bool then exists p, track_decision c path = Some p /\ fd_map c' = <[fd := p]> (fd_map c)
    else fd_map c' = fd_map c.
Proof.
  intros Hc Hs.
  cut (exists b c', open_track path O_RDONLY fd s c = Ret b c' /\ core_ok c' /\ os_like (cl_os c) (cl_os c') /\
    fd_redir_map c' = fd_redir_map c /\ cl_trace c' = cl_trace c /\ kept c c' /\
    if b : bool then exists p, track_decision c path = Some p /\ fd_map c' = <[fd := p]> (fd_map c)
    else fd_map c' = fd_map c).
  { intros (b & c' & Hr & H1 & H2 & H3 & H4 & H5 & H6). exists b, c'.
    pose proof (frameless_frames _ _ _ _ (open_track_frameless path O_RDONLY fd s) Hr) as [F N].
    pose proof (open_track_requests (fun q => q = cl_requests c) path O_RDONLY fd s _ _ _ eq_refl Hr) as Q. done. }
  unfold open_track. destruct (find_sub _ _) as [i|]; [by exists false, c|].
  change (Z.land O_RDONLY O_ACCMODE =? O_WRONLY) with false. change (has_flag O_RDONLY O_APPEND) with false. mred.
  destruct (track_decision c path) as [p|] eqn:Hd; [|by exists false, c].
  destruct (start_mercury_run s (upd_fd_map (<[fd := p]> (fd_map c)) c))
    as (c1 & Hst & Hc1 & _ & Ho1 & Hf1 & Hn1 & Hr1 & Ht1 & Htr1 & Hdir1); [by apply core_ok_fd_map|done|].
  cbn in Ho1, Hf1, Hn1, Hr1, Ht1, Htr1, Hdir1. rewrite Hst. exists true, c1.
  split_and!; try done; [by apply (kept_counters false 0)|by exists p].
Qed.

(** Its test of the counter. *)
Lemma open_test_run fd p c : client_ok c -> fd_map c !! fd = Some p ->
  exists r, open_test hash fd c = Ret r c /\
    match r with Some host => host = host_for hash c p | None => given_up c (host_for hash c p) end.
Proof.
  intros Hok Hp. unfold open_test. mred. rewrite (host_of_run hash c fd p Hok Hp).
  pose proof (host_for_range hash c p Hok) as Hh. destruct (counter_run c _ Hok Hh) as (k & Hk & Hcnt & _).
  unfold skip_host. mred. rewrite Hcnt. mred. eexists. split; [reflexivity|].
  destruct (TIMEOUT_LIMIT <=? k) eqn:E; [|done]. zbool. by exists k.
Qed.

(** Its system call. *)
Lemma wrap_open_call_run path c : core_ok c -> exists b,
  wrap_open_call path O_RDONLY c =
    Ret ((posix_open path O_RDONLY (cl_os c)).1, b) (upd_os (posix_open path O_RDONLY (cl_os c)).2 c) /\
  if b : bool then exists n, os_files (cl_os c) !! resolve (cl_os c) path = Some n /\
    (posix_open path O_RDONLY (cl_os c)).1 = opened_fd c
  else os_files (cl_os c) !! resolve (cl_os c) path = None.
Proof.
  intros Hc. unfold wrap_open_call, redirect_off. mred. destruct (co_redirect _ Hc) as [-> ->]. cbn [orb].
  unfold real_open, sys, on_os. rewrite posix_open_rdonly.
  destruct (os_files (cl_os c) !! resolve (cl_os c) path) as [n|]; cbn [fst snd]; eexists; (split; [reflexivity|]); [|done].
  destruct (lowest_fd_free (os_fds (cl_os c))) as [_ Hpos].
  rewrite (proj2 (Z.eqb_neq _ (-1))) by lia. by exists n.
Qed.

(** ** The requests *)

(** A new frame. *)
Definition framed (buf : list byte) (c : client) : client :=
  upd_frames (<[cl_next c := mk_frame false (-1) buf]> (cl_frames c)) (cl_requests c) (S (cl_next c)) c.

Lemma new_frame_moves fd es c c' q : fd_map c' = fd_map c -> config c' = config c -> os_like (cl_os c) (cl_os c') ->
  fd_redir_map c ⊆ fd_redir_map c' -> cl_trace c' = cl_trace c ++ es -> (addressed c -> addressed c') ->
  timeout_counters c' = timeout_counters c -> cl_next c' = S (cl_next c) ->
  cl_frames c' = <[cl_next c := q]> (cl_frames c) ->
  (forall j, j <> cl_next c -> cl_requests c' !! j = cl_requests c !! j) -> moves fd (cl_next c) es c c'.
Proof.
  intros E1 E2 E3 E4 E5 E6 E7 E8 E9 E10. split; try done.
  - intros fd' r _ Hr. by eapply lookup_weaken.
  - intros Hf j Hj. rewrite E8 in Hj. rewrite E9, lookup_insert_ne by lia. apply Hf. lia.
  - rewrite E8. lia.
  - intros j Hj. by rewrite E9, lookup_insert_ne.
  - rewrite E7. apply counters_same.
Qed.

Lemma read_send_run fd count off buf host e c : env_ok e -> printable (client_address c) -> host_known c host ->
  exists t m rm, read_send fd count off buf host e c =
    Ret (cl_next c) (read_sent t m rm host fd count off (cl_next c) (framed buf c)).
Proof.
  intros He Hc Hh. destruct (gen_read_run host fd count off (cl_next c) e (framed buf c) He Hc) as (t & m & rm & Hg);
    [by destruct Hh as [a Ha]; exists a|]. exists t, m, rm.
  unfold read_send. rewrite (bind_Ret _ _ _ _ _ (push_frame_run buf c)). fold (framed buf c).
  by rewrite (bind_Ret _ _ _ _ _ Hg).
Qed.

Lemma read_send_redir fd count off buf host e c id c' : read_send fd count off buf host e c = Ret id c' ->
  fd_redir_map c ⊆ fd_redir_map c'.
Proof.
  intros H. unfold read_send in H. rewrite (bind_Ret _ _ _ _ _ (push_frame_run buf c)) in H.
  apply bind_inv in H as (u & c1 & H1 & H). mred_in H. injection H as _ <-.
  exact (keeps_gen_read (fun c0 => fd_redir_map c ⊆ fd_redir_map c0) _ _ _ _ _ _ (framed buf c) _ _ (reflexivity _) H1).
Qed.

Lemma read_send_moves fd count off buf host e c id c' : env_ok e -> printable (client_address c) -> host_known c host ->
  read_send fd count off buf host e c = Ret id c' ->
  id = cl_next c /\ cl_next c' = S id /\
  moves None id [CForward host (ClusterInv.asks_read (default 0 (fd_redir_map c !! fd)) fd count off (cl_client_rank c))] c c' /\
  cl_frames c' !! id = Some (mk_frame false (-1) buf) /\ is_Some (cl_requests c' !! id).
Proof.
  intros He Hc Hh H. pose proof (read_send_redir _ _ _ _ _ _ _ _ _ H) as R1.
  assert (Ha : addressed c -> addressed c') by (intros Ha; by apply (keeps_read_send addressed) in H).
  destruct (read_send_run fd count off buf host e c He Hc Hh) as (t & m & rm & Hr). rewrite Hr in H.
  assert (id = cl_next c /\ c' = read_sent t m rm host fd count off (cl_next c) (framed buf c)) as [-> Ec'] by by injection H.
  split; [done|]. split; [by rewrite Ec'|]. split; [|by rewrite Ec'; cbn; rewrite !lookup_insert_eq; eauto].
  apply (new_frame_moves _ _ _ _ (mk_frame false (-1) buf)); try done; rewrite Ec'; cbn; try done.
  - by exists t.
  - intros j Hj. by apply lookup_insert_ne.
Qed.

Lemma open_send_run fd host p e c : env_ok e -> path_ok p -> printable (client_address c) -> host_known c host ->
  fd_map c !! fd = Some p -> exists t m, open_send fd host e c = Ret (cl_next c) (open_sent t m host p fd c).
Proof.
  intros He Hpo Hc Hh Hp. destruct (gen_open_run host p fd (cl_next c) e (framed [] c) He Hpo Hc) as (t & m & Hg & _);
    [by destruct Hh as [a Ha]; exists a|]. exists t, m.
  unfold open_send. rewrite (bind_Ret _ _ _ _ _ (push_frame_run [] c)). unfold fd_map_at. mred.
  fold (framed [] c). change (fd_map (framed [] c)) with (fd_map c). rewrite Hp. mred. by rewrite Hg.
Qed.

Lemma open_send_moves fd host p e c id c' : env_ok e -> path_ok p -> printable (client_address c) -> host_known c host ->
  fd_map c !! fd = Some p -> open_send fd host e c = Ret id c' ->
  id = cl_next c /\ cl_next c' = S id /\
  moves None id [CForward host (ROpen (Server.mk_open_in p (cl_client_rank c) fd))] c c' /\
  cl_frames c' !! id = Some (mk_frame false (-1) []) /\
  cl_requests c' !! id = Some (mk_request fd (fill (uninit 256) (of_string p)) host).
Proof.
  intros He Hpo Hc Hh Hp H. assert (Ha : addressed c -> addressed c') by (intros Ha; by apply (keeps_open_send addressed) in H).
  destruct (open_send_run fd host p e c He Hpo Hc Hh Hp) as (t & m & Hr). rewrite Hr in H.
  assert (id = cl_next c /\ c' = open_sent t m host p fd c) as [-> Ec'] by by injection H.
  split; [done|]. split; [by rewrite Ec'|]. split; [|by rewrite Ec'; cbn; rewrite !lookup_insert_eq].
  apply (new_frame_moves _ _ _ _ (mk_frame false (-1) [])); try done; rewrite Ec'; cbn; try done.
  - by exists t.
  - intros j Hj. by apply lookup_insert_ne.
Qed.

(** ** The wait *)

Lemma own_frame_moves fd id fs rs c : (id < cl_next c)%nat -> (forall j, j <> id -> fs !! j = cl_frames c !! j) ->
  (forall j, j <> id -> rs !! j = cl_requests c !! j) -> moves fd id [] c (upd_frames fs rs (cl_next c) c).
Proof.
  intros Hid Hf Hr. split; try done; cbn; [by rewrite app_nil_r|by intros []|].
  intros Hn j Hj. rewrite Hf by lia. by apply Hn.
Qed.

Lemma write_frame_moves id g c u c' : (id < cl_next c)%nat -> write_frame id g c = Ret u c' ->
  moves None id [] c c' /\ cl_requests c' = cl_requests c /\
  exists f, cl_frames c !! id = Some f /\ cl_frames c' !! id = Some (g f).
Proof.
  intros Hid H. unfold write_frame, frame_of in H. mred_in H. destruct (cl_frames c !! id) as [f|] eqn:E; [|done].
  unfold put_frame in H. mred_in H. simplify_eq. split; [|split; [done|]].
  - apply own_frame_moves; [done| |done]. intros j Hj. by apply lookup_insert_ne.
  - exists f. split; [done|]. cbn. apply lookup_insert_eq.
Qed.

Lemma read_cb_moves id r c c' : (id < cl_next c)%nat -> printable (client_address c) -> reply_ok r ->
  ftc_read_cb id r c = Ret tt c' ->
  moves None id [] c c' /\
  exists f, cl_frames c !! id = Some f /\ cl_frames c' !! id = Some (mk_frame true (rp_out r) (fr_buf f)).
Proof.
  intros Hid Hc Hr H.
  assert (Ha : addressed c -> addressed c') by (intros Ha; by apply (keeps_read_cb addressed) in H).
  destruct (read_cb_frame id r c tt c' H) as (N & f & Hf & F).
  assert (exists rq, cl_requests c !! id = Some rq) as [rq Hq].
  { unfold ftc_read_cb, request_of in H. mred_in H. destruct (cl_requests c !! id) as [rq|]; [by exists rq|done]. }
  destruct (read_cb_run id r c f rq Hf Hq Hr Hc) as [t Ht]. rewrite Ht in H. injection H as <-.
  split; [|exists f; split; [done|cbn; apply lookup_insert_eq]]. split; try done; cbn.
  - apply os_like_text.
  - by rewrite app_nil_r.
  - intros Hn j Hj. rewrite lookup_insert_ne by lia. by apply Hn.
  - intros j Hj. by apply lookup_insert_ne.
  - intros j Hj. by apply lookup_delete_ne.
Qed.

Lemma open_cb_moves id r c c' fd p host f : (id < cl_next c)%nat -> printable (client_address c) -> reply_ok r -> path_ok p ->
  cl_frames c !! id = Some f -> cl_requests c !! id = Some (mk_request fd (fill (uninit 256) (of_string p)) host) ->
  ftc_open_cb id r c = Ret tt c' ->
  moves (Some fd) id [] c c' /\ cl_frames c' !! id = Some (set_done f) /\ cl_requests c' !! id = None /\
  fd_redir_map c' = <[fd := rp_out r]> (fd_redir_map c).
Proof.
  intros Hid Hc Hr Hpo Hf Hq H.
  assert (Ha : addressed c -> addressed c') by (intros Ha; by apply (keeps_open_cb addressed) in H).
  destruct (open_cb_run id r c f fd host p Hf Hpo Hq Hr Hc) as [t Ht]. rewrite Ht in H. injection H as <-.
  split; [|cbn; by rewrite lookup_insert_eq, lookup_delete_eq]. split; try done; cbn.
  - apply os_like_text.
  - intros fd' r' Hne. rewrite lookup_insert_ne; [done|congruence].
  - by rewrite app_nil_r.
  - intros Hn j Hj. rewrite lookup_insert_ne by lia. by apply Hn.
  - intros j Hj. by apply lookup_insert_ne.
  - intros j Hj. by apply lookup_delete_ne.
Qed.

Lemma wait_done_moves id c f c' : (id < cl_next c)%nat -> wait_done id c = Ret f c' ->
  moves None id [] c c' /\ cl_frames c !! id = Some f /\ fr_done f = true.
Proof.
  intros Hid H. unfold wait_done, frame_of in H. mred_in H. destruct (cl_frames c !! id) as [g|] eqn:E; [|done].
  destruct (fr_done g) eqn:Ed; [|done]. unfold pop_frame in H. mred_in H. simplify_eq. split; [|done].
  apply own_frame_moves; [done| |done]. intros j Hj. by apply lookup_delete_ne.
Qed.

Lemma counters_more i k l : l !! i = Some k -> Forall2 Z.le l (<[i := k + 1]> l).
Proof.
  revert i. induction l as [|x l IH]; intros [|i] H; try done; cbn in *.
  - injection H as ->. constructor; [lia|apply counters_same].
  - constructor; [lia|by apply IH].
Qed.

Lemma wait_timeout_moves host id c f c' : (id < cl_next c)%nat -> wait_timeout host id c = Ret f c' ->
  moves None id [] c c' /\ cl_frames c !! id = Some f.
Proof.
  intros Hid H. unfold wait_timeout in H. apply bind_inv in H as (u & c1 & H1 & H).
  unfold inc_counter, counter in H1. mred_in H1. destruct (host <? 0); [done|].
  destruct (timeout_counters c !! Z.to_nat host) as [k|] eqn:Ek; [|done].
  destruct (k =? 2 ^ 31 - 1); [done|]. injection H1 as _ <-. unfold frame_of, pop_frame in H. mred_in H. cbn in H.
  destruct (cl_frames c !! id) as [g|] eqn:E; [|done]. mred_in H. simplify_eq. split; [|done]. split; try done; cbn.
  - by rewrite app_nil_r.
  - by intros [].
  - intros Hn j Hj. rewrite lookup_delete_ne by lia. by apply Hn.
  - intros j Hj. by apply lookup_delete_ne.
  - by apply counters_more.
Qed.

End Pieces.

End CrowdPieces.
