(* ===== verification/CrowdInv.v ===== *)
(** * The invariant of a crowd

    A crowd is a cluster in which no call is pending, seen through its members:
    the client of a member, without the descriptors that its threads are
    opening, is an application of the cluster whose history is that of the member
    ([base]).  What a thread is doing comes with a conversation of its own
    ([ClusterInv.open_conv], [ClusterInv.read_conv]), and its frame holds what the
    conversation allows ([thread_ok]). *)

From S2P Require Import Prelude CString HexDump Address Posix LogInfo Server ServerSpec ServerProps.
From S2P Require Import DataMover ServerInv ServerThreads ServerWire.
From S2P Require Import Client Wrappers ClientSpec ClientInv ClientProps Transparency ClientWire Cluster ClusterInv.
From S2P Require Import ClientThreads ClientFrames ClientWaits Crowd CrowdPieces.
Import Address Posix LogInfo ServerSpec ServerInv ServerThreads ServerWire.
Import Client Wrappers ClientSpec ClientInv ClientProps Transparency ClientWire Cluster ClusterInv.
Import ClientThreads ClientFrames ClientWaits Crowd CrowdPieces.
Import Server(event, EvPush, EvRespond, srv_os, srv_bulk, of_handle, of_in, oi_path, server).

Module CrowdInv.

Section Invariant.
Context (hash : string -> Z) (se : nat -> self_env) (nvme : Z -> string).
Context (apps0 : gmap nat client) (servers0 : gmap Z server).
#[local] Abbreviation cluster_ok := (ClusterInv.cluster_ok hash se apps0 servers0).
#[local] Abbreviation shared := (ClusterInv.shared servers0).

(** ** A crowd as a cluster *)

(** The descriptors that threads are opening. *)
Definition opening_fds (ts : list cthread) : gset Z := list_to_set (omap opens ts).

Lemma elem_opening ts fd : fd ∈ opening_fds ts <-> exists t x, ts !! t = Some x /\ opens x = Some fd.
Proof.
  unfold opening_fds. rewrite elem_of_list_to_set, list_elem_of_omap. split.
  - intros (x & Hx & Ho). apply list_elem_of_lookup in Hx as [t Ht]. by exists t, x.
  - intros (t & x & Ht & Ho). exists x. split; [by eapply list_elem_of_lookup_2|done].
Qed.

Definition settled (ts : list cthread) (c : client) : client :=
  upd_fd_map (filter (fun x => x.1 ∉ opening_fds ts) (fd_map c)) c.

Lemma settled_Some ts c fd p :
  fd_map (settled ts c) !! fd = Some p <-> fd_map c !! fd = Some p /\ fd ∉ opening_fds ts.
Proof. cbn. by rewrite map_lookup_filter_Some. Qed.

Definition virtual (m : member) : node := mk_node (settled (mb_threads m) (mb_client m)) None (mb_done m).

Definition base (s : crowd) : cluster :=
  mk_cluster (virtual <$> cw_members s) (cw_servers s) (cw_net s) (cw_mail s) (cw_next s).

(** ** The threads *)

(** The tracked file of a descriptor. *)
Definition file_of (c : client) (fd : Z) (p : string) (d : list byte) : Prop :=
  fd_map c !! fd = Some p /\ readable (cl_os c) fd = Some d /\ shared p d.

(** A descriptor of the host belongs to the descriptor [fd] of the client [i]. *)
Definition owns (own : owners) (srv : gmap Z cstate) (i : nat) (c : client) (fd host : Z) (p : string) : Prop :=
  is_Some (srv !! host) -> exists rfd, fd_redir_map c !! fd = Some rfd /\ own !! (host, rfd) = Some (Live i fd, p).

(** A frame for a read of the bytes [sl] into [buf]. *)
Record frame_fits (sl buf : list byte) (h : list tevent) (id : nat) (f : frame) : Prop := {
  ff_buf : fr_buf f = buf \/ fr_buf f = write_front sl buf;
  ff_pushed : forall d, EPushed id d ∈ h -> fr_buf f = write_front sl buf;
  ff_done : fr_done f = true ->
    fr_bytes f = -1 \/ (fr_bytes f = Z.of_nat (length sl) /\ fr_buf f = write_front sl buf)
}.

(** The bytes a read should get. *)
Definition slice (d : list byte) (count offset : Z) : list byte := zslice d offset (Z.min count MAX_RW_COUNT).

Definition thread_ok (own : owners) (srv : gmap Z cstate) (net : gmap nat (Z * rpc)) (mail : list event) (nx : nat)
    (i : nat) (c : client) (h : list tevent) (x : cthread) : Prop :=
  match x with
  | CIdle => True
  | COpened path fd => fd_map c !! fd = None /\ exists d, readable (cl_os c) fd = Some d /\
      forall p, track_decision c path = Some p -> shared p d /\ path_ok p
  | CTracked fd => exists p d, file_of c fd p d /\ path_ok p
  | COpening fd host => exists p d, file_of c fd p d /\ path_ok p /\ host = host_for hash c p
  | COpenWait fd host id hd => exists p d f,
      file_of c fd p d /\ path_ok p /\ host = host_for hash c p /\ (hd < nx)%nat /\ cl_frames c !! id = Some f /\
      if fr_done f then cl_requests c !! id = None /\ owns own srv i c fd host p
      else cl_requests c !! id = Some (mk_request fd (fill (uninit 256) (of_string p)) host) /\
           open_conv own srv net mail hd host p
  | CReading fd count offset buf host =>
      0 <= count < 2 ^ 31 /\ 0 <= offset /\
      exists p d, file_of c fd p d /\ host = host_for hash c p /\ owns own srv i c fd host p
  | CReadWait fd count offset buf host id hd =>
      0 <= count < 2 ^ 31 /\ 0 <= offset /\
      exists p d rfd rank f, file_of c fd p d /\ host = host_for hash c p /\
        (is_Some (srv !! host) -> own !! (host, rfd) = Some (Live i fd, p)) /\ (hd < nx)%nat /\
        read_conv srv net mail hd host (asks_read rfd fd count offset rank) (slice d count offset) /\
        cl_frames c !! id = Some f /\ frame_fits (slice d count offset) buf h id f /\
        (fr_done f = false -> is_Some (cl_requests c !! id))
  end.

Lemma thread_handle own srv net mail nx i c h x hd : thread_ok own srv net mail nx i c h x ->
  handle_at x = Some hd -> (hd < nx)%nat.
Proof.
  destruct x as [|path fd|fd|fd host|fd host id hd'|fd count off buf host|fd count off buf host id hd']; cbn; try done; intros Hx [= ->].
  - by destruct Hx as (p & d & f & _ & _ & _ & ? & _).
  - by destruct Hx as (_ & _ & p & d & rfd & rank & f & _ & _ & _ & ? & _).
Qed.

(** The owners that a thread looks at. *)
Definition looks_at (i : nat) (x : cthread) (o : owner) : Prop :=
  match o with
  | Live j fd => j = i /\ uses x = Some fd
  | Flight hd => handle_at x = Some hd
  | Closing _ => False
  end.

(** What a step leaves to a thread that does not make it. *)
Section Keeps.
Context (own own' : owners) (s s' : cluster) (i : nat) (c c' : client) (h h' : list tevent).
Context (Halive : alive_still s s') (Hnext : (cu_next s <= cu_next s')%nat).
Context (Hcount : g_ftc_server_count c' = g_ftc_server_count c).
Context (Htree : tree (cl_os c') = tree (cl_os c)) (Hdir : ftc_data_dir c' = ftc_data_dir c).

(** ... in its client: its descriptor and its frame. *)
Definition leaves (x : cthread) : Prop :=
  (forall fd, uses x = Some fd -> fd_map c' !! fd = fd_map c !! fd /\
     readable (cl_os c') fd = readable (cl_os c) fd /\
     forall r, fd_redir_map c !! fd = Some r -> fd_redir_map c' !! fd = Some r) /\
  (forall id, frame_at x = Some id -> cl_frames c' !! id = cl_frames c !! id /\
     cl_requests c' !! id = cl_requests c !! id /\ forall d, EPushed id d ∈ h' -> EPushed id d ∈ h).

Definition keeps_thread (x : cthread) : Prop := owners_kept (looks_at i x) own own' s' /\ leaves x.

Lemma owns_keeps x fd host p : keeps_thread x -> uses x = Some fd ->
  owns own (cu_servers s) i c fd host p -> owns own' (cu_servers s') i c' fd host p.
Proof using Halive.
  intros (Ho & Hf & _) Hx Hw Hal. destruct (Hw (Halive _ Hal)) as (rfd & H1 & H2).
  exists rfd. split; [by apply (Hf fd Hx)|]. by apply Ho.
Qed.

(** The thread goes on if its conversation does. *)
Lemma thread_keeps x : keeps_thread x ->
  (forall fd host id hd p, x = COpenWait fd host id hd ->
     open_conv own (cu_servers s) (cu_net s) (cu_mail s) hd host p ->
     open_conv own' (cu_servers s') (cu_net s') (cu_mail s') hd host p) ->
  (forall fd count offset buf host id hd p d rfd rank, x = CReadWait fd count offset buf host id hd ->
     0 <= count < 2 ^ 31 -> 0 <= offset -> shared p d ->
     (is_Some (cu_servers s !! host) -> own !! (host, rfd) = Some (Live i fd, p)) ->
     read_conv (cu_servers s) (cu_net s) (cu_mail s) hd host (asks_read rfd fd count offset rank) (slice d count offset) ->
     read_conv (cu_servers s') (cu_net s') (cu_mail s') hd host (asks_read rfd fd count offset rank) (slice d count offset)) ->
  thread_ok own (cu_servers s) (cu_net s) (cu_mail s) (cu_next s) i c h x ->
  thread_ok own' (cu_servers s') (cu_net s') (cu_mail s') (cu_next s') i c' h' x.
Proof using Halive Hnext Hcount Htree Hdir.
  intros Hk Hopen Hread Hx. pose proof (fun fd host p => owns_keeps x fd host p Hk) as Howns.
  assert (Hhost : forall p, host_for hash c' p = host_for hash c p) by (intros p; unfold host_for; by rewrite Hcount).
  destruct Hk as (Ho & Hf & Hfr).
  assert (Hfile : forall fd p d, uses x = Some fd -> file_of c fd p d -> file_of c' fd p d).
  { intros fd p d Hu (H1 & H2 & H3). destruct (Hf fd Hu) as (E1 & E2 & _). unfold file_of. by rewrite E1, E2. }
  destruct x as [|path fd|fd|fd host|fd host id hd|fd count off buf host|fd count off buf host id hd]; cbn in *.
  - done.
  - destruct Hx as (H1 & d & H2 & H3). destruct (Hf fd eq_refl) as (E1 & E2 & _). split; [by rewrite E1|].
    exists d. split; [by rewrite E2|]. intros p. rewrite (track_decision_tree c c' path Htree Hdir). apply H3.
  - destruct Hx as (p & d & H1 & H2). exists p, d. by pose proof (Hfile _ _ _ eq_refl H1).
  - destruct Hx as (p & d & H1 & H2 & H3). exists p, d. rewrite Hhost. by pose proof (Hfile _ _ _ eq_refl H1).
  - destruct Hx as (p & d & f & H1 & H2 & H3 & H4 & H5 & H6). destruct (Hfr id eq_refl) as (E1 & E2 & _).
    exists p, d, f. rewrite Hhost, E1, E2. split; [by apply Hfile|]. do 2 (split; [done|]). split; [lia|]. split; [done|].
    destruct (fr_done f); destruct H6 as [H6 H7]; (split; [done|]); [by apply Howns|by eapply Hopen].
  - destruct Hx as (H1 & H2 & p & d & H3 & H4 & H5). do 2 (split; [done|]). exists p, d. rewrite Hhost.
    split; [by apply Hfile|]. split; [done|by apply Howns].
  - destruct Hx as (H1 & H2 & p & d & rfd & rank & f & H3 & H4 & H5 & H6 & H7 & H8 & [F1 F2 F3] & H9).
    destruct (Hfr id eq_refl) as (E1 & E2 & E3). do 2 (split; [done|]). exists p, d, rfd, rank, f.
    rewrite Hhost, E1, E2. split; [by apply Hfile|]. split; [done|]. split.
    { intros Hal. apply Ho; [done..|]. by apply H5, Halive. }
    split; [lia|]. split; [eapply Hread; try done; apply H3|]. split; [done|]. split; [|done].
    split; [done| |done]. intros d' Hd'. by eapply F2, E3.
Qed.

(** ... in particular when nothing happens in it. *)
Lemma thread_frame x : keeps_thread x -> (forall hd, handle_at x = Some hd -> untouched hd s s') ->
  thread_ok own (cu_servers s) (cu_net s) (cu_mail s) (cu_next s) i c h x ->
  thread_ok own' (cu_servers s') (cu_net s') (cu_mail s') (cu_next s') i c' h' x.
Proof using Halive Hnext Hcount Htree Hdir.
  intros Hk Hu. pose proof Hk as (Ho & _). apply thread_keeps; [done|..].
  - intros fd host id hd p -> . apply open_conv_frame; [by apply Hu|done|].
    intros H rfd o p' ->. by apply Ho.
  - intros fd count off buf host id hd p d rfd rank -> _ _ _ _. apply read_conv_frame. by apply Hu.
Qed.

End Keeps.

(** ** The members *)

Record member_ok (own : owners) (srv : gmap Z cstate) (net : gmap nat (Z * rpc)) (mail : list event) (nx : nat)
    (i : nat) (m : member) : Prop := {
  mo_lib : lib_ok (mb_client m);
  mo_files : same_files servers0 (mb_client m);
  mo_waits : waits_ok (g_ftc_server_count (mb_client m)) (as_threads m);
  mo_few : Z.of_nat (length (mb_threads m)) < 2 ^ 31 - TIMEOUT_LIMIT;
  mo_apart : forall t u x y fd, mb_threads m !! t = Some x -> mb_threads m !! u = Some y ->
    opens x = Some fd -> uses y = Some fd -> t = u;
  mo_thread : forall t x, mb_threads m !! t = Some x -> thread_ok own srv net mail nx i (mb_client m) (mb_hist m) x;
  mo_pushed : forall id e, EPushed id e ∈ mb_hist m -> (id < cl_next (mb_client m))%nat
}.

Record crowd_ok (own : owners) (s : crowd) : Prop := {
  co_base : cluster_ok own (base s);
  co_member : forall i m, cw_members s !! i = Some m ->
    member_ok own (cw_servers s) (cw_net s) (cw_mail s) (cw_next s) i m;
  co_apart : forall i j m m' t u x y hd, cw_members s !! i = Some m -> cw_members s !! j = Some m' ->
    mb_threads m !! t = Some x -> mb_threads m' !! u = Some y ->
    handle_at x = Some hd -> handle_at y = Some hd -> i = j /\ t = u
}.

(** ** The servers and the network *)

(** A member goes on when its threads do. *)
Lemma member_goes_on own own' srv srv' net net' mail mail' nx nx' i m :
  (forall x, thread_ok own srv net mail nx i (mb_client m) (mb_hist m) x ->
     thread_ok own' srv' net' mail' nx' i (mb_client m) (mb_hist m) x) ->
  member_ok own srv net mail nx i m -> member_ok own' srv' net' mail' nx' i m.
Proof. intros Hx [M1 M2 M3 M4 M5 M6 M7]. split; try done. intros t x Ht. by eapply Hx, M6. Qed.

Lemma crowd_goes_on own own' ms srv srv' net net' mail mail' nx :
  cluster_ok own' (base (mk_crowd ms srv' net' mail' nx)) ->
  (forall i m x, ms !! i = Some m -> thread_ok own srv net mail nx i (mb_client m) (mb_hist m) x ->
     thread_ok own' srv' net' mail' nx i (mb_client m) (mb_hist m) x) ->
  crowd_ok own (mk_crowd ms srv net mail nx) -> crowd_ok own' (mk_crowd ms srv' net' mail' nx).
Proof.
  intros Hb Hx [_ C2 C3]. split; [done| |exact C3]. cbn in *. intros i m Hi.
  eapply member_goes_on; [|by apply C2]. intros x. by apply Hx.
Qed.

(** A thread that the step of a server is not about. *)
Lemma server_thread own own' (apps : gmap nat node) srv net net' mail es nx H st st' k i c h x :
  ClusterInv.about own own' srv net net' es nx H st st' k -> handle_at x <> Some k ->
  thread_ok own srv net mail nx i c h x -> thread_ok own' (<[H := st']> srv) net' (mail ++ es) nx i c h x.
Proof.
  intros Hab Hne. pose proof (server_alive own own' apps srv net net' mail es nx H st st' k Hab) as Hal.
  apply (thread_frame own own' (mk_cluster apps srv net mail nx) (mk_cluster apps (<[H := st']> srv) net' (mail ++ es) nx)
    i c c h h Hal); [done..| |].
  - split; [|by split_and!]. apply (server_kept own own' apps srv net net' mail es nx H st st' k Hab). by intros hd [].
  - intros hd Hhd. apply (server_untouched own own' apps srv net net' mail es nx H st st' k Hab). congruence.
Qed.

Section World.
Context (own : owners) (ms : gmap nat member) (srv : gmap Z cstate) (net : gmap nat (Z * rpc))
  (mail : list event) (nx : nat).
Context (Hok : crowd_ok own (mk_crowd ms srv net mail nx)).
#[local] Abbreviation apps := (virtual <$> ms).

Lemma crowd_accept H h call r st st' : net !! h = Some (H, r) -> srv !! H = Some st -> accept h call r st st' ->
  crowd_ok (accepted own H r)
    (mk_crowd ms (<[H := st']> srv) (delete h net) (mail ++ wire (c_srv st) (c_srv st')) nx).
Proof using Hok nvme.
  intros Hn Hs Ha. pose proof (co_base _ _ Hok) as Hb. cbn in Hb.
  pose proof (accept_ok hash se nvme apps0 servers0 own apps srv net mail nx H h call r st st' Hn Hs Ha Hb) as Hb'.
  assert (Hab : ClusterInv.about own (accepted own H r) srv net (delete h net) (wire (c_srv st) (c_srv st')) nx H st st' h).
  { apply (accept_about hash se nvme servers0 own srv net nx H h call r); try done.
    - exact (cu_msg _ _ _ _ _ _ Hb h _ Hn).
    - exact (fr_net _ _ (cu_fresh _ _ _ _ _ _ Hb) h _ Hn). }
  eapply crowd_goes_on; [exact Hb'| |exact Hok]. intros i m x Hi Hx.
  destruct (decide (handle_at x = Some h)) as [E|Hne]; [|by eapply (server_thread _ _ ∅)].
  pose proof (server_alive own _ ∅ srv net _ mail _ nx H st st' h Hab) as Hal.
  apply (thread_keeps own (accepted own H r) (mk_cluster ∅ srv net mail nx)
    (mk_cluster ∅ (<[H := st']> srv) (delete h net) (mail ++ wire (c_srv st) (c_srv st')) nx)
    i (mb_client m) (mb_client m) (mb_hist m) (mb_hist m) Hal); try done.
  - split; [|by split_and!]. apply (server_kept _ _ _ _ _ _ _ _ _ _ _ _ _ Hab). by intros hd [].
  - intros fd host id hd p ->. injection E as ->. cbn. intros Hc.
    by eapply (open_conv_accept own _ srv net mail h host p H call r st st' Hc).
  - intros fd count off buf host id hd p d rfd rank ->. injection E as ->. cbn. intros Hcnt Hoff Hsh Hown Hc.
    eapply (read_conv_accept hash se nvme servers0 own srv net mail i fd count off rfd rank h host H call r st st' p d);
      try done. exact (cu_srv _ _ _ _ _ _ Hb H st Hs).
Qed.

Lemma crowd_work H st st' : srv !! H = Some st -> internal (nvme H) st st' ->
  exists own', crowd_ok own' (mk_crowd ms (<[H := st']> srv) net (mail ++ wire (c_srv st) (c_srv st')) nx).
Proof using Hok nvme.
  intros Hs Hi. pose proof (co_base _ _ Hok) as Hb. pose proof (cu_fresh _ _ _ _ _ _ Hb) as Hfr.
  destruct (work_converses hash se nvme servers0 own apps srv net mail nx H st st' Hs Hi
    (cu_srv _ _ _ _ _ _ Hb H st Hs) Hfr) as (own' & k & Hab & Hs' & Hconv).
  exists own'. eapply crowd_goes_on; [|intros i m x Hm Hx|exact Hok].
  - apply (server_step_ok hash se apps0 servers0 own own' apps srv net net mail _ nx H st st' k); try done.
    intros i a q Hia Hq. apply lookup_fmap_Some in Hia as (m & <- & _). done.
  - destruct (decide (handle_at x = Some k)) as [E|Hne]; [|by eapply (server_thread _ _ ∅)].
    destruct (Hconv (thread_handle _ _ _ _ _ _ _ _ _ _ Hx E)) as [Hread Hopen].
    pose proof (server_alive own _ ∅ srv net _ mail _ nx H st st' k Hab) as Hal.
    apply (thread_keeps own own' (mk_cluster ∅ srv net mail nx)
      (mk_cluster ∅ (<[H := st']> srv) net (mail ++ wire (c_srv st) (c_srv st')) nx)
      i (mb_client m) (mb_client m) (mb_hist m) (mb_hist m) Hal); try done.
    + split; [|by split_and!]. apply (server_kept _ _ _ _ _ _ _ _ _ _ _ _ _ Hab). by intros hd [].
    + intros fd host id hd p ->. injection E as ->. apply Hopen.
    + intros fd count off buf host id hd p d rfd rank ->. injection E as ->. cbn. intros Hcnt Hoff Hsh Hown.
      apply Hread, zslice_short; lia.
Qed.

Lemma crowd_lose h : crowd_ok own (mk_crowd ms srv (delete h net) mail nx).
Proof using Hok.
  eapply crowd_goes_on; [by apply lose_ok, Hok|intros i m x Hm Hx|exact Hok].
  set (w := mk_cluster ∅ srv net mail nx). set (w' := mk_cluster ∅ srv (delete h net) mail nx).
  refine (thread_frame own own w w' i _ _ _ _ _ _ _ _ _ x _ _ Hx); [by intros H|done..|by split; [intros k|split_and!]|].
  intros hd _. apply untouched_servers; [done..|]. cbn. by intros y [_ ?]%lookup_delete_Some.
Qed.

Lemma crowd_fail H : crowd_ok own (mk_crowd ms (delete H srv) net mail nx).
Proof using Hok.
  eapply crowd_goes_on; [by apply fail_ok, Hok|intros i m x Hm Hx|exact Hok].
  set (w := mk_cluster ∅ srv net mail nx). set (w' := mk_cluster ∅ (delete H srv) net mail nx).
  refine (thread_frame own own w w' i _ _ _ _ _ _ _ _ _ x _ _ Hx); [|done..|by split; [intros k|split_and!]|].
  - intros H' [st Hs]. cbn in *. apply lookup_delete_Some in Hs as [_ Hs]. by exists st.
  - intros hd _. split; cbn; try done.
    + intros H' st rs [_ Hs]%lookup_delete_Some Hb. by exists st.
    + intros H' st f [_ Hs]%lookup_delete_Some Hf _. by exists st.
Qed.

End World.

(** A step that no thread makes. *)
Lemma crowd_world_ok own ms srv net mail nx srv' net' mail' nx' :
  crowd_ok own (mk_crowd ms srv net mail nx) ->
  cstep hash se nvme (mk_cluster ∅ srv net mail nx) (mk_cluster ∅ srv' net' mail' nx') ->
  exists own', crowd_ok own' (mk_crowd ms srv' net' mail' nx').
Proof.
  intros Hok Hst. inversion Hst; subst; try (exfalso; by eapply lookup_empty_Some).
  - eexists. by eapply crowd_accept.
  - by eapply crowd_work.
  - exists own. by apply crowd_lose.
  - exists own. by apply crowd_fail.
Qed.

End Invariant.

End CrowdInv.
