(* ===== verification/CrowdMembers.v ===== *)
(** * A step of one member of a crowd

    What a step of a thread has to show: that the cluster which the crowd is
    ([CrowdInv.base]) is well afterwards, that it leaves the other threads what
    they look at, and that the thread itself is well.  The pieces that only move
    their own frame ([CrowdPieces.moves]) have most of it ([piece_ok]). *)

From S2P Require Import Prelude CString HexDump Address Posix LogInfo Server ServerSpec ServerThreads.
From S2P Require Import Client Wrappers ClientSpec ClientInv ClientProps Transparency ClientWire Cluster ClusterInv.
From S2P Require Import ClientThreads ClientFrames ClientWaits Crowd CrowdPieces CrowdInv.
Import Address Posix LogInfo ServerThreads Client Wrappers ClientSpec ClientInv ClientProps Transparency ClientWire.
Import Cluster ClusterInv ServerSpec(rpc).
Import ClientThreads ClientFrames ClientWaits Crowd CrowdPieces CrowdInv.
Import Server(event, EvPush, EvRespond, server).

Module CrowdMembers.

Section Members.
Context (hash : string -> Z) (se : nat -> self_env).
Context (apps0 : gmap nat client) (servers0 : gmap Z server).
#[local] Abbreviation cluster_ok := (ClusterInv.cluster_ok hash se apps0 servers0).
#[local] Abbreviation crowd_ok := (CrowdInv.crowd_ok hash se apps0 servers0).
#[local] Abbreviation member_ok := (CrowdInv.member_ok hash servers0).
#[local] Abbreviation thread_ok := (CrowdInv.thread_ok hash servers0).
#[local] Abbreviation same_files := (ClusterInv.same_files servers0).
#[local] Abbreviation history := (ClusterInv.history apps0).
#[local] Abbreviation net_ok := (ClusterInv.net_ok servers0).

(** ** Clients *)

Lemma settled_lib ts c : lib_ok c -> lib_ok (settled ts c).
Proof.
  intros [L1 L2 L3 L4 L5]. split; try done; [by apply core_ok_fd_map|].
  intros fd p [Hp _]%settled_Some. by eapply L5.
Qed.

Lemma settled_files ts c : same_files c -> same_files (settled ts c).
Proof. intros Hf fd p [Hp _]%settled_Some. by apply Hf. Qed.

Lemma settled_same ts t x y c : ts !! t = Some x -> opens y = opens x -> settled (<[t := y]> ts) c = settled ts c.
Proof.
  intros Ht E. unfold settled. f_equal. apply map_filter_ext. intros fd p _.
  enough (omap opens (<[t := y]> ts) = omap opens ts) as H by (unfold opening_fds; by rewrite H).
  revert t Ht. induction ts as [|z l IH]; intros [|t] Ht; try done; cbn.
  - injection Ht as ->. by rewrite E.
  - destruct (opens z); [f_equal|]; by apply IH.
Qed.

Lemma room_counters N s : waits_ok N s -> Z.of_nat (length (tn_threads s)) < 2 ^ 31 - TIMEOUT_LIMIT ->
  within INT_MAX (timeout_counters (tn_client s)).
Proof.
  intros Hw Hl. apply Forall_lookup. intros j k Hk. destruct (wo_room _ _ Hw (Z.of_nat j) k) as [H0 H1]; [by rewrite Nat2Z.id|].
  unfold TIMEOUT_LIMIT in *. lia.
Qed.

(** The library's state after a piece. *)
Lemma moves_lib fd id es c c' : lib_ok c -> moves fd id es c c' -> within INT_MAX (timeout_counters c') -> lib_ok c'.
Proof.
  intros Hl Hm Hw. pose proof (lo_core _ Hl) as Hc. apply (lib_ok_text c); [done| |apply Hm|apply Hm].
  apply (core_ok_rpc c); [done|apply Hm|apply (mv_addressed _ _ _ _ _ Hm), Hc| |exact Hw| |apply Hm].
  - symmetry. eapply Forall2_length, Hm.
  - apply (mv_fresh _ _ _ _ _ Hm), Hc.
Qed.

Lemma moves_refl fd id c : moves fd id [] c c.
Proof. split; try done. by rewrite app_nil_r. Qed.

(** ** The cluster *)

(** A step may use up the answer that its thread waits for, and what belongs to a
    descriptor that no thread is busy with. *)
Definition uses_up (i : nat) (ts : list cthread) (x : cthread) (own own' : owners) : Prop :=
  forall key o p, own !! key = Some (o, p) -> own' !! key = Some (o, p) \/
    (exists hd, o = Flight hd /\ handle_at x = Some hd) \/
    (exists fd, o = Live i fd /\ forall u z, ts !! u = Some z -> uses z <> Some fd).

(** A thread takes its answer. *)
Record hands (x : cthread) (own own' : owners) : Prop := {
  hd_kept : forall key o p, own !! key = Some (o, p) -> own' !! key = Some (o, p) \/
    exists hd, o = Flight hd /\ handle_at x = Some hd;
  hd_from : forall key o p, own' !! key = Some (o, p) -> exists o', own !! key = Some (o', p)
}.

Lemma hands_refl x own : hands x own own.
Proof. split; eauto. Qed.

Lemma hands_insert x own key hd o p : own !! key = Some (Flight hd, p) -> handle_at x = Some hd ->
  hands x own (<[key := (o, p)]> own).
Proof.
  intros Ho Hm. split.
  - intros key' o1 p1 H1. destruct (decide (key = key')) as [<-|Hne]; [right; simplify_eq; by exists hd|left].
    by rewrite lookup_insert_ne.
  - intros key' o1 p1. rewrite lookup_insert_Some. intros [[<- [= <- <-]]|[_ ?]]; eauto.
Qed.

Lemma hands_uses i ts x own own' : hands x own own' -> uses_up i ts x own own'.
Proof. intros [Hk _] key o p Ho. destruct (Hk _ _ _ Ho) as [?|?]; [by left|right; by left]. Qed.

Section Base.
Context (own : owners) (ms : gmap nat member) (srv : gmap Z cstate) (net : gmap nat (Z * rpc))
  (mail : list event) (nx i : nat) (c : client) (ts : list cthread) (h : list tevent) (d : list (ro_call * answer)).
Context (Hok : cluster_ok own (base (mk_crowd ms srv net mail nx))) (Hi : ms !! i = Some (mk_member c ts h d)).

Lemma base_lookup : (virtual <$> ms) !! i = Some (mk_node (settled ts c) None d).
Proof using Hi. by rewrite lookup_fmap, Hi. Qed.

Lemma base_history : history i c d.
Proof using Hok Hi. exact (ao_done _ _ _ _ _ _ _ _ (cu_app _ _ _ _ _ _ Hok i _ base_lookup)). Qed.

Lemma base_mounted : mounted servers0 c.
Proof using Hok Hi. exact (ao_mounted _ _ _ _ _ _ _ _ (cu_app _ _ _ _ _ _ Hok i _ base_lookup)). Qed.

Lemma base_redirected : redirected hash own srv i (settled ts c).
Proof using Hok Hi. exact (ao_redirected _ _ _ _ _ _ _ _ (cu_app _ _ _ _ _ _ Hok i _ base_lookup)). Qed.

(** A step that closes nothing. *)
Lemma quiet_ok own' x c' ts' h' d' net' nx' : hands x own own' ->
  lib_ok c' -> same_files c' -> kept c c' -> tree (cl_os c') = tree (cl_os c) -> history i c' d' ->
  (forall fd p, fd_map (settled ts' c') !! fd = Some p -> ~ given_up c' (host_for hash c' p) ->
     (fd_map (settled ts c) !! fd = Some p /\ forall r, fd_redir_map c !! fd = Some r -> fd_redir_map c' !! fd = Some r) \/
     owns own' srv i c' fd (host_for hash c' p) p) ->
  (nx <= nx')%nat ->
  (forall k v, net' !! k = Some v -> net !! k = Some v \/ (k = nx /\ (nx < nx')%nat /\ net_ok own' srv k v)) ->
  cluster_ok own' (base (mk_crowd (<[i := mk_member c' ts' h' d']> ms) srv net' mail nx')).
Proof using Hok Hi.
  intros Hh Hl Hf Hk Ht Hhist Hred Hle Hnet. unfold base. cbn. rewrite fmap_insert.
  assert (Hrel : relabels (virtual <$> ms) i own own').
  { split; [|apply Hh]. intros key o p Ho. destruct (hd_kept _ _ _ Hh _ _ _ Ho) as [?|(hd & -> & _)]; [by left|right].
    intros j b q (m & <- & _)%lookup_fmap_Some. done. }
  eapply node_step_ok; [exact Hok|exact base_lookup|exact Hrel| |done|done|done].
  split; cbn; [by apply settled_lib| |by apply settled_files| |exact Hhist|done].
  - apply (mounted_call servers0 c); [done|apply Hk|exact base_mounted].
  - intros fd p Hp Hng Hal. change (host_for hash (settled ts' c') p) with (host_for hash c' p) in *.
    destruct (Hred fd p Hp Hng) as [[Hp0 Hr]|Ho]; [|by apply Ho].
    destruct (base_redirected fd p Hp0) as (rfd & H1 & H2);
      change (host_for hash (settled ts c) p) with (host_for hash c p) in *; rewrite (kept_host hash _ _ p Hk) in *;
      [|done|].
    { intros Hg. by apply Hng, Hk. }
    exists rfd. split; [by apply Hr|]. destruct (hd_kept _ _ _ Hh _ _ _ H2) as [?|(hd & [=] & _)]. done.
Qed.

End Base.

(** ** The step *)

Section Step.
Context (own own' : owners) (ms : gmap nat member) (srv : gmap Z cstate) (net net' : gmap nat (Z * rpc))
  (mail : list event) (nx nx' i t : nat) (c c' : client) (ts : list cthread) (h h' : list tevent)
  (d d' : list (ro_call * answer)) (x y : cthread).
Context (Hok : crowd_ok own (mk_crowd ms srv net mail nx)) (Hi : ms !! i = Some (mk_member c ts h d)).
Context (Ht : ts !! t = Some x).
#[local] Abbreviation m' := (mk_member c' (<[t := y]> ts) h' d').

Context (Hle : (nx <= nx')%nat) (Hnet : forall k v, net' !! k = Some v -> net !! k = Some v \/ k = nx).
Context (Hown : uses_up i ts x own own').

(** A thread that does not make the step. *)
Lemma other_thread j m u z c1 h1 : ms !! j = Some m -> mb_threads m !! u = Some z -> (j = i -> u <> t) ->
  leaves (mb_client m) c1 (mb_hist m) h1 z -> g_ftc_server_count c1 = g_ftc_server_count (mb_client m) ->
  tree (cl_os c1) = tree (cl_os (mb_client m)) -> ftc_data_dir c1 = ftc_data_dir (mb_client m) ->
  thread_ok own' srv net' mail nx' j c1 h1 z.
Proof using Hi Hle Hnet Hok Hown Ht.
  intros Hj Hu Hne Hleave Hcount Htree Hdir.
  pose proof (mo_thread _ _ _ _ _ _ _ _ _ (co_member _ _ _ _ _ _ Hok j m Hj) u z Hu) as Hz. cbn in Hz.
  set (w := mk_cluster ∅ srv net mail nx). set (w' := mk_cluster ∅ srv net' mail nx').
  refine (thread_frame hash servers0 own own' w w' j (mb_client m) c1 (mb_hist m) h1 _ _ Hcount Htree Hdir z _ _ Hz);
    [by intros H|done|split; [|done]|].
  - intros H rfd o p Ho _ Hp. destruct (Hown _ _ _ Hp) as [?|[(hd & -> & Hhd)|(fd & -> & Hno)]]; [done|exfalso..]; cbn in Ho.
    + destruct (co_apart _ _ _ _ _ _ Hok i j (mk_member c ts h d) m t u x z hd) as [-> ->]; try done. by apply Hne.
    + destruct Ho as [<- Hz']. rewrite Hi in Hj. injection Hj as <-. by apply (Hno u z Hu).
  - intros hd Hhd. apply untouched_servers; [done..|]. cbn. intros v Hv.
    destruct (Hnet hd v Hv) as [?| ->]; [done|]. pose proof (thread_handle _ _ _ _ _ _ _ _ _ _ _ _ Hz Hhd). lia.
Qed.

Lemma crowd_step : cluster_ok own' (base (mk_crowd (<[i := m']> ms) srv net' mail nx')) ->
  lib_ok c' -> same_files c' -> g_ftc_server_count c' = g_ftc_server_count c ->
  tree (cl_os c') = tree (cl_os c) -> ftc_data_dir c' = ftc_data_dir c ->
  waits_ok (g_ftc_server_count c) (as_threads m') ->
  (forall fd, opens y = Some fd -> opens x = Some fd \/ forall u z, ts !! u = Some z -> uses z <> Some fd) ->
  (forall fd, uses y = Some fd -> uses x = Some fd \/ forall u z, ts !! u = Some z -> opens z <> Some fd) ->
  (forall hd, handle_at y = Some hd -> handle_at x = Some hd \/ hd = nx) ->
  (cl_next c <= cl_next c')%nat ->
  (forall j e, EPushed j e ∈ h' -> EPushed j e ∈ h \/ (j < cl_next c')%nat) ->
  (forall u z, u <> t -> ts !! u = Some z -> leaves c c' h h' z) ->
  thread_ok own' srv net' mail nx' i c' h' y ->
  crowd_ok own' (mk_crowd (<[i := m']> ms) srv net' mail nx').
Proof using Hok Hi Ht Hle Hnet Hown.
  intros Hb Hl Hf Hcount Htree Hdir Hw Hopens Huses Hhandle Hnext Hpush Hleave Hy.
  pose proof (co_member _ _ _ _ _ _ Hok i _ Hi) as Hm.
  assert (Hthread : forall j m u z, <[i := m']> ms !! j = Some m -> mb_threads m !! u = Some z ->
    (j = i /\ u = t /\ z = y) \/ exists m0, ms !! j = Some m0 /\ mb_threads m0 !! u = Some z /\ (j = i -> u <> t)).
  { intros j m u z. rewrite lookup_insert. case_decide as E.
    - intros [= <-]. subst j. cbn. intros [(<- & <- & _)|[Hne Hz]]%list_lookup_insert_Some; [by left|].
      right. eexists. split; [exact Hi|]. by split.
    - intros Hj Hu. right. by exists m. }
  split; cbn; [exact Hb| |].
  - intros j m. rewrite lookup_insert. case_decide as E.
    + intros [= <-]. subst j. destruct Hm as [M1 M2 M3 M4 M5 M6 M7]. split; cbn in *; try done.
      * by rewrite Hcount.
      * by rewrite length_insert.
      * intros t1 t2 z1 z2 fd [(<- & <- & _)|[Hn1 H1]]%list_lookup_insert_Some [(<- & <- & _)|[Hn2 H2]]%list_lookup_insert_Some Ho Hu;
          [done|..|by eapply M5].
        { destruct (Hopens fd Ho) as [Ho'|Hno]; [by eapply M5|by destruct (Hno _ _ H2)]. }
        { destruct (Huses fd Hu) as [Hu'|Hno]; [by eapply M5|by destruct (Hno _ _ H1)]. }
      * intros u z [(<- & <- & _)|[Hne Hz]]%list_lookup_insert_Some; [exact Hy|].
        eapply (other_thread i _ u z); [exact Hi|exact Hz|done|by apply (Hleave u)|done..].
      * intros j e He. destruct (Hpush j e He) as [Ho|?]; [|done]. specialize (M7 j e Ho). lia.
    + intros Hj. destruct (co_member _ _ _ _ _ _ Hok j m Hj) as [M1 M2 M3 M4 M5 M6 M7]. split; try done.
      intros u z Hz. by eapply (other_thread j m u z).
  - intros j k m1 m2 u v z1 z2 hd Hj Hk Hu Hv H1 H2.
    assert (Hold : forall a m0 b z, ms !! a = Some m0 -> mb_threads m0 !! b = Some z -> handle_at z = Some hd ->
      (a = i -> b <> t) -> handle_at y = Some hd -> False).
    { intros a m0 b z Ha Hb' Hz Hne Hhd. destruct (Hhandle hd Hhd) as [Hx| ->].
      - destruct (co_apart _ _ _ _ _ _ Hok i a (mk_member c ts h d) m0 t b x z hd) as [-> ->]; try done. by apply Hne.
      - pose proof (mo_thread _ _ _ _ _ _ _ _ _ (co_member _ _ _ _ _ _ Hok a m0 Ha) b z Hb') as Hz'.
        pose proof (thread_handle _ _ _ _ _ _ _ _ _ _ _ _ Hz' Hz). cbn in *. lia. }
    destruct (Hthread j m1 u z1 Hj Hu) as [(-> & -> & ->)|(m3 & Hj' & Hu' & N1)];
      destruct (Hthread k m2 v z2 Hk Hv) as [(-> & -> & ->)|(m4 & Hk' & Hv' & N2)].
    + done.
    + exfalso. by eapply (Hold k m4 v z2).
    + exfalso. by eapply (Hold j m3 u z1).
    + by eapply (co_apart _ _ _ _ _ _ Hok j k m3 m4 u v z1 z2 hd).
Qed.

End Step.

(** ** A piece *)

Lemma frame_waits z : waits (erase z) = frame_at z.
Proof. by destruct z. Qed.

Lemma moves_files fd id es c c' : moves fd id es c c' -> same_files c -> same_files c'.
Proof.
  intros Hm Hf fd' p. rewrite (mv_fd_map _ _ _ _ _ Hm), (like_readable _ _ _ (mv_os _ _ _ _ _ Hm)). apply Hf.
Qed.

Lemma history_like i c c' d : os_like (cl_os c) (cl_os c') -> history i c d -> history i c' d.
Proof. intros Ho (c0 & H1 & H2). exists c0. split; [done|]. by eapply plain_run_like. Qed.

(** Two threads of a member never wait with one frame. *)
Lemma member_frames own srv net mail nx i c ts h d t x u z id :
  member_ok own srv net mail nx i (mk_member c ts h d) -> ts !! t = Some x -> ts !! u = Some z -> u <> t ->
  (frame_at x = Some id \/ id = cl_next c) -> frame_at z <> Some id.
Proof.
  intros Hm Ht Hu Hne Hid Hz. pose proof (wo_frames _ _ (mo_waits _ _ _ _ _ _ _ _ _ Hm)) as [_ F2 F3 _]. cbn in F2, F3.
  assert (Hlook : forall v y, ts !! v = Some y -> (erase <$> ts) !! v = Some (erase y))
    by (intros v y H; by rewrite list_lookup_fmap, H).
  destruct Hid as [Hx| ->].
  - apply Hne. eapply F3; [by apply Hlook|by apply Hlook|by rewrite frame_waits|by rewrite frame_waits].
  - specialize (F2 u (erase z) (cl_next c) (Hlook _ _ Hu)). rewrite frame_waits in F2. specialize (F2 Hz). lia.
Qed.

Section Piece.
Context (own own' : owners) (ms : gmap nat member) (srv : gmap Z cstate) (net : gmap nat (Z * rpc))
  (mail : list event) (nx i t : nat) (c c' : client) (ts : list cthread) (h h' : list tevent)
  (d d' : list (ro_call * answer)) (x y : cthread) (fdo : option Z) (id : nat) (es : list cl_event).
Context (Hok : crowd_ok own (mk_crowd ms srv net mail nx)) (Hi : ms !! i = Some (mk_member c ts h d)).
Context (Ht : ts !! t = Some x).
#[local] Abbreviation m' := (mk_member c' (<[t := y]> ts) h' d').
#[local] Abbreviation net' := (post nx es net).
#[local] Abbreviation nx' := (nx + length es)%nat.

Lemma piece_ok : moves fdo id es c c' -> frame_at x = Some id \/ id = cl_next c ->
  (forall fd, fdo = Some fd -> opens x = Some fd) -> waits_ok (g_ftc_server_count c) (as_threads m') ->
  hands x own own' ->
  (forall fd, opens y = Some fd -> opens x = Some fd) ->
  (forall fd, uses y = Some fd -> uses x = Some fd \/ forall u z, ts !! u = Some z -> opens z <> Some fd) ->
  (forall hd, handle_at y = Some hd -> handle_at x = Some hd \/ hd = nx) ->
  (forall k v, net' !! k = Some v -> net !! k = Some v \/ (k = nx /\ (nx < nx')%nat /\ net_ok own' srv k v)) ->
  (forall j e, EPushed j e ∈ h' -> EPushed j e ∈ h \/ (j = id /\ (id < cl_next c')%nat)) -> (history i c' d -> history i c' d') ->
  (forall fd p, opens x = Some fd -> opens y = None -> fd_map c !! fd = Some p ->
     ~ given_up c' (host_for hash c p) -> owns own' srv i c' fd (host_for hash c p) p) ->
  thread_ok own' srv net' mail nx' i c' h' y ->
  crowd_ok own' (mk_crowd (<[i := m']> ms) srv net' mail nx').
Proof using Hok Hi Ht.
  intros Hm Hid Hfdo Hw Hh Hopens Huses Hhandle Hnet Hpush Hhist Hsettle Hy.
  pose proof (co_member _ _ _ _ _ _ Hok i _ Hi) as Hmem. destruct Hmem as [M1 M2 M3 M4 M5 M6 M7] eqn:E. clear E. cbn in *.
  pose proof (moves_kept _ _ _ _ _ Hm) as Hk.
  assert (Hl : lib_ok c').
  { eapply moves_lib; [exact M1|exact Hm|]. apply (room_counters _ _ Hw). cbn. by rewrite length_fmap, length_insert. }
  apply (crowd_step own own' ms srv net _ mail nx _ i t c c' ts h h' d d' x y Hok Hi Ht); try done.
  - lia.
  - intros k v Hv. destruct (Hnet k v Hv) as [?|[? _]]; [by left|by right].
  - by apply hands_uses.
  - eapply quiet_ok; [exact (co_base _ _ _ _ _ _ Hok)|exact Hi|exact Hh|done|by eapply moves_files|done| | | |lia|exact Hnet].
    + apply like_tree, Hm.
    + apply Hhist. eapply history_like; [apply Hm|]. eapply base_history; [exact (co_base _ _ _ _ _ _ Hok)|exact Hi].
    + intros fd p [Hp Hno]%settled_Some Hng. rewrite (mv_fd_map _ _ _ _ _ Hm) in Hp.
      destruct (decide (fd ∈ opening_fds ts)) as [Hin|Hout].
      * right. rewrite (kept_host hash _ _ p Hk) in *. apply elem_opening in Hin as (u & z & Hu & Hz).
        destruct (decide (u = t)) as [->|Hne].
        { rewrite Ht in Hu. injection Hu as <-. apply Hsettle; try done. destruct (opens y) as [fd'|] eqn:Ey; [|done].
          specialize (Hopens _ eq_refl). rewrite Hz in Hopens. injection Hopens as ->. exfalso. apply Hno, elem_opening.
          exists t, y. split; [|done]. apply list_lookup_insert_eq. by eapply lookup_lt_Some. }
        exfalso. apply Hno, elem_opening. exists u, z. split; [|done]. by rewrite list_lookup_insert_ne.
      * left. split; [by apply settled_Some|]. intros r. apply (mv_redir _ _ _ _ _ Hm). intros E.
        apply Hout, elem_opening. exists t, x. split; [done|by apply Hfdo].
  - by eapply moves_files.
  - by pose proof (kp_count _ _ Hk).
  - apply like_tree, Hm.
  - by pose proof (kp_dir _ _ Hk).
  - intros fd Hfd. left. by apply Hopens.
  - apply Hm.
  - intros j e He. destruct (Hpush j e He) as [?|[-> ?]]; [by left|by right].
  - intros u z Hne Hu. split.
    + intros fd Hfd. split; [by rewrite (mv_fd_map _ _ _ _ _ Hm)|]. split; [by apply like_readable, Hm|].
      intros r. apply (mv_redir _ _ _ _ _ Hm). intros E. apply Hne. symmetry. by eapply M5; [| |apply Hfdo|].
    + intros id' Hz. assert (Hne' : id' <> id).
      { intros ->. by eapply (member_frames own srv net mail nx i c ts h d t x u z id). }
      split; [by apply (mv_frames _ _ _ _ _ Hm)|]. split; [by apply (mv_requests _ _ _ _ _ Hm)|].
      intros e He. by destruct (Hpush _ _ He) as [?|[? _]].
Qed.

End Piece.

End Members.

End CrowdMembers.
