(* ===== verification/CrowdSteps.v ===== *)
(** * Every step of a crowd keeps its invariant

    One lemma for every rule of [Crowd.mstep]. *)

From S2P Require Import Prelude CString HexDump Address Posix LogInfo Server ServerSpec ServerThreads ServerWire.
From S2P Require Import Client Wrappers ClientSpec ClientInv ClientProps Transparency ClientWire Cluster ClusterInv.
From S2P Require Import ClientThreads ClientFrames ClientWaits Crowd CrowdPieces CrowdInv CrowdMembers.
Import Address Posix LogInfo ServerThreads Client Wrappers ClientSpec ClientInv ClientProps Transparency ClientWire Cluster.
Import ClusterInv ServerSpec(rpc, ROpen, RRead).
Import ClientThreads ClientFrames ClientWaits Crowd CrowdPieces CrowdInv CrowdMembers.
Import Server(event, EvPush, EvRespond, server, mk_rpc_in, mk_open_in).

Module CrowdSteps.

Section Steps.
Context (hash : string -> Z) (se : nat -> self_env).
Context (apps0 : gmap nat client) (servers0 : gmap Z server).
#[local] Abbreviation cluster_ok := (ClusterInv.cluster_ok hash se apps0 servers0).
#[local] Abbreviation crowd_ok := (CrowdInv.crowd_ok hash se apps0 servers0).
#[local] Abbreviation member_ok := (CrowdInv.member_ok hash servers0).
#[local] Abbreviation thread_ok := (CrowdInv.thread_ok hash servers0).
#[local] Abbreviation shared := (ClusterInv.shared servers0).

Section Thread.
Context (own : owners) (ms : gmap nat member) (srv : gmap Z cstate) (net : gmap nat (Z * rpc))
  (mail : list event) (nx i t : nat) (c c' : client) (ts : list cthread) (h : list tevent) (d : list (ro_call * answer))
  (x : cthread).
Context (Hok : crowd_ok own (mk_crowd ms srv net mail nx)) (Hi : ms !! i = Some (mk_member c ts h d)).
Context (Ht : ts !! t = Some x).
#[local] Abbreviation next y h' d' es := (mk_crowd (<[i := mk_member c' (<[t := y]> ts) h' d']> ms) srv
  (post nx (es : list cl_event) net) mail (nx + length (es : list cl_event))).
#[local] Abbreviation waits_after y h' := (waits_ok (g_ftc_server_count c) (as_threads (mk_member c' (<[t := y]> ts) h' d))).

Lemma this_member : member_ok own srv net mail nx i (mk_member c ts h d).
Proof using Hok Hi. exact (co_member _ _ _ _ _ _ Hok i _ Hi). Qed.

Lemma this_core : core_ok c.
Proof using Hok Hi. apply this_member. Qed.

Lemma this_printable : printable (client_address c).
Proof using Hok Hi. apply this_core. Qed.

Lemma this_thread : thread_ok own srv net mail nx i c h x.
Proof using Hok Hi Ht. exact (mo_thread _ _ _ _ _ _ _ _ _ this_member t x Ht). Qed.

Lemma this_frame id : frame_at x = Some id -> (id < cl_next c)%nat.
Proof using Hok Hi Ht.
  intros Hx. apply (fo_next _ (wo_frames _ _ (mo_waits _ _ _ _ _ _ _ _ _ this_member)) t (erase x)); cbn.
  - by rewrite list_lookup_fmap, Ht.
  - by rewrite frame_waits.
Qed.

(** A file of the client that the thread is busy with goes on being one. *)
Lemma file_moves fdo id es fd p e : moves fdo id es c c' -> file_of servers0 c fd p e -> file_of servers0 c' fd p e.
Proof.
  intros Hm (H1 & H2 & H3). unfold file_of. by rewrite (mv_fd_map _ _ _ _ _ Hm), (like_readable _ _ _ (mv_os _ _ _ _ _ Hm)).
Qed.

Lemma owns_moves id es fd host p : moves None id es c c' -> owns own srv i c fd host p -> owns own srv i c' fd host p.
Proof.
  intros Hm Ho Hal. destruct (Ho Hal) as (rfd & H1 & H2). exists rfd. split; [|done]. by apply (mv_redir _ _ _ _ _ Hm).
Qed.

(** A call of the thread that is sent. *)
Lemma send_ok y id host msg h' :
  moves None id [CForward host msg] c c' -> id = cl_next c -> waits_after y h' ->
  opens y = opens x -> uses y = uses x -> handle_at y = Some nx -> net_ok servers0 own srv nx (host, msg) ->
  (forall j e, EPushed j e ∈ h' -> EPushed j e ∈ h) ->
  thread_ok own srv (<[nx := (host, msg)]> net) mail (nx + 1) i c' h' y ->
  crowd_ok own (next y h' d [CForward host msg]).
Proof using Hok Hi Ht.
  intros Hm Hid Hw Ho Hu Hhd Hnet Hpush Hth.
  eapply (piece_ok hash se apps0 servers0 own own); try done; [by right|apply hands_refl|..].
  - intros fd. by rewrite Ho.
  - intros fd. rewrite Hu. by left.
  - intros hd. rewrite Hhd. intros [= <-]. by right.
  - intros k v. cbn. rewrite lookup_insert. case_decide as E; [intros [= <-]; subst k; right|by left].
    split; [done|]. split; [lia|done].
  - intros j e He. left. by apply Hpush.
  - intros fd p H1 H2. by rewrite Ho, H1 in H2.
Qed.

(** A piece of a call that waits, which sends nothing. *)
Lemma wait_ok y id h' d' : frame_at x = Some id -> moves None id [] c c' -> waits_after y h' ->
  y = x \/ y = CIdle ->
  (forall j e, EPushed j e ∈ h' -> EPushed j e ∈ h \/ j = id) ->
  (d' = d \/ exists q, d' = d ++ [(q, (plain_call q (cl_os c)).1)] /\ (plain_call q (cl_os c)).2 = cl_os c) ->
  (forall fd p, opens x = Some fd -> y = CIdle -> fd_map c !! fd = Some p -> owns own srv i c' fd (host_for hash c p) p) ->
  thread_ok own srv net mail nx i c' h' y ->
  crowd_ok own (next y h' d' []).
Proof using Hok Hi Ht.
  intros Hx Hm Hw Hy Hpush Hd Hsettle Hth. pose proof (this_frame id Hx) as Hid.
  eapply (piece_ok hash se apps0 servers0 own own); try done; [by left|apply hands_refl|..].
  - intros fd. by destruct Hy as [-> | ->].
  - intros fd. destruct Hy as [-> | ->]; [by left|done].
  - intros hd. destruct Hy as [-> | ->]; [by left|done].
  - intros k v. by left.
  - intros j e He. destruct (Hpush j e He) as [?| ->]; [by left|right]. split; [done|].
    pose proof (mv_next _ _ _ _ _ Hm). lia.
  - intros Hh. destruct Hd as [->|(q & -> & E)]; [done|].
    pose proof (base_history hash se apps0 servers0 own ms srv net mail nx i c ts h d
      (co_base _ _ _ _ _ _ Hok) Hi) as Hh0.
    eapply history_snoc; [exact Hh0|]. apply after_now. rewrite E. apply Hm.
  - intros fd p H1 H2 H3 _. apply Hsettle; [done| |done]. destruct Hy as [-> | ->]; [congruence|done].
  - by rewrite Nat.add_0_r.
Qed.

End Thread.

(** ** Opens *)

Section Rules.
Context (own : owners) (ms : gmap nat member) (srv : gmap Z cstate) (net : gmap nat (Z * rpc))
  (mail : list event) (nx i t : nat) (c c' : client) (ts : list cthread) (h : list tevent) (d : list (ro_call * answer)).
Context (Hok : crowd_ok own (mk_crowd ms srv net mail nx)) (Hi : ms !! i = Some (mk_member c ts h d)).
#[local] Abbreviation next y h' d' es := (mk_crowd (<[i := mk_member c' (<[t := y]> ts) h' d']> ms) srv
  (post nx (es : list cl_event) net) mail (nx + length (es : list cl_event))).
#[local] Abbreviation waits_after y h' := (waits_ok (g_ftc_server_count c) (as_threads (mk_member c' (<[t := y]> ts) h' d))).

Lemma this_known p : host_known c (host_for hash c p).
Proof using Hok Hi. apply host_known_for. exact (this_core own ms srv net mail nx i c ts h d Hok Hi). Qed.

Lemma this_fresh : fresh_from nx (mk_cluster (virtual <$> ms) srv net mail nx).
Proof using Hok. exact (cu_fresh _ _ _ _ _ _ (co_base _ _ _ _ _ _ Hok)). Qed.

(** *** The call itself *)

Lemma thread_file nx0 net0 j c0 h0 z g : CrowdInv.thread_ok hash servers0 own srv net0 mail nx0 j c0 h0 z -> uses z = Some g ->
  exists b, readable (cl_os c0) g = Some b.
Proof.
  destruct z as [|path fd|fd|fd host|fd host id hd|fd count off buf host|fd count off buf host id hd]; cbn; try done; intros Hz [= ->].
  - destruct Hz as (_ & b & H & _). by exists b.
  - destruct Hz as (p & b & (_ & H & _) & _). by exists b.
  - destruct Hz as (p & b & (_ & H & _) & _). by exists b.
  - destruct Hz as (p & b & f & (_ & H & _) & _). by exists b.
  - destruct Hz as (_ & _ & p & b & (_ & H & _) & _). by exists b.
  - destruct Hz as (_ & _ & p & b & rfd & rank & f & (_ & H & _) & _). by exists b.
Qed.

(** Nobody is busy with a descriptor that is not open. *)
Lemma busy_open u z g : ts !! u = Some z -> uses z = Some g -> g <> opened_fd c.
Proof using Hok Hi.
  intros Hu Hz ->. pose proof (this_thread own ms srv net mail nx i u c ts h d z Hok Hi Hu) as Hth.
  destruct (thread_file _ _ _ _ _ _ _ Hth Hz) as (b & Hb). unfold readable, opened_fd in Hb.
  by rewrite (proj1 (lowest_fd_free _)) in Hb.
Qed.

Lemma plain_open path o : plain_call (XOpen path) o = (((posix_open path O_RDONLY o).1, []), (posix_open path O_RDONLY o).2).
Proof. cbn. by destruct (posix_open path O_RDONLY o). Qed.

(** The system call. *)
Lemma open_call_ok path fd b : ts !! t = Some CIdle ->
  wrap_open_call path O_RDONLY c = Ret (fd, b) c' ->
  let y := if b then COpened path fd else CIdle in
  waits_after y h -> crowd_ok own (next y h (d ++ [(XOpen path, (fd, []))]) (sent c c')).
Proof using Hok Hi.
  intros Ht H y Hw.
  pose proof (mo_lib _ _ _ _ _ _ _ _ _ (this_member own ms srv net mail nx i c ts h d Hok Hi)) as Hl.
  pose proof (mo_files _ _ _ _ _ _ _ _ _ (this_member own ms srv net mail nx i c ts h d Hok Hi)) as Hf. cbn in Hl, Hf.
  pose proof (base_mounted hash se apps0 servers0 own ms srv net mail nx i c ts h d (co_base _ _ _ _ _ _ Hok) Hi) as Hmt.
  destruct (wrap_open_call_run path c (lo_core _ Hl)) as (b' & Hrun & Hb). rewrite H in Hrun. injection Hrun as Efd <- Ec.
  assert (Ho : after (XOpen path) (cl_os c) (cl_os c')) by (apply after_now; by rewrite plain_open, Ec).
  assert (Em : fd_map c' = fd_map c) by by rewrite Ec.
  pose proof (same_files_call servers0 (XOpen path) c c' Hl Hmt Hf Ho (or_introl Em)) as Hf'.
  assert (Hl' : lib_ok c').
  { apply (lib_ok_call (XOpen path) c); [done| |done|].
    - rewrite Ec, posix_open_rdonly. destruct (os_files (cl_os c) !! _); [by apply core_ok_fds, Hl|].
      cbn. destruct c. apply (lo_core _ Hl).
    - intros g p Hp. destruct (Hf' g p Hp) as (q & Hq & _). exists q. by rewrite <- (after_readable _ _ _ g Ho). }
  assert (Hread : forall g, g <> opened_fd c -> readable (cl_os c') g = readable (cl_os c) g).
  { intros g Hg. rewrite (after_readable _ _ _ g Ho), plain_open, posix_open_rdonly.
    destruct (os_files (cl_os c) !! resolve (cl_os c) path); [|done]. by apply readable_insert. }
  assert (Hy : forall g, uses y = Some g -> g = opened_fd c).
  { unfold y. destruct b; [|done]. destruct Hb as (n & _ & Eo). intros g [= <-]. by rewrite Efd. }
  assert (Hsub : opens y = uses y) by by unfold y; destruct b.
  rewrite (sent_app c c' []) by (by rewrite Ec, app_nil_r). cbn [post length]. rewrite Nat.add_0_r.
  apply (crowd_step hash se apps0 servers0 own own ms srv net net mail nx nx i t c c' ts h h d _ CIdle y);
    try done; try (by left); try (by rewrite Ec).
  - eapply (quiet_ok hash se apps0 servers0 own ms srv net mail nx i c ts h d (co_base _ _ _ _ _ _ Hok) Hi own CIdle);
      try done; [apply hands_refl|by rewrite Ec|by eapply call_tree| | |by left].
    + pose proof (history_snoc apps0 i c c' d (XOpen path)
        (base_history hash se apps0 servers0 own ms srv net mail nx i c ts h d (co_base _ _ _ _ _ _ Hok) Hi) Ho) as Hh.
      rewrite plain_open in Hh. cbn [fst] in Hh. by rewrite <- Efd in Hh.
    + intros g p [Hp Hno]%settled_Some Hng. left. rewrite Em in Hp. split; [|by rewrite Ec]. apply settled_Some. split; [done|].
      intros (u & z & Hu & Hz)%elem_opening. apply Hno, elem_opening. exists u, z.
      split; [|done]. rewrite list_lookup_insert_ne; [done|]. intros ->. rewrite Ht in Hu. by injection Hu as <-.
  - by eapply call_tree.
  - intros g Hg. right. intros u z Hu Hz. rewrite Hsub in Hg. apply Hy in Hg as ->. by eapply busy_open.
  - intros g Hg. right. intros u z Hu Hz. apply Hy in Hg as ->. eapply busy_open; [done| |done]. by destruct z.
  - by unfold y; destruct b.
  - intros u z Hne Hu. split.
    + intros g Hz. pose proof (busy_open u z g Hu Hz) as Hg. split; [by rewrite Em|]. split; [by apply Hread|].
      by rewrite Ec.
    + intros id Hz. by rewrite Ec.
  - unfold y. destruct b; [|done]. destruct Hb as (n & Hn & Eo). rewrite Efd, Eo. cbn. rewrite Em. split.
    { apply tracked_open; [done|]. apply lowest_fd_free. }
    destruct (wf_files _ (lo_wf _ Hl) _ _ Hn) as [q Hq]. exists q.
    assert (Hr : readable (cl_os c') (opened_fd c) = Some q).
    { rewrite Ec, posix_open_rdonly, Hn. unfold readable, opened_fd. cbn. rewrite lookup_insert_eq. cbn.
      by rewrite (lo_healthy _ Hl), bool_decide_true by set_solver. }
    split; [exact Hr|]. intros p Hp.
    rewrite (track_decision_tree c c' path) in Hp; [|by eapply call_tree|by rewrite Ec].
    pose proof (track_decision_canon _ _ _ Hp) as Ep. rewrite <- Ep in Hn. split; [|by eapply (lo_paths _ Hl)].
    destruct (Hmt _ _ _ Hp Hn) as (q' & Hq' & Hsh). by simplify_eq.
Qed.

(** The entry in the table. *)
Lemma lib_ok_track (c0 c1 : client) : lib_ok c0 -> core_ok c1 -> os_like (cl_os c0) (cl_os c1) ->
  (forall g p, fd_map c1 !! g = Some p -> is_Some (readable (cl_os c0) g)) -> lib_ok c1.
Proof.
  intros [L1 L2 L3 L4 L5] Hc [p Ho] Hr. split; [done|rewrite Ho; by apply patched_wf|by rewrite Ho|by rewrite Ho|].
  intros g q Hq. rewrite Ho, patched_readable. by eapply Hr.
Qed.

Lemma open_track_ok path fd b : printable (se_addr_buffer (se i)) -> ts !! t = Some (COpened path fd) ->
  open_track path O_RDONLY fd (se i) c = Ret b c' ->
  let y := if b then CTracked fd else CIdle in
  waits_after y h -> crowd_ok own (next y h d (sent c c')).
Proof using Hok Hi.
  intros Hse Ht H y Hw. pose proof (this_member own ms srv net mail nx i c ts h d Hok Hi) as Hm.
  pose proof (mo_lib _ _ _ _ _ _ _ _ _ Hm) as Hl. pose proof (mo_files _ _ _ _ _ _ _ _ _ Hm) as Hf. cbn in Hl, Hf.
  destruct (this_thread own ms srv net mail nx i t c ts h d _ Hok Hi Ht) as (Hfree & q & Hq & Hdec).
  destruct (open_track_run path fd (se i) c (lo_core _ Hl) Hse) as (b' & c1 & Hr & Hc' & Ho & Ered & Etr & Hk & (Ef & En & Eq) & Hx).
  rewrite H in Hr. injection Hr as <- <-.
  assert (Hnew : forall g p, fd_map c' !! g = Some p -> fd_map c !! g = Some p \/
    (b = true /\ g = fd /\ track_decision c path = Some p)).
  { intros g p Hp. destruct b; [|left; by rewrite <- Hx]. destruct Hx as (p' & Hd & E). rewrite E in Hp.
    apply lookup_insert_Some in Hp as [[<- <-]|[_ Hp]]; [by right|by left]. }
  assert (Hother : forall g, g <> fd -> fd_map c' !! g = fd_map c !! g).
  { intros g Hg. destruct b; [|by rewrite Hx]. destruct Hx as (p' & _ & ->). by apply lookup_insert_ne. }
  assert (Hread : forall g, readable (cl_os c') g = readable (cl_os c) g) by (intros g; by apply like_readable).
  assert (Hf' : same_files servers0 c').
  { intros g p Hp. rewrite Hread. destruct (Hnew g p Hp) as [?|(_ & -> & Hd)]; [by apply Hf|]. exists q. by destruct (Hdec p Hd). }
  assert (Hl' : lib_ok c').
  { apply (lib_ok_track c); [done..|]. intros g p Hp. destruct (Hf' g p Hp) as (q' & Hq' & _). exists q'. by rewrite <- Hread. }
  assert (Hy : forall g, uses y = Some g -> g = fd) by (unfold y; destruct b; [by intros g [= <-]|done]).
  assert (Hsub : opens y = uses y) by by unfold y; destruct b.
  rewrite (sent_app c c' []) by (by rewrite app_nil_r). cbn [post length]. rewrite Nat.add_0_r.
  apply (crowd_step hash se apps0 servers0 own own ms srv net net mail nx nx i t c c' ts h h d d (COpened path fd) y);
    try done; try (by left).
  - eapply (quiet_ok hash se apps0 servers0 own ms srv net mail nx i c ts h d (co_base _ _ _ _ _ _ Hok) Hi own (COpened path fd));
      try done; [apply hands_refl|by apply like_tree| | |by left].
    + eapply history_like; [exact Ho|]. exact (base_history hash se apps0 servers0 own ms srv net mail nx i c ts h d (co_base _ _ _ _ _ _ Hok) Hi).
    + intros g p [Hp Hno]%settled_Some Hng. left. rewrite Ered. split; [|done]. apply settled_Some.
      assert (Hg : g <> fd).
      { intros ->. destruct (Hnew fd p Hp) as [?|(Eb & _ & _)]; [congruence|]. apply Hno, elem_opening. exists t, y.
        split; [by apply list_lookup_insert_eq; eapply lookup_lt_Some|]. unfold y. by rewrite Eb. }
      split; [by rewrite <- Hother|]. intros (u & z & Hu & Hz)%elem_opening. apply Hno, elem_opening. exists u, z.
      split; [|done]. rewrite list_lookup_insert_ne; [done|]. intros ->. rewrite Ht in Hu. injection Hu as <-.
      cbn in Hz. congruence.
  - apply Hk.
  - by apply like_tree.
  - apply Hk.
  - intros g Hg. left. rewrite Hsub in Hg. by apply Hy in Hg as ->.
  - intros g Hg. left. by apply Hy in Hg as ->.
  - by unfold y; destruct b.
  - by rewrite En.
  - intros u z Hne Hu. split.
    + intros g Hz. assert (Hg : g <> fd).
      { intros ->. apply Hne. symmetry. by eapply (mo_apart _ _ _ _ _ _ _ _ _ Hm t u _ z fd). }
      split; [by apply Hother|]. split; [by apply Hread|]. by rewrite Ered.
    + intros id Hz. by rewrite Ef, Eq.
  - unfold y. destruct b; [|done]. destruct Hx as (p & Hd & E). destruct (Hdec p Hd) as [Hsh Hpath].
    exists p, q. split; [|done]. split; [by rewrite E, lookup_insert_eq|]. by rewrite Hread.
Qed.

(** The test of the counter. *)
Lemma open_test_ok fd host : ts !! t = Some (CTracked fd) -> open_test hash fd c = Ret host c' ->
  waits_after (begun fd host) h -> crowd_ok own (next (begun fd host) h d (sent c c')).
Proof using Hok Hi.
  intros Ht H Hw. pose proof (this_core own ms srv net mail nx i c ts h d Hok Hi) as Hc.
  destruct (this_thread own ms srv net mail nx i t c ts h d _ Hok Hi Ht) as (p & q & Hf & Hpath).
  destruct (open_test_run hash fd p c (co_client _ Hc) (proj1 Hf)) as (r & Hr & Hx).
  rewrite H in Hr. injection Hr as <- ->. rewrite (sent_app c c []) by (by rewrite app_nil_r).
  eapply (piece_ok hash se apps0 servers0 own own); try done;
    [apply (moves_refl _ (cl_next c))|by right|apply hands_refl|..].
  - intros g Hg. by destruct host.
  - intros g Hg. left. by destruct host.
  - intros hd Hhd. by destruct host.
  - intros k v. by left.
  - intros j e. by left.
  - intros g p' [= <-] Hno Hp' Hng. destruct host as [host|]; [done|]. rewrite (proj1 Hf) in Hp'. by simplify_eq.
  - destruct host as [host|]; [|done]. by exists p, q.
Qed.

(** *** Its request *)

Lemma open_send_ok fd host e id : ts !! t = Some (COpening fd host) -> env_ok e -> open_send fd host e c = Ret id c' ->
  waits_after (COpenWait fd host id nx) (h ++ [ESent t id []]) ->
  crowd_ok own (next (COpenWait fd host id nx) (h ++ [ESent t id []]) d (sent c c')).
Proof using Hok Hi.
  intros Ht He H Hw. pose proof (this_printable own ms srv net mail nx i c ts h d Hok Hi) as Hpr.
  destruct (this_thread own ms srv net mail nx i t c ts h d _ Hok Hi Ht) as (p & b & Hf & Hp & ->).
  pose proof Hf as (Hfd & _ & Hsh).
  destruct (open_send_moves fd _ p e c id c' He Hp Hpr (this_known p) Hfd H) as (Eid & _ & Hm & Hfr & Hrq).
  rewrite (sent_app _ _ _ (mv_trace _ _ _ _ _ Hm)).
  eapply (send_ok own ms srv net mail nx i t c c' ts h d _ Hok Hi Ht); try done.
  - split; [done|]. cbn. by exists b.
  - intros j g [Hg|Hg]%elem_of_app; [done|]. by apply list_elem_of_singleton in Hg.
  - exists p, b. eexists. split; [by eapply file_moves|]. split; [done|]. split; [|split; [lia|split; [exact Hfr|]]].
    + by rewrite (kept_host hash _ _ p (moves_kept _ _ _ _ _ Hm)).
    + cbn. split; [done|]. eapply fresh_open_conv, this_fresh.
Qed.

(** The answer to an open says which descriptor of the host is its own. *)
Lemma open_answer_ok fd host id hd r : ts !! t = Some (COpenWait fd host id hd) -> reply_ok r ->
  EvRespond hd (rp_out r) ∈ mail -> ftc_open_cb id r c = Ret tt c' -> waits_after (COpenWait fd host id hd) h ->
  exists own', crowd_ok own' (next (COpenWait fd host id hd) h d (sent c c')).
Proof using Hok Hi.
  intros Ht Hr Hin H Hw. pose proof (this_printable own ms srv net mail nx i c ts h d Hok Hi) as Hpr.
  pose proof (this_thread own ms srv net mail nx i t c ts h d _ Hok Hi Ht) as (p & b & f & Hf & Hp & Eh & Hhd & Hfr & Hdone).
  pose proof (this_frame own ms srv net mail nx i t c ts h d _ Hok Hi Ht id eq_refl) as Hid.
  destruct (fr_done f) eqn:Ed; destruct Hdone as [Hrq Hconv].
  { exfalso. unfold ftc_open_cb, request_of in H. mred_in H. by rewrite Hrq in H. }
  destruct (open_cb_moves id r c c' fd p host f Hid Hpr Hr Hp Hfr Hrq H) as (Hm & Hfr' & Hrq' & Hred).
  rewrite (sent_app _ _ _ (mv_trace _ _ _ _ _ Hm)).
  set (own' := if decide (is_Some (srv !! host)) then <[(host, rp_out r) := (Live i fd, p)]> own else own).
  assert (Hh : hands (COpenWait fd host id hd) own own').
  { unfold own'. case_decide as Hal; [|apply hands_refl]. eapply hands_insert; [|done].
    by apply (oc_answer _ _ _ _ _ _ _ Hconv). }
  exists own'. eapply (piece_ok hash se apps0 servers0 own own'); try done; [by left|..].
  - intros g. by left.
  - intros g. by left.
  - intros k v. by left.
  - intros j e. by left.
  - rewrite Nat.add_0_r. exists p, b, (set_done f). split; [by eapply file_moves|]. split; [done|].
    split; [by rewrite (kept_host hash _ _ p (moves_kept _ _ _ _ _ Hm))|]. split; [done|]. split; [done|]. cbn.
    split; [done|]. intros Hal. exists (rp_out r). rewrite Hred, lookup_insert_eq. split; [done|].
    unfold own'. rewrite decide_True by done. by rewrite lookup_insert_eq.
Qed.

Lemma open_owned fd host id hd f : ts !! t = Some (COpenWait fd host id hd) -> cl_frames c !! id = Some f ->
  moves None id [] c c' -> (fr_done f = true \/ srv !! host = None) ->
  forall g p, opens (COpenWait fd host id hd) = Some g -> CIdle = CIdle -> fd_map c !! g = Some p ->
    owns own srv i c' g (host_for hash c p) p.
Proof using Hok Hi.
  intros Ht Hfr Hm Hdone g q [= <-] _ Hq. eapply owns_moves; [exact Hm|].
  pose proof (this_thread own ms srv net mail nx i t c ts h d _ Hok Hi Ht) as (p & b & f' & (Hf & _) & _ & -> & _ & Hfr' & Hx).
  rewrite Hfr in Hfr'. injection Hfr' as <-. rewrite Hf in Hq. injection Hq as <-.
  destruct Hdone as [E|E]; [rewrite E in Hx; apply Hx|]. intros Hal. rewrite E in Hal. by destruct Hal.
Qed.

Lemma open_return_ok fd host id hd f : ts !! t = Some (COpenWait fd host id hd) -> wait_done id c = Ret f c' ->
  waits_after CIdle h -> crowd_ok own (next CIdle h d (sent c c')).
Proof using Hok Hi.
  intros Ht H Hw. pose proof (this_frame own ms srv net mail nx i t c ts h d _ Hok Hi Ht id eq_refl) as Hid.
  destruct (wait_done_moves id c f c' Hid H) as (Hm & Hfr & Hdone).
  rewrite (sent_app _ _ _ (mv_trace _ _ _ _ _ Hm)).
  eapply (wait_ok own ms srv net mail nx i t c c' ts h d _ Hok Hi Ht); try done; [by right|by left|by left|].
  eapply open_owned; try done. by left.
Qed.

Lemma open_timeout_ok fd host id hd f : ts !! t = Some (COpenWait fd host id hd) ->
  (is_Some (srv !! host) -> exists g, cl_frames c !! id = Some g /\ fr_done g = true) ->
  wait_timeout host id c = Ret f c' -> waits_after CIdle h -> crowd_ok own (next CIdle h d (sent c c')).
Proof using Hok Hi.
  intros Ht Hal H Hw. pose proof (this_frame own ms srv net mail nx i t c ts h d _ Hok Hi Ht id eq_refl) as Hid.
  destruct (wait_timeout_moves host id c f c' Hid H) as (Hm & Hfr).
  rewrite (sent_app _ _ _ (mv_trace _ _ _ _ _ Hm)).
  eapply (wait_ok own ms srv net mail nx i t c c' ts h d _ Hok Hi Ht); try done; [by right|by left|by left|].
  eapply open_owned; try done. destruct (srv !! host) as [st|] eqn:Es; [left|by right].
  destruct Hal as (g & Hg & Hd); [by eexists|]. rewrite Hfr in Hg. by injection Hg as ->.
Qed.

(** ** Reads *)

(** The plain read, of a file of the client. *)
Lemma plain_pread fd count offset buf b : readable (cl_os c) fd = Some b -> 0 <= offset ->
  plain_call (XPread fd count offset buf) (cl_os c) =
    ((Z.of_nat (length (slice b count offset)), write_front (slice b count offset) buf), cl_os c).
Proof. intros Hb Hoff. cbn. unfold posix_pread. rewrite Hb. cbn. by rewrite (proj2 (Z.ltb_ge offset 0)). Qed.

Lemma plain_pread_os fd count offset buf : (plain_call (XPread fd count offset buf) (cl_os c)).2 = cl_os c.
Proof. cbn. by destruct (posix_pread _ _ _ _). Qed.

(** A read that was refused. *)
Lemma or_plain_refused fd count offset buf a c1 : os_like (cl_os c) (cl_os c1) ->
  or_plain fd count offset (-1, buf) c1 = Ret a c' -> a = (plain_call (XPread fd count offset buf) (cl_os c)).1.
Proof.
  intros [s Hs] H. unfold or_plain, real_pread in H. cbn [fst snd] in H. change (-1 <? 0) with true in H. mred_in H.
  rewrite Hs, patched_pread in H.
  cbn in *. by destruct (posix_pread fd count offset (cl_os c)); simplify_eq.
Qed.

(** What a read that was asked gives: an error, or all of its bytes. *)
Lemma or_plain_asked fd count offset buf b v buf' a c1 : os_like (cl_os c) (cl_os c1) ->
  readable (cl_os c) fd = Some b -> 0 <= offset ->
  (v = -1 /\ (buf' = buf \/ buf' = write_front (slice b count offset) buf)) \/
    (v = Z.of_nat (length (slice b count offset)) /\ buf' = write_front (slice b count offset) buf) ->
  or_plain fd count offset (v, buf') c1 = Ret a c' -> a = (plain_call (XPread fd count offset buf) (cl_os c)).1.
Proof.
  intros Ho Hb Hoff [[-> Hx]|[-> ->]] H.
  - apply (or_plain_refused _ _ _ _ _ _ Ho) in H as ->. rewrite !(plain_pread _ _ _ _ b) by done. cbn.
    destruct Hx as [-> | ->]; [done|]. by rewrite (write_front_idem (slice b count offset) buf).
  - rewrite (plain_pread _ _ _ _ b) by done. unfold or_plain in H. cbn [fst] in H.
    rewrite (proj2 (Z.ltb_ge _ 0)) in H by lia. mred_in H. by simplify_eq.
Qed.

(** A thread looks at the counter of a host. *)
Lemma read_check_ok fd count offset buf host : ts !! t = Some CIdle ->
  (forall u z, ts !! u = Some z -> opens z <> Some fd) -> 0 <= count < 2 ^ 31 -> 0 <= offset ->
  read_check hash fd c = Ret (Some host) c' -> waits_after (CReading fd count offset buf host) h ->
  crowd_ok own (next (CReading fd count offset buf host) h d (sent c c')).
Proof using Hok Hi.
  intros Ht Hno Hcnt Hoff H Hw.
  destruct (read_check_run hash fd c) as (r & Hr & Hx); [apply (this_core own ms srv net mail nx i c ts h d Hok Hi)|].
  rewrite H in Hr. injection Hr as <- ->. destruct Hx as (p & Hp & -> & Hg).
  rewrite (sent_app c c []) by (by rewrite app_nil_r).
  destruct (mo_files _ _ _ _ _ _ _ _ _ (this_member own ms srv net mail nx i c ts h d Hok Hi) fd p Hp) as (b & Hb & Hsh).
  eapply (piece_ok hash se apps0 servers0 own own); try done;
    [apply (moves_refl None (cl_next c))|by right|apply hands_refl|..].
  - intros g [= <-]. by right.
  - intros k v. by left.
  - intros j e. by left.
  - do 2 (split; [done|]). exists p, b. split; [done|]. split; [done|]. intros Hal. 
    refine (base_redirected hash se apps0 servers0 own ms srv net mail nx i c ts h d (co_base _ _ _ _ _ _ Hok) Hi fd p _ Hg Hal).
    apply settled_Some. split; [done|]. intros (u & z & Hu & Hz)%elem_opening. by eapply Hno.
Qed.

(** ... and reads itself. *)
Lemma read_local_ok fd count offset buf a c1 : ts !! t = Some CIdle ->
  read_check hash fd c = Ret None c1 -> or_plain fd count offset (-1, buf) c1 = Ret a c' ->
  waits_after CIdle h ->
  crowd_ok own (next CIdle h (d ++ [(XPread fd count offset buf, a)]) (sent c c')).
Proof using Hok Hi.
  intros Ht H Ha Hw.
  destruct (read_check_run hash fd c) as (r & Hr & _); [apply (this_core own ms srv net mail nx i c ts h d Hok Hi)|].
  rewrite H in Hr. injection Hr as <- ->. pose proof (or_plain_same _ _ _ _ _ _ _ Ha) as E.
  apply (or_plain_refused _ _ _ _ _ _ (reflexivity _)) in Ha as ->. rewrite E in *.
  rewrite (sent_app c c []) by (by rewrite app_nil_r).
  eapply (piece_ok hash se apps0 servers0 own own); try done;
    [apply (moves_refl None (cl_next c))|by right|apply hands_refl|..].
  - intros k v. by left.
  - intros j e. by left.
  - intros Hh. apply (history_snoc apps0 i c c); [done|]. apply after_now. by rewrite plain_pread_os.
Qed.

Lemma read_send_ok fd count offset buf host e id : ts !! t = Some (CReading fd count offset buf host) -> env_ok e ->
  read_send fd count offset buf host e c = Ret id c' ->
  waits_after (CReadWait fd count offset buf host id nx) (h ++ [ESent t id buf]) ->
  crowd_ok own (next (CReadWait fd count offset buf host id nx) (h ++ [ESent t id buf]) d (sent c c')).
Proof using Hok Hi.
  intros Ht He H Hw. pose proof (this_printable own ms srv net mail nx i c ts h d Hok Hi) as Hpr.
  destruct (this_thread own ms srv net mail nx i t c ts h d _ Hok Hi Ht) as (Hcnt & Hoff & p & b & Hf & -> & Hown).
  destruct (read_send_moves fd count offset buf _ e c id c' He Hpr (this_known p) H) as (Eid & _ & Hm & Hfr & Hrq).
  rewrite (sent_app _ _ _ (mv_trace _ _ _ _ _ Hm)). set (rfd := default 0 (fd_redir_map c !! fd)) in *.
  assert (Hpush : forall j g, EPushed j g ∈ h ++ [ESent t id buf] -> EPushed j g ∈ h).
  { intros j g [Hg|Hg]%elem_of_app; [done|]. by apply list_elem_of_singleton in Hg. }
  eapply (send_ok own ms srv net mail nx i t c c' ts h d _ Hok Hi Ht); try done.
  - split; [done|]. cbn. rewrite i32_id by (unfold in_i32; lia). lia.
  - do 2 (split; [done|]). exists p, b, rfd, (cl_client_rank c). eexists. split; [by eapply file_moves|].
    split; [by rewrite (kept_host hash _ _ p (moves_kept _ _ _ _ _ Hm))|]. split.
    { intros Hal. destruct (Hown Hal) as (r & H1 & H2). unfold rfd. by rewrite H1. }
    split; [lia|]. split.
    { eapply fresh_read_conv; [exact this_fresh|exact (co_base _ _ _ _ _ _ Hok)]. }
    split; [exact Hfr|]. split; [|by intros _]. split; [by left| |done].
    intros g Hg. apply Hpush, (mo_pushed _ _ _ _ _ _ _ _ _ (this_member own ms srv net mail nx i c ts h d Hok Hi)) in Hg.
    cbn in Hg. lia.
Qed.

Section Wait.
Context (fd count offset : Z) (buf : list byte) (host : Z) (id hd : nat).
#[local] Abbreviation x := (CReadWait fd count offset buf host id hd).
Context (Ht : ts !! t = Some x).

Lemma read_push_ok g : EvPush hd g ∈ mail -> write_frame id (set_buf g) c = Ret tt c' ->
  waits_after x (h ++ [EPushed id g]) -> crowd_ok own (next x (h ++ [EPushed id g]) d (sent c c')).
Proof using Hok Hi Ht.
  intros Hin H Hw. pose proof (this_frame own ms srv net mail nx i t c ts h d _ Hok Hi Ht id eq_refl) as Hid.
  destruct (this_thread own ms srv net mail nx i t c ts h d _ Hok Hi Ht)
    as (Hcnt & Hoff & p & b & rfd & rank & f & Hf & Eh & Hown & Hhd & Hconv & Hfr & [F1 F2 F3] & Hrq).
  destruct (write_frame_moves id _ c _ c' Hid H) as (Hm & Er & f' & Hf' & Hfr').
  rewrite Hfr in Hf'. injection Hf' as <-. apply (rc_push _ _ _ _ _ _ _ Hconv) in Hin as ->.
  rewrite (sent_app _ _ _ (mv_trace _ _ _ _ _ Hm)).
  assert (Hfill : write_front (slice b count offset) (fr_buf f) = write_front (slice b count offset) buf)
    by (destruct F1 as [-> | ->]; [done|apply write_front_idem]).
  eapply (wait_ok own ms srv net mail nx i t c c' ts h d _ Hok Hi Ht); try done; [by left| |by left|].
  - intros j g [Hg|Hg]%elem_of_app; [by left|right]. by apply list_elem_of_singleton in Hg as [= -> ->].
  - do 2 (split; [done|]). exists p, b, rfd, rank. eexists. split; [by eapply file_moves|].
    split; [by rewrite (kept_host hash _ _ p (moves_kept _ _ _ _ _ Hm))|]. do 3 (split; [done|]).
    split; [exact Hfr'|]. split; [|by rewrite Er]. split; cbn; [by right|done|].
    intros Hdone. destruct (F3 Hdone) as [?|[? _]]; [by left|by right].
Qed.

Lemma read_answer_ok r : reply_ok r -> EvRespond hd (rp_out r) ∈ mail ->
  (forall g, EvPush hd g ∈ mail -> EPushed id g ∈ h) -> ftc_read_cb id r c = Ret tt c' ->
  waits_after x (h ++ [EAnswered id r]) -> crowd_ok own (next x (h ++ [EAnswered id r]) d (sent c c')).
Proof using Hok Hi Ht.
  intros Hr Hin Hbefore H Hw. pose proof (this_frame own ms srv net mail nx i t c ts h d _ Hok Hi Ht id eq_refl) as Hid.
  pose proof (this_printable own ms srv net mail nx i c ts h d Hok Hi) as Hpr.
  destruct (this_thread own ms srv net mail nx i t c ts h d _ Hok Hi Ht)
    as (Hcnt & Hoff & p & b & rfd & rank & f & Hf & Eh & Hown & Hhd & Hconv & Hfr & [F1 F2 F3] & Hrq).
  destruct (read_cb_moves id r c c' Hid Hpr Hr H) as (Hm & f' & Hf' & Hfr').
  rewrite Hfr in Hf'. injection Hf' as <-. rewrite (sent_app _ _ _ (mv_trace _ _ _ _ _ Hm)).
  assert (Hpush : forall j g, EPushed j g ∈ h ++ [EAnswered id r] -> EPushed j g ∈ h).
  { intros j g [Hg|Hg]%elem_of_app; [done|]. by apply list_elem_of_singleton in Hg. }
  eapply (wait_ok own ms srv net mail nx i t c c' ts h d _ Hok Hi Ht); try done; [by left| |by left|].
  - intros j g Hg. left. by apply Hpush.
  - do 2 (split; [done|]). exists p, b, rfd, rank. eexists. split; [by eapply file_moves|].
    split; [by rewrite (kept_host hash _ _ p (moves_kept _ _ _ _ _ Hm))|]. do 3 (split; [done|]).
    split; [exact Hfr'|]. split; [|done]. split; cbn; [done| |].
    + intros g Hg. by eapply F2, Hpush.
    + intros _. destruct (rc_answer _ _ _ _ _ _ _ Hconv _ Hin) as [?|[? Hp]]; [by left|right].
      split; [done|]. by eapply F2, Hbefore.
Qed.

(** The wait ends. *)
Lemma read_end_ok c1 f v a : moves None id [] c c1 -> cl_frames c !! id = Some f ->
  (v = -1 \/ (fr_done f = true /\ v = fr_bytes f)) -> or_plain fd count offset (v, fr_buf f) c1 = Ret a c' ->
  waits_after CIdle (h ++ [EReturned t id v (fr_buf f)]) ->
  crowd_ok own (next CIdle (h ++ [EReturned t id v (fr_buf f)]) (d ++ [(XPread fd count offset buf, a)]) (sent c c')).
Proof using Hok Hi Ht.
  intros Hm Hfr Hv Ha Hw.
  destruct (this_thread own ms srv net mail nx i t c ts h d _ Hok Hi Ht)
    as (Hcnt & Hoff & p & b & rfd & rank & f' & (_ & Hb & _) & Eh & Hown & Hhd & Hconv & Hfr' & [F1 F2 F3] & Hrq).
  rewrite Hfr in Hfr'. injection Hfr' as <-. pose proof (or_plain_same _ _ _ _ _ _ _ Ha) as E.
  apply (or_plain_asked fd count offset buf b) in Ha as ->; [|apply Hm|done|done|].
  2: { destruct Hv as [->|[Hd ->]]; [by left|]. destruct (F3 Hd) as [->|[-> ->]]; [by left|by right]. }
  rewrite <- E in Hm. rewrite (sent_app _ _ _ (mv_trace _ _ _ _ _ Hm)).
  eapply (wait_ok own ms srv net mail nx i t c c' ts h d _ Hok Hi Ht); try done; [by right| |].
  - intros j g [Hg|Hg]%elem_of_app; [by left|]. by apply list_elem_of_singleton in Hg.
  - right. eexists. split; [done|]. apply plain_pread_os.
Qed.

Lemma read_return_ok f a c1 : wait_done id c = Ret f c1 -> or_plain fd count offset (fr_bytes f, fr_buf f) c1 = Ret a c' ->
  waits_after CIdle (h ++ [EReturned t id (fr_bytes f) (fr_buf f)]) ->
  crowd_ok own (next CIdle (h ++ [EReturned t id (fr_bytes f) (fr_buf f)]) (d ++ [(XPread fd count offset buf, a)]) (sent c c')).
Proof using Hok Hi Ht.
  intros H. pose proof (this_frame own ms srv net mail nx i t c ts h d _ Hok Hi Ht id eq_refl) as Hid.
  destruct (wait_done_moves id c f c1 Hid H) as (Hm & Hfr & Hdone). apply (read_end_ok c1); [done..|by right].
Qed.

Lemma read_timeout_ok f a c1 : wait_timeout host id c = Ret f c1 -> or_plain fd count offset (-1, fr_buf f) c1 = Ret a c' ->
  waits_after CIdle (h ++ [EReturned t id (-1) (fr_buf f)]) ->
  crowd_ok own (next CIdle (h ++ [EReturned t id (-1) (fr_buf f)]) (d ++ [(XPread fd count offset buf, a)]) (sent c c')).
Proof using Hok Hi Ht.
  intros H. pose proof (this_frame own ms srv net mail nx i t c ts h d _ Hok Hi Ht id eq_refl) as Hid.
  destruct (wait_timeout_moves host id c f c1 Hid H) as (Hm & Hfr). apply (read_end_ok c1); [done..|by left].
Qed.

End Wait.

(** ** Closes *)

Lemma wrap_close_frameless fd e r : wrap_close hash fd e c = Ret r c' ->
  cl_frames c' = cl_frames c /\ cl_next c' = cl_next c /\ cl_requests c' = cl_requests c.
Proof.
  assert (Hclose : forall c0, real_close fd c0 = Ret r c' ->
    cl_frames c' = cl_frames c0 /\ cl_next c' = cl_next c0 /\ cl_requests c' = cl_requests c0).
  { intros c0 H. unfold real_close, sys, on_os in H. destruct (posix_close fd (cl_os c0)). by simplify_eq. }
  intros H. unfold wrap_close, redirect_off, ftc_get_path in H. mred_in H.
  destruct (g_disable_redirect c || tl_disable_redirect c); [by apply Hclose|]. destruct (fd_map c !! fd); [|by apply Hclose].
  destruct (ftc_remove_fd hash fd e c) as [b c1|w c1|c1] eqn:Hr; simplify_eq. apply Hclose in H as (E1 & E2 & E3).
  pose proof (frameless_frames _ _ _ _ (remove_fd_frameless hash fd e) Hr) as [F N].
  pose proof (remove_fd_requests (fun q => q = cl_requests c) hash fd e _ _ _ eq_refl Hr) as Q. cbn in Q.
  unfold on_requests in Q. rewrite E1, E2, E3, F, N, Q. done.
Qed.

(** Without the descriptors that are being opened, a close is the same. *)
Lemma settled_close fd : now_spec hash c (XClose fd) c' -> (forall u x, ts !! u = Some x -> uses x <> Some fd) ->
  now_spec hash (settled ts c) (XClose fd) (settled ts c').
Proof.
  intros ([K1 K2 K3] & Hm & Hx) Hno. split; [by split|]. split; [cbn; by rewrite Hm, map_filter_delete|].
  destruct Hx as [?|(p & rank & Hp & Hx)]; [by left|right]. exists p, rank. split; [|exact Hx].
  apply settled_Some. split; [done|]. intros (u & z & Hu & Hz)%elem_opening. apply (Hno u z Hu). by destruct z.
Qed.

Lemma sent_close fd : now_spec hash c (XClose fd) c' -> sent c c' = [] \/ exists host msg, sent c c' = [CForward host msg].
Proof.
  intros (_ & _ & [[E _]|(p & rank & _ & _ & E & _)]).
  - left. apply sent_app. by rewrite app_nil_r.
  - right. eexists _, _. by apply sent_app.
Qed.

Lemma close_ok fd e r : (forall j, printable (se_addr_buffer (se j))) -> ts !! t = Some CIdle ->
  (forall u x, ts !! u = Some x -> uses x <> Some fd) -> env_ok e -> wrap_close hash fd e c = Ret r c' ->
  waits_after CIdle h ->
  exists own', crowd_ok own' (next CIdle h (d ++ [(XClose fd, (r, []))]) (sent c c')).
Proof using Hok Hi.
  intros Hse Ht Hno He H Hw.
  pose proof (mo_lib _ _ _ _ _ _ _ _ _ (this_member own ms srv net mail nx i c ts h d Hok Hi)) as Hl.
  pose proof (mo_files _ _ _ _ _ _ _ _ _ (this_member own ms srv net mail nx i c ts h d Hok Hi)) as Hf. cbn in Hl, Hf.
  pose proof (base_mounted hash se apps0 servers0 own ms srv net mail nx i c ts h d (co_base _ _ _ _ _ _ Hok) Hi) as Hmt.
  destruct (wrap_close_frameless fd e r H) as (Ef & En & Eq).
  destruct (call_now_result hash se Hse i c (XClose fd) e (r, []) c' Hl) as (Ea & Ho & Hl' & Hn).
  { by split. }
  { cbn. change (wrap_close hash fd (with_wakes [] e)) with (wrap_close hash fd e). mred. by rewrite H. }
  destruct (now_node_ok hash se apps0 servers0 own (virtual <$> ms) srv net mail nx i (settled ts c) d (XClose fd) (settled ts c'))
    as (own' & Hgive & Hb).
  { exact (co_base _ _ _ _ _ _ Hok). }
  { by rewrite lookup_fmap, Hi. }
  { exact Ho. }
  { by apply settled_lib. }
  { by apply settled_close. }
  change (sent (settled ts c) (settled ts c')) with (sent c c') in Hb.
  change (cl_os (settled ts c)) with (cl_os c) in Hb. rewrite <- Ea in Hb.
  pose proof Hn as (Hk & Hm & Hx). exists own'.
  assert (Hread : forall g, g <> fd -> readable (cl_os c') g = readable (cl_os c) g).
  { intros g Hg. rewrite (after_readable _ _ _ g Ho). cbn. unfold posix_close.
    destruct (os_fds (cl_os c) !! fd); [by apply readable_delete|done]. }
  apply (crowd_step hash se apps0 servers0 own own' ms srv net _ mail nx _ i t c c' ts h h d _ CIdle CIdle);
    try done; try (by left).
  - lia.
  - intros k v. destruct (sent_close fd Hn) as [-> |(host & msg & ->)]; [by left|]. cbn.
    rewrite lookup_insert. case_decide as E; [by right|by left].
  - intros key o p Hp. destruct (Hgive key o p Hp) as [?|(g & [= <-] & ->)]; [by left|]. right. right. by exists fd.
  - unfold base. cbn. rewrite (list_insert_id ts t CIdle Ht), fmap_insert. exact Hb.
  - by apply (same_files_call servers0 (XClose fd) c c').
  - apply Hk.
  - by eapply call_tree.
  - apply Hk.
  - by rewrite En.
  - intros u z Hne Hu. split.
    + intros g Hz. assert (Hg : g <> fd) by (intros ->; by eapply Hno). split; [by rewrite Hm, lookup_delete_ne|].
      split; [by apply Hread|]. intros rfd Hrfd.
      destruct Hx as [[_ ->]|(p & rank & _ & _ & _ & ->)]; [done|by rewrite lookup_delete_ne].
    + intros id Hz. by rewrite Ef, Eq.
Qed.

End Rules.

(** ** Every step *)

Context (nvme : Z -> string) (Hse : forall i, printable (se_addr_buffer (se i))).

Lemma member_step_ok own ms srv net mail nx i m m' : crowd_ok own (mk_crowd ms srv net mail nx) -> ms !! i = Some m ->
  mstep hash (se i) srv mail nx m m' ->
  exists own', crowd_ok own' (mk_crowd (<[i := m']> ms) srv (post nx (sent (mb_client m) (mb_client m')) net) mail
    (nx + length (sent (mb_client m) (mb_client m')))).
Proof using Hse.
  intros Hok Hi Hst. pose proof (mo_waits _ _ _ _ _ _ _ _ _ (co_member _ _ _ _ _ _ Hok i m Hi)) as Hw.
  pose proof (mstep_waits hash _ _ _ _ _ _ _ Hst Hw) as Hw'.
  destruct Hst as
    [t path c fd b c' ts h d Ht H|t path fd c b c' ts h d Ht H|t fd c host c' ts h d Ht H|t fd host e c id c' ts h d Ht He H|t fd host id hd r c c' ts h d Ht Hr Hin H
    |t fd host id hd f c c' ts h d Ht H|t fd host id hd f c c' ts h d Ht Hal H|t fd e r c c' ts h d Ht Hno He H
    |t fd count off buf host c c' ts h d Ht Hno Hcnt Hoff H|t fd count off buf a c c1 c' ts h d Ht Hno Hcnt Hoff H Ha
    |t fd count off buf host e c id c' ts h d Ht He H|t fd count off buf host id hd g c c' ts h d Ht Hin H
    |t fd count off buf host id hd r c c' ts h d Ht Hr Hin Hb H|t fd count off buf host id hd f a c c1 c' ts h d Ht H Ha
    |t fd count off buf host id hd f a c c1 c' ts h d Ht H Ha]; cbn [mb_client] in *;
    pose proof (list_insert_id ts t _ Ht) as Eid.
  - exists own. by eapply open_call_ok.
  - exists own. by eapply open_track_ok.
  - exists own. by eapply open_test_ok.
  - exists own. by eapply open_send_ok.
  - rewrite <- Eid in Hw' |- *. by eapply open_answer_ok.
  - exists own. by eapply open_return_ok.
  - exists own. by eapply open_timeout_ok.
  - rewrite <- Eid in Hw' |- *. by eapply close_ok.
  - exists own. by eapply read_check_ok.
  - exists own. rewrite <- Eid in Hw' |- *. by eapply read_local_ok.
  - exists own. by eapply read_send_ok.
  - exists own. rewrite <- Eid in Hw' |- *. by eapply read_push_ok.
  - exists own. rewrite <- Eid in Hw' |- *. by eapply read_answer_ok.
  - exists own. by eapply read_return_ok.
  - exists own. by eapply read_timeout_ok.
Qed.

Lemma wstep_ok own s s' : crowd_ok own s -> wstep hash se nvme s s' -> exists own', crowd_ok own' s'.
Proof using Hse.
  intros Hok Hst. destruct Hst as [i m m' ms srv net mail nx Hi Hst|ms srv net mail nx srv' net' mail' nx' Hst].
  - by eapply member_step_ok.
  - by eapply (crowd_world_ok hash se nvme).
Qed.

End Steps.

End CrowdSteps.
