(* ===== verification/CrowdProps.v ===== *)
(** * A crowd is transparent

    From the invariant of [CrowdSteps]: what the threads of the clients of a
    cluster get from their calls, and that none of them is stuck. *)

From S2P Require Import Prelude CString HexDump Address Posix LogInfo Server ServerSpec ServerThreads ServerWire.
From S2P Require Import Client Wrappers ClientSpec ClientInv ClientProps Transparency ClientWire.
From S2P Require Import Cluster ClusterRun ClusterInv ClusterProps.
From S2P Require Import ClientThreads ClientFrames ClientWaits ClientThreadsProps.
From S2P Require Import Crowd CrowdPieces CrowdInv CrowdMembers CrowdSteps.
Import Address Posix LogInfo ServerThreads Client Wrappers ClientSpec ClientInv ClientProps Transparency ClientWire.
Import Cluster ClusterRun ClusterProps.
Import ServerSpec(rpc).
Import ClientThreads ClientFrames ClientWaits Crowd CrowdPieces CrowdInv CrowdMembers CrowdSteps.
Import Server(event, EvPush, EvRespond, server).

Module CrowdProps.

(** The thread can take its next step: whatever it calls, the first piece of the
    call returns; a call that has passed the test sends one message; and a call
    that waits is ended by its deadline and can be answered, or has been. *)
Definition goes_on (hash : string -> Z) (se : self_env) (c : client) (x : cthread) : Prop :=
  match x with
  | CIdle =>
      (forall path, exists r c', wrap_open_call path O_RDONLY c = Ret r c') /\
      (forall fd, exists r, read_check hash fd c = Ret r c) /\
      (forall fd e, env_ok e -> exists r c', wrap_close hash fd e c = Ret r c')
  | COpened path fd => exists b c', open_track path O_RDONLY fd se c = Ret b c'
  | CTracked fd => exists r, open_test hash fd c = Ret r c
  | COpening fd host =>
      forall e, env_ok e -> exists id msg c', open_send fd host e c = Ret id c' /\ sent c c' = [CForward host msg]
  | COpenWait fd host id h =>
      (exists f c', wait_timeout host id c = Ret f c') /\
      ((exists f c', wait_done id c = Ret f c') \/ forall r, reply_ok r -> exists c', ftc_open_cb id r c = Ret tt c')
  | CReading fd count offset buf host =>
      forall e, env_ok e -> exists id msg c', read_send fd count offset buf host e c = Ret id c' /\
        sent c c' = [CForward host msg]
  | CReadWait fd count offset buf host id h =>
      (exists f c', wait_timeout host id c = Ret f c') /\
      ((exists f c', wait_done id c = Ret f c') \/ forall r, reply_ok r -> exists c', ftc_read_cb id r c = Ret tt c')
  end.

Section Member.
Context (hash : string -> Z) (servers0 : gmap Z server).
Context (own : ClusterInv.owners) (srv : gmap Z cstate) (net : gmap nat (Z * rpc)) (mail : list event) (nx i : nat) (m : member).
Context (Hm : member_ok hash servers0 own srv net mail nx i m).
#[local] Abbreviation c := (mb_client m).

Lemma close_total fd e s : printable (se_addr_buffer s) -> env_ok e -> exists r c', wrap_close hash fd e c = Ret r c'.
Proof using Hm.
  intros Hs He. pose proof (mo_lib _ _ _ _ _ _ _ _ _ Hm) as Hl.
  destruct (close_effect hash s e c Hs He fd Hl) as [(a & c' & Hr & _)|(? & ? & ? & _ & _ & [])].
  specialize (Hr []). cbn in Hr. change (wrap_close hash fd (with_wakes [] e)) with (wrap_close hash fd e) in Hr.
  apply bind_inv in Hr as (r & c1 & Hr & _). by exists r, c1.
Qed.

(** No thread is stuck. *)
Lemma thread_goes_on s t x : printable (se_addr_buffer s) -> mb_threads m !! t = Some x -> goes_on hash s c x.
Proof using Hm.
  intros Hs Ht. pose proof (mo_thread _ _ _ _ _ _ _ _ _ Hm t x Ht) as Hx. pose proof (mo_waits _ _ _ _ _ _ _ _ _ Hm) as Hw.
  pose proof (lo_core _ (mo_lib _ _ _ _ _ _ _ _ _ Hm)) as Hc. pose proof (ck_address _ (co_client _ Hc)) as Hpr.
  assert (Ht' : tn_threads (as_threads m) !! t = Some (erase x)) by (cbn; by rewrite list_lookup_fmap, Ht).
  assert (Hdeadline : forall id host, waits (erase x) = Some id -> asked (erase x) = Some host ->
    exists f c', wait_timeout host id c = Ret f c').
  { intros id host H1 H2. eapply (deadline_run _ (as_threads m)); [exact Hw| |exact Ht'|done|done].
    cbn. rewrite length_fmap. exact (mo_few _ _ _ _ _ _ _ _ _ Hm). }
  assert (Hreturn : forall id f, cl_frames c !! id = Some f -> fr_done f = true -> exists f c', wait_done id c = Ret f c').
  { intros id f Hf Hd. do 2 eexists. unfold wait_done, frame_of. mred. rewrite Hf, Hd. unfold pop_frame. by mred. }
  destruct x as [|path fd|fd|fd host|fd host id hd|fd count off buf host|fd count off buf host id hd]; cbn [goes_on].
  - split_and!; [|intros fd|intros fd e He; by eapply close_total].
    + intros path. destruct (wrap_open_call_run path c Hc) as (b & Hr & _). by do 2 eexists.
    + destruct (read_check_run hash fd c) as (r & Hr & _); [apply Hc|by exists r].
  - destruct (open_track_run path fd s c Hc Hs) as (b & c' & Hr & _). by exists b, c'.
  - destruct Hx as (p & q & (Hp & _) & _).
    destruct (open_test_run hash fd p c (co_client _ Hc) Hp) as (r & Hr & _). by exists r.
  - intros e He. destruct Hx as (p & b & (Hp & _) & Hpath & ->). pose proof (host_known_for hash c p Hc) as Hk.
    destruct (open_send_run fd (host_for hash c p) p e c He Hpath Hpr Hk Hp) as (s' & m' & Hr).
    destruct (open_send_moves fd _ p e c _ _ He Hpath Hpr Hk Hp Hr) as (_ & _ & Hmv & _).
    do 3 eexists. split; [exact Hr|exact (ClusterInv.sent_app _ _ _ (mv_trace _ _ _ _ _ Hmv))].
  - split; [by apply Hdeadline|]. destruct Hx as (p & b & f & _ & Hpath & _ & _ & Hf & Hd).
    destruct (fr_done f) eqn:Ed; [left; by eapply Hreturn|right]. intros r Hr. destruct Hd as [Hq _].
    destruct (open_cb_run id r c f fd host p Hf Hpath Hq Hr Hpr) as [s' Hcb]. by eexists.
  - intros e He. destruct Hx as (_ & _ & p & b & _ & -> & _). pose proof (host_known_for hash c p Hc) as Hk.
    destruct (read_send_run fd count off buf (host_for hash c p) e c He Hpr Hk) as (s' & m' & rm & Hr).
    destruct (read_send_moves fd count off buf _ e c _ _ He Hpr Hk Hr) as (_ & _ & Hmv & _).
    do 3 eexists. split; [exact Hr|exact (ClusterInv.sent_app _ _ _ (mv_trace _ _ _ _ _ Hmv))].
  - split; [by apply Hdeadline|]. destruct Hx as (_ & _ & p & b & rfd & rank & f & _ & _ & _ & _ & _ & Hf & _ & Hq).
    destruct (fr_done f) eqn:Ed; [left; by eapply Hreturn|right]. intros r Hr. destruct (Hq eq_refl) as [rq Hrq].
    destruct (read_cb_run id r c f rq Hf Hrq Hr Hpr) as [s' Hcb]. by eexists.
Qed.

End Member.

Section Reachable.
Context (hash : string -> Z) (se : nat -> self_env) (nvme : Z -> string).
Context (apps0 : gmap nat client) (servers0 : gmap Z server) (k : nat -> nat).
Context (Hstart : start_ok apps0 servers0) (Hse : forall i, printable (se_addr_buffer (se i))).
Context (Hlimit : forall i c, apps0 !! i = Some c -> in_limit (timeout_counters c)).
Context (Hk : forall i, (0 < k i)%nat /\ Z.of_nat (k i) < 2 ^ 31 - TIMEOUT_LIMIT).

Lemma start_base : base (crowd_start k apps0 servers0) = cluster_start apps0 servers0.
Proof.
  unfold base, crowd_start, cluster_start. cbn. f_equal. apply map_eq. intros i.
  rewrite !lookup_fmap, map_lookup_imap. destruct (apps0 !! i) as [c|]; [|done]. cbn. unfold virtual. do 2 f_equal. cbn.
  unfold settled. destruct c. unfold upd_fd_map. cbn. f_equal. apply map_filter_id. intros fd p _.
  cbn. intros (t & x & [-> _]%lookup_replicate & [=])%elem_opening.
Qed.

Lemma start_crowd_ok : crowd_ok hash se apps0 servers0 ∅ (crowd_start k apps0 servers0).
Proof using Hstart Hlimit Hk.
  assert (Hmember : forall i m, cw_members (crowd_start k apps0 servers0) !! i = Some m ->
    exists c, apps0 !! i = Some c /\ m = mk_member c (replicate (k i) CIdle) [] []).
  { intros i m. cbn. rewrite map_lookup_imap. intros (c & Hc & [= <-])%bind_Some. by exists c. }
  split.
  - rewrite start_base. by apply start_cluster_ok.
  - intros i m (c & Hc & ->)%Hmember. destruct (Hk i) as [Hk0 Hk1]. split; cbn.
    + by apply (sk_lib _ _ Hstart i).
    + intros fd p. by rewrite (sk_none _ _ Hstart i c Hc), lookup_empty.
    + unfold as_threads. cbn. rewrite fmap_replicate. apply (tstart_waits c (k i)); [by eapply Hlimit| |done].
      pose proof (co_client _ (lo_core _ (sk_lib _ _ Hstart i c Hc))) as [K1 K2 _ _ _].
      rewrite K2, i32_id; [done|]. unfold in_i32. lia.
    + by rewrite length_replicate.
    + by intros t u x y fd [-> _]%lookup_replicate.
    + by intros t x [-> _]%lookup_replicate.
    + by intros id e ?%not_elem_of_nil.
  - intros i j m m' t u x y hd (c & _ & ->)%Hmember _ [-> _]%lookup_replicate. done.
Qed.

Lemma crowd_reachable_ok s : rtc (wstep hash se nvme) (crowd_start k apps0 servers0) s ->
  exists own, crowd_ok hash se apps0 servers0 own s.
Proof using Hstart Hlimit Hk Hse.
  intros Hr. assert (H0 : exists own, crowd_ok hash se apps0 servers0 own (crowd_start k apps0 servers0))
    by (eexists; apply start_crowd_ok).
  revert H0. induction Hr as [s1|s1 s2 s3 Hs _ IH]; [done|]. intros [own Hok]. apply IH. by eapply wstep_ok.
Qed.

End Reachable.

End CrowdProps.
Import CrowdProps.

(** C3: crowds of threads are transparent as long as nothing comes too late.
    Programs start, with any number of threads each, that open files, read them at
    offsets and close them at the same time, through the pieces of the wrappers
    and of the library; the servers' two threads run beside them, copy files to
    the NVMe and may fail at any moment; reads and closes get lost, and answers
    and deadlines of reads come in any order.  Two events are excluded, because
    the code does not survive them: an open that gets no answer before its
    deadline from a server that lives, and bytes or an answer that come for a call
    whose wait is over.  A program reads from descriptors whose open has returned
    and closes those that no thread is busy with.  In every state that can be
    reached without these events, the results of the calls of a program, in the
    order in which they took effect, are those of the same calls made one after
    the other on its node without the library, where descriptors may be taken
    between the calls, as the library does and never gives them back.  And no
    thread is stuck: every call begins, is sent, can be answered and ends at its
    deadline, without undefined behaviour of the pieces it is made of. *)
Theorem crowd_transparent hash se nvme apps0 servers0 k s i m :
  start_ok apps0 servers0 -> (forall i, printable (se_addr_buffer (se i))) ->
  (forall i c, apps0 !! i = Some c -> in_limit (timeout_counters c)) ->
  (forall i, (0 < k i)%nat /\ Z.of_nat (k i) < 2 ^ 31 - TIMEOUT_LIMIT) ->
  rtc (wnstep hash se nvme) (crowd_start k apps0 servers0, false) (s, false) -> cw_members s !! i = Some m ->
  exists c0, apps0 !! i = Some c0 /\
    plain_run (cl_os c0) (mb_done m) (cl_os (mb_client m)) /\
    forall t x, mb_threads m !! t = Some x -> goes_on hash (se i) (mb_client m) x.
Proof.
  intros Hst Hse Hlim Hk [_ Hr]%wnsteps_timely Hi; [|done]. cbn in Hr.
  destruct (crowd_reachable_ok hash se nvme apps0 servers0 k Hst Hse Hlim Hk s Hr) as [own Hok].
  destruct m as [c ts h d]. destruct s as [ms srv net mail nx]. cbn in *.
  destruct (base_history hash se apps0 servers0 own ms srv net mail nx i c ts h d (co_base _ _ _ _ _ _ Hok) Hi)
    as (c0 & H0 & H1).
  exists c0. split; [done|]. split; [done|]. intros t x Ht.
  eapply (thread_goes_on hash servers0 own srv net mail nx i (mk_member c ts h d)); [|done|exact Ht].
  exact (co_member _ _ _ _ _ _ Hok i _ Hi).
Qed.

(** ** Witness *)

Module CrowdExample.
Import ClusterExample ClientExample TransparencyExample ServerProps.ServerExample ClientThreadsProps.ThreadsExample(state_of, buf2).

(** One program with two threads.  The first opens the file and the server
    answers; then both read it, and the server answers the second one only; then
    the second one closes the file. *)
Definition d0 : client := cl_t.
Definition d1a : client := Eval vm_compute in state_of (wrap_open_call "/pfs/f" O_RDONLY) d0.
Definition d1b : client := Eval vm_compute in state_of (open_track "/pfs/f" O_RDONLY 3 (se0 0)) d1a.
Definition d1 : client := Eval vm_compute in state_of (open_test hash0 3) d1b.
Definition d2 : client := Eval vm_compute in state_of (open_send 3 0 (env [])) d1.
Definition d3 : client := Eval vm_compute in state_of (ftc_open_cb 0 (ok_reply 0)) d2.
Definition d4 : client := Eval vm_compute in state_of (wait_done 0) d3.
Definition d5 : client := Eval vm_compute in state_of (read_send 3 3 1 buf3 0 (env [])) d4.
Definition d6 : client := Eval vm_compute in state_of (read_send 3 2 0 buf2 0 (env [])) d5.
Definition d7 : client := Eval vm_compute in state_of (write_frame 2 (set_buf [Byte.x41; Byte.x42])) d6.
Definition d8 : client := Eval vm_compute in state_of (ftc_read_cb 2 (ok_reply 2)) d7.
Definition d9 : client := Eval vm_compute in state_of (wait_done 2) d8.
Definition d10 : client := Eval vm_compute in state_of (wait_timeout 0 1) d9.
Definition d11 : client := Eval vm_compute in state_of (wrap_close hash0 3 (env [])) d10.

Definition wait0 : cthread := COpenWait 3 0 0 0.
Definition read0 : cthread := CReading 3 3 1 buf3 0.
Definition read1 : cthread := CReading 3 2 0 buf2 0.
Definition wait1 : cthread := CReadWait 3 3 1 buf3 0 1 1.
Definition wait2 : cthread := CReadWait 3 2 0 buf2 0 2 2.

Definition hist1 : list tevent := [ESent 0 0 []].
Definition hist2 : list tevent := hist1 ++ [ESent 0 1 buf3] ++ [ESent 1 2 buf2].
Definition hist3 : list tevent := hist2 ++ [EPushed 2 [Byte.x41; Byte.x42]] ++ [EAnswered 2 (ok_reply 2)].
Definition hist4 : list tevent := hist3 ++ [EReturned 1 2 2 [Byte.x41; Byte.x42]] ++ [EReturned 0 1 (-1) buf3].

Definition opened : list (ro_call * answer) := [(XOpen "/pfs/f", (3, []))].
Definition both_read : list (ro_call * answer) :=
  opened ++ [(XPread 3 2 0 buf2, (2, [Byte.x41; Byte.x42]))] ++
  [(XPread 3 3 1 buf3, (3, [Byte.x42; Byte.x43; Byte.x44]))].
Definition all_done : list (ro_call * answer) := both_read ++ [(XClose 3, (0, []))].

(** The member and the world. *)
Definition placed (m : member) (w : cluster) : crowd :=
  mk_crowd {[0%nat := m]} (cu_servers w) (cu_net w) (cu_mail w) (cu_next w).
Definition posted (c c' : client) (w : cluster) : cluster :=
  mk_cluster ∅ (cu_servers w) (post (cu_next w) (sent c c') (cu_net w)) (cu_mail w) (cu_next w + length (sent c c')).

Definition w0 : cluster := Eval vm_compute in mk_cluster ∅ (cu_servers cu0) ∅ [] 0.
Definition w1 : cluster := Eval vm_compute in posted d1 d2 w0.
Definition w2 : cluster := Eval vm_compute in cu_run serve_open w1.
Definition w3 : cluster := Eval vm_compute in posted d4 d5 w2.
Definition w4 : cluster := Eval vm_compute in posted d5 d6 w3.
Definition w5 : cluster := Eval vm_compute in cu_run [AAccept 1 call0; AAccept 2 call0; AComplete 0 2] w4.
Definition w6 : cluster := Eval vm_compute in posted d10 d11 w5.

#[local] Abbreviation stepped := (rtc (wstep hash0 se0 nvme0)).

Lemma one_step m m' w w' : mstep hash0 (se0 0) (cu_servers w) (cu_mail w) (cu_next w) m m' ->
  w' = posted (mb_client m) (mb_client m') w -> wstep hash0 se0 nvme0 (placed m w) (placed m' w').
Proof.
  intros Hm ->. unfold placed.
  replace ({[0%nat := m']} : gmap nat member) with (<[0%nat := m']> ({[0%nat := m]} : gmap nat member))
    by apply insert_singleton_eq.
  by eapply (w_member _ _ _ 0).
Qed.

Lemma world_step a m w w' : free a = true -> exec hash0 se0 nvme0 a w = Some w' -> cu_apps w = ∅ -> cu_apps w' = ∅ ->
  wstep hash0 se0 nvme0 (placed m w) (placed m w').
Proof.
  intros Hf He H1 H2. apply w_world. destruct w as [? ? ? ? ?], w' as [? ? ? ? ?]. cbn in *. subst.
  eapply (exec_sound _ _ _ a); [by destruct a|done].
Qed.

Lemma world_steps l m w w' : forallb free l = true -> exec_all hash0 se0 nvme0 l w = Some w' -> cu_apps w = ∅ ->
  cu_apps w' = ∅ -> stepped (placed m w) (placed m w').
Proof.
  revert w. induction l as [|a l IH]; intros w; cbn [forallb exec_all]; [by intros _ [= ->]|].
  intros [Ha Hl]%andb_true_iff (v & H1 & H2)%bind_Some Hw Hw'.
  assert (Hv : cu_apps v = ∅).
  { destruct w as [apps srv net mail nx]. cbn in Hw. subst apps. destruct a; try done; cbn in H1.
    - apply bind_Some in H1 as ([? ?] & _ & (? & _ & (? & _ & [= <-])%bind_Some)%bind_Some). done.
    - unfold exec_server in H1. by apply bind_Some in H1 as (? & _ & (? & _ & [= <-])%bind_Some).
    - unfold exec_server in H1. by apply bind_Some in H1 as (? & _ & (? & _ & [= <-])%bind_Some).
    - unfold exec_server in H1. by apply bind_Some in H1 as (? & _ & (? & _ & [= <-])%bind_Some).
    - apply bind_Some in H1 as ([z r] & _ & H1). destruct r, (srv !! z); by simplify_eq.
    - by injection H1 as <-. }
  eapply rtc_l; [by eapply (world_step a)|by apply IH].
Qed.

(** The file is open. *)
Lemma first_opened : stepped (placed (mk_member d0 [CIdle; CIdle] [] []) w0)
  (placed (mk_member d4 [CIdle; CIdle] hist1 opened) w2).
Proof.
  eapply rtc_l; [apply (one_step _ (mk_member d1a [COpened "/pfs/f" 3; CIdle] [] opened) w0 w0)|].
  { by apply (ms_open _ _ _ _ _ 0 "/pfs/f" d0 3 true d1a [CIdle; CIdle] [] []). }
  { by vm_compute. }
  eapply rtc_l; [apply (one_step _ (mk_member d1b [CTracked 3; CIdle] [] opened) w0 w0)|].
  { by apply (ms_open_track _ _ _ _ _ 0 "/pfs/f" 3 d1a true d1b [COpened "/pfs/f" 3; CIdle] [] opened). }
  { by vm_compute. }
  eapply rtc_l; [apply (one_step _ (mk_member d1 [COpening 3 0; CIdle] [] opened) w0 w0)|].
  { by apply (ms_open_test _ _ _ _ _ 0 3 d1b (Some 0) d1 [CTracked 3; CIdle] [] opened). }
  { by vm_compute. }
  eapply rtc_l; [apply (one_step _ (mk_member d2 [wait0; CIdle] hist1 opened) w0 w1)|].
  { by apply (ms_open_send _ _ _ _ _ 0 3 0 (env []) d1 0 d2 [COpening 3 0; CIdle] [] opened); [|apply env_is_ok|]. }
  { by vm_compute. }
  etrans; [by apply (world_steps serve_open _ w1 w2)|].
  eapply rtc_l; [apply (one_step _ (mk_member d3 [wait0; CIdle] hist1 opened) w2 w2)|].
  { apply (ms_open_answer _ _ _ _ _ 0 3 0 0 0 (ok_reply 0) d2 d3 [wait0; CIdle]); [done|apply ok_reply_ok|by left|done]. }
  { by vm_compute. }
  apply rtc_once, one_step; [|by vm_compute].
  by eapply (ms_open_return _ _ _ _ _ 0 3 0 0 0 _ d3 d4 [wait0; CIdle]).
Qed.

(** Both reads are sent, and the second one is answered. *)
Lemma second_answered : stepped (placed (mk_member d4 [CIdle; CIdle] hist1 opened) w2)
  (placed (mk_member d6 [wait1; wait2] hist2 opened) w5).
Proof.
  eapply rtc_l; [apply (one_step _ (mk_member d4 [read0; CIdle] hist1 opened) w2 w2)|].
  { apply (ms_read _ _ _ _ _ 0 3 3 1 buf3 0 d4 d4 [CIdle; CIdle]); try done.
    intros [|[|u]] x [= <-]; done. }
  { by vm_compute. }
  eapply rtc_l; [apply (one_step _ (mk_member d4 [read0; read1] hist1 opened) w2 w2)|].
  { apply (ms_read _ _ _ _ _ 1 3 2 0 buf2 0 d4 d4 [read0; CIdle]); try done.
    intros [|[|u]] x [= <-]; done. }
  { by vm_compute. }
  eapply rtc_l; [apply (one_step _ (mk_member d5 [wait1; read1] (hist1 ++ [ESent 0 1 buf3]) opened) w2 w3)|].
  { by apply (ms_read_send _ _ _ _ _ 0 3 3 1 buf3 0 (env []) d4 1 d5 [read0; read1]); [|apply env_is_ok|]. }
  { by vm_compute. }
  eapply rtc_l; [apply (one_step _ (mk_member d6 [wait1; wait2] hist2 opened) w3 w4)|].
  { by apply (ms_read_send _ _ _ _ _ 1 3 2 0 buf2 0 (env []) d5 2 d6 [wait1; read1] (hist1 ++ [ESent 0 1 buf3]));
      [|apply env_is_ok|]. }
  { by vm_compute. }
  by apply (world_steps [AAccept 1 call0; AAccept 2 call0; AComplete 0 2] _ w4 w5).
Qed.

(** The second read returns, the first one runs out of time. *)
Lemma both_returned : stepped (placed (mk_member d6 [wait1; wait2] hist2 opened) w5)
  (placed (mk_member d10 [CIdle; CIdle] hist4 both_read) w5).
Proof.
  eapply rtc_l; [apply (one_step _ (mk_member d7 [wait1; wait2] (hist2 ++ [EPushed 2 [Byte.x41; Byte.x42]]) opened) w5 w5)|].
  { apply (ms_read_push _ _ _ _ _ 1 3 2 0 buf2 0 2 2 [Byte.x41; Byte.x42] d6 d7 [wait1; wait2]); [done| |done].
    cbn. by do 2 right; left. }
  { by vm_compute. }
  eapply rtc_l; [apply (one_step _ (mk_member d8 [wait1; wait2] hist3 opened) w5 w5)|].
  { apply (ms_read_answer _ _ _ _ _ 1 3 2 0 buf2 0 2 2 (ok_reply 2) d7 d8 [wait1; wait2] (hist2 ++ [EPushed 2 [Byte.x41; Byte.x42]]));
      [done|apply ok_reply_ok|by do 3 right; left| |done].
    intros d Hd. cbn in Hd. repeat (apply elem_of_cons in Hd as [Hd|Hd]); try discriminate Hd; [|by apply not_elem_of_nil in Hd].
    injection Hd as ->. by do 3 right; left. }
  { by vm_compute. }
  eapply rtc_l; [apply (one_step _ (mk_member d9 [wait1; CIdle] (hist3 ++ [EReturned 1 2 2 [Byte.x41; Byte.x42]])
    (opened ++ [(XPread 3 2 0 buf2, (2, [Byte.x41; Byte.x42]))])) w5 w5)|].
  { by apply (ms_read_return _ _ _ _ _ 1 3 2 0 buf2 0 2 2 (mk_frame true 2 [Byte.x41; Byte.x42])
      (2, [Byte.x41; Byte.x42]) d8 d9 d9 [wait1; wait2] hist3 opened). }
  { by vm_compute. }
  apply rtc_once, one_step; [|by vm_compute].
  by apply (ms_read_timeout _ _ _ _ _ 0 3 3 1 buf3 0 1 1 (mk_frame false (-1) buf3)
    (3, [Byte.x42; Byte.x43; Byte.x44]) d9 d10 d10 [wait1; CIdle] (hist3 ++ [EReturned 1 2 2 [Byte.x41; Byte.x42]])
    (opened ++ [(XPread 3 2 0 buf2, (2, [Byte.x41; Byte.x42]))])).
Qed.

Lemma closed_after : stepped (placed (mk_member d10 [CIdle; CIdle] hist4 both_read) w5)
  (placed (mk_member d11 [CIdle; CIdle] hist4 all_done) w6).
Proof.
  apply rtc_once, one_step; [|by vm_compute].
  apply (ms_close _ _ _ _ _ 1 3 (env []) 0 d10 d11 [CIdle; CIdle] hist4 both_read); [done| |apply env_is_ok|by vm_compute].
  intros [|[|u]] x [= <-]; done.
Qed.

Lemma crowd_reached : stepped (crowd_start (fun _ => 2%nat) {[0%nat := cl_t]} {[0 := srv0]})
  (placed (mk_member d11 [CIdle; CIdle] hist4 all_done) w6).
Proof.
  change (crowd_start _ _ _) with (placed (mk_member d0 [CIdle; CIdle] [] []) w0).
  etrans; [exact first_opened|]. etrans; [exact second_answered|]. etrans; [exact both_returned|exact closed_after].
Qed.

Lemma cl_t_limit i c : ({[0%nat := cl_t]} : gmap nat client) !! i = Some c -> in_limit (timeout_counters c).
Proof. intros [_ <-]%lookup_singleton_Some. repeat constructor; done. Qed.

End CrowdExample.
Import CrowdExample ClusterExample TransparencyExample ServerProps.ServerExample ClientExample ClientThreadsProps.ThreadsExample(buf2).

(** An open, a read of "AB" that the server answers, a read that runs out of time
    and falls back to the bytes "BCD" of the file, and a close. *)
Lemma crowd_transparent_witness :
  rtc (wnstep hash0 se0 nvme0) (crowd_start (fun _ => 2%nat) {[0%nat := cl_t]} {[0 := srv0]}, false)
    (placed (mk_member d11 [CIdle; CIdle] hist4 all_done) w6, false) /\
  plain_run (cl_os cl_t) all_done (cl_os d11) /\
  all_done.*2 = [(3, []); (2, [Byte.x41; Byte.x42]); (3, [Byte.x42; Byte.x43; Byte.x44]); (0, [])] /\
  goes_on hash0 se_t d11 CIdle.
Proof.
  pose proof (timely_wnsteps _ _ _ _ _ false crowd_reached) as Hr. split; [exact Hr|].
  destruct (crowd_transparent hash0 se0 nvme0 _ _ (fun _ => 2%nat) _ 0 _ start_is_ok se0_printable cl_t_limit
    ltac:(intros ?; split; [lia|done]) Hr eq_refl) as (c0 & H0 & H1 & H3).
  apply lookup_singleton_Some in H0 as [_ <-]. split; [exact H1|]. split; [done|]. exact (H3 0%nat CIdle eq_refl).
Defined.
