(* ===== verification/Logging.v ===== *)
(** * The logging facade

    src/src/ftc_logging.c and the parameters of ftc_logging.h.  log4c is not
    part of the program: the calls that configure it are recorded in order, and
    a logged message runs a program of calls of the C library that log4c
    chooses, which go through the preloaded wrappers like the application's. *)

From S2P Require Import Prelude CString HexDump Address Posix LogInfo Server ServerSpec.
From S2P Require Import Client Wrappers ClientSpec ClientProps.
Import Address Posix LogInfo Client Wrappers.
Import ServerSpec(RRead).

Module Logging.

(** ** The parameters *)

(** log4c's priorities. *)
Definition LOG4C_PRIORITY_FATAL : Z := 0.
Definition LOG4C_PRIORITY_ALERT : Z := 100.
Definition LOG4C_PRIORITY_CRIT : Z := 200.
Definition LOG4C_PRIORITY_ERROR : Z := 300.
Definition LOG4C_PRIORITY_WARN : Z := 400.
Definition LOG4C_PRIORITY_NOTICE : Z := 500.
Definition LOG4C_PRIORITY_INFO : Z := 600.
Definition LOG4C_PRIORITY_DEBUG : Z := 700.
Definition LOG4C_PRIORITY_TRACE : Z := 800.

(** The variables that set the verbosity, the directory and the prefix. *)
Definition FT_Cache_LOG_LEVEL : string := "FT_Cache_LOG_LEVEL".
Definition FT_Cache_LOG_DIR : string := "FT_Cache_LOG_DIR".
Definition FT_Cache_LOG_PREFIX : string := "FT_Cache_LOG_PREFIX".

(** What the build chooses with [FT_Cache_CLIENT] or [FT_Cache_SERVER]. *)
Record params : Type := mk_params {
  L4C_CAT_NAME : string; L4C_LOG_DIR : string; L4C_LOG_NAME_PREFIX : string
}.
Definition client_params : params := mk_params "FT_Cache_CLIENT" "." "ftc_intercept_log".
Definition server_params : params := mk_params "ftc_server" "." "ftc_server_log".

(** ** Start-up *)

(** The calls of log4c, by what they are applied to; handles are named by the
    name they were got with. *)
Inductive l4c_call : Type :=
  | SetPriority (category : string) (level : Z)
  | SetAppenderType (appender type : string)
  | SetLogdir (dir : string)
  | SetFilesPrefix (prefix : cstring)
  | SetPolicyType (policy type : string)
  | SetMaxSize (bytes : Z)
  | SetMaxFiles (n : Z)
  | SetPolicyData (policy : string)
  | SetDataPolicy (policy : string)
  | SetAppenderData (appender : string)
  | InitPolicy (policy : string)
  | SetLayout (appender layout : string)
  | SetAppender (category appender : string)
  | Fini.

(** The process: its environment, its id and what log4c was told. *)
Record process : Type := mk_process { pr_os : os; pr_pid : Z; pr_l4c : list l4c_call }.

Definition param_max_file_size : Z := 100 * 1024 * 1024.
Definition param_max_num_files : Z := 10.
Definition param_layout_to_use : string := "dated".

Definition tell (x : l4c_call) : M process unit :=
  modify (fun p => mk_process (pr_os p) (pr_pid p) (pr_l4c p ++ [x])).
Definition env_var (name : string) : M process (option string) := gets (fun p => getenv (pr_os p) name).

(** The level the user asks for, within log4c's range. *)
Definition clamp_level (level : Z) : Z :=
  if level <? LOG4C_PRIORITY_FATAL then LOG4C_PRIORITY_FATAL
  else if LOG4C_PRIORITY_TRACE <? level then LOG4C_PRIORITY_TRACE
  else level.

(** [sprintf(prefix_and_pid, "%s.%d", ...)] into [strlen(prefix) + 7] bytes. *)
Definition prefix_and_pid (prefix : string) (pid : Z) : option cstring :=
  let s := of_string prefix ++ "."%char :: print_int pid in
  if Nat.leb (length s + 1) (length (of_string prefix) + 7) then Some s else None.

(** [rc] is what [log4c_init] returns. *)
Definition ftc_init_logging (pa : params) (rc : Z) : M process unit :=
  if negb (rc =? 0) then mret tt
  else
    let* level := env_var FT_Cache_LOG_LEVEL in
    tell (SetPriority "root"
      (match level with Some l => clamp_level (atoi (of_string l)) | None => LOG4C_PRIORITY_NOTICE end));;
    tell (SetAppenderType "aname" "rollingfile");;
    let* dir := env_var FT_Cache_LOG_DIR in
    let* prefix := env_var FT_Cache_LOG_PREFIX in
    let* pid := gets pr_pid in
    let* s := defined (prefix_and_pid (default (L4C_LOG_NAME_PREFIX pa) prefix) pid) in
    tell (SetLogdir (default (L4C_LOG_DIR pa) dir));;
    tell (SetFilesPrefix s);;
    tell (SetPolicyType "a_policy_name" "sizewin");;
    tell (SetMaxSize param_max_file_size);;
    tell (SetMaxFiles param_max_num_files);;
    tell (SetPolicyData "a_policy_name");;
    tell (SetDataPolicy "a_policy_name");;
    tell (SetAppenderData "aname");;
    tell (InitPolicy "a_policy_name");;
    tell (SetLayout "aname" param_layout_to_use);;
    tell (SetAppender "root" "aname").

Definition FT_Cache_finalize_logging : M process unit := tell Fini.

(** ** Messages *)

(** What log4c may do with a message: calls of the C library, each chosen after
    the result of the one before. *)
Inductive io : Type :=
  | IoOpen (path : string) (flags : Z)
  | IoFopen (path mode : string)
  | IoWrite (fd : Z) (data : list byte)
  | IoSeek (fd offset whence : Z)
  | IoClose (fd : Z)
  | IoRead (fd count : Z) (buf : list byte)
  | IoRead64 (fd count : Z) (buf : list byte)
  | IoPread (fd count offset : Z) (buf : list byte)
  | IoReadv (fd : Z) (iov : list Z) (buf : list byte).

(** The result of a call: a number, and the buffer of a read. *)
Inductive prog : Type :=
  | Done
  | Do (x : io) (k : Z * list byte -> prog).

Definition number {S} (m : M S Z) : M S (Z * list byte) := let* r := m in mret (r, []).

Section Log.
Context (hash : string -> Z).
(** [log4c_category_log] for a category, a priority and a message. *)
Context (log4c_category_log : string -> Z -> cstring -> prog).

(** The call goes through the preloaded library. *)
Definition wrapped (x : io) (se : self_env) (e : cl_env) : C (Z * list byte) :=
  match x with
  | IoOpen path flags => number (wrap_open hash path flags se e)
  | IoFopen path mode => number (wrap_fopen hash path mode se e)
  | IoWrite fd data => number (wrap_write fd data)
  | IoSeek fd offset whence => number (wrap_lseek hash fd offset whence e)
  | IoClose fd => number (wrap_close hash fd e)
  | IoRead fd count buf => wrap_read hash fd count buf e
  | IoRead64 fd count buf => wrap_read64 fd count buf
  | IoPread fd count offset buf => wrap_pread hash fd count offset buf e
  | IoReadv fd iov buf => wrap_readv fd iov buf
  end.

Fixpoint run (p : prog) (se : self_env) (e : cl_env) : C unit :=
  match p with
  | Done => mret tt
  | Do x k => let* r := wrapped x se e in run (k r) se e
  end.

Definition set_tl (b : bool) (c : client) : client :=
  mk_client (cl_os c) (fd_map c) (fd_redir_map c) (timeout_counters c) (address_cache c)
    (g_ftc_server_count c) (ftc_data_dir c) (g_disable_redirect c) b
    (g_ftc_initialized c) (init_locked c) (g_mercury_init c) (my_address c) (client_address c)
    (cl_client_rank c) (seek_done c) (read_ret c) (cl_frames c) (cl_requests c) (cl_next c) (cl_trace c).

(** GNU [basename], and the message of the macros: [text] is the caller's format
    with its arguments, [vsnprintf] keeps 1023 characters of it. *)
Definition MAX_STR_LEN : nat := 1024.
Definition basename (s : cstring) : cstring := after_last slash s.
Definition log_message (filename : cstring) (linenum : Z) (text : cstring) : cstring :=
  "["%char :: basename filename ++ ":"%char :: print_nat linenum ++ "]"%char :: " "%char ::
  take (MAX_STR_LEN - 1) text.

Definition log_preformatter_internal (pa : params) (priority : Z) (filename : cstring) (linenum : Z)
    (text : cstring) (se : self_env) (e : cl_env) : C unit :=
  modify (set_tl true);;
  run (log4c_category_log (L4C_CAT_NAME pa) priority (log_message filename linenum text)) se e;;
  modify (set_tl false).

(** The macros of ftc_logging.h, in the file and at the line where they stand. *)
Section Macros.
Context (pa : params) (filename : cstring) (linenum : Z) (se : self_env) (e : cl_env).

Definition L4C_LOG_AT_PRIORITY (log_priority : Z) (text : cstring) : C unit :=
  log_preformatter_internal pa log_priority filename linenum text se e.
Definition L4C_FATAL : cstring -> C unit := L4C_LOG_AT_PRIORITY LOG4C_PRIORITY_FATAL.
Definition L4C_ALERT : cstring -> C unit := L4C_LOG_AT_PRIORITY LOG4C_PRIORITY_ALERT.
Definition L4C_CRIT : cstring -> C unit := L4C_LOG_AT_PRIORITY LOG4C_PRIORITY_CRIT.
Definition L4C_ERR : cstring -> C unit := L4C_LOG_AT_PRIORITY LOG4C_PRIORITY_ERROR.
Definition L4C_WARN : cstring -> C unit := L4C_LOG_AT_PRIORITY LOG4C_PRIORITY_WARN.
Definition L4C_NOTICE : cstring -> C unit := L4C_LOG_AT_PRIORITY LOG4C_PRIORITY_NOTICE.
Definition L4C_INFO : cstring -> C unit := L4C_LOG_AT_PRIORITY LOG4C_PRIORITY_INFO.
Definition L4C_DEBUG : cstring -> C unit := L4C_LOG_AT_PRIORITY LOG4C_PRIORITY_DEBUG.
Definition L4C_TRACE : cstring -> C unit := L4C_LOG_AT_PRIORITY LOG4C_PRIORITY_TRACE.

(** [errmsg] is [strerror(errno)]. *)
Definition L4C_PERROR (msg errmsg : cstring) : C unit :=
  L4C_ERR (msg ++ ":"%char :: " "%char :: errmsg).

(** Every macro, by its priority. *)
Definition macros : list (Z * (cstring -> C unit)) :=
  [(LOG4C_PRIORITY_FATAL, L4C_FATAL); (LOG4C_PRIORITY_ALERT, L4C_ALERT); (LOG4C_PRIORITY_CRIT, L4C_CRIT);
   (LOG4C_PRIORITY_ERROR, L4C_ERR); (LOG4C_PRIORITY_WARN, L4C_WARN); (LOG4C_PRIORITY_NOTICE, L4C_NOTICE);
   (LOG4C_PRIORITY_INFO, L4C_INFO); (LOG4C_PRIORITY_DEBUG, L4C_DEBUG); (LOG4C_PRIORITY_TRACE, L4C_TRACE)].

End Macros.

(** The same calls without the library. *)
Definition got (r : option (list byte)) (buf : list byte) : Z * list byte :=
  match r with Some d => (Z.of_nat (length d), write_front d buf) | None => (-1, buf) end.

Definition real (x : io) (o : os) : (Z * list byte) * os :=
  let plain (r : Z * os) := ((r.1, []), r.2) in
  match x with
  | IoOpen path flags => plain (posix_open path flags o)
  | IoFopen path mode =>
      match fopen_flags mode with Some flags => plain (posix_open path flags o) | None => plain (-1, o) end
  | IoWrite fd data => plain (posix_write fd data o)
  | IoSeek fd offset whence => plain (posix_lseek fd offset whence o)
  | IoClose fd => plain (posix_close fd o)
  | IoRead fd count buf | IoRead64 fd count buf =>
      (got (posix_read fd count o).1 buf, (posix_read fd count o).2)
  | IoPread fd count offset buf => (got (posix_pread fd count offset o) buf, o)
  | IoReadv fd iov buf =>
      (got (posix_read fd (foldr Z.add 0 iov) o).1 buf, (posix_read fd (foldr Z.add 0 iov) o).2)
  end.

Fixpoint run_real (p : prog) (o : os) : os :=
  match p with
  | Done => o
  | Do x k => let (r, o') := real x o in run_real (k r) o'
  end.

(** The wrappers of [read] and [pread] do not look at [tl_disable_redirect]: the
    program reads only from descriptors that are not in [fd_map]. *)
Definition reads_own (m : gmap Z string) (x : io) : Prop :=
  match x with
  | IoRead fd _ _ => m !! fd = None
  | IoPread fd _ _ _ => m !! fd = None
  | _ => True
  end.
Fixpoint own_files (m : gmap Z string) (p : prog) (o : os) : Prop :=
  match p with
  | Done => True
  | Do x k => reads_own m x /\ let (r, o') := real x o in own_files m (k r) o'
  end.

(** ** Lemmas *)

Lemma real_read_run fd count buf c : real_read fd count buf c =
  Ret (got (posix_read fd count (cl_os c)).1 buf) (upd_os (posix_read fd count (cl_os c)).2 c).
Proof.
  unfold real_read, got, sys, on_os. mred. by destruct (posix_read fd count (cl_os c)) as [[d|] o].
Qed.

Lemma real_pread_run fd count offset buf c : real_pread fd count offset buf c =
  Ret (got (posix_pread fd count offset (cl_os c)) buf) (upd_os (cl_os c) c).
Proof. unfold real_pread, got. mred. destruct c. by case_match. Qed.

(** A transfer is at most [MAX_RW_COUNT] bytes, which an [int] holds. *)
Lemma got_i32 fd count o buf : i32 (got (posix_read fd count o).1 buf).1 = (got (posix_read fd count o).1 buf).1.
Proof.
  unfold got. destruct (posix_read fd count o) as [[d|] o'] eqn:E; cbn [fst]; [|done].
  apply i32_id. pose proof (ServerSpec.posix_read_short _ _ _ _ _ E). unfold in_i32, MAX_RW_COUNT in *. lia.
Qed.

Lemma wrapped_off x se e c : tl_disable_redirect c = true -> reads_own (fd_map c) x ->
  wrapped x se e c = Ret (real x (cl_os c)).1 (upd_os (real x (cl_os c)).2 c).
Proof.
  intros Ht Hx. destruct x; cbn [wrapped real reads_own] in *;
    unfold number, wrap_open, wrap_fopen, wrap_write, wrap_lseek, wrap_close, redirect_off;
    try (mred; rewrite ?Ht, ?orb_true_r; done).
  - mred. rewrite Ht, orb_true_r. unfold real_fopen. destruct (fopen_flags mode); [done|]. by destruct c.
  - assert (H : ftc_remote_read hash fd count buf e c = Ret (-1, buf) c).
    { unfold ftc_remote_read, remote_transfer, ftc_file_tracked. mred. by rewrite Hx. }
    unfold wrap_read. rewrite (bind_Ret _ _ _ _ _ H). cbn [fst snd]. change (i32 (-1) <? 0) with true. cbv iota.
    rewrite (bind_Ret _ _ _ _ _ (real_read_run _ _ _ _)), got_i32. cbn [fst snd]. by rewrite <- surjective_pairing.
  - apply real_read_run.
  - unfold wrap_pread, ftc_get_path. mred. rewrite Hx. apply real_pread_run.
  - apply real_read_run.
Qed.

Lemma run_off p se e c : tl_disable_redirect c = true -> own_files (fd_map c) p (cl_os c) ->
  run p se e c = Ret tt (upd_os (run_real p (cl_os c)) c).
Proof.
  revert c. induction p as [|x k IH]; intros c Ht Hp; cbn [run run_real]; [by destruct c|].
  destruct Hp as [Hx Hp]. rewrite (bind_Ret _ _ _ _ _ (wrapped_off x se e c Ht Hx)).
  destruct (real x (cl_os c)) as [r o']. cbn [fst snd]. by rewrite IH.
Qed.

End Log.

(** ** The names of the log files *)

Lemma print_int_no_dot z : 0 <= z -> "."%char ∉ print_int z.
Proof.
  intros Hz. unfold print_int. rewrite (proj2 (Z.ltb_ge z 0)) by done.
  destruct (print_nat_scan z Hz) as (_ & Hd & _). intros Hin. rewrite Forall_forall in Hd.
  destruct (Hd _ Hin) as [d H]. discriminate H.
Qed.

Lemma print_int_inj a b : in_i32 a -> in_i32 b -> print_int a = print_int b -> a = b.
Proof. intros Ha Hb E. by rewrite <- (atoi_print_int a), <- (atoi_print_int b), E. Qed.

Lemma prefix_and_pid_room prefix pid : 0 <= pid ->
  prefix_and_pid prefix pid = if pid <? 100000 then Some (of_string prefix ++ "."%char :: print_int pid) else None.
Proof.
  intros Hp. unfold prefix_and_pid. rewrite length_app. cbn [length]. pose proof (print_int_length pid 5 Hp ltac:(lia)) as Hl.
  change (10 ^ Z.of_nat 5) with 100000 in Hl.
  destruct (pid <? 100000) eqn:E; zbool.
  - by rewrite (proj2 (Nat.leb_le _ _)) by (apply Hl in E; lia).
  - rewrite (proj2 (Nat.leb_gt _ _)); [done|].
    destruct (decide (length (print_int pid) <= 5)%nat) as [Hle|]; [apply Hl in Hle|]; lia.
Qed.

(** What log4c is told. *)
Definition configuration (pa : params) (p : process) : list l4c_call :=
  [SetPriority "root"
     (match getenv (pr_os p) FT_Cache_LOG_LEVEL with
      | Some l => clamp_level (atoi (of_string l)) | None => LOG4C_PRIORITY_NOTICE end);
   SetAppenderType "aname" "rollingfile";
   SetLogdir (default (L4C_LOG_DIR pa) (getenv (pr_os p) FT_Cache_LOG_DIR));
   SetFilesPrefix (of_string (default (L4C_LOG_NAME_PREFIX pa) (getenv (pr_os p) FT_Cache_LOG_PREFIX)) ++
     "."%char :: print_int (pr_pid p));
   SetPolicyType "a_policy_name" "sizewin"; SetMaxSize param_max_file_size; SetMaxFiles param_max_num_files;
   SetPolicyData "a_policy_name"; SetDataPolicy "a_policy_name"; SetAppenderData "aname";
   InitPolicy "a_policy_name"; SetLayout "aname" param_layout_to_use; SetAppender "root" "aname"].

Lemma clamp_level_range l : LOG4C_PRIORITY_FATAL <= clamp_level l <= LOG4C_PRIORITY_TRACE.
Proof. unfold clamp_level, LOG4C_PRIORITY_FATAL, LOG4C_PRIORITY_TRACE. repeat case_match; zbool; lia. Qed.

Lemma tell_then {A} x (k : M process A) o pid l :
  (tell x;; k) (mk_process o pid l) = k (mk_process o pid (l ++ [x])).
Proof. done. Qed.
Lemma env_then {A} name (k : option string -> M process A) o pid l :
  (let* v := env_var name in k v) (mk_process o pid l) = k (getenv o name) (mk_process o pid l).
Proof. done. Qed.

Lemma pid_then {A} (k : Z -> M process A) o pid l :
  (let* v := gets pr_pid in k v) (mk_process o pid l) = k pid (mk_process o pid l).
Proof. done. Qed.

Lemma init_logging_run pa p : 0 <= pr_pid p ->
  if pr_pid p <? 100000
  then ftc_init_logging pa 0 p = Ret tt (mk_process (pr_os p) (pr_pid p) (pr_l4c p ++ configuration pa p))
  else exists p', ftc_init_logging pa 0 p = Dies UndefinedBehaviour p'.
Proof.
  destruct p as [o pid l]. cbn [pr_os pr_pid pr_l4c]. intros Hp. unfold ftc_init_logging. cbn [negb Z.eqb].
  rewrite env_then, !tell_then, !env_then, pid_then, prefix_and_pid_room by done.
  destruct (pid <? 100000); cbn [defined].
  - erewrite bind_Ret by reflexivity. rewrite !tell_then. unfold tell, modify. cbn [pr_os pr_pid pr_l4c]. rewrite <- !app_assoc. reflexivity.
  - by eexists.
Qed.

Lemma prefix_inj a b x y : ("."%char ∉ x) -> ("."%char ∉ y) ->
  a ++ "."%char :: x = b ++ "."%char :: y -> a = b /\ x = y.
Proof.
  intros Hx Hy E. apply (f_equal reverse) in E. rewrite !reverse_app, !reverse_cons, <- !app_assoc in E.
  apply app_sep_inj in E as [E1 E2]; [|by rewrite elem_of_reverse..].
  split; by apply (inj reverse).
Qed.

End Logging.
Import Logging.

(** C33: the log is set up as the user asks, and a large process id breaks it.
    Unless log4c fails to start, log4c is told a level between FATAL and TRACE
    (NOTICE if none is set), the user's directory and prefix or the defaults,
    and a prefix with the process id, in this order, and the data are attached
    before the policy is initialised.  All of it happens if and only if the id
    has at most five digits: a longer one is printed past the end of the buffer
    that was allocated for it, which is undefined. *)
Theorem logging_configured pa p :
  0 <= pr_pid p ->
  (forall rc, rc <> 0 -> ftc_init_logging pa rc p = Ret tt p) /\
  (pr_pid p < 100000 <->
     ftc_init_logging pa 0 p = Ret tt (mk_process (pr_os p) (pr_pid p) (pr_l4c p ++ configuration pa p))) /\
  (100000 <= pr_pid p <-> exists p', ftc_init_logging pa 0 p = Dies UndefinedBehaviour p') /\
  exists l, head (configuration pa p) = Some (SetPriority "root" l) /\
    LOG4C_PRIORITY_FATAL <= l <= LOG4C_PRIORITY_TRACE.
Proof.
  intros Hp. pose proof (init_logging_run pa p Hp) as Hr. split_and!.
  - intros rc Hrc. unfold ftc_init_logging. by rewrite (proj2 (Z.eqb_neq rc 0)).
  - destruct (pr_pid p <? 100000) eqn:E; zbool; [done|]. destruct Hr as [p' Hr]. rewrite Hr. split; [lia|done].
  - destruct (pr_pid p <? 100000) eqn:E; zbool; [|done]. rewrite Hr. split; [lia|by intros [p' ?]].
  - eexists. split; [reflexivity|]. destruct (getenv (pr_os p) FT_Cache_LOG_LEVEL); [apply clamp_level_range|].
    unfold LOG4C_PRIORITY_FATAL, LOG4C_PRIORITY_NOTICE, LOG4C_PRIORITY_TRACE. lia.
Qed.

(** Processes do not share a log file.  Two processes that set up their logs
    with the same prefix, or with any prefixes, write to files whose names begin
    differently: the part before the last dot is the prefix and the part after
    it the process id. *)
Lemma log_files_apart pre1 pre2 pid1 pid2 s :
  0 <= pid1 -> 0 <= pid2 -> in_i32 pid1 -> in_i32 pid2 ->
  prefix_and_pid pre1 pid1 = Some s -> prefix_and_pid pre2 pid2 = Some s -> pre1 = pre2 /\ pid1 = pid2.
Proof.
  intros H1 H2 I1 I2. rewrite !prefix_and_pid_room by done.
  destruct (pid1 <? 100000); [|done]. destruct (pid2 <? 100000); [|done]. intros [= <-] [= E].
  apply prefix_inj in E as [E1 E2]; [|by apply print_int_no_dot..].
  split; [symmetry; by apply of_string_inj|symmetry; by apply print_int_inj].
Qed.

(** C32: the log is written past the redirection.  While a message is logged, by
    [log_preformatter_internal] or by one of the macros, which pass on their
    priority, whatever calls of the C library log4c makes to open, read, write,
    seek in and close files do exactly what they do without the library, as long
    as its [read]s and [pread]s are of descriptors that the library does not
    track: nothing is tracked, no server is asked and nothing else of the client
    changes.  When the message is written the thread's flag is clear, even if it
    was set before.  The message fits what the formatter keeps of it.  The condition is
    needed: the wrappers of [read] and [pread] do not look at the flag
    ([flag_does_not_stop_reads]). *)
Theorem log_not_redirected hash l4c pa filename linenum text se e c :
  let p priority := l4c (L4C_CAT_NAME pa) priority (log_message filename linenum text) in
  let logged priority := set_tl false (upd_os (run_real (p priority) (cl_os c)) c) in
  (forall priority, own_files (fd_map c) (p priority) (cl_os c) ->
    log_preformatter_internal hash l4c pa priority filename linenum text se e c = Ret tt (logged priority)) /\
  Forall (fun m => own_files (fd_map c) (p m.1) (cl_os c) -> m.2 text c = Ret tt (logged m.1))
    (macros hash l4c pa filename linenum se e) /\
  (length (log_message filename linenum text) <=
     length (basename filename) + length (print_nat linenum) + 4 + 1023)%nat.
Proof.
  intros p logged.
  assert (Hl : forall priority, own_files (fd_map c) (p priority) (cl_os c) ->
    log_preformatter_internal hash l4c pa priority filename linenum text se e c = Ret tt (logged priority)).
  { intros priority Ho. unfold log_preformatter_internal, logged. fold (p priority). mred.
    rewrite (run_off hash (p priority) se e (set_tl true c) eq_refl Ho). by destruct c. }
  split_and!; [done|repeat (apply Forall_cons_2; [apply Hl|]); apply Forall_nil_2|].
  unfold log_message, MAX_STR_LEN. repeat (rewrite length_app || cbn [length]). rewrite length_take. lia.
Qed.

(** ** Witnesses *)

Definition pr0 (pid : Z) : process :=
  mk_process (mk_os ∅ ∅ ∅ ∅ ∅ ∅ "/" {["FT_Cache_LOG_LEVEL"%string := "9000"%string]} ∅ [] (0, 0)) pid [].

Module LoggingExample.
Import ClientProps.ClientExample.

(** log4c opens its file, reads what is there, and appends the message. *)
Definition l4c0 (category : string) (priority : Z) (message : cstring) : prog :=
  Do (IoOpen "/tmp/g" O_RDWR) (fun r =>
    Do (IoRead r.1 9 [Byte.x00]) (fun d =>
      Do (IoWrite r.1 (Stdlib.Strings.String.list_byte_of_string (to_string message))) (fun _ => Do (IoClose r.1) (fun _ => Done)))).
End LoggingExample.
Import ClientProps.ClientExample LoggingExample.

Lemma log_not_redirected_witness :
  exists c', log_preformatter_internal hash0 l4c0 client_params LOG4C_PRIORITY_INFO (of_string "src/a.c") 7
      (of_string "hi") (mk_self addr_s true) (env []) (cl 0) = Ret tt c' /\
    os_nodes (cl_os c') !! 1%nat = Some (Byte.x5a :: Stdlib.Strings.String.list_byte_of_string "[a.c:7] hi") /\ cl_trace c' = [].
Proof.
  destruct (log_not_redirected hash0 l4c0 client_params (of_string "src/a.c") 7 (of_string "hi")
    (mk_self addr_s true) (env []) (cl 0)) as (H & _).
  eexists. split; [apply H; vm_compute; by split_and!|]. split; vm_compute; reflexivity.
Defined.

(** With the flag set, a read of the tracked descriptor 3 asks the server all the
    same, and returns what it sent. *)
Lemma flag_does_not_stop_reads : exists c' i,
  wrap_pread hash0 3 2 1 [Byte.x00; Byte.x00] (env good_wakes) (set_tl true (cl 0)) =
    Ret (2, [Byte.x42; Byte.x43]) c' /\ cl_trace c' = [CForward 0 (RRead i)].
Proof. vm_compute. do 2 eexists. split; reflexivity. Qed.

Lemma logging_configured_witness :
  (exists p', ftc_init_logging server_params 0 (pr0 99999) = Ret tt p' /\
     SetPriority "root" 800 ∈ pr_l4c p' /\ SetFilesPrefix (of_string "ftc_server_log.99999") ∈ pr_l4c p') /\
  exists p', ftc_init_logging server_params 0 (pr0 4194304) = Dies UndefinedBehaviour p'.
Proof.
  split.
  - destruct (logging_configured server_params (pr0 99999)) as (_ & [H _] & _); [vm_compute; discriminate|].
    eexists. split; [exact (H eq_refl)|]. cbn [pr_l4c]. split; [by left|by do 3 right; left].
  - destruct (logging_configured server_params (pr0 4194304)) as (_ & _ & [H _] & _); [vm_compute; discriminate|].
    apply H. vm_compute. discriminate.
Defined.

Lemma log_files_apart_witness :
  prefix_and_pid "a.1" 23 = Some (of_string "a.1.23") /\ ("a.1"%string = "a.1"%string /\ 23 = 23).
Proof.
  split; [vm_compute; reflexivity|].
  apply (log_files_apart "a.1" "a.1" 23 23 (of_string "a.1.23")); (lia || (unfold in_i32; lia) || (vm_compute; reflexivity)).
Defined.
