(* ===== verification/Startup.v ===== *)
(** * Start-up and the progress thread

    src/src/ftc_server.cpp ([main], [ftc_start_comm_server]) and the parts of
    ftc_comm.cpp that deal with Mercury itself: [ftc_init_comm],
    [ftc_shutdown_comm], [ftc_progress_fn] and the registration of the four
    RPCs; [ftc_client_comm_register_rpc] of ftc_comm_client.cpp; the constructor
    of the preloaded library with the start of its log.  What Mercury, log4c and
    pthreads answer is a parameter. *)

From S2P Require Import Prelude CString HexDump Address Posix LogInfo Server ServerSpec ServerProps.
From S2P Require Import Client Logging.
Import Address Posix LogInfo Server.

Module Startup.

(** ** The process *)

(** What is outside: whether Mercury starts, what [pthread_create] and
    [log4c_init] return, the id Mercury gives to a name and what it says of a response that is disabled,
    and the process's own address. *)
Record mercury : Type := mk_mercury {
  me_init : bool; me_context : bool; me_progress : Z; me_mover : Z; me_log4c : Z;
  me_register : string -> Z; me_disable : Z; me_self : cstring
}.

Inductive thread : Type := DataMover | ProgressThread.
Inductive rpc_kind : Type := KBase | KOpen | KClose | KSeek.

#[export] Instance rpc_kind_eq_dec : EqDecision rpc_kind.
Proof. solve_decision. Defined.

Definition rpc_name (k : rpc_kind) : string :=
  match k with
  | KBase => "ftc_base_rpc" | KOpen => "ftc_open_rpc" | KClose => "ftc_close_rpc" | KSeek => "ftc_seek_rpc"
  end.

(** Mercury keeps the handlers by id; log4c what it was told. *)
Record process : Type := mk_process {
  ps_server : server; hg_class : bool; hg_context : bool;
  ftc_progress_thread_shutdown_flags : bool;
  ps_threads : list thread; ps_rpcs : list (Z * rpc_kind); ps_fatal : list string;
  ftc_server_count : Z; ps_pid : Z; ps_l4c : list Logging.l4c_call
}.

Definition P (A : Type) : Type := M process A.

Definition set_mercury cl co p := mk_process (ps_server p) cl co (ftc_progress_thread_shutdown_flags p)
  (ps_threads p) (ps_rpcs p) (ps_fatal p) (ftc_server_count p) (ps_pid p) (ps_l4c p).
Definition set_shutdown b p := mk_process (ps_server p) (hg_class p) (hg_context p) b
  (ps_threads p) (ps_rpcs p) (ps_fatal p) (ftc_server_count p) (ps_pid p) (ps_l4c p).
Definition add_thread t p := mk_process (ps_server p) (hg_class p) (hg_context p)
  (ftc_progress_thread_shutdown_flags p) (ps_threads p ++ [t]) (ps_rpcs p) (ps_fatal p) (ftc_server_count p)
  (ps_pid p) (ps_l4c p).
Definition add_rpc x p := mk_process (ps_server p) (hg_class p) (hg_context p)
  (ftc_progress_thread_shutdown_flags p) (ps_threads p) (ps_rpcs p ++ [x]) (ps_fatal p) (ftc_server_count p)
  (ps_pid p) (ps_l4c p).
Definition add_fatal m p := mk_process (ps_server p) (hg_class p) (hg_context p)
  (ftc_progress_thread_shutdown_flags p) (ps_threads p) (ps_rpcs p) (ps_fatal p ++ [m]) (ftc_server_count p)
  (ps_pid p) (ps_l4c p).
Definition set_count n p := mk_process (ps_server p) (hg_class p) (hg_context p)
  (ftc_progress_thread_shutdown_flags p) (ps_threads p) (ps_rpcs p) (ps_fatal p) n (ps_pid p) (ps_l4c p).
Definition set_server s p := mk_process s (hg_class p) (hg_context p)
  (ftc_progress_thread_shutdown_flags p) (ps_threads p) (ps_rpcs p) (ps_fatal p) (ftc_server_count p)
  (ps_pid p) (ps_l4c p).
Definition set_l4c l p := mk_process (ps_server p) (hg_class p) (hg_context p)
  (ftc_progress_thread_shutdown_flags p) (ps_threads p) (ps_rpcs p) (ps_fatal p) (ftc_server_count p)
  (ps_pid p) l.

Definition on_server {A} (m : M server A) : P A := fun p =>
  match m (ps_server p) with
  | Ret a s => Ret a (set_server s p)
  | Dies w s => Dies w (set_server s p)
  | Blocked s => Blocked (set_server s p)
  end.

(** The log's part of the process; its start leaves the files as they are. *)
Definition on_log {A} (m : M Logging.process A) : P A := fun p =>
  match m (Logging.mk_process (srv_os (ps_server p)) (ps_pid p) (ps_l4c p)) with
  | Ret a q => Ret a (set_l4c (Logging.pr_l4c q) p)
  | Dies w q => Dies w (set_l4c (Logging.pr_l4c q) p)
  | Blocked q => Blocked (set_l4c (Logging.pr_l4c q) p)
  end.

(** [L4C_FATAL] only logs. *)
Definition fatal (m : string) : P unit := modify (add_fatal m).

Section Start.
Context (me : mercury).

(** ** Communication *)

Definition ftc_init_comm (listen : bool) : P unit :=
  modify (set_mercury (me_init me) false);;
  (if me_init me then mret tt else fatal "Failed to initialize HG_CLASS Listen Mode");;
  modify (set_mercury (me_init me) (me_context me));;
  (if me_context me then mret tt else fatal "Failed to initialize HG_CONTEXT");;
  (if listen then on_server ftc_init_comm_listen else mret tt);;
  (if me_progress me =? 0 then modify (add_thread ProgressThread)
   else fatal "Failed to initialized mecury progress thread").

(** The flag is set whether or not there is a context, and that is all. *)
Definition ftc_shutdown_comm : P unit := modify (set_shutdown true).

(** ** Registration *)

Definition mercury_register (k : rpc_kind) : P Z :=
  let id := me_register me (rpc_name k) in
  modify (add_rpc (id, k));;
  mret id.

Definition ftc_rpc_register : P Z := mercury_register KBase.
Definition ftc_open_rpc_register : P Z := mercury_register KOpen.
Definition ftc_close_rpc_register : P Z :=
  let* tmp := mercury_register KClose in
  assertM (me_disable me =? 0);;
  mret tmp.
Definition ftc_seek_rpc_register : P Z := mercury_register KSeek.

(** The ids the client sends its requests with. *)
Record client_ids : Type := mk_ids {
  ftc_client_open_id : Z; ftc_client_rpc_id : Z; ftc_client_close_id : Z; ftc_client_seek_id : Z
}.

Definition ftc_client_comm_register_rpc : P client_ids :=
  let* o := ftc_open_rpc_register in
  let* r := ftc_rpc_register in
  let* c := ftc_close_rpc_register in
  let* s := ftc_seek_rpc_register in
  mret (mk_ids o r c s).

Definition id_for (ids : client_ids) (k : rpc_kind) : Z :=
  match k with
  | KBase => ftc_client_rpc_id ids | KOpen => ftc_client_open_id ids
  | KClose => ftc_client_close_id ids | KSeek => ftc_client_seek_id ids
  end.

(** The handler of a request that arrives. *)
Fixpoint dispatch (rpcs : list (Z * rpc_kind)) (id : Z) : option rpc_kind :=
  match rpcs with
  | [] => None
  | (i, k) :: l => if i =? id then Some k else dispatch l id
  end.

(** ** The server *)

(** Up to the moment the address is posted ... *)
Definition start_and_post : P unit :=
  (if me_mover me =? 0 then modify (add_thread DataMover)
   else fatal "Failed to initialized mecury progress thread");;
  ftc_init_comm true;;
  on_server (ftc_comm_list_addr (me_self me)).

(** ... and the rest: [while (1) sleep(1)] never returns. *)
Definition ftc_start_comm_server : P Z :=
  start_and_post;;
  ftc_rpc_register;;
  ftc_open_rpc_register;;
  ftc_close_rpc_register;;
  ftc_seek_rpc_register;;
  block.

Definition server_main (argv : list string) : P Z :=
  match argv with
  | _ :: n :: _ =>
      modify (set_count (u32 (atoi (of_string n))));;
      on_log (Logging.ftc_init_logging Logging.server_params (me_log4c me));;
      ftc_start_comm_server;;
      mret 0
  | _ => die (Exited (-1))
  end.

End Start.

(** ** The client *)

Record client_process : Type := mk_client_process {
  cp_client : Client.client; cp_pid : Z; cp_l4c : list Logging.l4c_call
}.

(** The constructor starts the log once it holds [init_mutex] and the library is
    not initialised; the rest of it is [Client.ftc_client_init]. *)
Definition client_constructor (me : mercury) (se : Client.self_env) : M client_process unit := fun p =>
  let c := cp_client p in
  let finish l :=
    match Client.ftc_client_init se c with
    | Ret a c' => Ret a (mk_client_process c' (cp_pid p) l)
    | Dies w c' => Dies w (mk_client_process c' (cp_pid p) l)
    | Blocked c' => Blocked (mk_client_process c' (cp_pid p) l)
    end in
  if Client.init_locked c || Client.g_ftc_initialized c then finish (cp_l4c p)
  else
    match Logging.ftc_init_logging Logging.client_params (me_log4c me)
            (Logging.mk_process (Client.cl_os c) (cp_pid p) (cp_l4c p)) with
    | Ret _ q => finish (Logging.pr_l4c q)
    | Dies w q => Dies w (mk_client_process c (cp_pid p) (Logging.pr_l4c q))
    | Blocked q => Blocked (mk_client_process c (cp_pid p) (Logging.pr_l4c q))
    end.

(** The destructor of the library, on the client's part of Mercury. *)
Definition ftc_client_shutdown : P unit := ftc_shutdown_comm.

(** ** The progress thread *)

(** One [HG_Trigger] and what follows: its result and count, the flag that is
    read after it, and the flag after the [HG_Progress] that may follow. *)
Record tick : Type := mk_tick { tk_ret : Z; tk_count : Z; tk_flag : bool; tk_later : bool }.
Inductive hg_op : Type := HgTrigger | HgProgress.

(** The calls of Mercury, and whether the function has returned: [inner] inside
    the [do] loop, [fl] the flag as it is read by the outer test. *)
Fixpoint ftc_progress_fn (inner fl : bool) (ts : list tick) : list hg_op * bool :=
  if negb inner && fl then ([], true)
  else
    match ts with
    | [] => ([], false)
    | t :: ts' =>
        if (tk_ret t =? 0) && negb (tk_count t =? 0) && negb (tk_flag t) then
          let (l, d) := ftc_progress_fn true fl ts' in (HgTrigger :: l, d)
        else if negb (tk_flag t) then
          let (l, d) := ftc_progress_fn false (tk_later t) ts' in (HgTrigger :: HgProgress :: l, d)
        else
          let (l, d) := ftc_progress_fn false true ts' in (HgTrigger :: l, d)
    end.

(** ** A job *)

(** The servers of a job start one after the other, each a process of its own on
    a node that shares the files of text; [None] when one does not come up. *)
Definition with_text (text : gmap string cstring) (p : process) : process :=
  set_server (set_os (set_text text (srv_os (ps_server p))) (ps_server p)) p.

Fixpoint job_starts (l : list (mercury * process)) (text : gmap string cstring) : option (gmap string cstring) :=
  match l with
  | [] => Some text
  | (me, p) :: l' =>
      match start_and_post me (with_text text p) with
      | Ret _ p' => job_starts l' (os_text (srv_os (ps_server p')))
      | _ => None
      end
  end.

(** The line a server writes. *)
Definition posted (x : mercury * process) : Z * cstring :=
  (match getenv (srv_os (ps_server x.2)) "PMIX_RANK" with Some r => atoi (of_string r) | None => 0 end, me_self x.1).

(** A start of the job [job] in which nothing fails; the log is another file
    than the registry. *)
Record starter (job : option string) (x : mercury * process) : Prop := {
  sr_threads : me_mover x.1 = 0 /\ me_progress x.1 = 0;
  sr_mercury : me_init x.1 = true /\ me_context x.1 = true;
  sr_rank : is_Some (getenv (srv_os (ps_server x.2)) "PMIX_RANK");
  sr_job : getenv (srv_os (ps_server x.2)) "MY_JOBID" = job;
  sr_ports : can_create (srv_os (ps_server x.2)) (ports_cfg job) = true;
  sr_log : let f := log_filename (getenv (srv_os (ps_server x.2)) LOG_DIR) "server" (posted x).1 in
    can_create (srv_os (ps_server x.2)) f = true /\ f <> ports_cfg job;
  sr_addr : ok_entry (posted x)
}.

(** ** Lemmas *)

Lemma listen_run s r : getenv (srv_os s) "PMIX_RANK" = Some r ->
  let rank := atoi (of_string r) in
  can_create (srv_os s) (log_filename (getenv (srv_os s) LOG_DIR) "server" rank) = true ->
  exists x, ftc_init_comm_listen s = Ret tt (set_os (set_text
    (<[log_filename (getenv (srv_os s) LOG_DIR) "server" rank := x]> (os_text (srv_os s))) (srv_os s))
    (set_server_ranks rank rank s)).
Proof.
  intros Hr rank Hc. unfold ftc_init_comm_listen, lift_os, initialize_log. mred. rewrite Hr. fold rank.
  change (srv_os (set_server_ranks rank rank s)) with (srv_os s). rewrite Hc. by eexists.
Qed.

Lemma post_run s a : can_create (srv_os s) (ports_cfg (getenv (srv_os s) "MY_JOBID")) = true ->
  ftc_comm_list_addr a s = Ret tt
    (set_os (text_append (ports_cfg (getenv (srv_os s) "MY_JOBID")) (ports_line (ftc_server_rank s) a) (srv_os s))
      (set_addr_str (extract_ip_portion a (server_addr_str s) 128) s)).
Proof. intros Hc. unfold ftc_comm_list_addr, sys, lift_os. mred. by rewrite Hc. Qed.

Lemma start_and_post_run me p r :
  me_mover me = 0 -> me_init me = true -> me_context me = true -> me_progress me = 0 ->
  getenv (srv_os (ps_server p)) "PMIX_RANK" = Some r ->
  let o := srv_os (ps_server p) in
  let rank := atoi (of_string r) in
  can_create o (log_filename (getenv o LOG_DIR) "server" rank) = true ->
  can_create o (ports_cfg (getenv o "MY_JOBID")) = true ->
  exists s', start_and_post me p =
    Ret tt (mk_process s' true true (ftc_progress_thread_shutdown_flags p)
      (ps_threads p ++ [DataMover; ProgressThread]) (ps_rpcs p) (ps_fatal p) (ftc_server_count p)
      (ps_pid p) (ps_l4c p)) /\
    ftc_server_rank s' = rank /\ Server.server_rank s' = rank /\
    server_addr_str s' = extract_ip_portion (me_self me) (server_addr_str (ps_server p)) 128 /\
    exists x, srv_os s' = text_append (ports_cfg (getenv o "MY_JOBID")) (ports_line rank (me_self me))
      (set_text (<[log_filename (getenv o LOG_DIR) "server" rank := x]> (os_text o)) o).
Proof.
  intros H1 H2 H3 H4 Hr o rank Hlog Hports. unfold start_and_post, ftc_init_comm. rewrite H1, H2, H3, H4.
  destruct p as [s cl co sh th rp fa n pid lg]. cbn [ps_server] in Hr, o.
  destruct (listen_run s r Hr Hlog) as [x Hl]. fold rank in Hl.
  match type of Hl with _ = Ret tt ?q => set (s1 := q) in Hl end.
  pose proof (post_run s1 (me_self me) Hports) as Hp.
  set (s2 := set_os _ (set_addr_str _ s1)) in Hp.
  exists s2. split; [|split_and!; try done; by exists x].
  unfold on_server, fatal. change (0 =? 0) with true. mred. cbn [ps_server set_mercury add_thread]. rewrite Hl.
  cbn [ps_server set_server add_thread]. rewrite Hp.
  unfold set_server, add_thread, set_mercury. cbn. by rewrite <- app_assoc.
Qed.

Lemma start_posts job me p text : starter job (me, p) -> exists p',
  start_and_post me (with_text text p) = Ret tt p' /\
  os_text (srv_os (ps_server p')) !! ports_cfg job =
    Some (default [] (text !! ports_cfg job) ++ ports_line (posted (me, p)).1 (posted (me, p)).2).
Proof.
  intros [[H1 H2] [H3 H4] [r Hr] Hj Hp [Hl Hne] _]. cbn [fst snd posted] in *. rewrite Hr in Hl, Hne |- *.
  assert (Hj' : getenv (srv_os (ps_server (with_text text p))) "MY_JOBID" = job) by exact Hj.
  destruct (start_and_post_run me (with_text text p) r) as (s' & Hs & _ & _ & _ & x & Hx); try done.
  { by rewrite Hj'. }
  eexists. split; [exact Hs|]. cbn [ps_server]. rewrite Hx, Hj'. unfold text_append, set_text. cbn [os_text].
  by rewrite lookup_insert_eq, lookup_insert_ne.
Qed.

Lemma job_registry job l text : Forall (starter job) l -> exists text', job_starts l text = Some text' /\
  (l = [] -> text' = text) /\
  default [] (text' !! ports_cfg job) = default [] (text !! ports_cfg job) ++ ports_file (posted <$> l) /\
  (l <> [] -> is_Some (text' !! ports_cfg job)).
Proof.
  revert text. induction l as [|[me p] l IH]; intros text Hl; cbn [job_starts].
  - exists text. split_and!; [done|done|by rewrite app_nil_r|done].
  - inversion_clear Hl as [|? ? Hx Hl']. destruct (start_posts job me p text Hx) as (p' & -> & Ht).
    destruct (IH (os_text (srv_os (ps_server p'))) Hl') as (text' & Hj & Hnil & Hd & Hs). exists text'.
    assert (E : default [] (text' !! ports_cfg job) =
      default [] (text !! ports_cfg job) ++ ports_file (posted <$> (me, p) :: l)).
    { rewrite Hd, Ht. cbn [default from_option id fmap list_fmap]. by rewrite ports_file_cons, <- app_assoc. }
    split_and!; [done|done|done|]. intros _. destruct l as [|y l]; [|by apply Hs].
    rewrite (Hnil eq_refl), Ht. by eexists.
Qed.

Lemma first_entry_cons rank e es :
  first_entry rank (e :: es) = if decide (e.1 = rank) then Some e.2 else first_entry rank es.
Proof.
  unfold first_entry. cbn [list_find]. destruct (decide (e.1 = rank)); [done|].
  by destruct (list_find _ es) as [[]|].
Qed.

Lemma first_entry_app rank es1 es2 : rank ∈ es1.*1 -> first_entry rank (es1 ++ es2) = first_entry rank es1.
Proof.
  induction es1 as [|e es1 IH]; [by intros ?%elem_of_nil|]. intros [->|Hin]%elem_of_cons;
    cbn [app]; rewrite !first_entry_cons; [by rewrite !decide_True|]. case_decide; [done|by apply IH].
Qed.

(** The four handlers, under the ids of their names. *)
Definition all_rpcs (me : mercury) : list (Z * rpc_kind) :=
  (fun k => (me_register me (rpc_name k), k)) <$> [KBase; KOpen; KClose; KSeek].

Lemma dispatch_all me k :
  (forall k1 k2, me_register me (rpc_name k1) = me_register me (rpc_name k2) -> k1 = k2) ->
  dispatch (all_rpcs me) (me_register me (rpc_name k)) = Some k.
Proof.
  intros Hinj. unfold all_rpcs. cbn [fmap list_fmap dispatch].
  repeat match goal with |- context [me_register me (rpc_name ?a) =? me_register me (rpc_name ?b)] =>
    destruct (Z.eqb_spec (me_register me (rpc_name a)) (me_register me (rpc_name b))) as [Heq|?];
    [by apply Hinj in Heq as ->|] end.
  by destruct k.
Qed.

Lemma client_register_run me q : me_disable me = 0 -> exists ids q',
  ftc_client_comm_register_rpc me q = Ret ids q' /\ forall k, id_for ids k = me_register me (rpc_name k).
Proof.
  intros Hd. unfold ftc_client_comm_register_rpc, ftc_close_rpc_register. mred. rewrite Hd.
  do 2 eexists. split; [reflexivity|]. by intros [].
Qed.

Lemma start_server_run me p p1 : me_disable me = 0 -> ps_rpcs p1 = [] ->
  start_and_post me p = Ret tt p1 -> exists p2,
  ftc_start_comm_server me p = Blocked p2 /\ ps_server p2 = ps_server p1 /\ ps_rpcs p2 = all_rpcs me /\
  ps_threads p2 = ps_threads p1 /\ ftc_server_count p2 = ftc_server_count p1.
Proof.
  intros Hd Hr Hs. unfold ftc_start_comm_server. rewrite (bind_Ret _ _ _ _ _ Hs).
  destruct p1 as [s cl co sh th rp fa n pid lg]. cbn in Hr. subst rp.
  unfold ftc_close_rpc_register. mred. rewrite Hd. cbn. by eexists.
Qed.

(** The start of the log, where log4c starts. *)
Definition logged (p : process) : process :=
  set_l4c (ps_l4c p ++ Logging.configuration Logging.server_params
    (Logging.mk_process (srv_os (ps_server p)) (ps_pid p) (ps_l4c p))) p.

Lemma on_log_run p : 0 <= ps_pid p ->
  if ps_pid p <? 100000 then on_log (Logging.ftc_init_logging Logging.server_params 0) p = Ret tt (logged p)
  else exists l, on_log (Logging.ftc_init_logging Logging.server_params 0) p = Dies UndefinedBehaviour (set_l4c l p).
Proof.
  intros Hp. unfold on_log.
  pose proof (Logging.init_logging_run Logging.server_params
    (Logging.mk_process (srv_os (ps_server p)) (ps_pid p) (ps_l4c p)) Hp) as H. cbn [Logging.pr_pid Logging.pr_os Logging.pr_l4c] in H.
  destruct (ps_pid p <? 100000); [by rewrite H|]. destruct H as [q ->]. by eexists.
Qed.

Lemma server_main_run me prog n rest p : server_main me (prog :: n :: rest) p =
  (on_log (Logging.ftc_init_logging Logging.server_params (me_log4c me));; ftc_start_comm_server me;; mret 0)
    (set_count (u32 (atoi (of_string n))) p).
Proof. done. Qed.

(** A process id of six digits ends a server before it has started anything, and
    an application before its [main]. *)
Lemma large_pid_stops_server me prog n rest p : me_log4c me = 0 -> 100000 <= ps_pid p ->
  exists l, server_main me (prog :: n :: rest) p =
    Dies UndefinedBehaviour (set_l4c l (set_count (u32 (atoi (of_string n))) p)).
Proof.
  intros Hrc Hp. pose proof (on_log_run (set_count (u32 (atoi (of_string n))) p) ltac:(cbn; lia)) as H.
  cbn [ps_pid set_count] in H. rewrite (proj2 (Z.ltb_ge _ _)) in H by done. destruct H as [l H].
  exists l. rewrite server_main_run, Hrc. by apply bind_Dies.
Qed.

Lemma large_pid_stops_client me se p : me_log4c me = 0 -> 100000 <= cp_pid p ->
  Client.init_locked (cp_client p) = false -> Client.g_ftc_initialized (cp_client p) = false ->
  exists l, client_constructor me se p =
    Dies UndefinedBehaviour (mk_client_process (cp_client p) (cp_pid p) l).
Proof.
  intros Hrc Hp Hl Hi. unfold client_constructor. rewrite Hl, Hi, Hrc. cbn [orb].
  pose proof (Logging.init_logging_run Logging.client_params
    (Logging.mk_process (Client.cl_os (cp_client p)) (cp_pid p) (cp_l4c p)) ltac:(cbn; lia)) as H.
  cbn [Logging.pr_pid] in H. rewrite (proj2 (Z.ltb_ge _ _)) in H by done. destruct H as [q ->]. by eexists.
Qed.

Lemma progress_stops ts : forall i b t, ts !! i = Some t -> tk_flag t = true ->
  exists l, ftc_progress_fn b false ts = (l, true) /\ (length l <= 2 * i + 1)%nat.
Proof.
  induction ts as [|x ts IH]; intros i b t Hi Ht; [done|]. cbn [ftc_progress_fn]. rewrite andb_false_r.
  assert (Hend : ftc_progress_fn false true ts = ([], true)) by by destruct ts.
  destruct i as [|i].
  - injection Hi as ->. rewrite Ht, andb_false_r. cbn. rewrite Hend. by eexists.
  - cbn in Hi. destruct (tk_flag x) eqn:Ex.
    + rewrite andb_false_r. cbn. rewrite Hend. eexists. split; [done|]. cbn. lia.
    + cbn [negb]. destruct ((tk_ret x =? 0) && _ && true).
      * destruct (IH i true t Hi Ht) as (l & -> & Hl). eexists. split; [done|]. cbn. lia.
      * destruct (tk_later x).
        -- rewrite Hend. eexists. split; [done|]. cbn. lia.
        -- destruct (IH i false t Hi Ht) as (l & -> & Hl). eexists. split; [done|]. cbn. lia.
Qed.

End Startup.
Import Startup.

(** C31: a server starts in this order: the log, then the data mover and the
    progress thread, then the address in the registry, all before any handler is
    registered, so a request that comes then is not dispatched; afterwards the
    main thread sleeps for ever, and each id under which a client sends a
    request, though the client registers in another order, is dispatched to the
    handler of the same RPC. *)
Theorem server_started me p prog n rest r :
  let o := srv_os (ps_server p) in
  let rank := atoi (of_string r) in
  let argv := prog :: n :: rest in
  me_mover me = 0 -> me_init me = true -> me_context me = true -> me_progress me = 0 -> me_disable me = 0 ->
  me_log4c me = 0 -> 0 <= ps_pid p < 100000 ->
  (forall k1 k2, me_register me (rpc_name k1) = me_register me (rpc_name k2) -> k1 = k2) ->
  getenv o "PMIX_RANK" = Some r ->
  can_create o (log_filename (getenv o LOG_DIR) "server" rank) = true ->
  can_create o (ports_cfg (getenv o "MY_JOBID")) = true -> ps_rpcs p = [] ->
  exists p1 p2,
    start_and_post me (logged (set_count (u32 (atoi (of_string n))) p)) = Ret tt p1 /\
    ps_threads p1 = ps_threads p ++ [DataMover; ProgressThread] /\
    (exists o1, srv_os (ps_server p1) =
       text_append (ports_cfg (getenv o "MY_JOBID")) (ports_line rank (me_self me)) o1) /\
    (forall id, dispatch (ps_rpcs p1) id = None) /\
    server_main me argv p = Blocked p2 /\ ps_server p2 = ps_server p1 /\ ps_threads p2 = ps_threads p1 /\
    ftc_server_count p2 = u32 (atoi (of_string n)) /\ ftc_server_rank (ps_server p2) = rank /\
    forall q, exists ids q', ftc_client_comm_register_rpc me q = Ret ids q' /\
      forall k, dispatch (ps_rpcs p2) (id_for ids k) = Some k.
Proof.
  intros o rank argv H1 H2 H3 H4 Hd Hl4c Hpid Hinj Hr Hlog Hports Hrpcs.
  pose proof (on_log_run (set_count (u32 (atoi (of_string n))) p) ltac:(apply Hpid)) as Hl.
  change (ps_pid (set_count (u32 (atoi (of_string n))) p)) with (ps_pid p) in Hl. rewrite (proj2 (Z.ltb_lt _ _)) in Hl by apply Hpid.
  destruct (start_and_post_run me (logged (set_count (u32 (atoi (of_string n))) p)) r) as
    (s' & Hs & Hrank & _ & _ & x & Hos); try done.
  match type of Hs with _ = Ret tt ?q => set (p1 := q) in Hs end.
  destruct (start_server_run me _ p1 Hd Hrpcs Hs) as (p2 & Hb & E1 & E2 & E3 & E4).
  exists p1, p2. split; [exact Hs|]. split; [done|]. split; [by eexists|]. split; [cbn; by rewrite Hrpcs|].
  split. { unfold argv. rewrite server_main_run, Hl4c, (bind_Ret _ _ _ _ _ Hl).
    by rewrite (bind_Blocked _ _ _ _ Hb). }
  split_and!; [done|done|by rewrite E4|by rewrite E1|].
  intros q. destruct (client_register_run me q Hd) as (ids & q' & Hq & Hids). exists ids, q'. split; [done|].
  intros k. rewrite Hids, E2. by apply dispatch_all.
Qed.

(** C29: clients find the servers of a job, and never a server that came up again.
    Servers of a job start one after the other, some perhaps a second time, under
    a new address.  All of them come up; the registry has the line of each, in
    this order; and a client that has no address for a rank finds the one that
    was posted first for it, whatever was posted after; the stream it read the
    registry through keeps its descriptor.  For a rank that nobody
    posted, the look-up uses an address it never got, which is undefined. *)
Theorem first_start_is_found job l c rank :
  Forall (starter job) l -> l <> [] -> getenv (Client.cl_os c) "MY_JOBID" = job ->
  Client.address_cache c !! rank = None ->
  exists text, job_starts l ∅ = Some text /\
    text !! ports_cfg job = Some (ports_file (posted <$> l)) /\
    (os_text (Client.cl_os c) !! ports_cfg job = text !! ports_cfg job ->
     match first_entry rank (posted <$> l) with
     | Some a => Client.lookup_addr rank c =
         Ret (Some (to_string a)) (Client.upd_cache (<[rank := to_string a]> (Client.address_cache c))
           (Client.upd_os (Client.leave_stream true (Client.cl_os c)) c))
     | None => exists c', Client.lookup_addr rank c = Dies UndefinedBehaviour c'
     end) /\
    forall l1 x l2, l = l1 ++ x :: l2 -> (posted x).1 = rank -> rank ∈ (posted <$> l1).*1 ->
      first_entry rank (posted <$> l) = first_entry rank (posted <$> l1).
Proof.
  intros Hl Hne Hj Hc. destruct (job_registry job l ∅ Hl) as (text & Ht & _ & Hd & Hs).
  destruct (Hs Hne) as [f Hf]. rewrite Hf, lookup_empty in Hd. cbn in Hd. subst f.
  exists text. split_and!; [done|done| |].
  - intros Hcl. unfold Client.lookup_addr. mred. rewrite Hj. rewrite Hcl, Hf, ports_roundtrip; [|apply Forall_fmap|done].
    + destruct (first_entry rank (posted <$> l)) as [a|]; mred; [done|by eexists].
    + eapply Forall_impl; [exact Hl|]. intros x Hx. exact (sr_addr _ _ Hx).
  - intros l1 x l2 -> _ Hin. by rewrite fmap_app, first_entry_app.
Qed.

(** The progress thread ends.  Once the shutdown flag is set after the [i]-th
    call of [HG_Trigger], whatever Mercury returned before, the thread has made
    at most [2 i + 1] calls of Mercury and makes no more. *)
Lemma progress_thread_stops ts i t :
  ts !! i = Some t -> tk_flag t = true ->
  exists l, ftc_progress_fn false false ts = (l, true) /\ (length l <= 2 * i + 1)%nat.
Proof. apply progress_stops. Qed.

(** ** Witnesses *)

Definition me0 : mercury :=
  mk_mercury true true 0 0 0 (fun s => Z.of_nat (length (of_string s)) +
    match String.get 4 s with Some c => Z.of_N (Ascii.N_of_ascii c) | None => 0 end) 0 (of_string "tcp://s:1").

Definition os_s : os :=
  mk_os ∅ {["."%string; "/log"%string]} ∅ ∅ ∅ ∅ "/"
    {["PMIX_RANK"%string := "3"%string; "MY_JOBID"%string := "7"%string; LOG_DIR := "/log"%string]} ∅ [] (0, 0).
Definition ps0 : process :=
  mk_process (mk_server os_s ∅ ∅ [] (-1) (-1) (uninit 128) ∅ []) false false false [] [] [] 0 4711 [].

Lemma server_started_witness :
  exists p2, server_main me0 ["ftc_server"%string; "4"%string] ps0 = Blocked p2 /\ ftc_server_count p2 = 4 /\
    ftc_server_rank (ps_server p2) = 3 /\ os_text (srv_os (ps_server p2)) !! "./.ports.cfg.7"%string =
      Some (of_string "3 tcp://s:1" ++ ["010"%char]).
Proof.
  destruct (server_started me0 ps0 "ftc_server" "4" [] "3") as (p1 & p2 & H1 & _ & _ & _ & H2 & E2 & _ & Hn & Hr & _);
    try (vm_compute; reflexivity).
  { split; vm_compute; [discriminate|reflexivity]. }
  { intros [] []; vm_compute; congruence. }
  exists p2. split; [exact H2|]. split; [exact Hn|]. split; [exact Hr|]. rewrite E2.
  vm_compute in H1. injection H1 as <-. vm_compute. reflexivity.
Defined.

Definition me1 : mercury := mk_mercury true true 0 0 0 (fun _ => 0) 0 (of_string "tcp://t:2").
Definition cl_s : Client.client :=
  Client.mk_client os_s ∅ ∅ [0; 0; 0; 0] ∅ 4 None false false true false true false (uninit 128) 0 0 (-1) ∅ ∅ 0 [].

Lemma starter_again me : me_mover me = 0 /\ me_progress me = 0 -> me_init me = true /\ me_context me = true ->
  ok_entry (3, me_self me) -> starter (Some "7"%string) (me, ps0).
Proof.
  intros H1 H2 H3. assert (E : (posted (me, ps0)).1 = 3) by (vm_compute; reflexivity).
  split; [done|done|by eexists|done|by vm_compute| |by rewrite (surjective_pairing (posted _)), E].
  rewrite E. cbv zeta. split; [by vm_compute|]. apply (bool_decide_unpack _). vm_compute. exact I.
Qed.

(** The server of rank 3 came up twice, at "s:1" and at "t:2". *)
Lemma first_start_is_found_witness :
  exists text, job_starts [(me0, ps0); (me1, ps0)] ∅ = Some text /\
    Client.lookup_addr 3 (Client.upd_os (set_text text os_s) cl_s) =
      Ret (Some "tcp://s:1"%string) (Client.upd_cache {[3 := "tcp://s:1"%string]}
        (Client.upd_os (Client.leave_stream true (set_text text os_s)) cl_s)).
Proof.
  assert (Hl : Forall (starter (Some "7"%string)) [(me0, ps0); (me1, ps0)]).
  { repeat (apply Forall_cons_2; [apply starter_again; [by split..|]|]); [..|apply Forall_nil_2];
      (split_and!; [by unfold in_i32|by apply (bool_decide_unpack _); vm_compute|done|by apply Nat.ltb_lt; vm_compute]). }
  destruct (first_start_is_found (Some "7"%string) [(me0, ps0); (me1, ps0)]
    (Client.upd_os (set_text (default ∅ (job_starts [(me0, ps0); (me1, ps0)] ∅)) os_s) cl_s) 3)
    as (text & Ht & Hf & H & _); [exact Hl|done|vm_compute; reflexivity|vm_compute; reflexivity|].
  exists text. split; [exact Ht|]. rewrite Ht in H. cbn [default from_option id] in H.
  specialize (H eq_refl).
  assert (E : first_entry 3 (posted <$> [(me0, ps0); (me1, ps0)]) = Some (of_string "tcp://s:1")) by (vm_compute; reflexivity).
  rewrite E in H. exact H.
Defined.

Lemma progress_thread_stops_witness :
  exists l, ftc_progress_fn false false [mk_tick 0 1 false false; mk_tick 0 0 false false; mk_tick 0 1 true true] = (l, true) /\
    (length l <= 5)%nat.
Proof. apply (progress_thread_stops _ 2 (mk_tick 0 1 true true)); reflexivity. Defined.
