(* ===== verification/Interpose.v ===== *)
(** * The interposed functions

    src/src/ftc_internal.h, as the preload library is built
    ([FT_Cache_PRELOAD]): a pointer per intercepted function ([REAL_DECL]),
    looked up with [dlsym(RTLD_NEXT, ...)] when the function is first called
    ([MAP_OR_FAIL]); and the twelve wrappers of wrappers.c once more, this time
    with the pointers: which of them each wrapper maps, which it calls, with
    which arguments, and where it calls none.  What the library does in between
    is that of [Client].  The addresses that [dlsym] finds, and which function of
    the C library stands at an address, are parameters.  The calls that the
    library makes on its own account and those of log4c are not followed
    through the pointers here. *)

From S2P Require Import Prelude CString HexDump Address Posix LogInfo Server ServerSpec Client Wrappers.
From S2P Require Import ClientSpec ClientProps.
Import Posix Client Wrappers.

Module Interpose.

(** The functions with a [REAL_DECL] and a [WRAP_DECL]. *)
Inductive func : Type :=
  | F_fopen | F_fopen64 | F_pread | F_readv | F_write | F_open | F_open64
  | F_read | F_read64 | F_close | F_lseek | F_lseek64.

#[export] Instance func_eq_dec : EqDecision func.
Proof. solve_decision. Defined.

Definition symbol (f : func) : string :=
  match f with
  | F_fopen => "fopen" | F_fopen64 => "fopen64" | F_pread => "pread" | F_readv => "readv" | F_write => "write"
  | F_open => "open" | F_open64 => "open64" | F_read => "read" | F_read64 => "read64" | F_close => "close"
  | F_lseek => "lseek" | F_lseek64 => "lseek64"
  end.

(** The process: the state of the library, the pointers [__real_f] (an address,
    or null), the symbols looked up and the addresses called so far. *)
Record process : Type := mk_process {
  pc_client : client; real_of : func -> option Z; lookups : list string; called : list Z
}.
Definition set_client c p := mk_process c (real_of p) (lookups p) (called p).
Definition set_real (f : func) (a : option Z) (p : process) : process :=
  mk_process (pc_client p) (fun g => if decide (g = f) then a else real_of p g) (lookups p) (called p).
Definition unmapped (c : client) : process := mk_process c (fun _ => None) [] [].

Definition P : Type -> Type := M process.
Definition on_client {A} (m : C A) : P A := fun p =>
  match m (pc_client p) with
  | Ret a c => Ret a (set_client c p)
  | Dies w c => Dies w (set_client c p)
  | Blocked c => Blocked (set_client c p)
  end.

(** The arguments a wrapper hands on, by prototype. *)
Inductive args : Type :=
  | A_stream (path mode : string)
  | A_path (path : string) (flags : Z)
  | A_fd (fd : Z)
  | A_buf (fd count : Z) (buf : list byte)
  | A_at (fd count offset : Z) (buf : list byte)
  | A_iov (fd : Z) (iov : list Z) (buf : list byte)
  | A_data (fd : Z) (data : list byte)
  | A_pos (fd offset whence : Z).

Definition number {S} (m : M S Z) : M S (Z * list byte) := let* r := m in mret (r, []).

(** The functions of the C library; a call with the arguments of another
    prototype is undefined. *)
Definition libc (f : func) (a : args) : C (Z * list byte) :=
  match f, a with
  | (F_fopen | F_fopen64), A_stream path mode => number (real_fopen path mode)
  | (F_open | F_open64), A_path path flags => number (real_open path flags)
  | F_close, A_fd fd => number (real_close fd)
  | (F_read | F_read64), A_buf fd count buf => real_read fd count buf
  | F_pread, A_at fd count offset buf => real_pread fd count offset buf
  | F_readv, A_iov fd iov buf => real_readv fd iov buf
  | F_write, A_data fd data => number (real_write fd data)
  | (F_lseek | F_lseek64), A_pos fd offset whence => number (real_lseek fd offset whence)
  | _, _ => die UndefinedBehaviour
  end.

(** An intercepted call of the application. *)
Inductive icall : Type :=
  | I_fopen (path mode : string) | I_fopen64 (path mode : string)
  | I_open (path : string) (flags : Z) | I_open64 (path : string) (flags : Z)
  | I_close (fd : Z)
  | I_read (fd count : Z) (buf : list byte) | I_read64 (fd count : Z) (buf : list byte)
  | I_pread (fd count offset : Z) (buf : list byte)
  | I_readv (fd : Z) (iov : list Z) (buf : list byte)
  | I_write (fd : Z) (data : list byte)
  | I_lseek (fd offset whence : Z) | I_lseek64 (fd offset whence : Z).

Definition func_of (x : icall) : func :=
  match x with
  | I_fopen _ _ => F_fopen | I_fopen64 _ _ => F_fopen64 | I_open _ _ => F_open | I_open64 _ _ => F_open64
  | I_close _ => F_close | I_read _ _ _ => F_read | I_read64 _ _ _ => F_read64 | I_pread _ _ _ _ => F_pread
  | I_readv _ _ _ => F_readv | I_write _ _ => F_write | I_lseek _ _ _ => F_lseek | I_lseek64 _ _ _ => F_lseek64
  end.

Section Map.
Context (hash : string -> Z).
(** The definition of a symbol after the library in the search order, and the
    function at an address. *)
Context (dlsym : string -> option Z) (code : Z -> option func).

Definition look_up (s : string) : P (option Z) :=
  modify (fun p => mk_process (pc_client p) (real_of p) (lookups p ++ [s]) (called p));;
  mret (dlsym s).

Definition MAP_OR_FAIL (f : func) : P unit :=
  let* r := gets (fun p => real_of p f) in
  match r with
  | Some _ => mret tt
  | None =>
      let* a := look_up (symbol f) in
      modify (set_real f a);;
      match a with Some _ => mret tt | None => die (Exited 1) end
  end.

(** [( *__real_f)(...)]: a null pointer must not be called. *)
Definition call_real (f : func) (a : args) : P (Z * list byte) :=
  let* r := gets (fun p => real_of p f) in
  let* address := defined r in
  modify (fun p => mk_process (pc_client p) (real_of p) (lookups p) (called p ++ [address]));;
  let* g := defined (code address) in
  on_client (libc g a).

Definition call_number (f : func) (a : args) : P Z := let* r := call_real f a in mret r.1.

(** ** The wrappers *)

Definition fopen_i (path mode : string) (se : self_env) (e : cl_env) : P Z :=
  MAP_OR_FAIL F_fopen;;
  let* off := on_client redirect_off in
  if off : bool then call_number F_fopen (A_stream path mode)
  else
    let* ptr := call_number F_fopen (A_stream path mode) in
    (if ptr =? -1 then mret tt
     else let* t := on_client (ftc_track_file hash path O_RDONLY ptr se e) in mret tt);;
    mret ptr.

Definition fopen64_i (path mode : string) (se : self_env) (e : cl_env) : P Z :=
  MAP_OR_FAIL F_fopen64;;
  let* off := on_client redirect_off in
  if off : bool then call_number F_fopen64 (A_stream path mode)
  else
    let* ptr := call_number F_fopen64 (A_stream path mode) in
    (if ptr =? -1 then mret tt
     else let* t := on_client (ftc_track_file hash path O_RDONLY ptr se e) in mret tt);;
    mret ptr.

Definition open_i (pathname : string) (flags : Z) (se : self_env) (e : cl_env) : P Z :=
  MAP_OR_FAIL F_open;;
  let* off := on_client redirect_off in
  if off : bool then call_number F_open (A_path pathname flags)
  else
    let* ret := call_number F_open (A_path pathname flags) in
    (if ret =? -1 then mret tt
     else let* t := on_client (ftc_track_file hash pathname flags ret se e) in mret tt);;
    mret ret.

Definition open64_i (pathname : string) (flags : Z) (se : self_env) (e : cl_env) : P Z :=
  MAP_OR_FAIL F_open64;;
  let* off := on_client redirect_off in
  if off : bool then call_number F_open64 (A_path pathname flags)
  else
    let* ret := call_number F_open64 (A_path pathname flags) in
    (if ret =? -1 then mret tt
     else let* t := on_client (ftc_track_file hash pathname flags ret se e) in mret tt);;
    mret ret.

Definition close_i (fd : Z) (e : cl_env) : P Z :=
  MAP_OR_FAIL F_close;;
  let* off := on_client redirect_off in
  if off : bool then call_number F_close (A_fd fd)
  else
    let* path := on_client (ftc_get_path fd) in
    (match path with
     | Some _ => let* r := on_client (ftc_remove_fd hash fd e) in mret tt
     | None => mret tt
     end);;
    call_number F_close (A_fd fd).

Definition read_i (fd count : Z) (buf : list byte) (e : cl_env) : P (Z * list byte) :=
  MAP_OR_FAIL F_read;;
  let* r := on_client (ftc_remote_read hash fd count buf e) in
  if i32 r.1 <? 0 then
    let* r' := call_real F_read (A_buf fd count r.2) in
    mret (i32 r'.1, r'.2)
  else mret (i32 r.1, r.2).

Definition pread_i (fd count offset : Z) (buf : list byte) (e : cl_env) : P (Z * list byte) :=
  MAP_OR_FAIL F_pread;;
  let* path := on_client (ftc_get_path fd) in
  match path with
  | Some _ =>
      let* r := on_client (ftc_remote_pread hash fd count offset buf e) in
      if r.1 <? 0 then call_real F_pread (A_at fd count offset r.2) else mret r
  | None => call_real F_pread (A_at fd count offset buf)
  end.

Definition read64_i (fd count : Z) (buf : list byte) : P (Z * list byte) :=
  MAP_OR_FAIL F_read64;;
  let* path := on_client (ftc_get_path fd) in
  call_real F_read64 (A_buf fd count buf).

Definition write_i (fd : Z) (data : list byte) : P Z :=
  MAP_OR_FAIL F_write;;
  call_number F_write (A_data fd data).

Definition lseek_i (fd offset whence : Z) (e : cl_env) : P Z :=
  MAP_OR_FAIL F_lseek;;
  let* off := on_client redirect_off in
  if off : bool then call_number F_lseek (A_pos fd offset whence)
  else
    let* tracked := on_client (ftc_file_tracked fd) in
    if tracked : bool then on_client (ftc_remote_lseek hash fd (i32 offset) (i32 whence) e)
    else call_number F_lseek (A_pos fd offset whence).

Definition lseek64_i (fd offset whence : Z) (e : cl_env) : P Z :=
  MAP_OR_FAIL F_lseek64;;
  let* off := on_client redirect_off in
  if off : bool then call_number F_lseek64 (A_pos fd offset whence)
  else
    let* tracked := on_client (ftc_file_tracked fd) in
    if tracked : bool then on_client (ftc_remote_lseek hash fd (i32 offset) (i32 whence) e)
    else call_number F_lseek64 (A_pos fd offset whence).

Definition readv_i (fd : Z) (iov : list Z) (buf : list byte) : P (Z * list byte) :=
  MAP_OR_FAIL F_readv;;
  let* path := on_client (ftc_get_path fd) in
  call_real F_readv (A_iov fd iov buf).

Definition intercepted (x : icall) (se : self_env) (e : cl_env) : P (Z * list byte) :=
  match x with
  | I_fopen path mode => number (fopen_i path mode se e)
  | I_fopen64 path mode => number (fopen64_i path mode se e)
  | I_open path flags => number (open_i path flags se e)
  | I_open64 path flags => number (open64_i path flags se e)
  | I_close fd => number (close_i fd e)
  | I_read fd count buf => read_i fd count buf e
  | I_read64 fd count buf => read64_i fd count buf
  | I_pread fd count offset buf => pread_i fd count offset buf e
  | I_readv fd iov buf => readv_i fd iov buf
  | I_write fd data => number (write_i fd data)
  | I_lseek fd offset whence => number (lseek_i fd offset whence e)
  | I_lseek64 fd offset whence => number (lseek64_i fd offset whence e)
  end.

(** What the application does, call by call. *)
Fixpoint calls (l : list (icall * self_env * cl_env)) : P (list (Z * list byte)) :=
  match l with
  | [] => mret []
  | (x, se, e) :: l' => let* a := intercepted x se e in let* rs := calls l' in mret (a :: rs)
  end.

(** ** The wrappers without the pointers *)

(** The wrappers of [Wrappers]. *)
Definition wrapper (x : icall) (se : self_env) (e : cl_env) : C (Z * list byte) :=
  match x with
  | I_fopen path mode | I_fopen64 path mode => number (wrap_fopen hash path mode se e)
  | I_open path flags | I_open64 path flags => number (wrap_open hash path flags se e)
  | I_close fd => number (wrap_close hash fd e)
  | I_read fd count buf => wrap_read hash fd count buf e
  | I_read64 fd count buf => wrap_read64 fd count buf
  | I_pread fd count offset buf => wrap_pread hash fd count offset buf e
  | I_readv fd iov buf => wrap_readv fd iov buf
  | I_write fd data => number (wrap_write fd data)
  | I_lseek fd offset whence | I_lseek64 fd offset whence => number (wrap_lseek hash fd offset whence e)
  end.

(** Does the call get to the C library?  A [read] or [pread] that the server
    answered does not, nor does a seek in a tracked file. *)
Definition is_tracked (c : client) (fd : Z) : bool := bool_decide (is_Some (fd_map c !! fd)).
Definition reaches (x : icall) (e : cl_env) (c : client) : bool :=
  match x with
  | I_read fd count buf =>
      match ftc_remote_read hash fd count buf e c with Ret r _ => i32 r.1 <? 0 | _ => true end
  | I_pread fd count offset buf =>
      match ftc_remote_pread hash fd count offset buf e c with
      | Ret r _ => negb (is_tracked c fd) || (r.1 <? 0) | _ => true end
  | I_lseek fd _ _ | I_lseek64 fd _ _ =>
      g_disable_redirect c || tl_disable_redirect c || negb (is_tracked c fd)
  | _ => true
  end.

(** The results of the calls, and the functions of the C library they get to. *)
Fixpoint wrappers (l : list (icall * self_env * cl_env)) : C (list (Z * list byte) * list func) :=
  match l with
  | [] => mret ([], [])
  | (x, se, e) :: l' =>
      let* b := gets (reaches x e) in
      let* a := wrapper x se e in
      let* rs := wrappers l' in
      mret (a :: rs.1, (if b : bool then [func_of x] else []) ++ rs.2)
  end.

(** ** Lemmas *)

(** A pointer is null or what [dlsym] found, and then it was looked up once. *)
Record mapped (p : process) : Prop := {
  mp_real f a : real_of p f = Some a -> dlsym (symbol f) = Some a /\ symbol f ∈ lookups p;
  mp_once : NoDup (lookups p);
  mp_looked f : symbol f ∈ lookups p -> is_Some (real_of p f)
}.

Lemma symbol_inj f g : symbol f = symbol g -> f = g.
Proof. by destruct f, g. Qed.

Lemma mapped_same p p' : real_of p' = real_of p -> lookups p' = lookups p -> mapped p -> mapped p'.
Proof. intros E1 E2 [H1 H2 H3]. by split; rewrite ?E1, ?E2. Qed.

Lemma map_run f p : mapped p ->
  match dlsym (symbol f) with
  | Some a => exists p', MAP_OR_FAIL f p = Ret tt p' /\ mapped p' /\ real_of p' f = Some a /\
      pc_client p' = pc_client p /\ called p' = called p
  | None => exists p', MAP_OR_FAIL f p = Dies (Exited 1) p' /\ called p' = called p
  end.
Proof.
  intros [H1 H2 H3]. unfold MAP_OR_FAIL, look_up. mred.
  destruct (real_of p f) as [a|] eqn:Er.
  - destruct (H1 f a Er) as [-> _]. by exists p.
  - destruct (dlsym (symbol f)) as [a|] eqn:Ed; cbn [set_real real_of lookups]; [|by eexists].
    assert (Hn : symbol f ∉ lookups p) by (intros Hin; destruct (H3 f Hin); congruence).
    eexists. split; [reflexivity|]. cbn [pc_client called real_of set_real]. rewrite decide_True by done.
    split_and!; try done. split; cbn [real_of lookups set_real].
    + intros g b. case_decide as Hg; [subst g; intros [= <-]|intros Hb; destruct (H1 g b Hb)].
      * split; [done|]. apply elem_of_app. right. by left.
      * split; [done|]. apply elem_of_app. by left.
    + apply NoDup_app. split; [done|]. split; [|apply NoDup_singleton].
      by intros x Hx ->%list_elem_of_singleton.
    + intros g [Hg|Hg%list_elem_of_singleton%symbol_inj]%elem_of_app; case_decide;
        [by exists a|by apply H3|by exists a|done].
Qed.

Lemma unmapped_mapped c : mapped (unmapped c).
Proof. split; [done|apply NoDup_nil_2|by intros f ?%not_elem_of_nil]. Qed.

(** The C library's functions stand where [dlsym] finds them. *)
Definition loaded : Prop := forall f a, dlsym (symbol f) = Some a -> code a = Some f.

(** The outcome of a computation with the pointers against the one without:
    [l] are the addresses called in between. *)
Definition agrees {A} (p : process) (l : list Z) (o : outcome client A) (o' : outcome process A) : Prop :=
  match o with
  | Ret r c => exists p', o' = Ret r p' /\ mapped p' /\ real_of p' = real_of p /\ pc_client p' = c /\
      called p' = called p ++ l
  | Dies w c => exists p', o' = Dies w p' /\ pc_client p' = c
  | Blocked c => exists p', o' = Blocked p' /\ pc_client p' = c
  end.

Lemma agrees_bind {A B} p l l' (m : C A) (m' : P A) (k : A -> C B) (k' : A -> P B) :
  agrees p l (m (pc_client p)) (m' p) ->
  (forall r p', m (pc_client p) = Ret r (pc_client p') -> mapped p' -> real_of p' = real_of p ->
     agrees p' l' (k r (pc_client p')) (k' r p')) ->
  agrees p (l ++ l') ((m ≫= k) (pc_client p)) ((m' ≫= k') p).
Proof.
  intros Hm Hk. unfold mbind, M_bind. destruct (m (pc_client p)) as [r c|w c|c]; cbn in Hm.
  - destruct Hm as (p1 & -> & Hp1 & Hr1 & <- & Hc1). specialize (Hk r p1 eq_refl Hp1 Hr1).
    destruct (k r (pc_client p1)); cbn in *; [|by destruct Hk as (p2 & -> & ?); exists p2..].
    destruct Hk as (p2 & -> & Hp2 & Hr2 & Hc2 & Hl2). exists p2. rewrite Hl2, Hc1, app_assoc.
    split_and!; (done || congruence).
  - destruct Hm as (p1 & -> & ?). by exists p1.
  - destruct Hm as (p1 & -> & ?). by exists p1.
Qed.

Lemma agrees_on_client {A} p (m : C A) : mapped p -> agrees p [] (m (pc_client p)) (on_client m p).
Proof.
  intros Hp. unfold on_client. destruct (m (pc_client p)); cbn; [|by eexists..].
  eexists. split; [reflexivity|]. cbn. rewrite app_nil_r. split_and!; [by apply (mapped_same p)|done..].
Qed.

(** A piece of the library's own code first. *)
Lemma agrees_client {A B} p l (m : C A) (k : A -> C B) (k' : A -> P B) : mapped p ->
  (forall r p', m (pc_client p) = Ret r (pc_client p') -> mapped p' -> real_of p' = real_of p ->
     agrees p' l (k r (pc_client p')) (k' r p')) ->
  agrees p l ((m ≫= k) (pc_client p)) ((on_client m ≫= k') p).
Proof. intros Hp Hk. apply (agrees_bind p [] l m (on_client m)); [by apply agrees_on_client|done]. Qed.

Lemma agrees_ret {A} p (r : A) : mapped p -> agrees p [] ((mret r : C A) (pc_client p)) ((mret r : P A) p).
Proof. intros Hp. exists p. rewrite app_nil_r. by split_and!. Qed.

(** Calling a mapped pointer is calling the function. *)
Lemma agrees_real (Hcode : loaded) f a x p : mapped p -> real_of p f = Some a ->
  agrees p [a] (libc f x (pc_client p)) (call_real f x p).
Proof.
  intros Hp Hf. unfold call_real. mred. rewrite Hf. destruct (mp_real p Hp f a Hf) as [Hd _].
  rewrite (Hcode f a Hd). unfold on_client. cbn [pc_client].
  destruct (libc f x (pc_client p)) as [r c|w c|c]; cbn; [|by eexists..].
  eexists. split; [reflexivity|]. split_and!; [by apply (mapped_same p)|done..].
Qed.

Lemma agrees_number_of (Hcode : loaded) f a x (m : C Z) p : libc f x = number m ->
  mapped p -> real_of p f = Some a -> agrees p [a] (m (pc_client p)) (call_number f x p).
Proof.
  intros Hm Hp Hf. unfold call_number. pose proof (agrees_real Hcode f a x p Hp Hf) as H. rewrite Hm in H.
  unfold number in H. mred_in H. mred.
  destruct (m (pc_client p)); cbn in *; [|by destruct H as (p' & -> & ?); exists p'..].
  destruct H as (p' & -> & ?). by exists p'.
Qed.

Lemma agrees_number p l (m : C Z) (m' : P Z) :
  agrees p l (m (pc_client p)) (m' p) -> agrees p l (number m (pc_client p)) (number m' p).
Proof.
  intros H. rewrite <- (app_nil_r l). apply (agrees_bind p l [] m m'); [done|].
  intros r p' _ Hp' _. by apply agrees_ret.
Qed.

(** The mapping of the pointer comes first. *)
Lemma mapped_first {A} f p p0 (k : P A) : MAP_OR_FAIL f p = Ret tt p0 -> (MAP_OR_FAIL f;; k) p = k p0.
Proof. apply bind_Ret. Qed.

Lemma number_first f p p0 (k : P Z) : MAP_OR_FAIL f p = Ret tt p0 ->
  number (MAP_OR_FAIL f;; k) p = number k p0.
Proof. intros H. unfold number, mbind, M_bind. by rewrite H. Qed.

Section Wrapped.
Context (Hcode : loaded) (f : func) (a : Z).

(** The four wrappers that open: first the C library, then the table. *)
Lemma opened p (off : bool) x (m : C Z) (t : Z -> C bool) : libc f x = number m ->
  mapped p -> real_of p f = Some a ->
  agrees p [a]
    ((if off then m
      else let* r := m in (if r =? -1 then mret tt else let* b := t r in mret tt);; mret r) (pc_client p))
    ((if off then call_number f x
      else let* r := call_number f x in
           (if r =? -1 then mret tt else let* b := on_client (t r) in mret tt);; mret r) p).
Proof.
  intros Hm Hp Hf. destruct off; [by apply agrees_number_of|].
  apply (agrees_bind p [a] []); [by apply agrees_number_of|]. intros r p1 _ Hp1 _.
  apply (agrees_bind p1 [] []); [|intros; by apply agrees_ret].
  destruct (r =? -1); [by apply agrees_ret|]. apply agrees_client; [done|]. intros; by apply agrees_ret.
Qed.

Lemma closed p fd e : f = F_close -> mapped p -> real_of p f = Some a ->
  agrees p [a] (wrap_close hash fd e (pc_client p))
    ((let* off := on_client redirect_off in
      if off : bool then call_number F_close (A_fd fd)
      else
        let* path := on_client (ftc_get_path fd) in
        (match path with
         | Some _ => let* r := on_client (ftc_remove_fd hash fd e) in mret tt
         | None => mret tt
         end);;
        call_number F_close (A_fd fd)) p).
Proof.
  intros -> Hp Hf. apply agrees_client; [done|]. intros off p1 _ Hp1 Hr1.
  destruct off; [apply agrees_number_of; (done || congruence)|].
  apply agrees_client; [done|]. intros path p2 _ Hp2 Hr2. apply (agrees_bind p2 [] [a]).
  - destruct path; [|by apply agrees_ret]. apply agrees_client; [done|]. intros; by apply agrees_ret.
  - intros ? p3 _ Hp3 Hr3. apply agrees_number_of; (done || congruence).
Qed.

(** A call that goes straight to the C library, but for a look at the table. *)
Lemma real_after_get p fd x (m : C (Z * list byte)) : libc f x = m -> mapped p -> real_of p f = Some a ->
  agrees p [a] (m (pc_client p)) ((let* path := on_client (ftc_get_path fd) in call_real f x) p).
Proof.
  intros <- Hp Hf. change (libc f x (pc_client p)) with
    ((let* path := ftc_get_path fd in libc f x) (pc_client p)).
  apply agrees_client; [done|]. intros ? p1 _ Hp1 Hr1. apply agrees_real; (done || congruence).
Qed.

Lemma sought p fd offset whence e x : libc f x = number (real_lseek fd offset whence) ->
  mapped p -> real_of p f = Some a ->
  agrees p (if g_disable_redirect (pc_client p) || tl_disable_redirect (pc_client p) ||
               negb (is_tracked (pc_client p) fd) then [a] else [])
    (wrap_lseek hash fd offset whence e (pc_client p))
    ((let* off := on_client redirect_off in
      if off : bool then call_number f x
      else
        let* tracked := on_client (ftc_file_tracked fd) in
        if tracked : bool then on_client (ftc_remote_lseek hash fd (i32 offset) (i32 whence) e)
        else call_number f x) p).
Proof.
  intros Hm Hp Hf. unfold wrap_lseek. apply agrees_client; [done|]. intros off p1 E1 Hp1 Hr1.
  injection E1 as <- Ec. rewrite Ec. destruct (g_disable_redirect _ || tl_disable_redirect _); cbn [orb].
  { apply agrees_number_of; [done..|congruence]. }
  apply agrees_client; [done|]. intros tr p2 E2 Hp2 Hr2. injection E2 as <- Ec2. rewrite Ec2. unfold is_tracked.
  case_bool_decide; cbn [negb]; [by apply agrees_on_client|]. apply agrees_number_of; [done..|congruence].
Qed.

End Wrapped.

(** The two wrappers that ask the server first. *)
Lemma been_read (Hcode : loaded) a p fd count buf e : mapped p -> real_of p F_read = Some a ->
  agrees p (if match ftc_remote_read hash fd count buf e (pc_client p) with
               | Ret r _ => i32 r.1 <? 0 | _ => true end then [a] else [])
    (wrap_read hash fd count buf e (pc_client p))
    ((let* r := on_client (ftc_remote_read hash fd count buf e) in
      if i32 r.1 <? 0 then let* r' := call_real F_read (A_buf fd count r.2) in mret (i32 r'.1, r'.2)
      else mret (i32 r.1, r.2)) p).
Proof.
  intros Hp Hf. apply agrees_client; [done|]. intros r p1 E Hp1 Hr1. rewrite E.
  destruct (i32 r.1 <? 0); [|by apply agrees_ret]. apply (agrees_bind p1 [a] []).
  - apply (agrees_real Hcode F_read a (A_buf fd count r.2)); [done|congruence].
  - intros; by apply agrees_ret.
Qed.

Lemma been_read_at (Hcode : loaded) a p fd count offset buf e : mapped p -> real_of p F_pread = Some a ->
  agrees p (if match ftc_remote_pread hash fd count offset buf e (pc_client p) with
               | Ret r _ => negb (is_tracked (pc_client p) fd) || (r.1 <? 0) | _ => true end then [a] else [])
    (wrap_pread hash fd count offset buf e (pc_client p))
    ((let* path := on_client (ftc_get_path fd) in
      match path with
      | Some _ =>
          let* r := on_client (ftc_remote_pread hash fd count offset buf e) in
          if r.1 <? 0 then call_real F_pread (A_at fd count offset r.2) else mret r
      | None => call_real F_pread (A_at fd count offset buf)
      end) p).
Proof.
  intros Hp Hf. apply agrees_client; [done|]. intros path p1 E1 Hp1 Hr1. injection E1 as <- Ec. rewrite Ec.
  unfold is_tracked. destruct (fd_map (pc_client p1) !! fd) eqn:Em.
  - rewrite bool_decide_true by by eexists. cbn [negb orb].
    apply agrees_client; [done|]. intros r p2 E Hp2 Hr2. rewrite E.
    destruct (r.1 <? 0); [|by apply agrees_ret].
    apply (agrees_real Hcode F_pread a (A_at fd count offset r.2)); [done|congruence].
  - rewrite bool_decide_false by by intros [? ?]. cbn [negb orb].
    replace (if match ftc_remote_pread hash fd count offset buf e (pc_client p1) with Ret _ _ | _ => true end
      then [a] else []) with [a] by by destruct (ftc_remote_pread hash fd count offset buf e (pc_client p1)).
    apply (agrees_real Hcode F_pread a (A_at fd count offset buf)); [done|congruence].
Qed.

(** A function that is missing. *)
Lemma intercepted_fails x se e p : mapped p -> dlsym (symbol (func_of x)) = None ->
  exists p', intercepted x se e p = Dies (Exited 1) p' /\ called p' = called p.
Proof.
  intros Hp Hn. pose proof (map_run (func_of x) p Hp) as H. rewrite Hn in H. destruct H as (p' & H & Hc).
  exists p'. split; [|done]. destruct x; cbn [intercepted func_of] in *; unfold number;
    first [by apply bind_Dies|by apply bind_Dies, bind_Dies].
Qed.

(** Every wrapper with the pointers does what it does without, and calls its own
    function if it calls one. *)
Lemma intercepted_run (Hcode : loaded) x se e a p : mapped p -> dlsym (symbol (func_of x)) = Some a ->
  match wrapper x se e (pc_client p) with
  | Ret r c => exists p', intercepted x se e p = Ret r p' /\ mapped p' /\ pc_client p' = c /\
      called p' = called p ++ (if reaches x e (pc_client p) then [a] else [])
  | Dies w c => exists p', intercepted x se e p = Dies w p' /\ pc_client p' = c
  | Blocked c => exists p', intercepted x se e p = Blocked p' /\ pc_client p' = c
  end.
Proof.
  intros Hp Ha. pose proof (map_run (func_of x) p Hp) as Hmap. rewrite Ha in Hmap.
  destruct Hmap as (p0 & Hmap & Hp0 & Hf & Hc0 & Hl0).
  rewrite <- Hc0, <- Hl0. clear Hc0 Hl0 Hp Ha.
  assert (H : agrees p0 (if reaches x e (pc_client p0) then [a] else [])
      (wrapper x se e (pc_client p0)) (intercepted x se e p)); [|
    by destruct (wrapper x se e (pc_client p0)); cbn in H; [destruct H as (p' & ? & ? & _ & ?); exists p'|..]].
  destruct x; cbn [intercepted wrapper func_of reaches] in *.
  - unfold fopen_i. rewrite (number_first _ _ _ _ Hmap). apply agrees_number, (agrees_client p0 [a]); [done|].
    intros off p1 Ec Hp1 Hr1. apply opened; (done || congruence).
  - unfold fopen64_i. rewrite (number_first _ _ _ _ Hmap). apply agrees_number, (agrees_client p0 [a]); [done|].
    intros off p1 Ec Hp1 Hr1. apply opened; (done || congruence).
  - unfold open_i. rewrite (number_first _ _ _ _ Hmap). apply agrees_number, (agrees_client p0 [a]); [done|].
    intros off p1 Ec Hp1 Hr1. apply opened; (done || congruence).
  - unfold open64_i. rewrite (number_first _ _ _ _ Hmap). apply agrees_number, (agrees_client p0 [a]); [done|].
    intros off p1 Ec Hp1 Hr1. apply opened; (done || congruence).
  - unfold close_i. rewrite (number_first _ _ _ _ Hmap). apply agrees_number, (closed Hcode F_close); (done || congruence).
  - unfold read_i. rewrite (mapped_first _ _ _ _ Hmap). by apply been_read.
  - unfold read64_i. rewrite (mapped_first _ _ _ _ Hmap). by apply (real_after_get Hcode F_read64).
  - unfold pread_i. rewrite (mapped_first _ _ _ _ Hmap). by apply been_read_at.
  - unfold readv_i. rewrite (mapped_first _ _ _ _ Hmap). by apply (real_after_get Hcode F_readv a).
  - unfold write_i. rewrite (number_first _ _ _ _ Hmap).
    by apply agrees_number, (agrees_number_of Hcode F_write a (A_data fd data)).
  - unfold lseek_i. rewrite (number_first _ _ _ _ Hmap). by apply agrees_number, (sought Hcode).
  - unfold lseek64_i. rewrite (number_first _ _ _ _ Hmap). by apply agrees_number, (sought Hcode).
Qed.

(** A sequence of calls. *)
Lemma calls_run (Hcode : loaded) l : forall p, mapped p ->
  (forall x se e, (x, se, e) ∈ l -> is_Some (dlsym (symbol (func_of x)))) ->
  match wrappers l (pc_client p) with
  | Ret (rs, fs) c => exists p' addresses, calls l p = Ret rs p' /\ mapped p' /\ pc_client p' = c /\
      called p' = called p ++ addresses /\ (fun f => dlsym (symbol f)) <$> fs = Some <$> addresses
  | Dies w c => exists p', calls l p = Dies w p' /\ pc_client p' = c
  | Blocked c => exists p', calls l p = Blocked p' /\ pc_client p' = c
  end.
Proof.
  induction l as [|[[x se] e] l IH]; intros p Hp Hl; cbn [wrappers calls].
  { exists p, []. rewrite app_nil_r. by split_and!. }
  destruct (Hl x se e) as [a Ha]; [by left|]. pose proof (intercepted_run Hcode x se e a p Hp Ha) as Hx.
  mred. mred_in Hx. destruct (wrapper x se e (pc_client p)) as [r c|w c|c];
    [|by destruct Hx as (p' & -> & ?); exists p'..].
  destruct Hx as (p1 & -> & Hp1 & <- & Hc1).
  specialize (IH p1 Hp1 ltac:(intros; eapply Hl; by right)). mred_in IH.
  destruct (wrappers l (pc_client p1)) as [[rs fs] c|w c|c]; [|by destruct IH as (p' & -> & ?); exists p'..].
  destruct IH as (p2 & l2 & -> & Hp2 & Hc2 & Hl2 & Hf2). cbn [fst snd].
  exists p2, ((if reaches x e (pc_client p) then [a] else []) ++ l2). rewrite Hl2, Hc1, <- app_assoc.
  split_and!; [done..|]. rewrite !fmap_app, Hf2. f_equal. case_match; [|done]. cbn. by rewrite Ha.
Qed.

End Map.

End Interpose.
Import Interpose.

(** C34: the interception is transparent for the library and reaches the right
    function.  Let the C library's functions stand where [dlsym] finds them, and
    let it have those that the application calls.  Then any sequence of
    intercepted calls, from the start, does with the pointers what the wrappers
    do without them, with the same results, the same state of the library and
    the same end if they end; each symbol is looked up at most once; and the
    addresses called are those of the calls' own functions, in their order, one
    for each call but those that are answered remotely ([reaches]): a [read] or
    [pread] that the server answered and a seek in a tracked file.  The first
    call of a function that the C library lacks ends the process with status 1,
    before anything is called. *)
Theorem calls_reach_libc hash dlsym code l c :
  loaded dlsym code -> (forall x se e, (x, se, e) ∈ l -> is_Some (dlsym (symbol (func_of x)))) ->
  match wrappers hash l c with
  | Ret (rs, fs) c' => exists p, calls hash dlsym code l (unmapped c) = Ret rs p /\ pc_client p = c' /\
      NoDup (lookups p) /\ (fun f => dlsym (symbol f)) <$> fs = Some <$> called p /\
      forall x se e, dlsym (symbol (func_of x)) = None ->
        exists p', intercepted hash dlsym code x se e p = Dies (Exited 1) p' /\ called p' = called p
  | Dies w c' => exists p, calls hash dlsym code l (unmapped c) = Dies w p /\ pc_client p = c'
  | Blocked c' => exists p, calls hash dlsym code l (unmapped c) = Blocked p /\ pc_client p = c'
  end.
Proof.
  intros Hcode Hl. pose proof (calls_run hash dlsym code Hcode l (unmapped c) (unmapped_mapped dlsym c) Hl) as H.
  change (pc_client (unmapped c)) with c in H. destruct (wrappers hash l c) as [[rs fs] c'|w c'|c']; [|exact H..].
  destruct H as (p & addresses & Hr & Hp & Hc & Ha & Hf). cbn in Ha. subst addresses.
  exists p. split_and!; [done..|by apply Hp|done|]. intros x se e Hn. by apply intercepted_fails.
Qed.

(** ** A C library without [read64], like the GNU one *)

Module InterposeExample.
Import ClientProps.ClientExample.

Definition functions : list func :=
  [F_fopen; F_fopen64; F_pread; F_readv; F_write; F_open; F_open64; F_read; F_close; F_lseek; F_lseek64].
Definition dlsym0 (s : string) : option Z :=
  (fun x : nat * func => Z.of_nat x.1) <$> list_find (fun f => symbol f = s) functions.
Definition code0 (a : Z) : option func := functions !! Z.to_nat a.

Lemma loaded0 : loaded dlsym0 code0.
Proof. intros f a H. destruct f; vm_compute in H; try done; injection H as <-; reflexivity. Qed.

(** A write, a read that the server answers and one that it does not. *)
Definition buf2 : list byte := [Byte.x00; Byte.x00].
Definition calls0 : list (icall * self_env * cl_env) :=
  [(I_write 1 [Byte.x41], mk_self addr_s true, env []);
   (I_pread 3 2 1 buf2, mk_self addr_s true, env good_wakes);
   (I_pread 3 2 1 buf2, mk_self addr_s true, env dead_wakes)].

Lemma calls0_there x se e : (x, se, e) ∈ calls0 -> is_Some (dlsym0 (symbol (func_of x))).
Proof.
  intros H. repeat (apply elem_of_cons in H as [[= -> -> ->]|H]; [vm_compute; by eexists|]).
  by apply not_elem_of_nil in H.
Qed.

End InterposeExample.
Import ClientProps.ClientExample InterposeExample.

Lemma calls_reach_libc_witness :
  exists p, calls hash0 dlsym0 code0 calls0 (unmapped (cl 0)) =
      Ret [(1, []); (2, [Byte.x42; Byte.x43]); (2, [Byte.x42; Byte.x43])] p /\
    called p = [4; 2] /\
    exists p', intercepted hash0 dlsym0 code0 (I_read64 3 2 buf2) (mk_self addr_s true) (env []) p =
      Dies (Exited 1) p'.
Proof.
  pose proof (calls_reach_libc hash0 dlsym0 code0 calls0 (cl 0) loaded0 calls0_there) as H.
  assert (E : exists c', wrappers hash0 calls0 (cl 0) =
      Ret ([(1, []); (2, [Byte.x42; Byte.x43]); (2, [Byte.x42; Byte.x43])], [F_write; F_pread]) c')
    by (vm_compute; by eexists).
  destruct E as [c' E]. rewrite E in H. destruct H as (p & Hr & _ & _ & Ha & Hn). exists p.
  split; [exact Hr|]. split.
  - destruct (called p) as [|a [|b [|]]]; vm_compute in Ha; try discriminate Ha. injection Ha as <- <-. reflexivity.
  - destruct (Hn (I_read64 3 2 buf2) (mk_self addr_s true) (env []) eq_refl) as (p' & Hp & _). by exists p'.
Defined.
